(* ===== verification/_CoqProject ===== *)
-Q . S2P
Prelude.v
Domain.v
Workflow.v
ReportPath.v
Filepath.v
Contract.v
PathPolicy.v
Projection.v
GoLib.v
Scrub.v
Redaction.v
Validator.v
Db.v
Tx.v
AuditLog.v
TaskStore.v
DbFacts.v
Lifecycle.v
DispatchStore.v
StopStore.v
RestoreStore.v
RecoveryStore.v
Clearance.v
Protocol.v
History.v
Invariants.v
Refinement.v
SagaRefinement.v
System.v
Atomicity.v
Sample.v
Uniqueness.v
WellTyped.v
Guarantees.v
GoErr.v
AoClient.v
AoRoutes.v
Agent.v
Intents.v
DispatchCoordinator.v
StopCoordinator.v
Recovery.v
Quiet.v
Avoids.v
Outcomes.v
Effects.v
Returns.v
HostAuthority.v
RunnerGate.v
Poller.v
PipeServer.v
PipeListener.v
Daemon.v
Health.v
Opening.v
PinnedDatabase.v
OwnerLease.v
