(* ===== verification/Prelude.v ===== *)
(** * ai-supervisor: a verification development for the supervisor control plane

    The supervisor (src/) drives coding workers through an external daemon, the
    "AO".  It persists everything it intends, does and observes in one SQLite
    database; coordinators make the external calls; a recovery scanner, a
    poller and a timeout monitor classify what a crash or a silence left
    behind; and a host process owns the database file, admits callers, serves a
    control pipe and shuts down in order.  This library models all of these
    parts and proves what makes them correct.

    ** The parts, and where they are modelled

    The data and its rules
    - [Domain]: the structs and enumerations of internal/domain.
    - [Workflow]: internal/workflow/state_machine.go, the task graph.
    - [ReportPath]: internal/store/report_path.go.
    - [Filepath], [Contract], [PathPolicy], [Projection], [Validator]:
      internal/contract and domain/verification_policy.go, from the JSON text of
      a task contract to its acceptance ([ValidateRaw]).
    - [GoLib], [Scrub], [Redaction]: internal/audit/scrubber.go; [Scrub] is the
      part the store runs, [Redaction] the whole of [ScrubValue].

    The store (internal/store)
    - [Db]: the version 5 schema of migrations.go; a table is a list of rows and
      a statement a function that evaluates triggers, CHECK, UNIQUE and FOREIGN
      KEY clauses.  [DbFacts] inverts the statements.
    - [Tx]: the monad of the store's operations: clock, entropy and the outcome
      of every statement come from an environment; transactions roll back.
    - [AuditLog] (audit_store.go), [TaskStore] (project, pair, task and contract
      stores), [Lifecycle] (session_lifecycle.go, provisioning_transactions.go),
      [DispatchStore] (dispatch.go, dispatch_transactions.go,
      atomic_transitions.go), [StopStore] (stop_transactions.go),
      [RestoreStore], [RecoveryStore], [Clearance]: one definition per
      operation, statement by statement.
    - [Opening]: store.go, config.go and the migration runner.

    The programs above the store
    - [GoErr], [AoClient], [AoRoutes]: internal/ao, the client of the daemon, the
      error values that cross the packages, and where the requests go.
    - [Agent]: programs as trees of calls, and worlds in which any number of
      them run interleaved over one store, with crashes.
    - [DispatchCoordinator] (internal/dispatch), [StopCoordinator]
      (internal/stop), [Recovery] (internal/recovery): every entry point.
    - [RunnerGate], [Poller]: the locks and cycles of internal/recovery as step
      relations.

    The process (internal/host, cmd/supervisor)
    - [HostAuthority]: permits, admission and the teardown.
    - [PipeServer], [PipeListener]: the handlers and the accept loop of the pipe.
    - [PinnedDatabase], [OwnerLease]: the handles on the database file and the
      owner lock of several processes, with the stop and status commands.
    - [Daemon]: [runDaemon] of cmd/supervisor/main.go; [Health]: its background
      goroutines, their failure and their end.

    ** What is proved

    The store has an abstract specification, [Protocol]: [proto] lists the
    changes one step may make.  [Refinement] and [SagaRefinement] show that
    every operation makes only such changes, on every branch and whatever the
    driver does; [Invariants], [History] and [WellTyped] derive from the
    protocol alone what holds of every reachable database and what no operation
    undoes, [Uniqueness] that its keys and unique indexes hold; [System] composes the operations into one state machine and
    [Guarantees] states the results for it: exclusive lanes, sticky
    quarantines, forward-only sagas, contiguous contract revisions, budgets,
    deadlines, a verifying audit log.  [Atomicity]: an operation that fails has
    changed nothing.  [AuditLog]: verification is exact, and a head determines
    its log or exhibits a hash collision.  [Sample] holds the concrete library
    and histories on which the witnesses evaluate.

    Above it, [Intents] and [Quiet] show that every acting call is made under an
    intent its program has just recorded, [Avoids] that a program makes no call
    but for the operation it was asked for, and [Effects] concludes, over all
    interleavings and crashes, that each external effect happens at most once
    and only on request (startup recovery, the poller and the operator paths
    never act on a worker), and that a nil error means the durable state it
    claims; [Outcomes] gives the postconditions used.  [Returns] shows that
    every entry point comes to an end.

    The contract files prove containment of working directories and scope
    patterns, exactness of numbers and the exact acceptance condition of the
    validator; [Redaction] that nothing under a sensitive key is written;
    [AoClient] that an answer matches its request, [AoRoutes] that every request
    reaches the route of exactly the identifier asked for; the process files the
    exclusivity of permits and leases, the order of startup and teardown, that a
    background failure is recorded and closes admission, the accounting of
    handles, migrations run once, and who can stop the daemon.

    ** Conventions and bounds

    A Go [int] or [int64] is a [Z]; where it can overflow the wrap-around is
    written ([wrap64]) and theorems about histories assume inputs in range
    ([op_int64]).  A [time.Time] is nanoseconds since year 1.  Loops are
    structural where Go ranges over a slice.  Fuel appears in two places, and is
    shown enough there: [withRetry] makes the twenty attempts of the code, and
    the coordinators take the fuel of the retry loop they contain.  Error
    messages are kept where a program looks into them (the words [withRetry]
    searches for, the sentinels [errors.Is] finds); formatted values are not.
    The text of a driver's error is the environment's ([env_text]).  A pointer
    that is compared is an [option nat] ([store_ptr]), one that is only tested
    for nil a [bool].
    The lexical path functions are those of a Unix build; the host files, which
    are built for Windows only, take the kernel as a class.

    Parameters, each with the laws the code relies on: regular expressions,
    JSON, SHA-256 ([GoLib]); HTTP transport, URL parsing ([NetLib]); the JSON
    schema library ([JSONSchema], [GoDecoder]); the file system ([OS]); the
    Windows kernel ([Kernel], [KernelLaws]).  No theorem depends on a particular
    instance; the instances here serve the witnesses.

    ** Not modelled

    - The DDL of schema versions 1 to 4 as such, and what the scripts do to rows
      written under them: [Db] is the schema all five leave, [Opening] that each
      runs once.
    - SQLite, the HTTP stack and the Windows calls themselves (third party).
    - Printing, flag parsing, log lines and the ready file's contents.
    - Struct copies between wire and domain types of the AO client that have no
      condition in them, and the types of internal/domain the program declares
      and never uses (evidence, review decisions).
    - The lock of one permit: [Release] reads the permit's flag and updates the
      authority in one step; see the comment there.
    - Real time: a deadline is compared with clock values an environment gives;
      nothing is proved about how long a wait lasts. *)

From Stdlib Require Export ZArith Lia Bool Ascii String.
From stdpp Require Export base list strings option.

#[export] Set Default Goal Selector "!".

(** ** Record update

    [r <| f := v |>] is the Go assignment [r.f = v] on a struct value.  A
    struct type declares its eta expansion once ([Settable]); the setter of
    a field is found by type class resolution. *)
Class Settable (T : Type) := eta_struct : T -> T.
Class FieldSetter {T A : Type} (proj : T -> A) := set_field : (A -> A) -> T -> T.
Arguments set_field {T A} proj {_} _ _ /.

Ltac find_field_setter proj :=
  match type of proj with
  | ?T -> ?A =>
      let inst := constr:(_ : Settable T) in
      let body := eval hnf in inst in
      let abs := eval pattern proj in body in
      match abs with
      | ?F _ => exact (fun (g : A -> A) (r : T) => F (fun r' : T => g (proj r')) r)
      end
  end.

#[export] Hint Extern 1 (FieldSetter ?proj) => find_field_setter proj : typeclass_instances.

Declare Scope struct_scope.
Delimit Scope struct_scope with struct.
Notation "r <| f := v |>" := (set_field f (fun _ => v) r)
  (at level 1, left associativity, f at level 99, v at level 99,
   format "r  <| f  :=  v |>") : struct_scope.
#[global] Open Scope struct_scope.


(** ** Boolean reflection *)

Create HintDb store.
Create HintDb tbl.

(** [a == b]: Go's [==] on a type with decidable equality. *)
Definition eqb {A} `{EqDecision A} (x y : A) : bool := bool_decide (x = y).
Notation "x == y" := (eqb x y) (at level 70, no associativity) : struct_scope.
Notation "x != y" := (negb (eqb x y)) (at level 70, no associativity) : struct_scope.

Lemma eqb_true {A} `{EqDecision A} (x y : A) : (x == y) = true <-> x = y.
Proof. apply bool_decide_eq_true. Qed.
Lemma eqb_false {A} `{EqDecision A} (x y : A) : (x == y) = false <-> x <> y.
Proof. apply bool_decide_eq_false. Qed.
Lemma eqb_eq {A} `{EqDecision A} (x y : A) : (x == y) = true -> x = y.
Proof. apply eqb_true. Qed.
Lemma eqb_neq {A} `{EqDecision A} (x y : A) : (x == y) = false -> x <> y.
Proof. apply eqb_false. Qed.
Lemma eqb_refl {A} `{EqDecision A} (x : A) : (x == x) = true.
Proof. by apply eqb_true. Qed.

(** [breflect] turns the boolean guards of the code into propositions. *)
Ltac breflect :=
  repeat match goal with
  | H : (_ && _)%bool = true |- _ => apply andb_true_iff in H; destruct H
  | H : (_ || _)%bool = false |- _ => apply orb_false_iff in H; destruct H
  | H : negb _ = true |- _ => apply negb_true_iff in H
  | H : negb _ = false |- _ => apply negb_false_iff in H
  | H : (_ == _) = true |- _ => apply eqb_eq in H
  | H : (_ == _) = false |- _ => apply eqb_neq in H
  | H : bool_decide _ = true |- _ => apply bool_decide_eq_true in H
  | H : bool_decide _ = false |- _ => apply bool_decide_eq_false in H
  | H : (_ <? _)%Z = true |- _ => apply Z.ltb_lt in H
  | H : (_ <? _)%Z = false |- _ => apply Z.ltb_ge in H
  | H : (_ <=? _)%Z = true |- _ => apply Z.leb_le in H
  | H : (_ <=? _)%Z = false |- _ => apply Z.leb_gt in H
  | H : (_ =? _)%Z = true |- _ => apply Z.eqb_eq in H
  | H : (_ =? _)%Z = false |- _ => apply Z.eqb_neq in H
  | H : (_ =? _)%string = true |- _ => apply String.eqb_eq in H
  | H : (_ =? _)%string = false |- _ => apply String.eqb_neq in H
  | H : (_ =? _)%nat = true |- _ => apply Nat.eqb_eq in H
  | H : (_ =? _)%nat = false |- _ => apply Nat.eqb_neq in H
  end.

(** ** Machine integers: Go's [int] and [int64] *)

Definition max_int64 : Z := 9223372036854775807.
Definition min_int64 : Z := -9223372036854775808.
Definition is_int64 (z : Z) : Prop := (min_int64 <= z <= max_int64)%Z.
(** Two's complement wrap-around. *)
Definition wrap64 (z : Z) : Z := ((z + 2 ^ 63) mod 2 ^ 64 - 2 ^ 63)%Z.

Lemma wrap64_range z : is_int64 (wrap64 z).
Proof.
  unfold is_int64, wrap64, min_int64, max_int64.
  pose proof (Z.mod_pos_bound (z + 2 ^ 63) (2 ^ 64) ltac:(lia)). lia.
Qed.

Lemma wrap64_id z : is_int64 z -> wrap64 z = z.
Proof.
  unfold is_int64, wrap64, min_int64, max_int64. intros H.
  rewrite Z.mod_small; lia.
Qed.

Lemma wrap64_succ_pos z : is_int64 z -> (0 < wrap64 (z + 1))%Z -> wrap64 (z + 1) = (z + 1)%Z.
Proof.
  intros Hz Hp. destruct (Z.eq_dec z max_int64) as [->|Hne]; [by vm_compute in Hp|].
  apply wrap64_id. unfold is_int64, max_int64 in *. lia.
Qed.

(** ** Strings of bytes, as Go's package strings treats them *)

Definition byte_of (c : ascii) : N := N_of_ascii c.

(** [strings.TrimSpace]: the white space of [unicode.IsSpace], recognised by
    its UTF-8 encoding (one, two or three bytes). *)
Definition space1 (a : ascii) : bool :=
  let n := byte_of a in ((9 <=? n) && (n <=? 13))%N || (n =? 32)%N.
Definition space2 (a b : ascii) : bool :=
  (byte_of a =? 194)%N && ((byte_of b =? 133)%N || (byte_of b =? 160)%N).
Definition space3 (a b c : ascii) : bool :=
  let x := byte_of a in let y := byte_of b in let z := byte_of c in
  ((x =? 225) && (y =? 154) && (z =? 128))%N
  || ((x =? 226) && (y =? 128) && (((128 <=? z) && (z <=? 138)) || (z =? 168) || (z =? 169) || (z =? 175)))%N
  || ((x =? 226) && (y =? 129) && (z =? 159))%N
  || ((x =? 227) && (y =? 128) && (z =? 128))%N.

Fixpoint trim_with (s2 : ascii -> ascii -> bool) (s3 : ascii -> ascii -> ascii -> bool)
    (l : list ascii) : list ascii :=
  match l with
  | [] => []
  | a :: t =>
      if space1 a then trim_with s2 s3 t
      else match t with
           | [] => l
           | b :: t' =>
               if s2 a b then trim_with s2 s3 t'
               else match t' with
                    | [] => l
                    | c :: t'' => if s3 a b c then trim_with s2 s3 t'' else l
                    end
           end
  end.

Definition TrimSpace (s : string) : string :=
  let l := trim_with space2 space3 (list_ascii_of_string s) in
  let r := trim_with (fun a b => space2 b a) (fun a b c => space3 c b a) (rev l) in
  string_of_list_ascii (rev r).

(** [strings.TrimSpace(s) == ""] *)
Definition blank (s : string) : bool := TrimSpace s == "".

Definition HasPrefix (s p : string) : bool := String.prefix p s.
Lemma HasPrefix_byte c a s : HasPrefix (String a s) (String c "") = (c =? a)%char.
Proof.
  unfold HasPrefix. cbn. destruct (ascii_dec c a) as [->|Hne].
  - rewrite Ascii.eqb_refl. by destruct s.
  - symmetry. by apply Ascii.eqb_neq.
Qed.
Fixpoint HasSuffix (s p : string) : bool :=
  (s == p) || match s with EmptyString => false | String _ t => HasSuffix t p end.
Fixpoint Contains (s p : string) : bool :=
  String.prefix p s || match s with EmptyString => false | String _ t => Contains t p end.

(** [strings.Split(s, c)] and [strings.ReplaceAll] for one-byte arguments. *)
Fixpoint SplitByte (c : ascii) (s : string) : list string :=
  match s with
  | EmptyString => [EmptyString]
  | String a t =>
      if (a =? c)%char then EmptyString :: SplitByte c t
      else match SplitByte c t with
           | [] => [String a EmptyString]
           | h :: r => String a h :: r
           end
  end.
Fixpoint ReplaceByte (x y : ascii) (s : string) : string :=
  match s with
  | EmptyString => EmptyString
  | String a t => String (if (a =? x)%char then y else a) (ReplaceByte x y t)
  end.

(** [s[:i]] for the first index [i] of byte [c], [s] when there is none. *)
Fixpoint before_byte (c : ascii) (s : string) : string :=
  match s with
  | EmptyString => EmptyString
  | String a t => if (a =? c)%char then EmptyString else String a (before_byte c t)
  end.

Definition upper_byte (a : ascii) : ascii :=
  let n := byte_of a in
  if ((97 <=? n) && (n <=? 122))%N then ascii_of_N (n - 32) else a.
Fixpoint ToUpperASCII (s : string) : string :=
  match s with
  | EmptyString => EmptyString
  | String a t => String (upper_byte a) (ToUpperASCII t)
  end.

(** [strings.ToLower], exact on the question whether the result contains a
    given ASCII text: besides A-Z the runes with an ASCII lower case are
    U+212A (to k) and U+0130 (to i); other bytes are kept. *)
Definition lower_byte (a : ascii) : ascii :=
  let n := byte_of a in
  if ((65 <=? n) && (n <=? 90))%N then ascii_of_N (n + 32) else a.
Fixpoint ToLower (s : string) : string :=
  match s with
  | EmptyString => EmptyString
  | String a t =>
      if (byte_of a =? 226)%N then
        match t with
        | String b (String c u) =>
            if ((byte_of b =? 132) && (byte_of c =? 170))%N then String "k" (ToLower u)
            else String a (ToLower t)
        | _ => String a (ToLower t)
        end
      else if (byte_of a =? 196)%N then
        match t with
        | String b u => if (byte_of b =? 176)%N then String "i" (ToLower u) else String a (ToLower t)
        | EmptyString => String a EmptyString
        end
      else String (lower_byte a) (ToLower t)
  end.

Fixpoint all_bytes (p : ascii -> bool) (s : string) : bool :=
  match s with
  | EmptyString => true
  | String a t => p a && all_bytes p t
  end.

(** stdpp keeps [String.append] from reducing: its equations. *)
Lemma append_cons a s t : (String a s ++ t)%string = String a (s ++ t)%string.
Proof. reflexivity. Qed.
Lemma append_nil t : ("" ++ t)%string = t.
Proof. reflexivity. Qed.

Lemma append_assoc a b c : ((a ++ b) ++ c)%string = (a ++ (b ++ c))%string.
Proof. induction a as [|x a IH]; [done|]. by rewrite !append_cons, IH. Qed.

Lemma append_cancel a x y : (a ++ x)%string = (a ++ y)%string -> x = y.
Proof. induction a as [|c a IH]; [done|]. intros [=]. auto. Qed.
Lemma append_inj_length a b x y :
  String.length a = String.length b -> (a ++ x = b ++ y)%string -> a = b /\ x = y.
Proof.
  revert b. induction a as [|c a IH]; intros [|c' b]; cbn [String.length]; intros Hl; try discriminate.
  - rewrite !append_nil. done.
  - rewrite !append_cons. intros [= -> H]. injection Hl as Hl. destruct (IH b Hl H) as [-> ->]. done.
Qed.

Definition in_list {A} `{EqDecision A} (x : A) (l : list A) : bool := existsb (eqb x) l.

Lemma in_list_true {A} `{EqDecision A} (x : A) (l : list A) : in_list x l = true <-> In x l.
Proof.
  unfold in_list. rewrite existsb_exists. split.
  - intros (y & Hy & E). apply eqb_eq in E. by subst.
  - intros Hx. exists x. split; [done | apply eqb_refl].
Qed.

(** ** ORDER BY: stable insertion sort *)
Section Sort.
Context {R : Type} (le : R -> R -> bool).
Fixpoint insert_by (r : R) (l : list R) : list R :=
  match l with
  | [] => [r]
  | x :: t => if le r x then r :: l else x :: insert_by r t
  end.
Definition sort_by (l : list R) : list R := fold_right insert_by [] l.

Definition head_le (r : R) (l : list R) : bool :=
  match l with [] => true | x :: _ => le r x end.
Fixpoint ordered (l : list R) : bool :=
  match l with [] => true | x :: t => head_le x t && ordered t end.

Lemma sort_by_ordered l : ordered l = true -> sort_by l = l.
Proof.
  induction l as [|x l IH]; [done|]. cbn [ordered]. intros [Hh Ho]%andb_true_iff.
  change (sort_by (x :: l)) with (insert_by x (sort_by l)).
  rewrite IH by done. destruct l as [|y l]; cbn in *; [done|]. by rewrite Hh.
Qed.

Lemma sort_by_length l : length (sort_by l) = length l.
Proof.
  assert (forall r l, length (insert_by r l) = S (length l)) as Hi.
  { intros r l'. induction l' as [|x l' IH]; [done|]. cbn. case_match; [done|]. cbn. by rewrite IH. }
  induction l as [|x l IH]; [done|].
  change (sort_by (x :: l)) with (insert_by x (sort_by l)). by rewrite Hi, IH.
Qed.

Lemma insert_by_forall (P : R -> Prop) r l : P r -> Forall P l -> Forall P (insert_by r l).
Proof.
  intros Hr Hl. induction Hl as [|x l Hx Hl IH]; cbn; [by repeat constructor|].
  case_match; repeat constructor; done.
Qed.
Lemma sort_by_forall (P : R -> Prop) l : Forall P l -> Forall P (sort_by l).
Proof.
  induction 1 as [|x l Hx _ IH]; [constructor|].
  change (sort_by (x :: l)) with (insert_by x (sort_by l)). by apply insert_by_forall.
Qed.
Lemma sort_by_in x l : In x (sort_by l) -> In x l.
Proof.
  intros H. assert (Forall (fun y => In y l) (sort_by l)) as Hf.
  { apply sort_by_forall. apply List.Forall_forall. auto. }
  by apply (proj1 (List.Forall_forall _ _) Hf).
Qed.
End Sort.

(** ** SQL tables: lists of rows in rowid order

    [UPDATE t SET f WHERE p] is [upd p f], the affected-row count is
    [affected p], [EXISTS(SELECT 1 ... WHERE p)] is [existsb p] and the first
    row a [SELECT ... WHERE p] scans is [find p]. *)
Section Tables.
Context {R : Type}.
Implicit Types (p : R -> bool) (f : R -> R) (l : list R).

Definition upd p f l : list R := map (fun r => if p r then f r else r) l.
Definition select p l : list R := List.filter p l.
Definition affected p l : nat := length (select p l).

Lemma in_upd p f l r' :
  In r' (upd p f l) <-> exists r, In r l /\ r' = if p r then f r else r.
Proof.
  unfold upd. rewrite in_map_iff.
  split; intros (r & H1 & H2); exists r; split; (congruence || done).
Qed.

Lemma upd_map {K} (key : R -> K) p f l :
  (forall r, In r l -> p r = true -> key (f r) = key r) -> map key (upd p f l) = map key l.
Proof.
  intros Hk. unfold upd. rewrite map_map. apply map_ext_in. intros r Hin.
  destruct (p r) eqn:E; auto.
Qed.

Lemma upd_none p f l : affected p l = 0 -> upd p f l = l.
Proof.
  unfold affected, select, upd. induction l as [|r l IH]; cbn; [done|].
  destruct (p r); cbn; [lia|]. intros H. by rewrite IH.
Qed.

Lemma affected_pos p l : affected p l <> 0 -> exists r, In r l /\ p r = true.
Proof.
  unfold affected, select. intros H. destruct (List.filter p l) as [|r t] eqn:E; [done|].
  exists r. apply filter_In. rewrite E. by left.
Qed.

Lemma in_affected p l r : In r l -> p r = true -> affected p l <> 0.
Proof.
  unfold affected, select. intros Hin Hp.
  assert (In r (List.filter p l)) as Hf by (by apply filter_In).
  by destruct (List.filter p l).
Qed.

Lemma find_spec p l r : find p l = Some r -> In r l /\ p r = true.
Proof. apply find_some. Qed.

Lemma existsb_false_in p l r : existsb p l = false -> In r l -> p r = false.
Proof.
  intros He Hin. destruct (p r) eqn:E; [|done].
  assert (existsb p l = true) by (apply existsb_exists; eauto). congruence.
Qed.

Lemma existsb_upd_false p f l (q : R -> bool) :
  existsb q l = false -> (forall r, p r = true -> q (f r) = false) ->
  existsb q (upd p f l) = false.
Proof.
  intros Hq Hf. destruct (existsb q (upd p f l)) eqn:E; [|done].
  apply existsb_exists in E as (r' & Hin & Hr'). apply in_upd in Hin as (r & Hin & ->).
  pose proof (existsb_false_in q l r Hq Hin). destruct (p r) eqn:Ep.
  - rewrite Hf in Hr'; done.
  - congruence.
Qed.

Section Keyed.
Context {K : Type} (key : R -> K).

Lemma nodup_key_eq l r1 r2 :
  List.NoDup (map key l) -> In r1 l -> In r2 l -> key r1 = key r2 -> r1 = r2.
Proof.
  induction l as [|r l IH]; cbn; [done|].
  rewrite NoDup_cons_iff. intros [Hnin Hnd] [->|H1] [->|H2] Hk; auto.
  - exfalso. apply Hnin. rewrite Hk. by apply in_map.
  - exfalso. apply Hnin. rewrite <- Hk. by apply in_map.
Qed.

Lemma nodup_key_snoc l r :
  List.NoDup (map key l) -> (forall x, In x l -> key x <> key r) ->
  List.NoDup (map key (l ++ [r])).
Proof.
  intros Hnd Hx. rewrite map_app. apply NoDup_app; cbn; auto.
  - repeat constructor. auto.
  - intros k Hk [<-|[]]. apply in_map_iff in Hk as (x & Hkx & Hin). by apply (Hx x).
Qed.
End Keyed.
End Tables.
#[export] Hint Resolve in_eq in_cons : tbl.
