(* ===== verification/Domain.v ===== *)
(** * Domain: the data of internal/domain

    The string enumerations of session_lifecycle.go and task_state.go as
    inductive types (a constructor [...Other] carries any string that is not
    one of the declared constants, for the types whose values reach the store
    from a caller), the structs as records.  Timestamps ([time.Time]) are
    nanoseconds since the zero time of Go, 0001-01-01 00:00:00 UTC, so
    [IsZero] is [= 0]; [formatTime]/[parseTime] of the store are a round trip
    on them and columns hold the instant itself.  Slices and maps that can be
    nil are options. *)

From S2P Require Import Prelude.

(** ** Enumerations *)

Inductive TaskState : Type :=
| StateDraft | StateReady | StateDispatched | StateRunning | StateReportReady
| StateEvidenceReady | StateReviewing | StateApproved | StateRevisionRequired
| StateBlocked | StateFailed | StateHumanRequired | StateCancelled
| StateOther (raw : string).
#[export] Instance TaskState_eq_dec : EqDecision TaskState.
Proof. solve_decision. Defined.

Definition AllTaskStates : list TaskState :=
  [StateDraft; StateReady; StateDispatched; StateRunning; StateReportReady;
   StateEvidenceReady; StateReviewing; StateApproved; StateRevisionRequired;
   StateBlocked; StateFailed; StateHumanRequired; StateCancelled].

(** The Go string of a state. *)
Definition TaskState_string (s : TaskState) : string :=
  match s with
  | StateDraft => "DRAFT" | StateReady => "READY" | StateDispatched => "DISPATCHED"
  | StateRunning => "RUNNING" | StateReportReady => "REPORT_READY"
  | StateEvidenceReady => "EVIDENCE_READY" | StateReviewing => "REVIEWING"
  | StateApproved => "APPROVED" | StateRevisionRequired => "REVISION_REQUIRED"
  | StateBlocked => "BLOCKED" | StateFailed => "FAILED"
  | StateHumanRequired => "HUMAN_REQUIRED" | StateCancelled => "CANCELLED"
  | StateOther raw => raw
  end.

Definition IsValid (s : TaskState) : bool :=
  match s with StateOther _ => false | _ => true end.

Definition IsTerminal (s : TaskState) : bool := (s == StateApproved) || (s == StateCancelled).

Inductive WorkerSessionStatus : Type :=
| WorkerSessionActive | WorkerSessionIdle | WorkerSessionTerminated | WorkerSessionOther (raw : string).
#[export] Instance WorkerSessionStatus_eq_dec : EqDecision WorkerSessionStatus.
Proof. solve_decision. Defined.

Inductive QuarantineState : Type :=
| QuarantineClean | QuarantineQuarantined | QuarantineOther (raw : string).
#[export] Instance QuarantineState_eq_dec : EqDecision QuarantineState.
Proof. solve_decision. Defined.

Inductive PairProvisioningStage : Type :=
| ProvisionRequested | ProvisionConfirmed | ProvisionFailed | ProvisionResolved.
#[export] Instance PairProvisioningStage_eq_dec : EqDecision PairProvisioningStage.
Proof. solve_decision. Defined.

Inductive DispatchStage : Type := DispatchBound | SendRequested | SendConfirmed.
#[export] Instance DispatchStage_eq_dec : EqDecision DispatchStage.
Proof. solve_decision. Defined.

Inductive StopPurpose : Type :=
| RunningAttemptStop | QuarantineCleanup | PairMaintenance | StopPurposeOther (raw : string).
#[export] Instance StopPurpose_eq_dec : EqDecision StopPurpose.
Proof. solve_decision. Defined.

Inductive StopStage : Type :=
| StopRequested | StopCallSucceeded | StopCallFailed | StopTerminationConfirmed
| StopTargetAbsent | StopStageOther (raw : string).
#[export] Instance StopStage_eq_dec : EqDecision StopStage.
Proof. solve_decision. Defined.

Inductive StopResolutionState : Type :=
| StopResolutionInFlight | StopResolutionTerminationConfirmed | StopResolutionTargetAbsent
| StopResolutionConfirmationTimeout | StopResolutionGenerationMismatch
| StopResolutionEffectUnprovenAlreadyTerminated | StopResolutionReissueRequiresHuman
| StopResolutionCallFailed | StopResolutionCallOutcomeUnknown
| StopResolutionAdministrativeRiskAccepted | StopResolutionOther (raw : string).
#[export] Instance StopResolutionState_eq_dec : EqDecision StopResolutionState.
Proof. solve_decision. Defined.

Inductive RestoreStage : Type := RestoreRequestedStage | RestoreConfirmedStage.
#[export] Instance RestoreStage_eq_dec : EqDecision RestoreStage.
Proof. solve_decision. Defined.

Inductive RestoreResolutionState : Type :=
| RestoreInFlight | RestoreOutcomeUnknown | RestoreRecoveryClaimed | RestoreCleanupClaimed
| RestoreResolved.
#[export] Instance RestoreResolutionState_eq_dec : EqDecision RestoreResolutionState.
Proof. solve_decision. Defined.

Inductive RestoreResolutionBasis : Type :=
| RestoreHTTP200Confirmed | PhysicalExecutionResolution | AdministrativeRiskResolution
| RestoreBasisOther (raw : string).
#[export] Instance RestoreResolutionBasis_eq_dec : EqDecision RestoreResolutionBasis.
Proof. solve_decision. Defined.

Definition StopStage_string (s : StopStage) : string :=
  match s with
  | StopRequested => "STOP_REQUESTED" | StopCallSucceeded => "STOP_CALL_SUCCEEDED"
  | StopCallFailed => "STOP_CALL_FAILED" | StopTerminationConfirmed => "STOP_TERMINATION_CONFIRMED"
  | StopTargetAbsent => "STOP_TARGET_ABSENT" | StopStageOther raw => raw
  end.
Definition StopPurpose_string (p : StopPurpose) : string :=
  match p with
  | RunningAttemptStop => "RUNNING_ATTEMPT_STOP" | QuarantineCleanup => "QUARANTINE_CLEANUP"
  | PairMaintenance => "PAIR_MAINTENANCE" | StopPurposeOther raw => raw
  end.
Definition StopResolutionState_string (r : StopResolutionState) : string :=
  match r with
  | StopResolutionInFlight => "IN_FLIGHT"
  | StopResolutionTerminationConfirmed => "TERMINATION_CONFIRMED"
  | StopResolutionTargetAbsent => "STOP_TARGET_ABSENT"
  | StopResolutionConfirmationTimeout => "STOP_CONFIRMATION_TIMEOUT"
  | StopResolutionGenerationMismatch => "STOP_GENERATION_MISMATCH"
  | StopResolutionEffectUnprovenAlreadyTerminated => "STOP_EFFECT_UNPROVEN_TARGET_ALREADY_TERMINATED"
  | StopResolutionReissueRequiresHuman => "STOP_REISSUE_REQUIRES_HUMAN"
  | StopResolutionCallFailed => "STOP_CALL_FAILED"
  | StopResolutionCallOutcomeUnknown => "STOP_CALL_OUTCOME_UNKNOWN"
  | StopResolutionAdministrativeRiskAccepted => "ADMINISTRATIVE_RISK_ACCEPTED"
  | StopResolutionOther raw => raw
  end.
Definition DispatchStage_string (s : DispatchStage) : string :=
  match s with
  | DispatchBound => "DISPATCH_BOUND" | SendRequested => "SEND_REQUESTED"
  | SendConfirmed => "SEND_CONFIRMED"
  end.
Definition RestoreResolutionBasis_string (b : RestoreResolutionBasis) : string :=
  match b with
  | RestoreHTTP200Confirmed => "RESTORE_HTTP_200_CONFIRMED"
  | PhysicalExecutionResolution => "PHYSICAL_EXECUTION_RESOLUTION"
  | AdministrativeRiskResolution => "ADMINISTRATIVE_RISK_RESOLUTION"
  | RestoreBasisOther raw => raw
  end.

(** ** Audit event types (the [Audit...] and [Recovery...] constants) *)

Definition AuditPairSessionProvisionRequested := "PAIR_SESSION_PROVISION_REQUESTED"%string.
Definition AuditPairSessionProvisioned := "PAIR_SESSION_PROVISIONED"%string.
Definition AuditPairSessionProvisionFailed := "PAIR_SESSION_PROVISION_FAILED"%string.
Definition RecoveryAOBlockedEscalated := "AO_BLOCKED_ESCALATED"%string.
Definition AuditTaskDispatchBound := "TASK_DISPATCH_BOUND"%string.
Definition AuditDispatchSendRequested := "DISPATCH_SEND_REQUESTED"%string.
Definition AuditDispatchSendConfirmed := "DISPATCH_SEND_CONFIRMED"%string.
Definition AuditUncertainDeliveryQuarantine := "UNCERTAIN_DELIVERY_QUARANTINE_IMPOSED"%string.
Definition AuditTaskStateTransition := "TASK_STATE_TRANSITION"%string.
Definition AuditWorkerBlockedEscalated := "WORKER_BLOCKED_ESCALATED"%string.
Definition AuditPairRestoreRiskAccepted := "PAIR_RESTORE_RISK_ACCEPTED"%string.
Definition AuditPairRestoreRequested := "PAIR_RESTORE_REQUESTED"%string.
Definition AuditPairRestoreConfirmed := "PAIR_RESTORE_CONFIRMED"%string.
Definition AuditPairRestoreOutcomeUnknown := "PAIR_RESTORE_OUTCOME_UNKNOWN"%string.
Definition AuditPairRestoreRecoveryClaimed := "PAIR_RESTORE_RECOVERY_CLAIMED"%string.
Definition AuditPairRestoreCleanupClaimed := "PAIR_RESTORE_CLEANUP_CLAIMED"%string.
Definition AuditPairRestoreResolved := "PAIR_RESTORE_RESOLVED"%string.
Definition AuditPreSendStatusRecovered := "PRE_SEND_STATUS_RECOVERED"%string.
Definition AuditPreSendAdmissibilityRejected := "PRE_SEND_ADMISSIBILITY_REJECTED"%string.
Definition RecoveryDeliveryOutcomeUnknown := "DELIVERY_OUTCOME_UNKNOWN"%string.
Definition RecoveryUncertainDeliveryCrash := "UNCERTAIN_DELIVERY_CRASH"%string.
Definition AuditStopOperationRequested := "STOP_OPERATION_REQUESTED"%string.
Definition AuditStopOperationCallSucceeded := "STOP_OPERATION_CALL_SUCCEEDED"%string.
Definition AuditStopOperationCallFailed := "STOP_OPERATION_CALL_FAILED"%string.
Definition AuditStopOperationCallOutcomeUnknown := "STOP_OPERATION_CALL_OUTCOME_UNKNOWN"%string.
Definition AuditStopOperationConfirmed := "STOP_OPERATION_CONFIRMED"%string.
Definition AuditStopOperationTargetAbsent := "STOP_OPERATION_TARGET_ABSENT"%string.
Definition AuditStopConfirmationTimeout := "STOP_CONFIRMATION_TIMEOUT"%string.
Definition AuditStopOperationResolved := "STOP_OPERATION_RESOLVED"%string.
Definition AuditAdministrativeRiskAccepted := "ADMINISTRATIVE_RISK_ACCEPTED"%string.
Definition AuditQuarantineResolvedPhysical := "QUARANTINE_RESOLVED_PHYSICAL"%string.
Definition AuditQuarantineResolvedAdministrative := "QUARANTINE_RESOLVED_ADMINISTRATIVE"%string.
Definition AuditExecutionBudgetLegacyBound := "EXECUTION_BUDGET_LEGACY_BOUND"%string.

(** ** Structs *)

(** A JSON-like Go value ([any]); objects are association lists sorted by key. *)
Inductive value : Type :=
| VNull
| VBool (b : bool)
| VInt (n : Z)
| VNum (token : string)
| VStr (s : string)
| VList (l : list value)
| VMap (m : list (string * value)).

#[export] Instance value_eq_dec : EqDecision value.
Proof.
  unfold EqDecision. fix IH 1. intros x y.
  assert (EqDecision (list value)) as Hl.
  { intros l1. induction l1 as [|a l1 IHl]; intros [|b l2]; try (by left); try (by right).
    destruct (IH a b) as [->|]; [|right; congruence].
    destruct (IHl l2) as [->|]; [by left | right; congruence]. }
  assert (EqDecision (list (string * value))) as Hm.
  { intros l1. induction l1 as [|[k a] l1 IHl]; intros [|[k' b] l2]; try (by left); try (by right).
    destruct (decide (k = k')) as [->|]; [|right; congruence].
    destruct (IH a b) as [->|]; [|right; congruence].
    destruct (IHl l2) as [->|]; [by left | right; congruence]. }
  destruct x as [|b|z|t|t|l|m], y as [|b'|z'|t'|t'|l'|m']; try (by right).
  all: clear IH.
  - by left.
  - destruct (decide (b = b')) as [->|]; [by left | right; congruence].
  - destruct (decide (z = z')) as [->|]; [by left | right; congruence].
  - destruct (decide (t = t')) as [->|]; [by left | right; congruence].
  - destruct (decide (t = t')) as [->|]; [by left | right; congruence].
  - destruct (Hl l l') as [->|]; [by left | right; congruence].
  - destruct (Hm m m') as [->|]; [by left | right; congruence].
Defined.

Record Project := mkProject {
  pr_ProjectID : string; pr_Name : string; pr_RootPath : string;
  pr_RepoURL : string; pr_RegisteredAt : Z }.

Record Pair := mkPair {
  p_PairID : string; p_ProjectID : string; p_CurrentPhaseID : string;
  p_ActiveTaskID : string; p_State : string; p_CreatedAt : Z }.

Record Task := mkTask {
  t_TaskID : string; t_PhaseID : string; t_PairID : string; t_State : TaskState;
  t_CurrentAttempt : Z; t_CreatedAt : Z; t_UpdatedAt : Z }.
#[export] Instance Task_settable : Settable Task := fun t =>
  mkTask (t_TaskID t) (t_PhaseID t) (t_PairID t) (t_State t) (t_CurrentAttempt t)
    (t_CreatedAt t) (t_UpdatedAt t).

Record VerificationRequest := mkVerificationRequest {
  vr_ID : string; vr_ProfileID : string; vr_Parameters : option (list (string * value));
  vr_Cwd : string; vr_TimeoutSeconds : Z }.

Record TaskContract := mkTaskContract {
  c_ContractID : string; c_TaskID : string; c_RevisionNumber : Z;
  c_SupersedesContractID : option string; c_PhaseID : string; c_Objective : string;
  c_Requirements : option (list string); c_ArchitectureRefs : option (list string);
  c_BaseSHA : string; c_AllowedScope : option (list string);
  c_ForbiddenScope : option (list string); c_Constraints : option (list string);
  c_AcceptanceCriteria : option (list string);
  c_VerificationRequests : option (list VerificationRequest);
  c_RequiredEvidence : option (list string); c_WorkerProfile : string;
  c_ReportContract : string; c_StopConditions : option (list string);
  c_IsImmutable : bool }.
#[export] Instance VerificationRequest_eq_dec : EqDecision VerificationRequest.
Proof. solve_decision. Defined.
#[export] Instance TaskContract_eq_dec : EqDecision TaskContract.
Proof. solve_decision. Defined.
#[export] Instance TaskContract_settable : Settable TaskContract := fun c =>
  mkTaskContract (c_ContractID c) (c_TaskID c) (c_RevisionNumber c) (c_SupersedesContractID c)
    (c_PhaseID c) (c_Objective c) (c_Requirements c) (c_ArchitectureRefs c) (c_BaseSHA c)
    (c_AllowedScope c) (c_ForbiddenScope c) (c_Constraints c) (c_AcceptanceCriteria c)
    (c_VerificationRequests c) (c_RequiredEvidence c) (c_WorkerProfile c) (c_ReportContract c)
    (c_StopConditions c) (c_IsImmutable c).

Record TaskAttempt := mkTaskAttempt {
  a_AttemptID : string; a_AttemptNumber : Z; a_TaskID : string; a_ContractID : string;
  a_ExpectedReportPath : string; a_StartedAt : Z; a_EndedAt : option Z;
  a_WorkerReportRaw : string; a_SessionID : option string;
  a_TerminalGeneration : option string; a_RecoveryDisposition : option string;
  a_QuarantineState : QuarantineState }.
#[export] Instance TaskAttempt_settable : Settable TaskAttempt := fun a =>
  mkTaskAttempt (a_AttemptID a) (a_AttemptNumber a) (a_TaskID a) (a_ContractID a)
    (a_ExpectedReportPath a) (a_StartedAt a) (a_EndedAt a) (a_WorkerReportRaw a)
    (a_SessionID a) (a_TerminalGeneration a) (a_RecoveryDisposition a) (a_QuarantineState a).

Record AuditEvent := mkAuditEvent {
  ev_EventID : string; ev_EventType : string; ev_Timestamp : Z; ev_TaskID : string;
  ev_ContractID : string; ev_AttemptID : string; ev_PairID : string; ev_Actor : string;
  ev_Details : list (string * value) }.
#[export] Instance AuditEvent_settable : Settable AuditEvent := fun e =>
  mkAuditEvent (ev_EventID e) (ev_EventType e) (ev_Timestamp e) (ev_TaskID e)
    (ev_ContractID e) (ev_AttemptID e) (ev_PairID e) (ev_Actor e) (ev_Details e).

Record WorkerSession := mkWorkerSession {
  ws_PairID : string; ws_SessionID : string; ws_RuntimeType : string;
  ws_WorktreePath : option string; ws_WorkerAgentID : string;
  ws_Status : WorkerSessionStatus; ws_TerminalGeneration : string;
  ws_QuarantineState : QuarantineState; ws_CreatedAt : Z; ws_UpdatedAt : Z }.
#[export] Instance WorkerSession_settable : Settable WorkerSession := fun w =>
  mkWorkerSession (ws_PairID w) (ws_SessionID w) (ws_RuntimeType w) (ws_WorktreePath w)
    (ws_WorkerAgentID w) (ws_Status w) (ws_TerminalGeneration w) (ws_QuarantineState w)
    (ws_CreatedAt w) (ws_UpdatedAt w).

Record PairProvisioningOperation := mkPairProvisioningOperation {
  pp_OperationID : string; pp_PairID : string; pp_Stage : PairProvisioningStage;
  pp_ClientToken : string; pp_SessionID : option string; pp_RequestedAt : Z;
  pp_CompletedAt : option Z; pp_ResolvedAt : option Z; pp_ResolvedBy : option string;
  pp_ResolutionNotes : option string }.
#[export] Instance PairProvisioningOperation_settable : Settable PairProvisioningOperation := fun o =>
  mkPairProvisioningOperation (pp_OperationID o) (pp_PairID o) (pp_Stage o) (pp_ClientToken o)
    (pp_SessionID o) (pp_RequestedAt o) (pp_CompletedAt o) (pp_ResolvedAt o) (pp_ResolvedBy o)
    (pp_ResolutionNotes o).

Record DispatchOperation := mkDispatchOperation {
  d_OperationID : string; d_AttemptID : string; d_PairID : string; d_TaskID : string;
  d_SessionID : string; d_TerminalGeneration : string; d_Stage : DispatchStage;
  d_RequestedAt : Z; d_ConfirmedAt : option Z; d_ResolutionState : option string }.
#[export] Instance DispatchOperation_settable : Settable DispatchOperation := fun o =>
  mkDispatchOperation (d_OperationID o) (d_AttemptID o) (d_PairID o) (d_TaskID o)
    (d_SessionID o) (d_TerminalGeneration o) (d_Stage o) (d_RequestedAt o) (d_ConfirmedAt o)
    (d_ResolutionState o).

Record StopOperation := mkStopOperation {
  so_OperationID : string; so_Purpose : StopPurpose; so_PairID : string;
  so_TaskID : option string; so_ContractID : option string; so_AttemptID : option string;
  so_SessionID : string; so_TerminalGeneration : string; so_Stage : StopStage;
  so_Actor : string; so_RequestedAt : Z; so_CallCompletedAt : option Z;
  so_ConfirmationDeadlineAt : option Z; so_TerminationConfirmedAt : option Z;
  so_ResolvedAt : option Z; so_ResolutionState : StopResolutionState;
  so_RestoreOperationID : option string; so_RestorePrincipal : option string;
  so_InitiatingFailureReason : option string }.
#[export] Instance StopOperation_settable : Settable StopOperation := fun o =>
  mkStopOperation (so_OperationID o) (so_Purpose o) (so_PairID o) (so_TaskID o)
    (so_ContractID o) (so_AttemptID o) (so_SessionID o) (so_TerminalGeneration o)
    (so_Stage o) (so_Actor o) (so_RequestedAt o) (so_CallCompletedAt o)
    (so_ConfirmationDeadlineAt o) (so_TerminationConfirmedAt o) (so_ResolvedAt o)
    (so_ResolutionState o) (so_RestoreOperationID o) (so_RestorePrincipal o)
    (so_InitiatingFailureReason o).

Record RestoreAuthorization := mkRestoreAuthorization {
  ra_AuthorizationID : string; ra_OperationID : string; ra_PairID : string;
  ra_SessionID : string; ra_ExpectedGeneration : string; ra_RiskScope : string;
  ra_AuthorizedPrincipal : string; ra_AuthorizationEventID : string; ra_IssuedAt : Z;
  ra_ConsumedAt : option Z; ra_ConsumedByOperationID : option string }.

Record PairRestoreOperation := mkPairRestoreOperation {
  ro_OperationID : string; ro_AuthorizationID : string; ro_PairID : string;
  ro_SessionID : string; ro_ExpectedGeneration : string; ro_ObservedGeneration : option string;
  ro_RestoreMode : option string; ro_Stage : RestoreStage;
  ro_ResolutionState : RestoreResolutionState; ro_ResolutionBasis : option RestoreResolutionBasis;
  ro_RecoveryPrincipal : option string; ro_RecoveryClaimedAt : option Z; ro_RequestedAt : Z;
  ro_HTTP200At : option Z; ro_ResolvedAt : option Z; ro_ResolutionEventID : option string;
  ro_Version : Z }.
#[export] Instance PairRestoreOperation_settable : Settable PairRestoreOperation := fun o =>
  mkPairRestoreOperation (ro_OperationID o) (ro_AuthorizationID o) (ro_PairID o)
    (ro_SessionID o) (ro_ExpectedGeneration o) (ro_ObservedGeneration o) (ro_RestoreMode o)
    (ro_Stage o) (ro_ResolutionState o) (ro_ResolutionBasis o) (ro_RecoveryPrincipal o)
    (ro_RecoveryClaimedAt o) (ro_RequestedAt o) (ro_HTTP200At o) (ro_ResolvedAt o)
    (ro_ResolutionEventID o) (ro_Version o).

Record RestoreReservation := mkRestoreReservation {
  rr_AuthorizationID : string; rr_OperationID : string; rr_PairID : string;
  rr_SessionID : string; rr_ExpectedGeneration : string; rr_RiskScope : string;
  rr_AuthorizedPrincipal : string; rr_Actor : string; rr_At : Z }.

Record ExecutionBudget := mkExecutionBudget {
  b_AttemptID : string; b_DispatchOperationID : string; b_OriginAt : Z; b_DeadlineAt : Z;
  b_Duration : Z; b_PolicyRef : string; b_BindingBasis : string;
  b_AuthorizedPrincipal : option string; b_EvidenceRef : option string; b_BoundAt : Z }.

Record ExecutionBudgetPolicy := mkExecutionBudgetPolicy {
  ebp_Duration : Z; ebp_PolicyRef : string }.

(** [time.Time.Year() < 1] and [> 9999] on nanoseconds since year 1. *)
Definition year_10000 : Z := (315537897600 * 1000000000)%Z.
Definition year_out_of_range (t : Z) : bool := ((t <? 0) || (year_10000 <=? t))%Z.
