(* ===== verification/Workflow.v ===== *)
(** * Workflow: internal/workflow/state_machine.go

    The transition table, the graph of the documentation
    ([CanonicalGraphEdges]) and the two functions that evaluate a transition.
    The theorems show that the table and the published graph are the same
    relation, that exactly the two terminal states are stuck, and which states
    a task can come from and go to. *)

From stdpp Require Import relations.
From S2P Require Import Prelude.
From S2P Require Import Domain.

Definition DomainTransitionCount : nat := 22.
Definition CanonicalGraphEdgeCount : nat := 25.

(** The published graph, as pairs of strings. *)
Definition CanonicalGraphEdges : list (string * string) :=
  [("[*]", "DRAFT");
   ("DRAFT", "READY"); ("DRAFT", "CANCELLED");
   ("READY", "DISPATCHED"); ("READY", "CANCELLED");
   ("DISPATCHED", "RUNNING"); ("DISPATCHED", "FAILED");
   ("RUNNING", "REPORT_READY"); ("RUNNING", "FAILED"); ("RUNNING", "BLOCKED");
   ("REPORT_READY", "EVIDENCE_READY"); ("REPORT_READY", "FAILED");
   ("EVIDENCE_READY", "REVIEWING"); ("EVIDENCE_READY", "FAILED");
   ("REVIEWING", "APPROVED"); ("REVIEWING", "REVISION_REQUIRED"); ("REVIEWING", "BLOCKED");
   ("REVISION_REQUIRED", "READY");
   ("BLOCKED", "HUMAN_REQUIRED");
   ("FAILED", "HUMAN_REQUIRED"); ("FAILED", "READY");
   ("HUMAN_REQUIRED", "DRAFT"); ("HUMAN_REQUIRED", "CANCELLED");
   ("APPROVED", "[*]"); ("CANCELLED", "[*]")]%string.

(** The Go map of maps: source state to the set of targets. *)
Definition allowedTransitions : list (TaskState * list TaskState) :=
  [(StateDraft, [StateReady; StateCancelled]);
   (StateReady, [StateDispatched; StateCancelled]);
   (StateDispatched, [StateRunning; StateFailed]);
   (StateRunning, [StateReportReady; StateFailed; StateBlocked]);
   (StateReportReady, [StateEvidenceReady; StateFailed]);
   (StateEvidenceReady, [StateReviewing; StateFailed]);
   (StateReviewing, [StateApproved; StateRevisionRequired; StateBlocked]);
   (StateApproved, []);
   (StateRevisionRequired, [StateReady]);
   (StateBlocked, [StateHumanRequired]);
   (StateFailed, [StateHumanRequired; StateReady]);
   (StateHumanRequired, [StateDraft; StateCancelled]);
   (StateCancelled, [])].

Definition CanTransition (from to : TaskState) : bool :=
  match find (fun e => fst e == from) allowedTransitions with
  | None => false
  | Some (_, targets) => in_list to targets
  end.

(** [Transition] returns nil or the [InvalidTransitionError] of the pair. *)
Record InvalidTransitionError := mkInvalidTransitionError { From : TaskState; To : TaskState }.
Definition Transition (from to : TaskState) : option InvalidTransitionError :=
  if negb (CanTransition from to) then Some (mkInvalidTransitionError from to) else None.

(** [AllowedTransitions], up to Go's map iteration order. *)
Definition AllowedTransitions : list (TaskState * TaskState) :=
  flat_map (fun e => map (pair (fst e)) (snd e)) allowedTransitions.

(** One executable step of a task and the states it can pass through. *)
Definition moves (from to : TaskState) : Prop := CanTransition from to = true.
Definition follows : TaskState -> TaskState -> Prop := rtc moves.

Lemma CanTransition_valid from to :
  CanTransition from to = true -> IsValid from = true /\ IsValid to = true.
Proof.
  destruct from; try (by vm_compute); destruct to; try (by vm_compute); by intros.
Qed.

(** A bounded search decides reachability between the declared states. *)
Fixpoint reach_in (fuel : nat) (from to : TaskState) : bool :=
  (from == to) ||
  match fuel with
  | O => false
  | S n => existsb (fun mid => CanTransition from mid && reach_in n mid to) AllTaskStates
  end.

Lemma reach_in_sound n : forall from to, reach_in n from to = true -> follows from to.
Proof.
  induction n as [|n IH]; cbn [reach_in]; intros from to [H|H]%orb_true_iff; [|done| |].
  - apply eqb_eq in H as ->. apply rtc_refl.
  - apply eqb_eq in H as ->. apply rtc_refl.
  - apply existsb_exists in H as (mid & _ & [H1 H2]%andb_true_iff).
    eapply rtc_l; [exact H1 | by apply IH].
Qed.

Lemma follows_closed (P : TaskState -> bool) from to :
  (forall x y, P x = true -> CanTransition x y = true -> P y = true) ->
  follows from to -> P from = true -> P to = true.
Proof. intros Hstep Hf. induction Hf; eauto. Qed.

Lemma CanTransition_AllowedTransitions from to :
  CanTransition from to = in_list (from, to) AllowedTransitions.
Proof. destruct from, to; vm_compute; reflexivity. Qed.

(** C39: Between declared states the table and the published graph are the same
    relation; the graph's strings are the states' own. *)
Theorem CanTransition_iff_CanonicalGraphEdges (from to : TaskState) :
  IsValid from = true -> IsValid to = true ->
  (CanTransition from to = true <->
   In (TaskState_string from, TaskState_string to) CanonicalGraphEdges).
Proof.
  intros Hf Ht. rewrite <- in_list_true.
  assert (CanTransition from to
          = in_list (TaskState_string from, TaskState_string to) CanonicalGraphEdges) as ->.
  - destruct from, to; try discriminate; vm_compute; reflexivity.
  - reflexivity.
Qed.

Lemma CanTransition_iff_CanonicalGraphEdges_witness :
  CanTransition StateRunning StateBlocked = true <->
  In ("RUNNING"%string, "BLOCKED"%string) CanonicalGraphEdges.
Proof.
  exact (CanTransition_iff_CanonicalGraphEdges StateRunning StateBlocked eq_refl eq_refl).
Defined.

(** Every declared state is reachable from DRAFT, a declared state is stuck
    exactly when it is terminal, and from every state that is not CANCELLED a
    path to APPROVED remains; nothing leaves a terminal state, and an
    undeclared state string has no transition in either direction. *)
Theorem workflow_progress :
  (forall s, IsValid s = true -> follows StateDraft s) /\
  (forall s, IsValid s = true ->
     (IsTerminal s = true <-> forall s', CanTransition s s' = false)) /\
  (forall s, IsValid s = true -> s <> StateCancelled -> follows s StateApproved) /\
  (forall s s', IsTerminal s = true -> follows s s' -> s' = s) /\
  (forall raw s, CanTransition (StateOther raw) s = false /\ CanTransition s (StateOther raw) = false).
Proof.
  split; [|split; [|split; [|split]]].
  - intros s Hs. apply (reach_in_sound 8). destruct s; try discriminate; reflexivity.
  - intros s Hs. split.
    + intros Ht. destruct s; try discriminate; intros s'; destruct s'; reflexivity.
    + intros Hno. destruct s; try discriminate; try reflexivity.
      all: try (specialize (Hno StateReady); discriminate).
      all: try (specialize (Hno StateFailed); discriminate).
      all: try (specialize (Hno StateBlocked); discriminate).
      all: try (specialize (Hno StateCancelled); discriminate).
      all: try (specialize (Hno StateHumanRequired); discriminate).
  - intros s Hs Hc. apply (reach_in_sound 9). destruct s; try discriminate; try reflexivity.
    by destruct Hc.
  - intros s s' Ht Hf. apply eqb_eq. apply (follows_closed (fun x => x == s) s s'); auto using eqb_refl.
    intros x y Hx Hy. apply eqb_eq in Hx as ->.
    destruct s; try discriminate; destruct y; discriminate.
  - intros raw s. split; destruct s; reflexivity.
Qed.

(** [Transition] rejects exactly the pairs outside the table, naming both
    states; the table holds [DomainTransitionCount] distinct pairs, which with
    the three pseudo-edges make the [CanonicalGraphEdgeCount] of the graph. *)
Theorem Transition_spec :
  (forall from to, Transition from to = None <-> In (from, to) AllowedTransitions) /\
  (forall from to e, Transition from to = Some e -> From e = from /\ To e = to) /\
  List.NoDup AllowedTransitions /\ length AllowedTransitions = DomainTransitionCount /\
  List.NoDup CanonicalGraphEdges /\ length CanonicalGraphEdges = CanonicalGraphEdgeCount /\
  (CanonicalGraphEdgeCount = DomainTransitionCount + 3)%nat.
Proof.
  split; [|split].
  - intros from to. unfold Transition. rewrite CanTransition_AllowedTransitions.
    rewrite <- in_list_true. destruct (in_list _ _); cbn; intuition discriminate.
  - intros from to e. unfold Transition. destruct (negb _); [|discriminate]. by intros [= <-].
  - repeat split; try reflexivity.
    + apply NoDup_ListNoDup. apply (bool_decide_eq_true_1 _). by vm_compute.
    + apply NoDup_ListNoDup. apply (bool_decide_eq_true_1 _). by vm_compute.
Qed.
