(* ===== verification/ReportPath.v ===== *)
(** * ReportPath: internal/store/report_path.go

    [validateIdentitySegment] as the boolean of its error checks, in order,
    and [CanonicalExpectedReportPath].  [strings.ToUpper] is modelled on ASCII
    letters: the only other runes with an ASCII upper case, U+0131 and U+017F,
    map to I and S, which occur in no reserved device name. *)

From S2P Require Import Prelude.
From S2P Require Import Domain.

Definition reserved_device : list string :=
  ["CON"; "PRN"; "AUX"; "NUL";
   "COM1"; "COM2"; "COM3"; "COM4"; "COM5"; "COM6"; "COM7"; "COM8"; "COM9";
   "LPT1"; "LPT2"; "LPT3"; "LPT4"; "LPT5"; "LPT6"; "LPT7"; "LPT8"; "LPT9"]%string.

Definition segment_byte_ok (b : ascii) : bool :=
  let n := byte_of b in
  negb ((n <=? 31)%N || (n =? 127)%N) &&
  negb (in_list n [60; 62; 58; 34; 47; 92; 124; 63; 42]%N).

(** true: the Go function returns nil. *)
Definition validateIdentitySegment (val : string) : bool :=
  if val == "" then false
  else if TrimSpace val != val then false
  else if HasSuffix val " " || HasSuffix val "." then false
  else if (val == ".") || (val == "..") then false
  else if Contains val ".." then false
  else if negb (all_bytes segment_byte_ok val) then false
  else negb (in_list (ToUpperASCII (before_byte "." val)) reserved_device).

(** None: [ErrReportPathMismatch]. *)
Definition CanonicalExpectedReportPath (taskID attemptID : string) : option string :=
  if negb (validateIdentitySegment taskID) then None
  else if negb (validateIdentitySegment attemptID) then None
  else Some (".supervisor/reports/" ++ taskID ++ "/" ++ attemptID ++ ".json")%string.

(** The segments of a path, as the file system splits it. *)
Definition path_segments (path : string) : list string := SplitByte "/" path.

Definition no_slash (s : string) : bool := all_bytes (fun b => negb (b =? "/")%char) s.

Lemma all_bytes_impl (p q : ascii -> bool) s :
  (forall b, p b = true -> q b = true) -> all_bytes p s = true -> all_bytes q s = true.
Proof. intros Hpq. induction s as [|a s IH]; cbn; [done|]. intros H. breflect. by rewrite Hpq, IH. Qed.

Lemma segment_no_slash s : validateIdentitySegment s = true -> no_slash s = true.
Proof.
  unfold validateIdentitySegment. repeat (case_match; [done|]).
  intros _. breflect. eapply all_bytes_impl; [|eassumption].
  intros b Hb. apply negb_true_iff. apply Ascii.eqb_neq. intros ->. by vm_compute in Hb.
Qed.

Lemma split_no_slash s t :
  no_slash s = true -> SplitByte "/" (s ++ String "/" t) = s :: SplitByte "/" t.
Proof.
  unfold no_slash. induction s as [|a s IH]; rewrite ?append_nil, ?append_cons; cbn [all_bytes SplitByte]; [done|].
  intros [H1 H2]%andb_true_iff. apply negb_true_iff in H1. by rewrite H1, IH.
Qed.

Lemma split_single s : no_slash s = true -> SplitByte "/" s = [s].
Proof.
  unfold no_slash. induction s as [|a s IH]; cbn; [done|].
  intros [H1 H2]%andb_true_iff. apply negb_true_iff in H1. by rewrite H1, IH.
Qed.

Lemma all_bytes_app p s t : all_bytes p (s ++ t)%string = all_bytes p s && all_bytes p t.
Proof. induction s as [|a s IH]; [done|]. rewrite append_cons. cbn. by rewrite IH, andb_assoc. Qed.

Lemma append_cancel_r (s t u : string) : (s ++ u = t ++ u)%string -> s = t.
Proof.
  assert (forall x, list_ascii_of_string (x ++ u)%string
                    = (list_ascii_of_string x ++ list_ascii_of_string u)%list) as Ha.
  { induction x as [|a x IH]; [done|]. rewrite append_cons. cbn. by rewrite IH. }
  intros H. rewrite <- (string_of_list_ascii_of_string s), <- (string_of_list_ascii_of_string t).
  f_equal. apply (app_inv_tail (list_ascii_of_string u)). by rewrite <- !Ha, H.
Qed.

Lemma canonical_segments taskID attemptID path :
  CanonicalExpectedReportPath taskID attemptID = Some path ->
  validateIdentitySegment taskID = true /\ validateIdentitySegment attemptID = true /\
  path_segments path = [".supervisor"; "reports"; taskID; (attemptID ++ ".json")%string]%string.
Proof.
  unfold CanonicalExpectedReportPath, path_segments. repeat (case_match; [done|]).
  intros [= <-]. breflect. split_and!; try done.
  pose proof (segment_no_slash taskID ltac:(done)) as H1.
  pose proof (segment_no_slash attemptID ltac:(done)) as H2.
  change (SplitByte "/" (".supervisor/" ++ ("reports/" ++ (taskID ++ (String "/" (attemptID ++ ".json")))))%string
          = [".supervisor"; "reports"; taskID; (attemptID ++ ".json")%string]%string).
  change (".supervisor/" ++ ?t)%string with (".supervisor" ++ String "/" t)%string.
  rewrite split_no_slash by done.
  change ("reports/" ++ ?t)%string with ("reports" ++ String "/" t)%string.
  rewrite split_no_slash by done.
  rewrite split_no_slash by done. rewrite split_single; [done|].
  unfold no_slash in *. rewrite all_bytes_app, H2. done.
Qed.

Lemma prefix_sub p s : String.prefix p s = true -> exists t, s = (p ++ t)%string.
Proof.
  revert s. induction p as [|a p IH]; intros [|b s]; cbn; try done.
  - by exists EmptyString.
  - by exists (String b s).
  - destruct (ascii_dec a b) as [->|]; [|done]. intros [t ->]%IH. by exists t.
Qed.

(** C40: A canonical report path names its task and its attempt: it has exactly
    four segments, the last two determined by the identities, so two attempts
    share a path only when both identities agree; and neither identity can be
    ".", "..", empty, or smuggle a separator. *)
Theorem CanonicalExpectedReportPath_injective (t1 a1 t2 a2 path : string) :
  CanonicalExpectedReportPath t1 a1 = Some path ->
  path_segments path = [".supervisor"; "reports"; t1; (a1 ++ ".json")%string]%string /\
  Forall (fun seg => seg <> "" /\ seg <> "." /\ seg <> ".." /\ no_slash seg = true)%string
    (path_segments path) /\
  (CanonicalExpectedReportPath t2 a2 = Some path -> t1 = t2 /\ a1 = a2).
Proof.
  intros H1. destruct (canonical_segments _ _ _ H1) as (V1 & V2 & Hs1).
  split; [done|]. split.
  - rewrite Hs1. pose proof (segment_no_slash _ V1). pose proof (segment_no_slash _ V2).
    repeat constructor; try done.
    1-3: intros ->; by vm_compute in V1.
    1-3: intros Heq; destruct a1 as [|? [|? [|? ?]]]; done.
    unfold no_slash in *. rewrite all_bytes_app. by rewrite H0.
  - intros H2. destruct (canonical_segments _ _ _ H2) as (_ & _ & Hs2).
    rewrite Hs1 in Hs2. injection Hs2 as -> Ha. split; [done|].
    by apply append_cancel_r in Ha.
Qed.

Lemma CanonicalExpectedReportPath_injective_witness :
  CanonicalExpectedReportPath "TASK-1" "A.1" = Some ".supervisor/reports/TASK-1/A.1.json"%string /\
  "TASK-1"%string = "TASK-1"%string /\ "A.1"%string = "A.1"%string.
Proof.
  split; [vm_compute; reflexivity|].
  apply (CanonicalExpectedReportPath_injective "TASK-1" "A.1" "TASK-1" "A.1"
           ".supervisor/reports/TASK-1/A.1.json"); vm_compute; reflexivity.
Defined.

Example reserved_names_rejected :
  map validateIdentitySegment ["con"; "com1.log"; "a..b"; "x "; "a/b"; "a"; "attempt-7"]%string
  = [false; false; false; false; false; true; true].
Proof. reflexivity. Qed.
