(* ===== verification/Filepath.v ===== *)
(** * Filepath: the lexical operations of path/filepath

    [Clean], [Join] and [Rel] of Go's standard library in their Unix form
    ([Separator] is '/', [VolumeName] is empty, [ToSlash] and [FromSlash] are
    the identity), on the element lists a path denotes, and the theory
    path_policy.go relies on: a cleaned path is its own clean form, and [Rel]
    climbs out of the base exactly when the target is not below it. *)

From S2P Require Import Prelude.

(** [strings.Join(l, "/")] *)
Fixpoint join_slash (l : list string) : string :=
  match l with
  | [] => ""
  | [s] => s
  | s :: rest => s ++ String "/" (join_slash rest)
  end%string.

(** One element of a path, on the reversed list of the elements kept. *)
Definition clean_step (rooted : bool) (kept : list string) (seg : string) : list string :=
  if (seg == "") || (seg == ".") then kept
  else if seg == ".." then
    match kept with
    | [] => if rooted then [] else [".."%string]
    | top :: below => if top == ".." then ".."%string :: kept else below
    end
  else seg :: kept.

Definition is_rooted (p : string) : bool := HasPrefix p "/".
Definition clean_elements (p : string) : list string :=
  rev (fold_left (clean_step (is_rooted p)) (SplitByte "/" p) []).
Definition render (rooted : bool) (elements : list string) : string :=
  if rooted then String "/" (join_slash elements)
  else match elements with [] => "."%string | _ => join_slash elements end.

(** [filepath.Clean] *)
Definition Clean (p : string) : string :=
  if p == "" then "."%string else render (is_rooted p) (clean_elements p).

(** [filepath.Join] of two elements *)
Definition Join (a b : string) : string :=
  if a == "" then (if b == "" then ""%string else Clean b)
  else Clean (a ++ String "/" b).

Fixpoint strip_common (base target : list string) : list string * list string :=
  match base, target with
  | b :: base', t :: target' => if b == t then strip_common base' target' else (base, target)
  | _, _ => (base, target)
  end.

(** [filepath.Rel]; [None] is its error *)
Definition Rel (base target : string) : option string :=
  if Clean target == Clean base then Some "."%string
  else if negb (Bool.eqb (is_rooted base) (is_rooted target)) then None
  else
    let targ := match is_rooted target, clean_elements target with
                | false, [] => ["."%string]
                | _, l => l
                end in
    match strip_common (clean_elements base) targ with
    | (b0 :: rest, t0 :: t) =>
        if b0 == ".." then None
        else Some (join_slash (map (fun _ => ".."%string) (b0 :: rest) ++ t0 :: t))
    | (b, t) => Some (join_slash (map (fun _ => ".."%string) b ++ t))
    end.

Example clean_samples :
  map Clean [""; "a/./b//c"; "a/../../b"; "/../a/"; "a/.."; "./x"; "a/b/../.."]%string
  = ["."; "a/b/c"; "../b"; "/a"; "."; "x"; "."]%string.
Proof. reflexivity. Qed.
Example rel_samples :
  map (fun '(b, t) => Rel b t)
    [("/w", "/w/a/b"); ("/w/x", "/w"); ("/w", "/v/a"); ("/", "/a"); ("w", "/w"); ("/w/a", "/w/a/")]%string
  = [Some "a/b"; Some ".."; Some "../v/a"; Some "a"; None; Some "."]%string.
Proof. reflexivity. Qed.

(** ** Elements *)

Fixpoint no_slash (s : string) : bool :=
  match s with EmptyString => true | String a t => negb (a =? "/")%char && no_slash t end.

(** A name: what a kept element of a path is, when it is not "..". *)
Definition is_name (s : string) : bool :=
  negb (s == "") && negb (s == ".") && negb (s == "..") && no_slash s.
Definition names (l : list string) : Prop := List.Forall (fun s => is_name s = true) l.

Lemma SplitByte_nonempty c s : SplitByte c s <> [].
Proof. destruct s as [|a s]; cbn; [done|]. repeat case_match; done. Qed.

Lemma SplitByte_no_slash s : List.Forall (fun x => no_slash x = true) (SplitByte "/" s).
Proof.
  induction s as [|a s IH]; cbn; [by repeat constructor|].
  destruct (a =? "/")%char eqn:Ha; [by constructor|].
  destruct (SplitByte "/" s) as [|h r]; [repeat constructor; cbn; by rewrite Ha|].
  inversion IH; subst. constructor; [|done]. cbn. by rewrite Ha.
Qed.

Lemma SplitByte_self s : no_slash s = true -> SplitByte "/" s = [s].
Proof.
  induction s as [|a s IH]; cbn; [done|]. intros H. apply andb_prop in H as [Ha Hs].
  apply negb_true_iff in Ha. rewrite Ha, IH by done. done.
Qed.

Lemma SplitByte_cons s t :
  no_slash s = true -> SplitByte "/" (s ++ String "/" t) = s :: SplitByte "/" t.
Proof.
  induction s as [|a s IH]; [done|]. rewrite append_cons. cbn [no_slash SplitByte].
  intros H. apply andb_prop in H as [Ha Hs]. apply negb_true_iff in Ha. by rewrite Ha, IH.
Qed.

Lemma SplitByte_join l :
  l <> [] -> List.Forall (fun x => no_slash x = true) l -> SplitByte "/" (join_slash l) = l.
Proof.
  induction l as [|s l IH]; [done|]. intros _ H. inversion H; subst.
  destruct l as [|s' l]; [by apply SplitByte_self|].
  cbn [join_slash] in *. rewrite SplitByte_cons by done. by rewrite IH.
Qed.

Lemma is_name_inv s :
  is_name s = true -> s <> ""%string /\ s <> "."%string /\ s <> ".."%string /\ no_slash s = true.
Proof. unfold is_name. intros H. breflect. by split_and!. Qed.

Lemma clean_step_name rooted kept s : is_name s = true -> clean_step rooted kept s = s :: kept.
Proof.
  intros H%is_name_inv. destruct H as (H1 & H2 & H3 & _). unfold clean_step.
  by rewrite !(proj2 (eqb_false _ _)).
Qed.

Lemma clean_names rooted kept l : names l -> fold_left (clean_step rooted) l kept = rev l ++ kept.
Proof.
  intros H. revert kept. induction H as [|s l Hs Hl IH]; intros kept; [done|].
  cbn [fold_left rev]. rewrite clean_step_name, IH by done. by rewrite <- app_assoc.
Qed.

(** ** The shape of a cleaned path: parent steps, then names *)

Definition dots (n : nat) : list string := repeat ".."%string n.

Lemma dots_snoc n : dots n ++ [".."%string] = dots (S n).
Proof. symmetry. apply (repeat_cons n). Qed.

Lemma rev_dots n : rev (dots n) = dots n.
Proof. induction n as [|n IH]; [done|]. cbn. change (repeat _ n) with (dots n). by rewrite IH, dots_snoc. Qed.

Lemma clean_step_shape rooted n l s :
  names l -> (rooted = true -> n = O) -> no_slash s = true ->
  exists n' l', clean_step rooted (rev (dots n ++ l)) s = rev (dots n' ++ l') /\ names l' /\
                (rooted = true -> n' = O).
Proof.
  intros Hl Hn Hs. unfold clean_step.
  destruct (s == "") eqn:E1; [by exists n, l|]. destruct (s == ".") eqn:E2; [by exists n, l|].
  destruct (s == "..") eqn:E3.
  - destruct l as [|top l _] using rev_ind.
    + rewrite app_nil_r. destruct n as [|n].
      { exists (if rooted then O else 1%nat), []. by destruct rooted. }
      destruct rooted; [by specialize (Hn eq_refl)|].
      exists (S (S n)), []. rewrite app_nil_r, !rev_dots. split_and!; [done|constructor|done].
    + exists n, l. rewrite app_assoc, rev_app_distr. cbn.
      apply Forall_app in Hl as [Hl Ht]. inversion Ht as [|? ? Ht0]; subst.
      apply is_name_inv in Ht0 as (_ & _ & Hne & _).
      rewrite (proj2 (eqb_false _ _) Hne). done.
  - exists n, (l ++ [s]). split_and!; [|apply Forall_app; split; [done|]|done].
    + by rewrite app_assoc, (rev_app_distr (dots n ++ l) [s]).
    + constructor; [|constructor]. unfold is_name. by rewrite E1, E2, E3.
Qed.

Lemma clean_fold_shape rooted segs : forall n l,
  names l -> (rooted = true -> n = O) -> List.Forall (fun x => no_slash x = true) segs ->
  exists n' l', fold_left (clean_step rooted) segs (rev (dots n ++ l)) = rev (dots n' ++ l') /\
                names l' /\ (rooted = true -> n' = O).
Proof.
  induction segs as [|s segs IH]; intros n l Hl Hn Hsegs; [by exists n, l|].
  apply Forall_cons_iff in Hsegs as [Hs Hsegs]. cbn [fold_left].
  destruct (clean_step_shape rooted n l s) as (n1 & l1 & -> & Hl1 & Hn1); [done..|]. by apply IH.
Qed.

Lemma clean_elements_shape p :
  exists n l, clean_elements p = dots n ++ l /\ names l /\ (is_rooted p = true -> n = O).
Proof.
  destruct (clean_fold_shape (is_rooted p) (SplitByte "/" p) O []) as (n & l & E & Hl & Hn).
  - constructor.
  - done.
  - apply SplitByte_no_slash.
  - exists n, l. unfold clean_elements. cbn in E. by rewrite E, rev_involutive.
Qed.

Lemma clean_elements_names p : is_rooted p = true -> names (clean_elements p).
Proof.
  intros Hr. destruct (clean_elements_shape p) as (n & l & -> & Hl & Hn). by rewrite Hn.
Qed.

Lemma names_no_slash l : names l -> List.Forall (fun x => no_slash x = true) l.
Proof. apply List.Forall_impl. intros s H. by apply is_name_inv in H as (_ & _ & _ & ?). Qed.

Lemma dots_no_slash n : List.Forall (fun x => no_slash x = true) (dots n).
Proof. induction n; by constructor. Qed.

Lemma is_rooted_true p : is_rooted p = true -> exists t, p = String "/" t.
Proof.
  destruct p as [|a p]; [done|]. unfold is_rooted. rewrite HasPrefix_byte.
  intros <-%Ascii.eqb_eq. by exists p.
Qed.

Lemma Clean_rooted p :
  is_rooted p = true -> Clean p = String "/" (join_slash (clean_elements p)).
Proof.
  intros Hr. unfold Clean, render. rewrite Hr.
  destruct (is_rooted_true p Hr) as [t ->]. done.
Qed.

Lemma rooted_String t : is_rooted (String "/" t) = true.
Proof. unfold is_rooted. by rewrite HasPrefix_byte. Qed.

(** The elements of a path built from names below the root. *)
Lemma elements_of_rooted l :
  names l -> clean_elements (String "/" (join_slash l)) = l.
Proof.
  intros Hl. unfold clean_elements. rewrite rooted_String. cbn [SplitByte Ascii.eqb Bool.eqb fold_left].
  destruct l as [|s l]; [done|]. rewrite SplitByte_join by (done || by apply names_no_slash).
  rewrite clean_names by done. by rewrite app_nil_r, rev_involutive.
Qed.

Lemma clean_elements_Clean p : is_rooted p = true -> clean_elements (Clean p) = clean_elements p.
Proof.
  intros Hr. rewrite Clean_rooted by done. by apply elements_of_rooted, clean_elements_names.
Qed.

Lemma Clean_involutive p : is_rooted p = true -> Clean (Clean p) = Clean p.
Proof.
  intros Hr. rewrite (Clean_rooted (Clean p)).
  - rewrite clean_elements_Clean by done. by rewrite <- Clean_rooted.
  - rewrite Clean_rooted by done. apply rooted_String.
Qed.

(** ** Relative paths *)

Lemma join_rooted s l : is_name s = true \/ s = ".."%string -> is_rooted (join_slash (s :: l)) = false.
Proof.
  intros Hs. destruct s as [|a s]; [by destruct Hs|].
  assert (a =? "/" = false)%char as Ha.
  { destruct Hs as [(_ & _ & _ & H)%is_name_inv|[= -> ->]]; [|done].
    cbn in H. apply andb_prop in H as [H _]. by apply negb_true_iff in H. }
  unfold is_rooted. destruct l; cbn [join_slash]; rewrite ?append_cons, HasPrefix_byte;
    by rewrite Ascii.eqb_sym.
Qed.

Lemma clean_dots n kept : fold_left (clean_step false) (dots n) (dots kept) = dots (n + kept).
Proof.
  revert kept. induction n as [|n IH]; intros kept; [done|]. cbn [dots repeat fold_left].
  replace (clean_step false (dots kept) "..") with (dots (S kept)) by (by destruct kept).
  change (repeat ".."%string n) with (dots n). rewrite IH. f_equal. lia.
Qed.

Lemma dots_join_rooted n l : names l -> is_rooted (join_slash (dots n ++ l)) = false.
Proof.
  intros Hl. destruct n as [|n]; cbn [dots repeat app].
  - destruct Hl; [done|]. apply join_rooted. by left.
  - apply join_rooted. by right.
Qed.

Lemma elements_of_relative n l :
  names l -> clean_elements (render false (dots n ++ l)) = dots n ++ l.
Proof.
  intros Hl. destruct (dots n ++ l) as [|s r] eqn:E.
  { by destruct n, l. }
  assert (render false (s :: r) = join_slash (dots n ++ l)) as -> by (by rewrite E).
  unfold clean_elements. rewrite dots_join_rooted by done.
  rewrite SplitByte_join; [|by rewrite E|apply Forall_app; split; [apply dots_no_slash|by apply names_no_slash]].
  rewrite fold_left_app. change (@nil string) with (dots 0).
  rewrite clean_dots, Nat.add_0_r, clean_names by done.
  by rewrite rev_app_distr, rev_involutive, rev_dots, E.
Qed.

Lemma Clean_relative n l : names l -> Clean (render false (dots n ++ l)) = render false (dots n ++ l).
Proof.
  intros Hl. unfold Clean at 1. rewrite elements_of_relative by done.
  destruct (dots n ++ l) as [|s r] eqn:E; [done|].
  assert (render false (s :: r) = join_slash (dots n ++ l)) as Er by (by rewrite E).
  rewrite Er, dots_join_rooted by done. rewrite E at 2. rewrite Er.
  destruct (join_slash (dots n ++ l) == "") eqn:E0; [|done]. apply eqb_eq in E0.
  apply (f_equal (SplitByte "/")) in E0. rewrite SplitByte_join in E0.
  - rewrite E0 in E. injection E as <- <-. exfalso.
    assert (In ""%string (dots n ++ l)) as Hin by (rewrite E0; by left).
    apply in_app_or in Hin as [Hin|Hin]; [by apply repeat_spec in Hin|].
    unfold names in Hl. rewrite List.Forall_forall in Hl. by apply Hl in Hin.
  - by rewrite E.
  - apply Forall_app; split; [apply dots_no_slash|by apply names_no_slash].
Qed.

Lemma prefix_empty s : String.prefix "" s = true.
Proof. by destruct s. Qed.

(** A cleaned relative path that does not start by climbing is a list of names. *)
Lemma relative_names p :
  is_rooted p = false -> Clean p <> ".."%string -> HasPrefix (Clean p) "../" = false ->
  names (clean_elements p) /\ clean_elements (Clean p) = clean_elements p /\
  SplitByte "/" (Clean p) = match clean_elements p with [] => ["."%string] | l => l end.
Proof.
  intros Hr Hdd Hpre. destruct (clean_elements_shape p) as (n & l & E & Hl & _).
  unfold Clean in *. rewrite Hr, E in *. destruct (p == "") eqn:Ep.
  { apply eqb_eq in Ep as ->. cbn in E. by destruct n, l. }
  destruct n as [|n]; cbn [dots repeat app] in *.
  - split_and!; [done|by apply (elements_of_relative O)|]. destruct l as [|s l]; [done|].
    unfold render. apply SplitByte_join; [done|by apply names_no_slash].
  - exfalso. unfold render in *. destruct (repeat _ n ++ l) as [|s r]; [done|].
    cbn [join_slash] in Hpre. rewrite !append_cons, append_nil in Hpre.
    unfold HasPrefix in Hpre. cbn in Hpre. by rewrite prefix_empty in Hpre.
Qed.

(** ** [Rel] *)

Lemma strip_common_below b t rest : strip_common b t = ([], rest) <-> t = b ++ rest.
Proof.
  revert t. induction b as [|x b IH]; intros [|y t]; cbn; try (by split; intros [=]; subst).
  destruct (x == y) eqn:E.
  - apply eqb_eq in E as ->. rewrite IH. by split; [intros ->|intros [=]].
  - split; [done|]. intros [= -> _]. by rewrite eqb_refl in E.
Qed.

Lemma strip_common_suffix b t : exists common, b = common ++ (strip_common b t).1 /\ t = common ++ (strip_common b t).2.
Proof.
  revert t. induction b as [|x b IH]; intros [|y t]; cbn; try (by exists []).
  destruct (x == y) eqn:E; [|by exists []].
  apply eqb_eq in E as ->. destruct (IH t) as (c & H1 & H2). exists (y :: c). cbn. by rewrite <- H1, <- H2.
Qed.

Lemma map_dots {A} (l : list A) : map (fun _ => ".."%string) l = dots (length l).
Proof. induction l as [|a l IH]; [done|]. cbn. by rewrite IH. Qed.

(** Between rooted paths [Rel] succeeds; it gives names when the target is
    below the base and starts by climbing otherwise. *)
Lemma Rel_rooted base target :
  is_rooted base = true -> is_rooted target = true ->
  exists n l, Rel base target = Some (render false (dots n ++ l)) /\ names l /\
              (n = O <-> clean_elements base `prefix_of` clean_elements target).
Proof.
  intros Hb Ht. unfold Rel. rewrite Hb, Ht. cbn [Bool.eqb negb].
  pose proof (clean_elements_names _ Hb) as Nb. pose proof (clean_elements_names _ Ht) as Nt.
  destruct (Clean target == Clean base) eqn:E.
  { apply eqb_eq, (f_equal clean_elements) in E. rewrite !clean_elements_Clean in E by done.
    exists O, []. rewrite E. split_and!; [done|constructor|]. by split. }
  apply eqb_false in E. rewrite !Clean_rooted in E by done.
  destruct (strip_common_suffix (clean_elements base) (clean_elements target)) as (c & H1 & H2).
  destruct (strip_common (clean_elements base) (clean_elements target)) as [[|b0 b] t] eqn:Es.
  - apply strip_common_below in Es. exists O, t. rewrite Es in Nt. apply Forall_app in Nt as [_ Nt].
    split_and!; [|done|].
    + cbn. destruct t; [|done]. by rewrite app_nil_r in Es; rewrite Es in E.
    + split; [|done]. intros _. rewrite Es. by exists t.
  - exists (S (length b)), t. cbn [fst snd] in H1, H2.
    assert (names t) as Nt' by (rewrite H2 in Nt; by apply Forall_app in Nt as [_ Nt]).
    split_and!; [|done|].
    + assert (b0 == ".." = false) as Hb0.
      { rewrite H1 in Nb. apply Forall_app in Nb as [_ Nb]. inversion Nb as [|? ? N0]; subst.
        apply is_name_inv in N0 as (_ & _ & N0 & _). by apply eqb_false. }
      destruct t; [by rewrite map_dots, !app_nil_r|]. by rewrite Hb0, map_dots.
    + split; [done|]. intros [r Hr]. exfalso.
      assert (strip_common (clean_elements base) (clean_elements target) = ([], r)) as Hs
        by (by apply strip_common_below).
      rewrite Hs in Es. discriminate.
Qed.

(** ** Climbing *)

(** [rel == ".." || strings.HasPrefix(rel, "../")] *)
Definition climbs (rel : string) : bool := (rel == "..") || HasPrefix rel "../".

Lemma HasPrefix_app p s : HasPrefix s p = true -> exists t, s = (p ++ t)%string.
Proof.
  unfold HasPrefix. revert s. induction p as [|a p IH]; intros s; [by exists s|].
  destruct s as [|b s]; cbn; [done|]. destruct (ascii_dec a b) as [->|]; [|done].
  intros [t ->]%IH. by exists t.
Qed.

Lemma climbs_elements rel : climbs rel = true -> exists rest, SplitByte "/" rel = ".."%string :: rest.
Proof.
  unfold climbs. intros [->%eqb_eq|(t & ->)%HasPrefix_app]%orb_prop; [by exists []|].
  exists (SplitByte "/" t). exact (SplitByte_cons ".." t eq_refl).
Qed.

Lemma climbs_relative n l : names l -> climbs (render false (dots n ++ l)) = negb (n =? 0)%nat.
Proof.
  intros Hl. destruct n as [|n]; cbn [dots repeat app].
  - destruct l as [|s l]; [done|]. destruct (climbs _) eqn:E; [|done].
    apply climbs_elements in E as [rest E]. unfold render in E.
    rewrite SplitByte_join in E by (done || by apply names_no_slash). injection E as -> _.
    by apply Forall_cons_iff in Hl as [H _].
  - unfold render. destruct (repeat _ n ++ l) as [|s r]; [done|]. cbn [join_slash].
    rewrite !append_cons, append_nil. unfold climbs, HasPrefix. cbn. by rewrite prefix_empty.
Qed.

(** ** [Join] *)

Lemma SplitByte_app s t : SplitByte "/" (s ++ String "/" t) = SplitByte "/" s ++ SplitByte "/" t.
Proof.
  induction s as [|a s IH]; [done|]. rewrite append_cons. cbn [SplitByte]. rewrite IH.
  destruct (a =? "/")%char; [done|].
  destruct (SplitByte "/" s) as [|h r] eqn:E; [|done]. by apply SplitByte_nonempty in E.
Qed.

Lemma Join_rooted dir c : is_rooted dir = true -> is_rooted (Join dir c) = true.
Proof.
  intros [t ->]%is_rooted_true. unfold Join. cbn [eqb].
  rewrite (proj2 (eqb_false _ _)) by done. rewrite append_cons, Clean_rooted by apply rooted_String.
  apply rooted_String.
Qed.

(** Joining names to a rooted path puts them below its elements. *)
Lemma Join_elements dir p :
  is_rooted dir = true -> names (clean_elements p) ->
  SplitByte "/" p = match clean_elements p with [] => ["."%string] | l => l end ->
  clean_elements (Join dir p) = clean_elements dir ++ clean_elements p.
Proof.
  intros Hd Hn Hs. assert (is_rooted (dir ++ String "/" p) = true) as Hr.
  { apply is_rooted_true in Hd as [t ->]. rewrite append_cons. apply rooted_String. }
  unfold Join. rewrite (proj2 (eqb_false _ _)) by (intros ->; done).
  rewrite clean_elements_Clean by done. unfold clean_elements at 1 2. rewrite Hr, Hd, SplitByte_app.
  rewrite fold_left_app, Hs. destruct (clean_elements p) as [|s l]; [by rewrite app_nil_r|].
  by rewrite clean_names, rev_app_distr, rev_involutive.
Qed.
