(* ===== verification/Contract.v ===== *)
(** * Contract: internal/contract (revision.go, ValidateScopePatterns)

    Revision lineage, immutability of a frozen revision and the lexical
    containment of scope patterns.  The schema validator (schema.go), the
    profile checks and the file-system walk of [ValidateCwdContainment] are
    not in this file. *)

From S2P Require Import Prelude.
From S2P Require Import Domain.

(** The [Category] of a [ValidationError]; nil is [None]. *)
Inductive Category : Type :=
| SCHEMA | LINEAGE | IMMUTABILITY | VERIFICATION_PROFILE | PATH_CONTAINMENT | SCOPE_PATTERN.


(** [ValidateRevisionLineage]; nil pointers are [None]. *)
Definition ValidateRevisionLineage (current previous : option TaskContract) : option Category :=
  match current with
  | None => Some LINEAGE
  | Some current =>
      if (c_RevisionNumber current <=? 0)%Z then Some LINEAGE
      else if (c_RevisionNumber current =? 1)%Z then
        match c_SupersedesContractID current with
        | Some _ => Some LINEAGE
        | None => match previous with Some _ => Some LINEAGE | None => None end
        end
      else
        match previous with
        | None => Some LINEAGE
        | Some previous =>
            if c_TaskID current != c_TaskID previous then Some LINEAGE
            else if c_ContractID current == c_ContractID previous then Some LINEAGE
            else if negb (c_RevisionNumber current =? wrap64 (c_RevisionNumber previous + 1))%Z
              then Some LINEAGE
            else match c_SupersedesContractID current with
                 | None => Some LINEAGE
                 | Some sup =>
                     if sup != c_ContractID previous then Some LINEAGE
                     else if c_BaseSHA current != c_BaseSHA previous then Some LINEAGE
                     else None
                 end
        end
  end.

(** [ValidateImmutability] *)
Definition ValidateImmutability (original candidate : option TaskContract) : option Category :=
  match original, candidate with
  | Some original, Some candidate =>
      if c_ContractID original != c_ContractID candidate then None
      else if negb (c_IsImmutable original) then None
      else
        let supersedesMatch :=
          match c_SupersedesContractID original, c_SupersedesContractID candidate with
          | None, None => true
          | Some a, Some b => a == b
          | _, _ => false
          end in
        if negb supersedesMatch
           || (c_TaskID original != c_TaskID candidate)
           || negb (c_RevisionNumber original =? c_RevisionNumber candidate)%Z
           || (c_PhaseID original != c_PhaseID candidate)
           || (c_Objective original != c_Objective candidate)
           || (c_BaseSHA original != c_BaseSHA candidate)
           || (c_WorkerProfile original != c_WorkerProfile candidate)
           || (c_ReportContract original != c_ReportContract candidate)
           || (c_Requirements original != c_Requirements candidate)
           || (c_ArchitectureRefs original != c_ArchitectureRefs candidate)
           || (c_AllowedScope original != c_AllowedScope candidate)
           || (c_ForbiddenScope original != c_ForbiddenScope candidate)
           || (c_Constraints original != c_Constraints candidate)
           || (c_AcceptanceCriteria original != c_AcceptanceCriteria candidate)
           || (c_VerificationRequests original != c_VerificationRequests candidate)
           || (c_RequiredEvidence original != c_RequiredEvidence candidate)
           || (c_StopConditions original != c_StopConditions candidate)
        then Some IMMUTABILITY
        else None
  | _, _ => None
  end.

(** [filepath.VolumeName(p) != ""] on the patterns that reach it: those whose
    second byte is ':'; every other volume form of Windows starts with a
    separator, rejected before. *)
Definition second_byte_colon (p : string) : bool :=
  match p with String _ (String c _) => (c =? ":")%char | _ => false end.

(** The body of the loop of [ValidateScopePatterns]; true: no error. *)
Definition scope_pattern_ok (pattern : string) : bool :=
  if pattern != TrimSpace pattern then false
  else if pattern == "" then false
  else if HasPrefix pattern "/" || HasPrefix pattern "\" then false
  else if second_byte_colon pattern then false
  else if HasPrefix pattern "\\" || HasPrefix pattern "//" then false
  else if HasPrefix pattern "\\?\" || HasPrefix pattern "\??\" then false
  else negb (in_list ".." (SplitByte "/" (ReplaceByte "\" "/" pattern)))%string.

Fixpoint ValidateScopePatterns (patterns : list string) : option Category :=
  match patterns with
  | [] => None
  | pattern :: rest => if scope_pattern_ok pattern then ValidateScopePatterns rest else Some SCOPE_PATTERN
  end.

(** ** Revision chains *)

(** Each contract validated against the one before it. *)
Fixpoint lineage_chain (previous : option TaskContract) (l : list TaskContract) : Prop :=
  match l with
  | [] => True
  | c :: rest => ValidateRevisionLineage (Some c) previous = None /\ lineage_chain (Some c) rest
  end.

Lemma lineage_first c :
  ValidateRevisionLineage (Some c) None = None ->
  c_RevisionNumber c = 1%Z /\ c_SupersedesContractID c = None.
Proof. cbn. repeat case_match; intros; try done. by breflect. Qed.

Lemma lineage_next c p :
  ValidateRevisionLineage (Some c) (Some p) = None -> is_int64 (c_RevisionNumber p) ->
  c_RevisionNumber c = (c_RevisionNumber p + 1)%Z /\
  is_int64 (c_RevisionNumber c) /\
  c_SupersedesContractID c = Some (c_ContractID p) /\
  c_TaskID c = c_TaskID p /\ c_BaseSHA c = c_BaseSHA p /\ c_ContractID c <> c_ContractID p.
Proof.
  cbn. repeat case_match; intros; try done. breflect. subst.
  assert (c_RevisionNumber c = wrap64 (c_RevisionNumber p + 1)) as E by congruence.
  rewrite E in *. split_and!; auto using wrap64_range. apply wrap64_succ_pos; [done|lia].
Qed.

Definition linked (first : TaskContract) (l : list TaskContract) (i : nat) (c : TaskContract) : Prop :=
  c_TaskID c = c_TaskID first /\ c_BaseSHA c = c_BaseSHA first /\
  c_SupersedesContractID c =
    match i with O => None | S j => option_map c_ContractID (nth_error l j) end.

Lemma lineage_chain_from p l :
  lineage_chain (Some p) l -> is_int64 (c_RevisionNumber p) ->
  forall i c, nth_error l i = Some c ->
    c_RevisionNumber c = (c_RevisionNumber p + Z.of_nat i + 1)%Z /\ linked p (p :: l) (S i) c.
Proof.
  revert p. induction l as [|c0 l IH]; intros p Hc Hp i c Hi; [by destruct i|].
  destruct Hc as [H0 Hc]. destruct (lineage_next _ _ H0 Hp) as (Hr & Hr64 & Hs & Ht & Hb & _).
  destruct i as [|i]; cbn in Hi.
  - injection Hi as <-. split; [lia|]. by split_and!.
  - destruct (IH c0 Hc Hr64 i c Hi) as (Hri & Hti & Hbi & Hsi).
    split; [lia|]. split_and!; [congruence|congruence|done].
Qed.

(** A chain of revisions accepted one after the other, however long, carries
    the revision numbers 1, 2, 3, ... without gap or wrap-around of the
    machine integer, one task, one base SHA, and each revision names the
    contract id of the one before it, which differs from its own. *)
Theorem lineage_chain_monotone (first : TaskContract) (rest : list TaskContract) :
  lineage_chain None (first :: rest) ->
  forall i c, nth_error (first :: rest) i = Some c ->
    c_RevisionNumber c = (Z.of_nat i + 1)%Z /\ linked first (first :: rest) i c.
Proof.
  intros [H0 Hc] i c Hi. destruct (lineage_first _ H0) as [Hr Hs].
  destruct i as [|i]; cbn in Hi.
  - injection Hi as <-. split; [lia|]. by split_and!.
  - destruct (lineage_chain_from first rest Hc ltac:(rewrite Hr; done) i c Hi) as [Hri Hl].
    split; [lia|done].
Qed.

Definition sample_contract (id : string) (rev : Z) (sup : option string) : TaskContract :=
  {| c_ContractID := id; c_TaskID := "task-1"; c_RevisionNumber := rev;
     c_SupersedesContractID := sup; c_PhaseID := "phase-1"; c_Objective := "objective";
     c_Requirements := Some ["r"%string]; c_ArchitectureRefs := None; c_BaseSHA := "sha";
     c_AllowedScope := Some ["internal/**"%string]; c_ForbiddenScope := None;
     c_Constraints := None; c_AcceptanceCriteria := None; c_VerificationRequests := None;
     c_RequiredEvidence := None; c_WorkerProfile := "w"; c_ReportContract := "r";
     c_StopConditions := None; c_IsImmutable := true |}.

Lemma lineage_chain_monotone_witness :
  c_RevisionNumber (sample_contract "c2" 2 (Some "c1"%string)) = 2%Z /\
  linked (sample_contract "c1" 1 None)
    [sample_contract "c1" 1 None; sample_contract "c2" 2 (Some "c1"%string)] 1
    (sample_contract "c2" 2 (Some "c1"%string)).
Proof.
  refine (lineage_chain_monotone (sample_contract "c1" 1 None)
            [sample_contract "c2" 2 (Some "c1"%string)] _ 1 _ eq_refl).
  split; [vm_compute; reflexivity | split; [vm_compute; reflexivity | exact I]].
Defined.

(** ** Immutability *)

(** The specification part of a contract: all of it but the frozen flag. *)
Definition specification (c : TaskContract) : TaskContract := c <| c_IsImmutable := true |>.

(** A frozen revision accepts under its own contract id exactly the same
    specification, field for field (nil and empty lists told apart); another
    contract id is another revision and is not compared, so after a successful
    lineage check against the previous revision this check never fails. *)
Theorem ValidateImmutability_spec :
  (forall original candidate,
     c_IsImmutable original = true -> c_ContractID original = c_ContractID candidate ->
     (ValidateImmutability (Some original) (Some candidate) = None <->
      specification candidate = specification original)) /\
  (forall original candidate,
     ValidateImmutability (Some original) (Some candidate) = Some IMMUTABILITY ->
     c_IsImmutable original = true /\ c_ContractID original = c_ContractID candidate) /\
  (forall current previous,
     ValidateRevisionLineage (Some current) (Some previous) = None ->
     ValidateImmutability (Some previous) (Some current) = None).
Proof.
  split; [|split].
  - intros o c Ho Hid. unfold ValidateImmutability, specification.
    rewrite Ho, Hid, eqb_refl. cbn. destruct o, c; cbn in *; subst. split.
    + case_match eqn:E; [done|]. intros _. breflect.
      repeat case_match; try done; breflect; by subst.
    + intros Heq. injection Heq; intros; subst.
      rewrite !eqb_refl, Z.eqb_refl. destruct c_SupersedesContractID; cbn; by rewrite ?eqb_refl.
  - intros o c. unfold ValidateImmutability. repeat case_match; try done; by breflect.
  - intros c p H. unfold ValidateImmutability. cbn in H.
    repeat case_match; try done; breflect; by subst.
Qed.

(** ** Scope patterns *)

(** Lexical resolution of path segments below a root, [".."] popping one. *)
Definition push_segment (dir : list string) (seg : string) : list string :=
  if (seg == "") || (seg == ".") then dir
  else if seg == ".." then removelast dir
  else (dir ++ [seg])%list.
Definition resolve (root : list string) (segs : list string) : list string :=
  fold_left push_segment segs root.
Definition pattern_segments (pattern : string) : list string :=
  SplitByte "/" (ReplaceByte "\" "/" pattern).

Lemma push_segment_prefix root dir seg :
  seg <> ".."%string -> root `prefix_of` dir -> root `prefix_of` push_segment dir seg.
Proof.
  intros Hne Hp. unfold push_segment. repeat case_match; breflect; try done.
  by apply prefix_app_r.
Qed.

Lemma resolve_prefix root dir segs :
  ~ In ".."%string segs -> root `prefix_of` dir -> root `prefix_of` resolve dir segs.
Proof.
  unfold resolve. revert dir. induction segs as [|s segs IH]; cbn; intros dir Hn Hp; [done|].
  apply IH; [tauto|]. apply push_segment_prefix; [|done]. intros ->. tauto.
Qed.

Lemma ValidateScopePatterns_ok patterns :
  ValidateScopePatterns patterns = None <-> Forall (fun p => scope_pattern_ok p = true) patterns.
Proof.
  induction patterns as [|p l IH]; cbn.
  - split; [constructor | done].
  - destruct (scope_pattern_ok p) eqn:E; rewrite Forall_cons_iff; intuition congruence.
Qed.

Lemma scope_pattern_ok_inv p :
  scope_pattern_ok p = true ->
  p <> ""%string /\ HasPrefix p "/" = false /\ HasPrefix p "\" = false /\
  second_byte_colon p = false /\ ~ In ".."%string (pattern_segments p).
Proof.
  unfold scope_pattern_ok, pattern_segments. repeat (case_match; [done|]). intros Hn. breflect.
  split_and!; try done. rewrite <- in_list_true. congruence.
Qed.

Lemma SplitByte_head s t ss :
  SplitByte "/" s = t :: ss -> s <> ""%string -> HasPrefix s "/" = false -> t <> ""%string.
Proof.
  destruct s as [|a s]; [done|]. cbn [SplitByte]. intros H _ Hp ->.
  destruct (a =? "/")%char eqn:E.
  - apply Ascii.eqb_eq in E as ->. cbn in Hp. by destruct s.
  - destruct (SplitByte "/" s); injection H; intros; discriminate.
Qed.

(** Accepted scope patterns stay below the worktree root: at every point of
    the walk through their segments (slashes of both kinds) the resolved
    directory extends the root, the pattern starts with a real segment (it is
    neither absolute nor UNC nor a device path) and has no drive prefix. *)
Theorem ValidateScopePatterns_contained (patterns : list string) :
  ValidateScopePatterns patterns = None ->
  forall pattern, In pattern patterns ->
    (forall root n, root `prefix_of` resolve root (take n (pattern_segments pattern))) /\
    (exists seg rest, pattern_segments pattern = seg :: rest /\ seg <> ""%string /\ seg <> ".."%string) /\
    second_byte_colon pattern = false.
Proof.
  rewrite ValidateScopePatterns_ok, List.Forall_forall. intros H p Hp.
  destruct (scope_pattern_ok_inv p) as (Hne & Hs & Hb & Hc & Hdd); [by apply H|].
  split; [|split]; [| |done].
  - intros root n. apply resolve_prefix; [|done]. intros Hin. apply Hdd.
    rewrite <- (take_drop n (pattern_segments p)). apply in_app_iff. by left.
  - unfold pattern_segments in *.
    destruct p as [|a p]; [done|]. cbn [ReplaceByte] in *.
    destruct (SplitByte "/" (String (if (a =? "\")%char then "/"%char else a) (ReplaceByte "\" "/" p)))
      as [|seg rest] eqn:E.
    + exfalso. cbn in E. repeat case_match; done.
    + exists seg, rest. split; [done|]. split; [|intros ->; apply Hdd; by left].
      eapply SplitByte_head; [exact E|done|].
      rewrite HasPrefix_byte in Hs, Hb |- *. destruct (a =? "\")%char eqn:Ea; [|done].
      apply Ascii.eqb_eq in Ea as ->. discriminate.
Qed.

Lemma ValidateScopePatterns_contained_witness :
  ValidateScopePatterns ["internal/store/**"; "docs\*.md"]%string = None /\
  second_byte_colon "docs\*.md"%string = false.
Proof.
  split; [vm_compute; reflexivity|].
  apply (ValidateScopePatterns_contained ["internal/store/**"; "docs\*.md"]%string
           ltac:(vm_compute; reflexivity) "docs\*.md"%string).
  right. left. reflexivity.
Defined.
