(* ===== verification/PathPolicy.v ===== *)
(** * PathPolicy: ValidateCwdContainment (internal/contract/path_policy.go)

    The working directory of a verification request against its worktree.  The
    operating system is a record of functions: what [filepath.Abs], [os.Stat],
    [os.Lstat] and [filepath.EvalSymlinks] answer while the check runs (the
    model does not let the answers change under it), and Unicode case folding.
    The lexical part is Filepath.v, so this is the Unix build of the code. *)

From S2P Require Import Prelude.
From S2P Require Import Domain.
From S2P Require Import Filepath.
From S2P Require Import Contract.

(** What [os.Lstat] tells the walk. *)
Inductive lstat : Type := Exists | NotExist | LstatError.

Record OS := mkOS {
  Abs : string -> option string;           (* filepath.Abs *)
  Stat : string -> option bool;            (* os.Stat: IsDir *)
  Lstat : string -> lstat;                 (* os.Lstat, os.IsNotExist *)
  EvalSymlinks : string -> option string;  (* filepath.EvalSymlinks *)
  EqualFold : string -> string -> bool }.  (* strings.EqualFold *)

Definition TrimPrefix (s p : string) : string :=
  if HasPrefix s p then String.substring (String.length p) (String.length s - String.length p) s else s.

(** [isWithinRoot] *)
Definition isWithinRoot (os : OS) (target root : string) : bool :=
  let targetClean := TrimPrefix (Clean target) "\\?\" in
  let rootClean := TrimPrefix (Clean root) "\\?\" in
  if EqualFold os targetClean rootClean then true
  else match Rel rootClean targetClean with
       | None => false
       | Some rel =>
           let relClean := Clean rel in
           if relClean == "." then true
           else if (relClean == "..") || HasPrefix relClean "../" then false
           else true
       end.

(** The root part of [ValidateCwdContainment]: [canonicalRealRoot], or the
    error it returns. *)
Definition canonical_root (os : OS) (worktreeRoot : string) : option string :=
  if blank worktreeRoot then None
  else match Abs os worktreeRoot with
       | None => None
       | Some absRoot =>
           let cleanRoot := Clean absRoot in
           match Stat os cleanRoot with
           | Some true =>
               match EvalSymlinks os cleanRoot with
               | None => None
               | Some realRoot =>
                   let canonicalRealRoot := Clean realRoot in
                   match Stat os canonicalRealRoot with
                   | Some true => Some canonicalRealRoot
                   | _ => None
                   end
               end
           | _ => None
           end
       end.

(** The loop over the components; [false] for an error.  Once a component does
    not exist the rest of the iterations only continue. *)
Fixpoint walk (os : OS) (root currentPath : string) (components : list string)
    (foundNonExistent : bool) : bool :=
  match components with
  | [] => true
  | comp :: rest =>
      if (comp == "") || (comp == ".") then walk os root currentPath rest foundNonExistent
      else if foundNonExistent then walk os root currentPath rest foundNonExistent
      else
        let nextPath := Join currentPath comp in
        match Lstat os nextPath with
        | NotExist => walk os root currentPath rest true
        | LstatError => false
        | Exists =>
            match EvalSymlinks os nextPath with
            | None => false
            | Some realNext =>
                if negb (isWithinRoot os realNext root) then false
                else match rest with
                     | [] => walk os root realNext rest false
                     | _ =>
                         match Stat os realNext with
                         | Some true => walk os root realNext rest false
                         | _ => false
                         end
                     end
            end
        end
  end.

(** The lexical checks between the policy and the walk, on [cwd]. *)
Definition cwd_lexical_ok (cwd : string) : bool :=
  if cwd != TrimSpace cwd then false
  else if HasPrefix cwd "/" || HasPrefix cwd "\" then false
  else if second_byte_colon cwd then false
  else if HasPrefix cwd "\\" || HasPrefix cwd "//" then false
  else if HasPrefix cwd "\\?\" || HasPrefix cwd "\??\" then false
  else
    let canonicalSlash := Clean (ReplaceByte "\" "/" cwd) in
    negb ((canonicalSlash == "..") || HasPrefix canonicalSlash "../" || Contains canonicalSlash "/../").

(** [ValidateCwdContainment] *)
Definition ValidateCwdContainment (os : OS) (cwd worktreeRoot cwdPolicy : string) : option Category :=
  match canonical_root os worktreeRoot with
  | None => Some PATH_CONTAINMENT
  | Some canonicalRealRoot =>
      let cwdPolicy := if cwdPolicy == "" then "worktree_root"%string else cwdPolicy in
      if (cwdPolicy != "worktree_root") && (cwdPolicy != "worktree_contained")
      then Some PATH_CONTAINMENT
      else if negb (cwd_lexical_ok cwd) then Some PATH_CONTAINMENT
      else
        let canonicalSlash := Clean (ReplaceByte "\" "/" cwd) in
        if cwdPolicy == "worktree_root" then
          if (canonicalSlash != ".") && (canonicalSlash != "") then Some PATH_CONTAINMENT else None
        else if (canonicalSlash == ".") || (canonicalSlash == "") then None
        else
          let targetLexical := Join canonicalRealRoot canonicalSlash in
          if negb (isWithinRoot os targetLexical canonicalRealRoot) then Some PATH_CONTAINMENT
          else if walk os canonicalRealRoot canonicalRealRoot (SplitByte "/" canonicalSlash) false
          then None else Some PATH_CONTAINMENT
  end.

(** ** Containment *)

(** [filepath.Abs] and [filepath.EvalSymlinks] of a rooted path give rooted
    paths, as documented. *)
Record rooted_answers (os : OS) : Prop := {
  Abs_rooted p q : Abs os p = Some q -> is_rooted q = true;
  EvalSymlinks_rooted p q : is_rooted p = true -> EvalSymlinks os p = Some q -> is_rooted q = true }.

(** [path] is [root] up to letter case, or lies below it, element by element. *)
Definition within (os : OS) (root path : string) : Prop :=
  EqualFold os (Clean path) (Clean root) = true \/
  clean_elements root `prefix_of` clean_elements path.

Lemma TrimPrefix_rooted p : is_rooted p = true -> TrimPrefix p "\\?\" = p.
Proof.
  intros [t ->]%is_rooted_true. unfold TrimPrefix, HasPrefix. done.
Qed.

Lemma isWithinRoot_spec os target root :
  is_rooted target = true -> is_rooted root = true ->
  isWithinRoot os target root = true <-> within os root target.
Proof.
  intros Ht Hr. unfold isWithinRoot, within.
  assert (forall p, is_rooted p = true -> is_rooted (Clean p) = true) as Hc.
  { intros p Hp. rewrite Clean_rooted by done. apply rooted_String. }
  rewrite !TrimPrefix_rooted by auto. destruct (EqualFold _ _ _); [by split; [left|]|].
  destruct (Rel_rooted (Clean root) (Clean target)) as (n & l & -> & Hl & Hn); [auto..|].
  rewrite !clean_elements_Clean in Hn by done. rewrite Clean_relative by done.
  pose proof (climbs_relative n l Hl) as Hcl. unfold climbs in Hcl. rewrite Hcl.
  destruct n as [|n]; cbn [Nat.eqb negb].
  - split; [intros _; right; by apply Hn|]. intros _. by destruct (_ == ".").
  - split; [|intros [?|?%Hn]; done]. destruct (_ == ".") eqn:E; [|done].
    apply eqb_eq in E. by rewrite E in Hcl.
Qed.

(** The directory reached from [dir] by resolving existing components. *)
Fixpoint follow (os : OS) (dir : string) (components : list string) : option string :=
  match components with
  | [] => Some dir
  | comp :: rest =>
      match Lstat os (Join dir comp), EvalSymlinks os (Join dir comp) with
      | Exists, Some real => follow os real rest
      | _, _ => None
      end
  end.

(** What the walk asks of a component reached in [dir]: it is missing, or it
    resolves to a path within the root, a directory unless it is the last. *)
Definition safe_component (os : OS) (root dir comp : string) (rest : list string) : Prop :=
  Lstat os (Join dir comp) = NotExist \/
  (Lstat os (Join dir comp) = Exists /\
   exists real, EvalSymlinks os (Join dir comp) = Some real /\ isWithinRoot os real root = true /\
                (rest <> [] -> Stat os real = Some true)).

Definition safe_path (os : OS) (root dir : string) (components : list string) : Prop :=
  forall pre comp rest at_, components = pre ++ comp :: rest -> follow os dir pre = Some at_ ->
    safe_component os root at_ comp rest.

Lemma safe_path_cons os root dir comp rest :
  safe_path os root dir (comp :: rest) <->
  safe_component os root dir comp rest /\
  (forall real, Lstat os (Join dir comp) = Exists -> EvalSymlinks os (Join dir comp) = Some real ->
     safe_path os root real rest).
Proof.
  split.
  - intros H. split; [by apply (H [])|]. intros real Hl He pre c r d -> Hf.
    apply (H (comp :: pre)); [done|]. cbn. by rewrite Hl, He.
  - intros [H1 H2] [|c0 pre] c r d [= <- ->] Hf; [by injection Hf as <-|].
    cbn in Hf. destruct (Lstat os (Join dir comp)) eqn:Hl; [|done..].
    destruct (EvalSymlinks os (Join dir comp)) as [real|] eqn:He; [|done]. by eapply (H2 real).
Qed.

Lemma walk_skips os root dir components : walk os root dir components true = true.
Proof. induction components as [|c l IH]; [done|]. cbn. by case_match. Qed.

(** The loop accepts exactly the safe paths. *)
Lemma walk_spec os root dir components :
  names components ->
  walk os root dir components false = true <-> safe_path os root dir components.
Proof.
  intros Hn. revert dir. induction Hn as [|c l Hc Hl IH]; intros dir.
  { split; [|done]. by intros _ [|? ?] ? ? ?. }
  apply is_name_inv in Hc as (Hc1 & Hc2 & _).
  rewrite safe_path_cons. unfold safe_component. cbn [walk].
  rewrite (proj2 (eqb_false _ _) Hc1), (proj2 (eqb_false _ _) Hc2). cbn [orb].
  destruct (Lstat os (Join dir c)) eqn:HL.
  - destruct (EvalSymlinks os (Join dir c)) as [real|] eqn:HE.
    2:{ split; [done|]. by intros [[?|[_ (? & ? & _)]] _]. }
    transitivity (isWithinRoot os real root = true /\ (l <> [] -> Stat os real = Some true) /\
                  walk os root real l false = true).
    + destruct (isWithinRoot os real root); cbn [negb]; [|by split; [|intros []]].
      destruct l as [|c' l']; [by split; [intros _; split_and!|]|].
      destruct (Stat os real) as [[|]|]; (split; [|intros (_ & Hs & ?)]); try done;
        by specialize (Hs ltac:(done)).
    + rewrite IH. split.
      * intros (H1 & H2 & H3). split; [right; split; [done|by exists real]|].
        by intros ? _ [= <-].
      * intros [[?|[_ (? & [= <-] & H1 & H2)]] H3]; [done|]. split_and!; [done..|]. by apply H3.
  - rewrite walk_skips. split; [|done]. intros _. split; [by left|done].
  - split; [done|]. by intros [[?|[? _]] _].
Qed.

Lemma follow_rooted os dir components at_ :
  rooted_answers os -> is_rooted dir = true -> follow os dir components = Some at_ -> is_rooted at_ = true.
Proof.
  intros Ha. revert dir. induction components as [|c l IH]; intros dir Hd; cbn; [by intros [= <-]|].
  destruct (Lstat os (Join dir c)); [|done..].
  destruct (EvalSymlinks os (Join dir c)) as [real|] eqn:HE; [|done].
  apply IH. eapply EvalSymlinks_rooted; [done| |done]. by apply Join_rooted.
Qed.

Lemma canonical_root_inv os worktreeRoot R :
  rooted_answers os -> canonical_root os worktreeRoot = Some R ->
  is_rooted R = true /\ Stat os R = Some true.
Proof.
  intros Ha. unfold canonical_root. destruct (blank worktreeRoot); [done|].
  destruct (Abs os worktreeRoot) as [a|] eqn:HA; [|done].
  destruct (Stat os (Clean a)) as [[|]|]; [|done..].
  destruct (EvalSymlinks os (Clean a)) as [real|] eqn:HE; [|done].
  destruct (Stat os (Clean real)) as [[|]|] eqn:HS; [|done..]. intros [= <-].
  split; [|done]. apply (Abs_rooted os Ha) in HA.
  apply (EvalSymlinks_rooted os Ha) in HE.
  - rewrite Clean_rooted by done. apply rooted_String.
  - rewrite Clean_rooted by done. apply rooted_String.
Qed.

(** What the model calls the components of a working directory. *)
Definition cwd_components (cwd : string) : list string := clean_elements (ReplaceByte "\" "/" cwd).

Lemma replaced_rooted cwd :
  HasPrefix cwd "/" = false -> HasPrefix cwd "\" = false -> is_rooted (ReplaceByte "\" "/" cwd) = false.
Proof.
  destruct cwd as [|a cwd]; [done|]. unfold is_rooted. cbn [ReplaceByte].
  rewrite !HasPrefix_byte. intros Hs Hb. destruct (a =? "\")%char eqn:E; [|done].
  apply Ascii.eqb_eq in E as ->. done.
Qed.

Lemma cwd_lexical_names cwd :
  cwd_lexical_ok cwd = true ->
  names (cwd_components cwd) /\
  clean_elements (Clean (ReplaceByte "\" "/" cwd)) = cwd_components cwd /\
  SplitByte "/" (Clean (ReplaceByte "\" "/" cwd)) =
    match cwd_components cwd with [] => ["."%string] | l => l end.
Proof.
  unfold cwd_lexical_ok. repeat (case_match; [done|]). intros Hc.
  apply negb_true_iff, orb_false_iff in Hc as [[Hdd Hpre]%orb_false_iff _].
  apply relative_names; [|by apply eqb_false|done].
  repeat match goal with H : _ || _ = false |- _ => apply orb_false_iff in H as [? ?] end.
  by apply replaced_rooted.
Qed.

Lemma empty_cwd_components cwd :
  cwd_lexical_ok cwd = true ->
  (let s := Clean (ReplaceByte "\" "/" cwd) in (s == ".") || (s == "")) = true ->
  cwd_components cwd = [].
Proof.
  intros (Hn & _ & Hs)%cwd_lexical_names H. destruct (cwd_components cwd) as [|s l]; [done|].
  apply Forall_cons_iff in Hn as [(Hn1 & Hn2 & _)%is_name_inv _]. exfalso.
  apply orb_prop in H as [H|H]; apply eqb_eq in H; rewrite H in Hs; by injection Hs.
Qed.

Lemma accepted_cwd os cwd worktreeRoot cwdPolicy :
  ValidateCwdContainment os cwd worktreeRoot cwdPolicy = None ->
  exists root,
    canonical_root os worktreeRoot = Some root /\
    In cwdPolicy [""; "worktree_root"; "worktree_contained"]%string /\
    cwd_lexical_ok cwd = true /\
    (cwdPolicy <> "worktree_contained"%string -> cwd_components cwd = []) /\
    (cwd_components cwd = [] \/
     walk os root root (SplitByte "/" (Clean (ReplaceByte "\" "/" cwd))) false = true).
Proof.
  unfold ValidateCwdContainment. pose proof (empty_cwd_components cwd) as He. cbv zeta in *.
  destruct (canonical_root os worktreeRoot) as [root|]; [|done]. intros H. exists root.
  destruct (cwd_lexical_ok cwd); [|by repeat case_match]. specialize (He eq_refl). cbn [negb] in H.
  split; [done|].
  destruct (cwdPolicy == "") eqn:E0; [apply eqb_eq in E0 as ->; cbn [eqb] in H|].
  - rewrite <- !negb_orb in H. change (("worktree_root" == "worktree_root")%string) with true in H.
    cbn in H. destruct (_ || _) in H, He; [|done]. rewrite He by done. split_and!; auto. by left.
  - rewrite <- !negb_orb in H. destruct (cwdPolicy == "worktree_root") eqn:E1; cbn [orb negb] in H.
    + apply eqb_eq in E1 as ->. destruct (_ || _) in H, He; [|done].
      rewrite He by done. split_and!; auto; by (right; left) || left.
    + destruct (cwdPolicy == "worktree_contained") eqn:E2; [|done]. apply eqb_eq in E2 as ->.
      cbn [negb] in H. destruct (_ || _) in H, He.
      * rewrite He by done. split_and!; auto. by do 2 right; left.
      * repeat (case_match; [done|]). destruct (walk _ _ _ _ _); [|done].
        split_and!; auto. by do 2 right; left.
Qed.

(** C28: A working directory is accepted only against a worktree root that
    exists, is a directory and resolves without error, and only under one of
    the two policies; "worktree_root" (the default) accepts the root itself
    only.  The accepted path names a place lexically below the resolved root,
    and walking it from there every component that exists resolves, links
    followed, to the root or a path below it (up to letter case), and is a
    directory unless it is the last; the walk ends early only at a component
    that does not exist. *)
Theorem ValidateCwdContainment_contained (os : OS) (cwd worktreeRoot cwdPolicy : string) :
  rooted_answers os ->
  ValidateCwdContainment os cwd worktreeRoot cwdPolicy = None ->
  exists root,
    canonical_root os worktreeRoot = Some root /\ Stat os root = Some true /\
    In cwdPolicy [""; "worktree_root"; "worktree_contained"]%string /\
    (cwdPolicy <> "worktree_contained"%string -> cwd_components cwd = []) /\
    names (cwd_components cwd) /\
    clean_elements (Join root (Clean (ReplaceByte "\" "/" cwd))) =
      clean_elements root ++ cwd_components cwd /\
    forall pre comp rest dir, cwd_components cwd = pre ++ comp :: rest -> follow os root pre = Some dir ->
      Lstat os (Join dir comp) = NotExist \/
      (exists real, EvalSymlinks os (Join dir comp) = Some real /\ within os root real /\
                    (rest <> [] -> Stat os real = Some true)).
Proof.
  intros Ha H. destruct (accepted_cwd _ _ _ _ H) as (root & HR & Hpol & Hlex & Hroot & Hwalk).
  destruct (canonical_root_inv _ _ _ Ha HR) as [Hr Hstat].
  destruct (cwd_lexical_names _ Hlex) as (Hnames & Hce & Hsplit).
  exists root. split_and!; try done.
  - rewrite Join_elements; rewrite ?Hce; try done.
  - intros pre comp rest dir E Hf.
    assert (walk os root root (cwd_components cwd) false = true) as Hw.
    { destruct Hwalk as [E0|Hw]; [by rewrite E0|]. rewrite Hsplit in Hw.
      by destruct (cwd_components cwd). }
    destruct (proj1 (walk_spec os root root _ Hnames) Hw _ _ _ _ E Hf)
      as [?|(_ & real & HE & Hin & Hd)]; [by left|].
    right. exists real. split_and!; [done| |done].
    apply isWithinRoot_spec; [|done|done].
    apply (EvalSymlinks_rooted os Ha) in HE; [done|].
    apply Join_rooted. eauto using follow_rooted.
Qed.

(** A worktree with a directory, a file, a link inside and a link to the
    outside. *)
Definition sample_os : OS :=
  {| Abs p := Some (if is_rooted p then p else "/w/" ++ p)%string;
     Stat p := if in_list p ["/w"; "/w/src"; "/etc"]%string then Some true
               else if p == "/w/notes" then Some false else None;
     Lstat p := if in_list p ["/w"; "/w/src"; "/w/notes"; "/w/link"; "/w/out"; "/etc"]%string
                then Exists else NotExist;
     EvalSymlinks p := if p == "/w/link" then Some "/w/src"%string
                       else if p == "/w/out" then Some "/etc"%string
                       else if is_rooted p then Some p else None;
     EqualFold := eqb |}.

Example sample_cwds :
  map (fun cwd => ValidateCwdContainment sample_os cwd "/w" "worktree_contained")
    ["."; "src"; "link\a"; "src/../src/new/dir"; "notes"; "notes/a"; "out"; "out/a"; "../w"; "a/../../w"; "C:x"; "/w"]%string
  = [None; None; None; None; None; Some PATH_CONTAINMENT; Some PATH_CONTAINMENT; Some PATH_CONTAINMENT;
     Some PATH_CONTAINMENT; Some PATH_CONTAINMENT; Some PATH_CONTAINMENT; Some PATH_CONTAINMENT].
Proof. vm_compute. reflexivity. Qed.

Lemma sample_os_rooted : rooted_answers sample_os.
Proof.
  split; cbn [Abs EvalSymlinks sample_os]; intros p q.
  - intros [= <-]. destruct (is_rooted p) eqn:E; [done|]. reflexivity.
  - intros Hp. destruct (p == "/w/link"); [by intros [= <-]|].
    destruct (p == "/w/out"); [by intros [= <-]|]. rewrite Hp. by intros [= <-].
Qed.

Lemma ValidateCwdContainment_contained_witness :
  ValidateCwdContainment sample_os "link\a" "/w" "worktree_contained" = None /\
  exists root, canonical_root sample_os "/w" = Some root /\ Stat sample_os root = Some true.
Proof.
  split; [vm_compute; reflexivity|].
  destruct (ValidateCwdContainment_contained sample_os "link\a" "/w" "worktree_contained"
              sample_os_rooted ltac:(vm_compute; reflexivity)) as (root & H1 & H2 & _).
  exists root. exact (conj H1 H2).
Defined.
