(* ===== verification/Projection.v ===== *)
(** * Projection: the numbers of a contract (internal/contract/schema.go)

    [projectForValidator] turns a decoded JSON tree, whose numbers are still
    the tokens of the text ([VNum], Go's json.Number), into the tree the schema
    library classifies, with each number an exact int64, uint64 or float64, or
    refuses it.  [math/big.Rat.SetString] is defined on the JSON number syntax
    (the only one a decoder produces); a float64 that is not an integer is the
    pair of an odd numerator and the exponent of its power-of-two denominator,
    and [strconv.ParseFloat], which rounds to nearest, returns the rational
    itself exactly when the rational is such a number. *)

From S2P Require Import Prelude.
From S2P Require Import Domain.

Local Open Scope Z_scope.

(** ** big.Rat.SetString *)

Definition digit_value (a : ascii) : option Z :=
  let n := byte_of a in
  if ((48 <=? n) && (n <=? 57))%N then Some (Z.of_N n - 48) else None.

(** The leading digits of [s]: their value on top of [acc], their number on top
    of [n], and what follows. *)
Fixpoint span_digits (acc : Z) (n : nat) (s : string) : Z * nat * string :=
  match s with
  | EmptyString => (acc, n, s)
  | String a t =>
      match digit_value a with
      | Some d => span_digits (acc * 10 + d) (S n) t
      | None => (acc, n, s)
      end
  end.

(** ".ddd": the mantissa extended with the fraction, and its length. *)
Definition scan_fraction (mantissa : Z) (s : string) : option (Z * Z * string) :=
  match s with
  | String "." t =>
      let '(m, n, rest) := span_digits mantissa 0 t in
      if (n =? 0)%nat then None else Some (m, Z.of_nat n, rest)
  | _ => Some (mantissa, 0, s)
  end.

(** "e[+-]ddd" up to the end of the token. *)
Definition scan_exponent (s : string) : option Z :=
  match s with
  | EmptyString => Some 0
  | String e t =>
      if ((e =? "e") || (e =? "E"))%char then
        let '(sign, digits) := match t with
                               | String "+" u => (1, u)
                               | String "-" u => (-1, u)
                               | _ => (1, t)
                               end in
        match span_digits 0 0 digits with
        | (x, S _, EmptyString) =>
            let exp := sign * x in
            if (min_int64 <=? exp) && (exp <=? max_int64) then Some exp else None
        | _ => None
        end
      else None
  end.

(** A token as mantissa * 10^exponent. *)
Definition scan_number (s : string) : option (Z * Z) :=
  let '(sign, s1) := match s with String "-" t => (-1, t) | _ => (1, s) end in
  let '(i, n, s2) := span_digits 0 0 s1 in
  if (n =? 0)%nat then None
  else match scan_fraction i s2 with
       | None => None
       | Some (m, fraction, s3) =>
           match scan_exponent s3 with
           | None => None
           | Some exp => Some (sign * m, wrap64 (exp - fraction))
           end
       end.

(** A rational in lowest terms with a positive denominator. *)
Definition rat_norm (num den : Z) : Z * Z := (num / Z.gcd num den, den / Z.gcd num den).

(** [new(big.Rat).SetString(s)] *)
Definition SetString (s : string) : option (Z * Z) :=
  match scan_number s with
  | None => None
  | Some (m, e) =>
      if m =? 0 then Some (0, 1)
      else if negb (Z.abs e <=? 1000000) then None
      else Some (if 0 <=? e then (m * 10 ^ e, 1) else rat_norm m (10 ^ (- e)))
  end.

(** ** projectNumber *)

Inductive projected : Type :=
| PNull
| PBool (b : bool)
| PInt (n : Z)                  (* int64 or uint64 *)
| PFloat (num : Z) (k : Z)      (* float64: num / 2^k *)
| PStr (s : string)
| PList (l : list projected)
| PMap (m : list (string * projected)).

(** The exact float64 values that are not integers: 53 bits of precision, the
    least denominator exponent 1074 of the subnormals.  The code parses the
    token to the nearest float64, refuses infinities and compares the rational
    of the result with that of the token: the comparison holds exactly when the
    token's rational, in lowest terms, is one of these values, so the three
    steps are one test here. *)
Definition float64_parts (num den : Z) : option (Z * Z) :=
  let k := Z.log2 den in
  if (den =? 2 ^ k) && (1 <=? k) && (k <=? 1074) && (Z.abs num <? 2 ^ 53) then Some (num, k) else None.

Definition projectNumber (n : string) : option projected :=
  match SetString n with
  | None => None
  | Some (num, den) =>
      if den =? 1 then
        if (min_int64 <=? num) && (num <=? max_int64) then Some (PInt num)
        else if (0 <=? num) && (num <? 2 ^ 64) then Some (PInt num)
        else None
      else match float64_parts num den with
           | Some (a, k) => Some (PFloat a k)
           | None => None
           end
  end.

(** [projectForValidator] *)
Fixpoint projectForValidator (v : value) : option projected :=
  match v with
  | VNum n => projectNumber n
  | VMap m =>
      option_map PMap
        ((fix go (m : list (string * value)) : option (list (string * projected)) :=
            match m with
            | [] => Some []
            | (k, vv) :: rest =>
                match projectForValidator vv with
                | None => None
                | Some p => option_map (cons (k, p)) (go rest)
                end
            end) m)
  | VList l =>
      option_map PList
        ((fix go (l : list value) : option (list projected) :=
            match l with
            | [] => Some []
            | vv :: rest =>
                match projectForValidator vv with
                | None => None
                | Some p => option_map (cons p) (go rest)
                end
            end) l)
  | VNull => Some PNull
  | VBool b => Some (PBool b)
  | VInt n => Some (PInt n)
  | VStr s => Some (PStr s)
  end.

Example project_samples :
  map projectNumber
    ["0"; "-0"; "1.50"; "1e3"; "1.5e1"; "0.1"; "18446744073709551615"; "18446744073709551616";
     "-9223372036854775809"; "100e-2"; "5e-324"; "12.25E+0"; "1.0e-1000001"; ".5"; "1."; "0x1"]%string
  = [Some (PInt 0); Some (PInt 0); Some (PFloat 3 1); Some (PInt 1000); Some (PInt 15); None;
     Some (PInt 18446744073709551615); None; None; Some (PInt 1); None; Some (PFloat 49 2); None;
     None; None; None].
Proof. vm_compute. reflexivity. Qed.

(** ** Exactness *)

Lemma rat_norm_spec num den :
  0 < den ->
  let '(a, b) := rat_norm num den in
  0 < b /\ Z.coprime a b /\ num * b = a * den.
Proof.
  intros Hd. unfold rat_norm. set (g := Z.gcd num den).
  assert (0 < g) as Hg.
  { pose proof (Z.gcd_nonneg num den). destruct (Z.eq_dec g 0) as [E|]; [|lia].
    apply Z.gcd_eq_0_r in E. lia. }
  destruct (Z.gcd_divide_l num den) as [a Ha]. destruct (Z.gcd_divide_r num den) as [b Hb].
  fold g in Ha, Hb.
  assert (num / g = a) as -> by (rewrite Ha; apply Z.div_mul; lia).
  assert (den / g = b) as -> by (rewrite Hb; apply Z.div_mul; lia).
  split_and!; [nia| |rewrite Ha, Hb; ring].
  pose proof (Z.gcd_div_gcd num den g ltac:(lia) eq_refl) as H.
  by rewrite Ha, Hb, !Z.div_mul in H by lia.
Qed.

(** Two fractions in lowest terms with equal values are equal. *)
Lemma lowest_terms_unique a b c d :
  0 < b -> 0 < d -> Z.coprime a b -> Z.coprime c d -> a * d = c * b -> a = c /\ b = d.
Proof.
  unfold Z.coprime. intros Hb Hd Hab Hcd E.
  assert ((b | d)) as H1 by (apply (Z.gauss b a d); [exists c; lia|by rewrite Z.gcd_comm]).
  assert ((d | b)) as H2 by (apply (Z.gauss d c b); [exists a; lia|by rewrite Z.gcd_comm]).
  assert (b = d) as -> by (apply Z.divide_antisym_nonneg; lia || done).
  split; [nia|done].
Qed.

(** The value of a scanned token is [scale_up m e / scale_down e]. *)
Definition scale_up (m e : Z) : Z := m * 10 ^ Z.max e 0.
Definition scale_down (e : Z) : Z := 10 ^ Z.max (- e) 0.

Lemma scale_down_pos e : 0 < scale_down e.
Proof. unfold scale_down. apply Z.pow_pos_nonneg; lia. Qed.

Lemma SetString_spec s m e :
  scan_number s = Some (m, e) -> m = 0 \/ Z.abs e <= 1000000 ->
  exists num den, SetString s = Some (num, den) /\ 0 < den /\ Z.coprime num den /\
                  scale_up m e * den = num * scale_down e.
Proof.
  intros Hs Hm. unfold SetString, scale_up, scale_down. rewrite Hs.
  destruct (m =? 0) eqn:E0.
  { apply Z.eqb_eq in E0 as ->. exists 0, 1. split_and!; [done|lia|apply Z.coprime_1_r|ring]. }
  apply Z.eqb_neq in E0. destruct Hm as [?|He]; [done|].
  rewrite (proj2 (Z.leb_le _ _) He). cbn [negb]. destruct (0 <=? e) eqn:Ee.
  - apply Z.leb_le in Ee. exists (m * 10 ^ e), 1. rewrite (Z.max_l e), (Z.max_r (- e)) by lia.
    split_and!; [done|lia|apply Z.coprime_1_r|ring].
  - apply Z.leb_gt in Ee. rewrite (Z.max_r e), (Z.max_l (- e)) by lia.
    pose proof (rat_norm_spec m (10 ^ (- e)) ltac:(apply Z.pow_pos_nonneg; lia)) as H.
    destruct (rat_norm m (10 ^ - e)) as [a b]. destruct H as (H1 & H2 & H3).
    exists a, b. split_and!; [done..|]. rewrite Z.pow_0_r. lia.
Qed.

Lemma odd_coprime_pow2 a k : 1 <= k -> (Z.odd a = true <-> Z.coprime a (2 ^ k)).
Proof.
  intros Hk. split.
  - intros Ho. apply Z.coprime_pow_r; [lia|]. unfold Z.coprime.
    pose proof (Z.gcd_nonneg a 2). assert (Z.gcd a 2 <= 2) by (apply Z.divide_pos_le; [lia|apply Z.gcd_divide_r]).
    destruct (Z.gcd_divide_l a 2) as [q Hq]. destruct (Z.eq_dec (Z.gcd a 2) 2) as [E|].
    + rewrite E in Hq. rewrite Hq, Z.odd_mul, andb_false_r in Ho. done.
    + destruct (Z.eq_dec (Z.gcd a 2) 0) as [E|]; [|lia]. by apply Z.gcd_eq_0_r in E.
  - intros H. destruct (Z.odd a) eqn:E; [done|]. exfalso.
    rewrite <- Z.negb_even in E. apply negb_false_iff, Z.even_spec in E as [q ->].
    assert ((2 | Z.gcd (2 * q) (2 ^ k))) as Hd.
    { apply Z.gcd_greatest; [by exists q; ring|]. exists (2 ^ (k - 1)).
      rewrite Z.mul_comm, <- Z.pow_succ_r by lia. f_equal. lia. }
    rewrite H in Hd. apply Z.divide_pos_le in Hd; lia.
Qed.

(** C29: A number of a contract reaches the schema check as exactly the number
    its text denotes, or not at all.  A token of the JSON syntax with the value
    m * 10^e projects to the integer n exactly when its value is n and n is an
    int64 or a uint64, and to the float64 a / 2^k (a odd, 53 bits, k at most
    1074) exactly when its value is that fraction; every other number is
    refused, none is rounded. *)
Theorem projectNumber_exact (token : string) (m e : Z) :
  scan_number token = Some (m, e) -> m = 0 \/ Z.abs e <= 1000000 ->
  (forall n, projectNumber token = Some (PInt n) <->
     scale_up m e = n * scale_down e /\ min_int64 <= n < 2 ^ 64) /\
  (forall a k, projectNumber token = Some (PFloat a k) <->
     scale_up m e * 2 ^ k = a * scale_down e /\ 1 <= k <= 1074 /\ Z.odd a = true /\ Z.abs a < 2 ^ 53) /\
  (forall p, projectNumber token = Some p -> (exists n, p = PInt n) \/ (exists a k, p = PFloat a k)).
Proof.
  intros Hs Hm. destruct (SetString_spec _ _ _ Hs Hm) as (num & den & HS & Hden & Hrp & Hval).
  pose proof (scale_down_pos e) as HD. unfold projectNumber. rewrite HS. split_and!.
  - intros n. split.
    + destruct (den =? 1) eqn:E1; [|by destruct (float64_parts num den) as [[? ?]|]].
      apply Z.eqb_eq in E1 as ->. unfold min_int64, max_int64 in *.
      repeat case_match; intros [= <-]; lia.
    + intros [Hn Hr]. destruct (lowest_terms_unique num den n 1) as [-> ->];
        [lia|lia|done|apply Z.coprime_1_r|nia|].
      cbn [Z.eqb Pos.eqb]. unfold min_int64, max_int64 in *. repeat case_match; (done || lia).
  - intros a k. split.
    + destruct (den =? 1); [by repeat case_match|]. unfold float64_parts.
      destruct (_ && _) eqn:E; [|done]. intros [= -> <-].
      apply andb_prop in E as [[[E1%Z.eqb_eq E2%Z.leb_le]%andb_prop E3%Z.leb_le]%andb_prop E4%Z.ltb_lt].
      rewrite <- E1. split_and!; [done..| |done]. eapply odd_coprime_pow2; [exact E2|]. by rewrite <- E1.
    + intros (Hv & Hk & Ho & Ha).
      assert (0 < 2 ^ k) as Hp by (apply Z.pow_pos_nonneg; lia).
      destruct (lowest_terms_unique num den a (2 ^ k)) as [-> ->];
        [lia|done|done|by apply odd_coprime_pow2; [lia|]| |].
      { apply (Z.mul_reg_r _ _ (scale_down e)); [lia|].
        transitivity (scale_up m e * den * 2 ^ k); [rewrite Hval; ring|].
        transitivity (scale_up m e * 2 ^ k * den); [ring|]. rewrite Hv. ring. }
      assert (1 < 2 ^ k) by (apply Z.pow_gt_1; lia).
      destruct (2 ^ k =? 1) eqn:E; [lia|]. unfold float64_parts. rewrite Z.log2_pow2 by lia.
      rewrite Z.eqb_refl, (proj2 (Z.leb_le 1 k)), (proj2 (Z.leb_le k 1074)), (proj2 (Z.ltb_lt _ _) Ha) by lia.
      done.
  - intros p. destruct (den =? 1).
    + repeat case_match; intros [= <-]; left; by eexists.
    + destruct (float64_parts num den) as [[a k]|]; intros [= <-]. right. by eexists _, _.
Qed.

Lemma projectNumber_exact_witness :
  projectNumber "-2.75e0" = Some (PFloat (-11) 2) /\ Z.odd (-11) = true.
Proof.
  assert (projectNumber "-2.75e0" = Some (PFloat (-11) 2)) as H by (vm_compute; reflexivity).
  split; [exact H|].
  exact (proj1 (proj2 (proj2 (proj1 (proj1 (proj2 (projectNumber_exact "-2.75e0" (-275) (-2)
           ltac:(vm_compute; reflexivity) ltac:(right; lia))) (-11) 2) H)))).
Defined.
