(* ===== verification/GoLib.v ===== *)
(** * GoLib: what the audit code uses of Go's standard library

    [time.Time.UTC().Format(time.RFC3339Nano)] and the 4- and 8-byte
    big-endian encodings are defined here.  The regular-expression engine,
    JSON and SHA-256 are the operations of a class: every theorem holds for
    any of them, and those that need more say so with a law of the class. *)

From stdpp Require Import pretty.
From S2P Require Import Prelude.
From S2P Require Import Domain.

Class GoLib := {
  (** [regexp.MustCompile(pattern).ReplaceAllString(src, repl)] *)
  regexp_ReplaceAllString : string -> string -> string -> string;
  (** [json.Marshal] of a map, whose keys it sorts; [None] is its error *)
  json_Marshal : list (string * value) -> option string;
  (** [json.Unmarshal] of an object with [UseNumber] *)
  json_Unmarshal : string -> option (list (string * value));
  (** [json.Marshal] and [json.Unmarshal] (with [UseNumber]) of a TaskContract *)
  json_Marshal_contract : TaskContract -> option string;
  json_Unmarshal_contract : string -> option TaskContract;
  (** [hex.EncodeToString(sha256.Sum256(b))] *)
  sha256_hex : string -> string }.

(** What [encoding/json] documents: decoding an encoded contract gives it back,
    up to the choice between a number and its token. *)
Class GoJSONContract (L : GoLib) (norm : TaskContract -> TaskContract) : Prop :=
  json_contract_roundtrip : forall c text,
    json_Marshal_contract c = Some text -> json_Unmarshal_contract text = Some (norm c).

(** ** Decimal and RFC 3339 *)
Fixpoint digits (n : nat) (z : Z) : string :=
  match n with
  | O => ""
  | S n' => String (ascii_of_N (Z.to_N (48 + (z / 10 ^ Z.of_nat n') mod 10))) (digits n' z)
  end.

Fixpoint trim_zeros (s : string) : string :=
  match s with
  | EmptyString => EmptyString
  | String a t =>
      match trim_zeros t with
      | EmptyString => if (a =? "0")%char then EmptyString else String a EmptyString
      | t' => String a t'
      end
  end.

(** Days since 0001-01-01 to year, month, day (proleptic Gregorian). *)
Definition civil (days : Z) : Z * Z * Z :=
  (let z := days + 306 in
   let era := z / 146097 in
   let doe := z mod 146097 in
   let yoe := (doe - doe / 1460 + doe / 36524 - doe / 146096) / 365 in
   let doy := doe - (365 * yoe + yoe / 4 - yoe / 100) in
   let mp := (5 * doy + 2) / 153 in
   let d := doy - (153 * mp + 2) / 5 + 1 in
   let m := if mp <? 10 then mp + 3 else mp - 9 in
   (yoe + era * 400 + (if m <=? 2 then 1 else 0), m, d))%Z.

(** A year: at least four digits, after its sign. *)
Definition format_year (y : Z) : string :=
  let n := Z.abs y in
  ((if y <? 0 then "-" else "") ++ if n <? 10000 then digits 4 n else pretty n)%Z%string.

Definition formatTime (t : Z) : string :=
  (let secs := t / 1000000000 in
   let nanos := t mod 1000000000 in
   let sod := secs mod 86400 in
   let '(y, m, d) := civil (secs / 86400) in
   let frac := trim_zeros (digits 9 nanos) in
   format_year y ++ "-" ++ digits 2 m ++ "-" ++ digits 2 d ++ "T"
   ++ digits 2 (sod / 3600) ++ ":" ++ digits 2 (sod / 60 mod 60) ++ ":" ++ digits 2 (sod mod 60)
   ++ (if frac == "" then "" else "." ++ frac) ++ "Z")%Z%string.

Example formatTime_zero : formatTime 0 = "0001-01-01T00:00:00Z"%string.
Proof. reflexivity. Qed.
(** 2024-02-29T12:34:56.0789Z *)
Example formatTime_leap :
  formatTime ((62135596800 + 1709210096) * 1000000000 + 78900000) = "2024-02-29T12:34:56.0789Z"%string.
Proof. vm_compute. reflexivity. Qed.

Example formatTime_far :
  formatTime (315569520000 * 1000000000) = "10001-01-01T00:00:00Z"%string /\
  formatTime (- (366 + 365) * 86400 * 1000000000) = "-0001-01-01T00:00:00Z"%string.
Proof. vm_compute. done. Qed.

(** ** Big-endian integers *)
Fixpoint big_endian (n : nat) (z : Z) : string :=
  match n with
  | O => ""
  | S n' => String (ascii_of_N (Z.to_N ((z / 256 ^ Z.of_nat n') mod 256))) (big_endian n' z)
  end.

Lemma big_endian_length n z : String.length (big_endian n z) = n.
Proof. induction n as [|n IH]; cbn; [done|]. by rewrite IH. Qed.

Lemma ascii_of_byte_inj x y :
  (0 <= x < 256)%Z -> (0 <= y < 256)%Z -> ascii_of_N (Z.to_N x) = ascii_of_N (Z.to_N y) -> x = y.
Proof.
  intros Hx Hy H. apply (f_equal N_of_ascii) in H. rewrite !N_ascii_embedding in H by lia. lia.
Qed.

Lemma big_endian_inj n x y :
  big_endian n x = big_endian n y -> (x mod 256 ^ Z.of_nat n = y mod 256 ^ Z.of_nat n)%Z.
Proof.
  induction n as [|n IH]; intros H; [by rewrite !Z.mod_1_r|].
  cbn [big_endian] in H. injection H as Hd Ht. apply IH in Ht.
  apply ascii_of_byte_inj in Hd; [|apply Z.mod_pos_bound; lia..].
  rewrite Nat2Z.inj_succ, Z.pow_succ_r by lia. rewrite (Z.mul_comm 256).
  rewrite !Z.rem_mul_r by lia. congruence.
Qed.
