(* ===== verification/Scrub.v ===== *)
(** * Scrub: internal/audit/scrubber.go

    Redaction of the details of an audit event: sensitive keys, embedded
    credentials, collisions of sanitised keys.  Values are those of
    [Domain.value]; maps are association lists sorted by key, so that equal
    maps are equal lists. *)

From S2P Require Import Prelude.
From S2P Require Import Domain.
From S2P Require Import GoLib.

Definition RedactedMarker : string := "[REDACTED]".

Definition sensitiveKeys : list string :=
  ["password"; "passwd"; "secret"; "client_secret"; "api_key"; "apikey"; "token";
   "access_token"; "refresh_token"; "id_token"; "session_token"; "authorization";
   "proxy_authorization"; "cookie"; "set_cookie"; "private_key"]%string.

Definition bearerRegex : string := "(?i)\b(bearer\s+)[A-Za-z0-9._~+/-]+=*".
Definition githubTokenRegex : string :=
  "\b(gh[opurs]_[A-Za-z0-9_]{16,}|github_pat_[A-Za-z0-9_]{16,})\b".
Definition openAIRegex : string := "\b(sk-(?:proj-)?[A-Za-z0-9_-]{16,})\b".
Definition awsKeyRegex : string := "\b(AKIA[0-9A-Z]{16})\b".
Definition envAssignmentRegex : string :=
  "(?i)\b(OPENAI_API_KEY|API_KEY|TOKEN|ACCESS_TOKEN|PASSWORD|CLIENT_SECRET)=([^\s,;]+)".

Definition normalizeKey (k : string) : string := ReplaceByte "-" "_" (ToLower (TrimSpace k)).
Definition IsSensitiveKey (key : string) : bool := in_list (normalizeKey key) sensitiveKeys.

(** A map as a list sorted by key. *)
Fixpoint map_insert (k : string) (v : value) (m : list (string * value)) : list (string * value) :=
  match m with
  | [] => [(k, v)]
  | (k', v') :: t => if (k <? k')%string then (k, v) :: m else (k', v') :: map_insert k v t
  end.
Fixpoint map_lookup (k : string) (m : list (string * value)) : option value :=
  match m with
  | [] => None
  | (k', v) :: t => if k' == k then Some v else map_lookup k t
  end.

Section Scrub.
Context {L : GoLib}.

Definition ScrubString (s : string) : string :=
  if s == "" then s
  else
    let s := regexp_ReplaceAllString bearerRegex s ("${1}" ++ RedactedMarker) in
    let s := regexp_ReplaceAllString envAssignmentRegex s ("${1}=" ++ RedactedMarker) in
    let s := regexp_ReplaceAllString githubTokenRegex s RedactedMarker in
    let s := regexp_ReplaceAllString openAIRegex s RedactedMarker in
    regexp_ReplaceAllString awsKeyRegex s RedactedMarker.

Definition scrubbed_key (k : string) : string := if IsSensitiveKey k then k else ScrubString k.

(** [None]: an error (a collision of sanitised keys). *)
Fixpoint ScrubValue (v : value) : option value :=
  match v with
  | VStr s => Some (VStr (ScrubString s))
  | VList l =>
      option_map VList
        ((fix each (l : list value) : option (list value) :=
            match l with
            | [] => Some []
            | x :: t =>
                match ScrubValue x, each t with
                | Some x', Some t' => Some (x' :: t')
                | _, _ => None
                end
            end) l)
  | VMap m =>
      option_map VMap
        ((fix each (m res : list (string * value)) : option (list (string * value)) :=
            match m with
            | [] => Some res
            | (k, item) :: t =>
                let outKey := scrubbed_key k in
                match map_lookup outKey res with
                | Some _ => None
                | None =>
                    if IsSensitiveKey k then each t (map_insert outKey (VStr RedactedMarker) res)
                    else match ScrubValue item with
                         | None => None
                         | Some scrubbed => each t (map_insert outKey scrubbed res)
                         end
                end
            end) m [])
  | _ => Some v
  end.

Definition SanitizeDetails (details : list (string * value))
    : option (list (string * value) * string) :=
  match details with
  | [] => Some ([], "{}"%string)
  | _ =>
      match ScrubValue (VMap details) with
      | Some (VMap scrubbed) =>
          match json_Marshal scrubbed with
          | Some text => Some (scrubbed, text)
          | None => None
          end
      | _ => None
      end
  end.

Definition SanitizeAuditEvent (event : AuditEvent) : option (AuditEvent * string) :=
  match SanitizeDetails (ev_Details event) with
  | None => None
  | Some (scrubbedDetails, detailsJSON) =>
      Some (event <| ev_Actor := ScrubString (ev_Actor event) |> <| ev_Details := scrubbedDetails |>,
            detailsJSON)
  end.

(** Sanitising keeps the identity fields and the timestamp. *)
Lemma SanitizeAuditEvent_identity event event' json :
  SanitizeAuditEvent event = Some (event', json) ->
  ev_EventID event' = ev_EventID event /\ ev_EventType event' = ev_EventType event /\
  ev_Timestamp event' = ev_Timestamp event /\ ev_TaskID event' = ev_TaskID event /\
  ev_ContractID event' = ev_ContractID event /\ ev_AttemptID event' = ev_AttemptID event /\
  ev_PairID event' = ev_PairID event.
Proof.
  unfold SanitizeAuditEvent. destruct (SanitizeDetails _) as [[m j]|]; [|done].
  intros [= <- _]. by cbn.
Qed.
End Scrub.

Example sensitive_keys_found :
  map IsSensitiveKey ["Api-Key"; " TOKEN "; "Set-Cookie"; "session_id"; "tokens"]%string
  = [true; true; true; false; false].
Proof. reflexivity. Qed.
