(* ===== verification/Redaction.v ===== *)
(** * Redaction: what ScrubValue does to any Go value

    The whole of [ScrubValue] of internal/audit/scrubber.go, the reflection
    cases included: values of named map, slice, pointer and struct types, which
    [Domain.value] does not tell apart, are constructors of [any].  Scrub.v
    keeps the part the store runs, on values that are already plain; the two
    are proved to agree there. *)

From Stdlib Require Import Permutation.
From S2P Require Import Prelude.
From S2P Require Import Domain.
From S2P Require Import GoLib.
From S2P Require Import Scrub.

Definition RedactedBinaryMarker : string := "[REDACTED_BINARY]".

(** The dynamic types the switch distinguishes.  Entries of a map have distinct
    keys, in the order it is iterated. *)
Inductive any : Type :=
| ANil
| ABytes                                  (* []byte *)
| AString (s : string)
| ANumber (token : string)                (* json.Number, a float *)
| ABool (b : bool)
| AInt (n : Z)
| AMap (m : list (string * any))          (* map[string]any *)
| AList (l : list any)                    (* []any *)
| ATypedMap (string_key : bool) (m : list (string * any)) (* a named or otherwise typed map *)
| ASlice (l : list any)                   (* a typed slice or array *)
| APtr (p : option any)
| AStruct (json : option (option any))    (* json.Marshal, then Decode with UseNumber *)
| AOther.                                 (* any other kind: a named string, a function, ... *)

Inductive scrub_error : Type :=
| ErrSanitizedKeyCollision | ErrNonStringMapKey | ErrMarshalStruct | ErrDecodeStruct | ErrUnsupportedType.

Section Redaction.
Context {L : GoLib}.

(** The loop over a map and the loop over a slice, given the recursive call. *)
Section Loops.
Context (rec : any -> scrub_error + value).
Fixpoint scrub_map (m : list (string * any)) (res : list (string * value))
    : scrub_error + list (string * value) :=
  match m with
  | [] => inr res
  | (k, item) :: t =>
      let outKey := scrubbed_key k in
      match map_lookup outKey res with
      | Some _ => inl ErrSanitizedKeyCollision
      | None =>
          if IsSensitiveKey k then scrub_map t (map_insert outKey (VStr RedactedMarker) res)
          else match rec item with
               | inl e => inl e
               | inr scrubbed => scrub_map t (map_insert outKey scrubbed res)
               end
      end
  end.
Fixpoint scrub_list (l : list any) : scrub_error + list value :=
  match l with
  | [] => inr []
  | x :: t =>
      match rec x with
      | inl e => inl e
      | inr x' => match scrub_list t with inl e => inl e | inr t' => inr (x' :: t') end
      end
  end.
End Loops.

Definition as_map (r : scrub_error + list (string * value)) : scrub_error + value :=
  match r with inl e => inl e | inr m => inr (VMap m) end.
Definition as_list (r : scrub_error + list value) : scrub_error + value :=
  match r with inl e => inl e | inr l => inr (VList l) end.

Fixpoint ScrubAny (v : any) : scrub_error + value :=
  match v with
  | ANil => inr VNull
  | ABytes => inr (VStr RedactedBinaryMarker)
  | AString s => inr (VStr (ScrubString s))
  | ANumber token => inr (VNum token)
  | ABool b => inr (VBool b)
  | AInt n => inr (VInt n)
  | AMap m => as_map (scrub_map ScrubAny m [])
  | AList l => as_list (scrub_list ScrubAny l)
  | ATypedMap false m => inl ErrNonStringMapKey
  | ATypedMap true m => as_map (scrub_map ScrubAny m [])
  | ASlice l => as_list (scrub_list ScrubAny l)
  | APtr None => inr VNull
  | APtr (Some p) => ScrubAny p
  | AStruct None => inl ErrMarshalStruct
  | AStruct (Some None) => inl ErrDecodeStruct
  | AStruct (Some (Some decoded)) => ScrubAny decoded
  | AOther => inl ErrUnsupportedType
  end.

(** ** What may be written *)

(** A value the scrubber takes: outside sensitive keys it holds no map whose keys
    are not strings, no two keys of a map are scrubbed to one, every struct has
    a JSON form, and everything else is of a type the scrubber knows.  That is
    not "has a JSON form": a named string or integer type has one and falls to
    the default branch ([AOther]), and a NaN is taken here like every float, and
    refused by [json.Marshal] afterwards. *)
Fixpoint distinct (l : list string) : bool :=
  match l with [] => true | x :: t => negb (in_list x t) && distinct t end.
Fixpoint scrubbable (v : any) : bool :=
  match v with
  | AMap m | ATypedMap true m =>
      distinct (map (fun e => scrubbed_key (fst e)) m)
      && forallb (fun e => match e with (k, x) => IsSensitiveKey k || scrubbable x end) m
  | AList l | ASlice l => forallb scrubbable l
  | APtr (Some p) => scrubbable p
  | AStruct json => match json with Some (Some decoded) => scrubbable decoded | _ => false end
  | ATypedMap false _ | AOther => false
  | _ => true
  end.

(** What is written of a map entry: under a sensitive key the marker, whatever
    the value was; otherwise a scrubbed key with a redacted value. *)
Inductive redacted_entry (R : any -> value -> Prop) : string * any -> string * value -> Prop :=
| re_sensitive k x : IsSensitiveKey k = true -> redacted_entry R (k, x) (k, VStr RedactedMarker)
| re_scrubbed k x x' : IsSensitiveKey k = false -> R x x' -> redacted_entry R (k, x) (ScrubString k, x').

(** What is written of a value: every string scrubbed, every byte slice
    replaced, and of every map one entry for each of its entries. *)
Inductive redacted : any -> value -> Prop :=
| rd_nil : redacted ANil VNull
| rd_bytes : redacted ABytes (VStr RedactedBinaryMarker)
| rd_string s : redacted (AString s) (VStr (ScrubString s))
| rd_number token : redacted (ANumber token) (VNum token)
| rd_bool b : redacted (ABool b) (VBool b)
| rd_int n : redacted (AInt n) (VInt n)
| rd_map v m p m' : v = AMap m \/ v = ATypedMap true m ->
    Forall2 (redacted_entry redacted) m p -> Permutation p m' -> distinct (map fst m') = true ->
    redacted v (VMap m')
| rd_list v l l' : v = AList l \/ v = ASlice l -> Forall2 redacted l l' -> redacted v (VList l')
| rd_null_ptr : redacted (APtr None) VNull
| rd_ptr v w : redacted v w -> redacted (APtr (Some v)) w
| rd_struct v w : redacted v w -> redacted (AStruct (Some (Some v))) w.

(** ** Lemmas *)
#[local] Arguments IsSensitiveKey : simpl never.
#[local] Arguments scrubbed_key : simpl never.

Lemma distinct_nodup l : distinct l = true <-> List.NoDup l.
Proof.
  induction l as [|x l IH]; cbn; [split; [constructor|done]|]. rewrite andb_true_iff, IH, negb_true_iff.
  rewrite NoDup_cons_iff. split; intros [Hx Hl]; split; try done.
  - intros Hin. apply in_list_true in Hin. congruence.
  - destruct (in_list x l) eqn:E; [|done]. by apply in_list_true in E.
Qed.

Lemma map_insert_permutation k v m : Permutation ((k, v) :: m) (map_insert k v m).
Proof.
  induction m as [|[k' v'] t IH]; cbn; [done|]. destruct (k <? k')%string; [done|].
  rewrite perm_swap. by constructor.
Qed.

Lemma map_lookup_none k m : map_lookup k m = None <-> ~ In k (map fst m).
Proof.
  induction m as [|[k' v'] t IH]; cbn; [split; [by intros _ []|done]|].
  destruct (k' == k) eqn:E; breflect; [subst; split; [done|]; intros []; by left|].
  rewrite IH. split; [intros Hn [?|?]; done|]. intros Hn ?. apply Hn. by right.
Qed.

Lemma map_insert_keys k v m x : In x (map fst (map_insert k v m)) <-> x = k \/ In x (map fst m).
Proof.
  transitivity (In x (map fst ((k, v) :: m))).
  - split; apply Permutation_in, Permutation_map; [symmetry|]; apply map_insert_permutation.
  - cbn. split; intros [?|?]; auto.
Qed.

(** The entries of [m] can be added to [res] one after the other. *)
Section Entries.
Context (rec : any -> scrub_error + value) (R : any -> value -> Prop) (ok : any -> bool).
Definition decides (x : any) : Prop :=
  match rec x with inr w => ok x = true /\ R x w | inl _ => ok x = false end.

Definition fits (m : list (string * any)) (res : list (string * value)) : Prop :=
  List.NoDup (map (fun e => scrubbed_key (fst e)) m) /\
  (forall e, In e m -> ~ In (scrubbed_key (fst e)) (map fst res)) /\
  (forall k x, In (k, x) m -> IsSensitiveKey k = false -> ok x = true).

Lemma fits_cons k x t v res :
  ~ In (scrubbed_key k) (map fst res) -> (IsSensitiveKey k = false -> ok x = true) ->
  fits ((k, x) :: t) res <-> fits t (map_insert (scrubbed_key k) v res).
Proof.
  intros Hn Hx. unfold fits. cbn. rewrite NoDup_cons_iff, in_map_iff. split.
  - intros ((Hk & Hd) & Hr & Ho). split; [done|]. split.
    + intros e He [E|Hin]%map_insert_keys; [apply Hk; by exists e|]. eapply Hr; eauto.
    + intros k' x' Hin. apply Ho. by right.
  - intros (Hd & Hr & Ho). split; [split; [|done]|split].
    + intros (e & E & He). eapply (Hr e He), map_insert_keys. by left.
    + intros e [<-|He]; [done|]. intros Hin. eapply (Hr e He), map_insert_keys. by right.
    + intros k' x' [[= <- <-]|Hin]; [done|]. by eapply Ho.
Qed.

Lemma scrub_map_decides m : (forall k x, In (k, x) m -> decides x) -> forall res,
  match scrub_map rec m res with
  | inr out => fits m res /\
      exists p, Forall2 (redacted_entry R) m p /\ Permutation (p ++ res) out
  | inl _ => ~ fits m res
  end.
Proof.
  induction m as [|[k x] t IH]; intros Hrec res; cbn.
  { split; [split; [constructor|done]|]. exists []. by split; [constructor|]. }
  assert (forall k x, In (k, x) t -> decides x) as Ht by (intros; eapply Hrec; right; eauto).
  destruct (map_lookup (scrubbed_key k) res) eqn:El.
  { intros (_ & Hr & _). specialize (Hr _ (or_introl eq_refl)). apply map_lookup_none in Hr. cbn in Hr. congruence. }
  apply map_lookup_none in El.
  assert (forall x' p out v, Permutation (p ++ map_insert x' v res) out ->
    Permutation (((x', v) :: p) ++ res) out) as Hperm.
  { intros x' p out v <-. cbn. rewrite Permutation_middle. apply Permutation_app_head, map_insert_permutation. }
  destruct (IsSensitiveKey k) eqn:Es.
  - specialize (IH Ht (map_insert (scrubbed_key k) (VStr RedactedMarker) res)).
    destruct (scrub_map _ t _) as [e|out].
    + intros Hf. apply IH. apply (fits_cons k x); [done|congruence|done].
    + destruct IH as [Hf (p & Hp & Hq)]. split; [eapply fits_cons; [done|congruence|done]|].
      eexists. split; [|by apply Hperm]. constructor; [|done].
      replace (scrubbed_key k) with k by (unfold scrubbed_key; by rewrite Es). by constructor.
  - pose proof (Hrec k x (or_introl eq_refl)) as Hx. unfold decides in Hx. destruct (rec x) as [e|w].
    { intros (_ & _ & Ho). rewrite (Ho k x (or_introl eq_refl) Es) in Hx. done. }
    destruct Hx as [Hok Hw]. specialize (IH Ht (map_insert (scrubbed_key k) w res)).
    destruct (scrub_map _ t _) as [e|out].
    + intros Hf. apply IH. by apply (fits_cons k x).
    + destruct IH as [Hf (p & Hp & Hq)]. split; [by eapply fits_cons|].
      eexists. split; [|by apply Hperm]. constructor; [|done].
      replace (scrubbed_key k) with (ScrubString k) by (unfold scrubbed_key; by rewrite Es). by constructor.
Qed.

Lemma scrub_list_decides l : (forall x, In x l -> decides x) ->
  match scrub_list rec l with
  | inr out => forallb ok l = true /\ Forall2 R l out
  | inl _ => forallb ok l = false
  end.
Proof.
  induction l as [|x t IH]; intros Hrec; cbn; [by split; [|constructor]|].
  pose proof (Hrec x (or_introl eq_refl)) as Hx. unfold decides in Hx.
  destruct (rec x) as [e|w]; [by rewrite Hx|]. destruct Hx as [-> Hw].
  specialize (IH (fun y Hy => Hrec y (or_intror Hy))). destruct (scrub_list rec t) as [e|out]; [done|].
  destruct IH as [-> Hout]. by split; [|constructor].
Qed.
End Entries.

(** Induction over the values directly inside a value. *)
Inductive inside : any -> any -> Prop :=
| in_map k x m b v : In (k, x) m -> v = AMap m \/ v = ATypedMap b m -> inside x v
| in_slice x l v : In x l -> v = AList l \/ v = ASlice l -> inside x v
| in_ptr x : inside x (APtr (Some x))
| in_struct x : inside x (AStruct (Some (Some x))).

Lemma any_induction (P : any -> Prop) :
  (forall v, (forall x, inside x v -> P x) -> P v) -> forall v, P v.
Proof.
  intros H. fix IH 1. intros v. apply H. intros x Hx.
  destruct v as [| | | | | |m|l|b m|l|[p|]|[[j|]|]|]; try solve [clear IH; inversion Hx; naive_solver].
  1, 3: cut (forall k y, In (k, y) m -> P y); [intros Hm; clear IH; inversion Hx; naive_solver|];
    clear Hx; induction m as [|[k' z] m IHm]; [intros k y []|]; intros k y [E|Hin];
    [injection E as _ <-; apply IH | by eapply IHm].
  1, 2: cut (forall y, In y l -> P y); [intros Hl; clear IH; inversion Hx; naive_solver|];
    clear Hx; induction l as [|z l IHl]; [intros y []|]; intros y [<-|Hin]; [apply IH | by apply IHl].
  - replace x with p by (clear IH; inversion Hx; naive_solver). apply IH.
  - replace x with j by (clear IH; inversion Hx; naive_solver). apply IH.
Qed.


(** Redacted values can be read off any list of entries they were made from. *)
Lemma forall2_keys R m p :
  Forall2 (redacted_entry R) m p -> map fst p = map (fun e => scrubbed_key (fst e)) m.
Proof.
  induction 1 as [|e e' m p He _ IH]; [done|]. cbn. f_equal; [|done].
  destruct He as [k x Hk|k x x' Hk _]; unfold scrubbed_key; cbn; by rewrite Hk.
Qed.

Lemma scrubbable_map m :
  distinct (map (fun e => scrubbed_key (fst e)) m)
  && forallb (fun e => match e with (k, x) => IsSensitiveKey k || scrubbable x end) m = true
  <-> fits scrubbable m [].
Proof.
  unfold fits. rewrite andb_true_iff, distinct_nodup, forallb_forall. split.
  - intros [Hd Hf]. split_and!; [done|by intros e _ []|]. intros k x Hin Hk.
    apply Hf in Hin. by rewrite Hk in Hin.
  - intros (Hd & _ & Hf). split; [done|]. intros [k x] Hin. destruct (IsSensitiveKey k) eqn:Ek; [done|].
    by eapply Hf.
Qed.

Lemma map_decides v m :
  v = AMap m \/ v = ATypedMap true m ->
  (forall k x, In (k, x) m -> decides ScrubAny redacted scrubbable x) ->
  decides ScrubAny redacted scrubbable v.
Proof.
  intros Hv Hm. unfold decides. pose proof (scrub_map_decides _ _ _ m Hm []) as H.
  replace (ScrubAny v) with (as_map (scrub_map ScrubAny m [])) by (by destruct Hv; subst).
  assert (scrubbable v = true <-> fits scrubbable m []) as Hs
    by (rewrite <- scrubbable_map; by destruct Hv; subst).
  destruct (scrub_map _ m []) as [e|out]; cbn; [by apply not_true_is_false; rewrite Hs|].
  destruct H as [Hf (p & Hp & Hq)]. rewrite app_nil_r in Hq. split; [by apply Hs|].
  eapply rd_map; try done. apply distinct_nodup.
  eapply Permutation_NoDup; [by apply Permutation_map|]. rewrite (forall2_keys _ _ _ Hp). apply Hf.
Qed.

Lemma list_decides v l :
  v = AList l \/ v = ASlice l -> (forall x, In x l -> decides ScrubAny redacted scrubbable x) ->
  decides ScrubAny redacted scrubbable v.
Proof.
  intros Hv Hl. unfold decides. pose proof (scrub_list_decides _ _ _ l Hl) as H.
  replace (ScrubAny v) with (as_list (scrub_list ScrubAny l)) by (by destruct Hv; subst).
  replace (scrubbable v) with (forallb scrubbable l) by (by destruct Hv; subst).
  destruct (scrub_list _ l) as [e|out]; cbn; [done|]. destruct H as [Hok Hr].
  split; [done|]. by eapply rd_list.
Qed.

(** C17: Scrubbing either redacts or refuses.  A value is scrubbed exactly when,
    outside sensitive keys, it is made of the types the scrubber knows, its maps
    have string keys, no two keys of a map are scrubbed to one and its structs
    have a JSON form ([scrubbable]); every other value is refused with an error,
    named strings and integers included.  Of a value that is scrubbed, at every
    depth, through maps, slices, pointers and structs, each value under a
    sensitive key is replaced by the marker, each other string and key is
    scrubbed, byte slices are replaced, and no entry is lost or added. *)
Theorem ScrubAny_redacts (v : any) :
  match ScrubAny v with
  | inr w => scrubbable v = true /\ redacted v w
  | inl _ => scrubbable v = false
  end.
Proof.
  induction v as [v IH] using any_induction. fold (decides ScrubAny redacted scrubbable v).
  destruct v as [| | | | | |m|l|[] m|l|[p|]|[[j|]|]|]; try by repeat constructor.
  - apply (map_decides _ m); [by left|]. intros k x Hx. apply IH. eapply (in_map _ _ _ true); eauto.
  - apply (list_decides _ l); [by left|]. intros x Hx. apply IH. eapply in_slice; eauto.
  - apply (map_decides _ m); [by right|]. intros k x Hx. apply IH. eapply in_map; eauto.
  - apply (list_decides _ l); [by right|]. intros x Hx. apply IH. eapply in_slice; eauto.
  - pose proof (IH p (in_ptr p)) as H. unfold decides in *. cbn. destruct (ScrubAny p); [done|].
    destruct H. split; [done|by constructor].
  - pose proof (IH j (in_struct j)) as H. unfold decides in *. cbn. destruct (ScrubAny j); [done|].
    destruct H. split; [done|by constructor].
Qed.

(** ** The values the store scrubs *)
Fixpoint embed (v : value) : any :=
  match v with
  | VNull => ANil
  | VBool b => ABool b
  | VInt n => AInt n
  | VNum token => ANumber token
  | VStr s => AString s
  | VList l => AList (map embed l)
  | VMap m => AMap (map (fun e => match e with (k, x) => (k, embed x) end) m)
  end.
Definition or_collision {A} (o : option A) : scrub_error + A :=
  match o with Some w => inr w | None => inl ErrSanitizedKeyCollision end.

(** On them [ScrubAny] is the [ScrubValue] of Scrub.v, whose only error is a
    collision of keys. *)
Lemma ScrubAny_plain : forall v, ScrubAny (embed v) = or_collision (ScrubValue v).
Proof.
  fix IH 1. intros [| | | | |l|m]; try reflexivity; cbn [ScrubAny ScrubValue embed].
  - match goal with |- _ = or_collision (option_map VList (?each l)) =>
      cut (scrub_list ScrubAny (map embed l) = or_collision (each l));
      [intros ->; by destruct (each l)|] end.
    induction l as [|x t IHt]; [done|]. cbn [map scrub_list]. rewrite IH, IHt.
    destruct (ScrubValue x); cbn; [|done]. by match goal with |- context [or_collision ?o] => destruct o end.
  - match goal with |- _ = or_collision (option_map VMap (?each m [])) =>
      cut (forall res, scrub_map ScrubAny (map (fun e => match e with (k, x) => (k, embed x) end) m) res
        = or_collision (each m res));
      [intros ->; by destruct (each m [])|] end.
    induction m as [|[k x] t IHt]; intros res; [done|]. cbn [map scrub_map].
    destruct (map_lookup (scrubbed_key k) res); [done|]. destruct (IsSensitiveKey k); [apply IHt|].
    rewrite IH. destruct (ScrubValue x); cbn; [apply IHt|done].
Qed.
End Redaction.
