(* ===== verification/Validator.v ===== *)
(** * Validator: the task contract validator (internal/contract/validator.go,
    schema.go, internal/domain/verification_policy.go)

    [ValidateRaw]: schema validation of the decoded text, the typed decode, and
    [ValidateContract]: lineage, immutability, scope patterns and verification
    requests.  The JSON decoder and the JSON schema library are the operations
    of two classes; their numbers (Projection.v) and paths (PathPolicy.v) are
    definitions. *)

From S2P Require Import Prelude.
From S2P Require Import Domain.
From S2P Require Import GoLib.
From S2P Require Import Contract.
From S2P Require Import PathPolicy.
From S2P Require Import Projection.

Record VerificationProfilePolicy := mkVerificationProfilePolicy {
  vp_ProfileID : string; vp_ParameterSchema : option (list (string * value));
  vp_CwdPolicy : string; vp_MaxTimeoutSeconds : Z; vp_AllowedCapabilities : option (list string) }.

(** [VerificationPolicyCatalog.LookupProfile] *)
Definition VerificationPolicyCatalog : Type := string -> option VerificationProfilePolicy.

(** [encoding/json]'s decoder with [UseNumber]: the value at the front of the
    input and the input not yet read. *)
Class GoDecoder := {
  Decode_any : string -> option (value * string);
  Decode_contract : string -> option (TaskContract * string) }.

(** github.com/google/jsonschema-go *)
Class JSONSchema := {
  Schema : Type;
  Resolved : Type;
  Unmarshal_Schema : string -> option Schema;   (* json.Unmarshal into a Schema *)
  Resolve : Schema -> option Resolved;          (* schema.Resolve(nil) *)
  Resolved_Validate : Resolved -> projected -> bool }.

Section Validator.
Context {L : GoLib} {D : GoDecoder} {J : JSONSchema}.

(** A further [Decode] returns [io.EOF]: only white space is left. *)
Definition json_space (a : ascii) : bool :=
  in_list (byte_of a) [9; 10; 13; 32]%N.
Definition at_EOF (rest : string) : bool := all_bytes json_space rest.

(** [CompileSchema] *)
Definition CompileSchema (schemaBytes : string) : option Resolved :=
  if schemaBytes == "" then None
  else match Unmarshal_Schema schemaBytes with
       | None => None
       | Some schema => Resolve schema
       end.

(** [CompileProfileSchema]; [Some None] is its (nil, nil). *)
Definition CompileProfileSchema (paramSchema : option (list (string * value))) : option (option Resolved) :=
  match paramSchema with
  | None | Some [] => Some None
  | Some m =>
      match json_Marshal m with
      | None => None
      | Some schemaBytes => option_map Some (CompileSchema schemaBytes)
      end
  end.

(** [ParseAndValidateRaw] *)
Definition ParseAndValidateRaw (rawJSON : string) (resolved : option Resolved) : Category + value :=
  if rawJSON == "" then inl SCHEMA
  else match resolved with
       | None => inl SCHEMA
       | Some resolved =>
           match Decode_any rawJSON with
           | None => inl SCHEMA
           | Some (authoritative, rest) =>
               if negb (at_EOF rest) then inl SCHEMA
               else match projectForValidator authoritative with
                    | None => inl SCHEMA
                    | Some projected =>
                        if Resolved_Validate resolved projected then inr authoritative else inl SCHEMA
                    end
           end
       end.

Record TaskContractValidator := mkValidator {
  canonicalSchema : option Resolved;
  catalog : option VerificationPolicyCatalog }.

(** [NewValidator] *)
Definition NewValidator (canonicalSchemaBytes : string) (cat : option VerificationPolicyCatalog)
    : option TaskContractValidator :=
  if canonicalSchemaBytes == "" then None
  else match CompileSchema canonicalSchemaBytes with
       | None => None
       | Some resolved => Some (mkValidator (Some resolved) cat)
       end.

Context (os : OS).

(** The parameters of a request against the schema of its profile. *)
Definition parameters_ok (policy : VerificationProfilePolicy) (req : VerificationRequest) : bool :=
  match vp_ParameterSchema policy with
  | None | Some [] => false
  | Some schema =>
      match vr_Parameters req with
      | None => false
      | Some parameters =>
          match CompileProfileSchema (Some schema) with
          | None | Some None => false
          | Some (Some resolvedParamSchema) =>
              match projectForValidator (VMap parameters) with
              | None => false
              | Some projectedParams => Resolved_Validate resolvedParamSchema projectedParams
              end
          end
      end
  end.

(** The body of the loop of [ValidateVerificationRequests]. *)
Definition validate_request (v : TaskContractValidator) (worktreeRoot : string)
    (req : VerificationRequest) : option Category :=
  if vr_ID req == "" then Some VERIFICATION_PROFILE
  else if vr_ProfileID req == "" then Some VERIFICATION_PROFILE
  else match catalog v with
       | None => Some VERIFICATION_PROFILE
       | Some LookupProfile =>
           match LookupProfile (vr_ProfileID req) with
           | None => Some VERIFICATION_PROFILE
           | Some policy =>
               if vp_ProfileID policy == "" then Some VERIFICATION_PROFILE
               else if vp_ProfileID policy != vr_ProfileID req then Some VERIFICATION_PROFILE
               else if (vp_MaxTimeoutSeconds policy <=? 0)%Z then Some VERIFICATION_PROFILE
               else if (vr_TimeoutSeconds req <? 0)%Z then Some VERIFICATION_PROFILE
               else if (vp_MaxTimeoutSeconds policy <? vr_TimeoutSeconds req)%Z
                 then Some VERIFICATION_PROFILE
               else if negb (parameters_ok policy req) then Some VERIFICATION_PROFILE
               else
                 let cwdPolicy := if vp_CwdPolicy policy == "" then "worktree_root"%string
                                  else vp_CwdPolicy policy in
                 ValidateCwdContainment os (vr_Cwd req) worktreeRoot cwdPolicy
           end
       end.

(** [ValidateVerificationRequests] *)
Fixpoint ValidateVerificationRequests (v : TaskContractValidator)
    (requests : list VerificationRequest) (worktreeRoot : string) : option Category :=
  match requests with
  | [] => None
  | req :: rest =>
      match validate_request v worktreeRoot req with
      | Some e => Some e
      | None => ValidateVerificationRequests v rest worktreeRoot
      end
  end.

(** A slice that may be nil, ranged over. *)
Definition range {A} (l : option (list A)) : list A := default [] l.

(** [ValidateContract] *)
Definition ValidateContract (v : TaskContractValidator) (contract previous : option TaskContract)
    (worktreeRoot : string) : option Category :=
  match contract with
  | None => Some SCHEMA
  | Some c =>
      match ValidateRevisionLineage contract previous with
      | Some e => Some e
      | None =>
          match (match previous with
                 | Some p => if c_IsImmutable p then ValidateImmutability previous contract else None
                 | None => None
                 end) with
          | Some e => Some e
          | None =>
              match ValidateScopePatterns (range (c_AllowedScope c)) with
              | Some e => Some e
              | None =>
                  match ValidateScopePatterns (range (c_ForbiddenScope c)) with
                  | Some e => Some e
                  | None => ValidateVerificationRequests v (range (c_VerificationRequests c)) worktreeRoot
                  end
              end
          end
      end
  end.

(** [ValidateRaw] *)
Definition ValidateRaw (v : TaskContractValidator) (rawJSON : string) (previous : option TaskContract)
    (worktreeRoot : string) : Category + TaskContract :=
  match ParseAndValidateRaw rawJSON (canonicalSchema v) with
  | inl e => inl e
  | inr _ =>
      match Decode_contract rawJSON with
      | None => inl SCHEMA
      | Some (contract, rest) =>
          if negb (at_EOF rest) then inl SCHEMA
          else match ValidateContract v (Some contract) previous worktreeRoot with
               | Some e => inl e
               | None => inr contract
               end
      end
  end.

(** ** What an accepted contract satisfies *)

(** A request the host may run: a profile of the catalog under its own name, a
    timeout below the profile's ceiling, parameters its schema accepts, a
    working directory contained in the worktree. *)
Definition admissible (v : TaskContractValidator) (worktreeRoot : string) (r : VerificationRequest) : Prop :=
  vr_ID r <> ""%string /\ vr_ProfileID r <> ""%string /\
  exists LookupProfile policy schema resolved parameters projected,
    catalog v = Some LookupProfile /\ LookupProfile (vr_ProfileID r) = Some policy /\
    vp_ProfileID policy = vr_ProfileID r /\
    (0 < vp_MaxTimeoutSeconds policy)%Z /\ (0 <= vr_TimeoutSeconds r <= vp_MaxTimeoutSeconds policy)%Z /\
    vp_ParameterSchema policy = Some schema /\ schema <> [] /\
    CompileProfileSchema (Some schema) = Some (Some resolved) /\
    vr_Parameters r = Some parameters /\ projectForValidator (VMap parameters) = Some projected /\
    Resolved_Validate resolved projected = true /\
    ValidateCwdContainment os (vr_Cwd r) worktreeRoot
      (if vp_CwdPolicy policy == "" then "worktree_root"%string else vp_CwdPolicy policy) = None.

Lemma parameters_ok_spec policy r :
  parameters_ok policy r = true <->
  exists schema resolved parameters projected,
    vp_ParameterSchema policy = Some schema /\ schema <> [] /\
    CompileProfileSchema (Some schema) = Some (Some resolved) /\
    vr_Parameters r = Some parameters /\ projectForValidator (VMap parameters) = Some projected /\
    Resolved_Validate resolved projected = true.
Proof.
  unfold parameters_ok. split.
  - destruct (vp_ParameterSchema policy) as [[|s l]|]; [done| |done].
    destruct (vr_Parameters r) as [ps|]; [|done].
    destruct (CompileProfileSchema (Some (s :: l))) as [[resolved|]|] eqn:Ec; [|done..].
    destruct (projectForValidator (VMap ps)) as [p|] eqn:Ep; [|done].
    intros Hv. by exists (s :: l), resolved, ps, p.
  - intros (schema & resolved & ps & p & -> & Hne & -> & -> & -> & Hv). by destruct schema.
Qed.

Lemma validate_request_spec v root r : validate_request v root r = None <-> admissible v root r.
Proof.
  unfold validate_request, admissible. split.
  - repeat (case_match; [done|]). destruct (catalog v) as [look|]; [|done].
    destruct (look (vr_ProfileID r)) as [policy|] eqn:El; [|done].
    repeat (case_match; [done|]). intros Hc. breflect.
    match goal with Hp : parameters_ok _ _ = true |- _ =>
      apply parameters_ok_spec in Hp as (schema & resolved & ps & p & Hps) end.
    destruct_and? Hps. split; [done|]. split; [done|].
    exists look, policy, schema, resolved, ps, p. split_and!; done || lia.
  - intros (H1 & H2 & look & policy & schema & resolved & ps & p & -> & Hl & Hid & Hmax & Ht & Hps).
    rewrite Hl, !(proj2 (eqb_false _ _)) by congruence. rewrite Hid, eqb_refl. cbn [negb].
    rewrite (proj2 (Z.leb_gt _ _)), !(proj2 (Z.ltb_ge _ _)) by lia.
    destruct_and? Hps.
    rewrite (proj2 (parameters_ok_spec policy r)) by (exists schema, resolved, ps, p; split_and!; done).
    done.
Qed.

Lemma ValidateVerificationRequests_spec v root requests :
  ValidateVerificationRequests v requests root = None <-> List.Forall (admissible v root) requests.
Proof.
  induction requests as [|r l IH]; cbn; [by split|].
  rewrite Forall_cons_iff, <- IH, <- validate_request_spec.
  destruct (validate_request v root r); by split; [|intros []].
Qed.

Lemma requests_category v root requests :
  ValidateVerificationRequests v requests root <> Some IMMUTABILITY.
Proof.
  induction requests as [|r l IH]; cbn; [done|].
  destruct (validate_request v root r) as [e|] eqn:E; [|done]. intros [= ->]. revert E.
  unfold validate_request, ValidateCwdContainment. by repeat case_match.
Qed.

Lemma immutability_after_lineage c p :
  ValidateRevisionLineage (Some c) (Some p) = None -> ValidateImmutability (Some p) (Some c) = None.
Proof.
  intros H. unfold ValidateImmutability. cbn in H. repeat case_match; try done; breflect; by subst.
Qed.

(** C36: The contract validator accepts a contract exactly when its revision
    follows the previous one, all of its scope patterns are contained and
    every verification request is admissible: a profile of the catalog under
    its own name, a timeout within the profile's ceiling, parameters that
    project exactly and satisfy the profile's schema, a contained working
    directory.  It never reports a violation of immutability, the lineage
    check having refused the contract first. *)
Theorem ValidateContract_spec (v : TaskContractValidator) (previous : option TaskContract)
    (worktreeRoot : string) :
  (forall c,
     ValidateContract v (Some c) previous worktreeRoot = None <->
     ValidateRevisionLineage (Some c) previous = None /\
     List.Forall (fun p => scope_pattern_ok p = true) (range (c_AllowedScope c)) /\
     List.Forall (fun p => scope_pattern_ok p = true) (range (c_ForbiddenScope c)) /\
     List.Forall (admissible v worktreeRoot) (range (c_VerificationRequests c))) /\
  (forall contract, ValidateContract v contract previous worktreeRoot <> Some IMMUTABILITY).
Proof.
  assert (forall p c, ValidateRevisionLineage (Some c) p = None ->
    match p with Some q => if c_IsImmutable q then ValidateImmutability p (Some c) else None
               | None => None end = None) as Him.
  { intros [q|] c Hl; [|done]. destruct (c_IsImmutable q); [|done]. by apply immutability_after_lineage. }
  assert (forall l e, ValidateScopePatterns l = Some e -> e = SCOPE_PATTERN) as Hsc.
  { induction l as [|p l IH]; cbn; [done|]. intros e. case_match; [apply IH|by intros [= <-]]. }
  split.
  - intros c. cbn [ValidateContract]. rewrite <- !ValidateScopePatterns_ok, <- ValidateVerificationRequests_spec.
    destruct (ValidateRevisionLineage (Some c) previous) eqn:El; [by split; [|intros []]|].
    rewrite (Him _ _ El).
    destruct (ValidateScopePatterns _); [by split; [|intros (_ & ? & _)]|].
    destruct (ValidateScopePatterns _); [by split; [|intros (_ & _ & ? & _)]|].
    split; [done|by intros (_ & _ & _ & ?)].
  - intros [c|]; [|done]. cbn [ValidateContract].
    destruct (ValidateRevisionLineage (Some c) previous) as [e|] eqn:El.
    { assert (e = LINEAGE) as ->; [|done]. cbn in El. repeat case_match; congruence. }
    rewrite (Him _ _ El).
    destruct (ValidateScopePatterns _) as [e|] eqn:E1; [by apply Hsc in E1 as ->|].
    destruct (ValidateScopePatterns (range (c_ForbiddenScope c))) as [e|] eqn:E2; [by apply Hsc in E2 as ->|].
    apply requests_category.
Qed.

(** ** Raw text *)

Lemma ParseAndValidateRaw_spec rawJSON resolved a :
  ParseAndValidateRaw rawJSON resolved = inr a <->
  rawJSON <> ""%string /\
  exists schema rest p, resolved = Some schema /\ Decode_any rawJSON = Some (a, rest) /\
    at_EOF rest = true /\ projectForValidator a = Some p /\ Resolved_Validate schema p = true.
Proof.
  unfold ParseAndValidateRaw. split.
  - repeat (case_match; try done). intros [= <-]. breflect. split; [done|]. by eexists _, _, _.
  - intros (Hne & schema & rest & p & -> & -> & -> & -> & Hv).
    rewrite (proj2 (eqb_false _ _) Hne). cbn. by rewrite Hv.
Qed.

(** [ValidateRaw] returns a contract exactly when the text is one JSON
    value, alone, whose exact projection the canonical schema accepts, the
    typed decode of the same text gives that contract, and the contract passes
    the semantic checks; a text that fails to parse or to satisfy the schema
    is a SCHEMA error and nothing later is looked at. *)
Theorem ValidateRaw_spec (v : TaskContractValidator) (rawJSON : string)
    (previous : option TaskContract) (worktreeRoot : string) :
  (forall c,
     ValidateRaw v rawJSON previous worktreeRoot = inr c <->
     exists schema a rest p rest',
       canonicalSchema v = Some schema /\ rawJSON <> ""%string /\
       Decode_any rawJSON = Some (a, rest) /\ at_EOF rest = true /\
       projectForValidator a = Some p /\ Resolved_Validate schema p = true /\
       Decode_contract rawJSON = Some (c, rest') /\ at_EOF rest' = true /\
       ValidateContract v (Some c) previous worktreeRoot = None) /\
  (forall e, ParseAndValidateRaw rawJSON (canonicalSchema v) = inl e ->
     e = SCHEMA /\ ValidateRaw v rawJSON previous worktreeRoot = inl SCHEMA).
Proof.
  unfold ValidateRaw. split.
  - intros c. split.
    + destruct (ParseAndValidateRaw _ _) as [|a] eqn:Ea; [done|].
      apply ParseAndValidateRaw_spec in Ea as (Hne & schema & rest & p & H1 & H2 & H3 & H4 & H5).
      destruct (Decode_contract rawJSON) as [[c' rest']|]; [|done].
      destruct (at_EOF rest') eqn:Er; [|done]. cbn [negb].
      destruct (ValidateContract _ _ _ _) eqn:Ec; [done|]. intros [= <-].
      by exists schema, a, rest, p, rest'.
    + intros (schema & a & rest & p & rest' & H1 & H2 & H3 & H4 & H5 & H6 & H7 & H8 & H9).
      rewrite (proj2 (ParseAndValidateRaw_spec rawJSON (canonicalSchema v) a));
        [|split; [done|]; by exists schema, rest, p].
      by rewrite H7, H8, H9.
  - intros e He. assert (e = SCHEMA) as ->; [|by rewrite He].
    unfold ParseAndValidateRaw in He. repeat case_match; congruence.
Qed.

End Validator.

(** ** A concrete run *)

Definition plain_lib : GoLib :=
  {| regexp_ReplaceAllString _ s _ := s; json_Marshal _ := Some "{}"%string;
     json_Unmarshal _ := None; json_Marshal_contract _ := None; json_Unmarshal_contract _ := None;
     sha256_hex s := s |}.

Definition sample_request (cwd : string) (timeout : Z) : VerificationRequest :=
  {| vr_ID := "v1"; vr_ProfileID := "unit"; vr_Parameters := Some [("n"%string, VNum "2.5")];
     vr_Cwd := cwd; vr_TimeoutSeconds := timeout |}.

Definition sample_text_contract (cwd : string) (timeout : Z) : TaskContract :=
  (sample_contract "c1" 1 None) <| c_VerificationRequests := Some [sample_request cwd timeout] |>.

(** A decoder that knows three texts, and a schema that wants an object. *)
Definition sample_decoder : GoDecoder :=
  {| Decode_any raw := if in_list raw ["{a}"; "{b}"; "{c} "]%string then Some (VMap [], " "%string)
                       else if raw == "{d}x" then Some (VMap [], "x"%string) else None;
     Decode_contract raw :=
       if raw == "{a}" then Some (sample_text_contract "src" 30, ""%string)
       else if raw == "{b}" then Some (sample_text_contract "../etc" 30, ""%string)
       else Some (sample_text_contract "src" 61, ""%string) |}.

Definition sample_schema : JSONSchema :=
  {| Schema := unit; Resolved := unit; Unmarshal_Schema _ := Some tt; Resolve _ := Some tt;
     Resolved_Validate _ p := match p with PMap _ => true | _ => false end |}.

Definition sample_policy : VerificationProfilePolicy :=
  {| vp_ProfileID := "unit"; vp_ParameterSchema := Some [("type"%string, VStr "object")];
     vp_CwdPolicy := "worktree_contained"; vp_MaxTimeoutSeconds := 60; vp_AllowedCapabilities := None |}.

Definition sample_validator : @TaskContractValidator sample_schema :=
  @mkValidator sample_schema (Some tt)
    (Some (fun id => if id == "unit" then Some sample_policy else None)).

Definition sample_validate (raw : string) :=
  @ValidateRaw plain_lib sample_decoder sample_schema sample_os sample_validator raw None "/w".

Example sample_validations :
  map sample_validate ["{a}"; "{b}"; "{c} "; "{d}x"; ""]%string
  = [inr (sample_text_contract "src" 30); inl PATH_CONTAINMENT; inl VERIFICATION_PROFILE;
     inl SCHEMA; inl SCHEMA].
Proof. vm_compute. reflexivity. Qed.

Lemma ValidateRaw_spec_witness :
  sample_validate "{d}x" = inl SCHEMA /\
  exists rest, @Decode_contract sample_decoder "{a}" = Some (sample_text_contract "src" 30, rest) /\
               at_EOF rest = true.
Proof.
  split.
  - exact (proj2 (proj2 (@ValidateRaw_spec plain_lib sample_decoder sample_schema sample_os
             sample_validator "{d}x" None "/w") SCHEMA ltac:(vm_compute; reflexivity))).
  - destruct (proj1 (proj1 (@ValidateRaw_spec plain_lib sample_decoder sample_schema sample_os
             sample_validator "{a}" None "/w") (sample_text_contract "src" 30))
             ltac:(vm_compute; reflexivity)) as (? & ? & ? & ? & rest & H).
    exists rest. split; apply H.
Defined.
