(* ===== verification/Db.v ===== *)
(** * Db: the SQLite schema of internal/store/migrations.go (version 5)

    The database is a record of tables, each a list of rows in rowid order.
    A row is the domain struct whose fields are the columns; the two tables
    without such a struct ([task_contracts], [audit_events]) have a record
    here.  [INSERT] and [UPDATE] are the functions below: they evaluate the
    triggers, CHECK, UNIQUE and FOREIGN KEY clauses of the DDL in the order
    SQLite does (BEFORE triggers, CHECK, UNIQUE, FOREIGN KEY) and fail with
    the class of the first violated one, leaving the tables unchanged.  Foreign
    keys are only checked where a key is written: no statement of the store
    deletes a row or changes a referenced key. *)

From S2P Require Import Prelude.
From S2P Require Import Domain.

Definition CurrentSchemaVersion : Z := 5.
Definition GenesisAuditHash : string :=
  "0000000000000000000000000000000000000000000000000000000000000000".

(** ** Errors: the sentinels of errors.go and the classes of driver errors *)
Inductive err : Type :=
| ErrProjectNotFound | ErrPairNotFound | ErrTaskNotFound | ErrContractNotFound
| ErrAttemptNotFound | ErrTaskNotReady | ErrContractNotOwned | ErrContractImmutable
| ErrStateConflict | ErrInconsistentPersistedState | ErrDuplicateKey | ErrForeignKeyViolation
| ErrUnsupportedSchemaVersion | ErrWorkerSessionNotFound | ErrOperationNotFound
| ErrInvalidOperationTransition | ErrAttemptLineageMismatch | ErrQuarantinedExecution
| ErrAtomicDispatchRequired | ErrInvalidInitialTaskState | ErrReportPathMismatch
| ErrStaleContractRevision | ErrInvalidContractLineage | ErrPairBusy
| ErrReadyContractRequired | ErrContractInsertState
| ErrAuditChainInvalid | ErrInvalidAuditLineage | ErrInvalidLimit | ErrAuditEventNotFound
| ErrBoundDispatchRequired
| ErrTransition      (* workflow.InvalidTransitionError *)
| ErrInput           (* an error of the store without a sentinel *)
| ErrSanitize        (* audit.SanitizeAuditEvent *)
| ErrEntropy         (* crypto/rand *)
| ErrJSON            (* encoding/json *)
| ErrNoRows          (* sql.ErrNoRows *)
| ErrScan            (* a NULL scanned into a string *)
| SqlTrigger | SqlCheck | SqlUnique | SqlForeignKey  (* constraint failures *)
| SqlFailure         (* any other driver error, a cancelled context included *)
| SqlBusy.           (* "database is locked" *)
#[export] Instance err_eq_dec : EqDecision err.
Proof. solve_decision. Defined.

Inductive res (A : Type) : Type := Ok (a : A) | Err (e : err).
Arguments Ok {A} a.
Arguments Err {A} e.

(** ** Rows without a domain struct *)

(** [task_contracts] *)
Record ContractRow := mkContractRow {
  k_contract_id : string; k_task_id : string; k_revision_number : Z;
  k_supersedes_contract_id : option string; k_base_sha : string;
  k_payload_json : string; k_is_immutable : bool }.
#[export] Instance ContractRow_settable : Settable ContractRow := fun k =>
  mkContractRow (k_contract_id k) (k_task_id k) (k_revision_number k)
    (k_supersedes_contract_id k) (k_base_sha k) (k_payload_json k) (k_is_immutable k).

(** [audit_events]; timestamp and details are the stored text. *)
Record AuditRow := mkAuditRow {
  e_sequence : Z; e_event_id : string; e_event_type : string; e_timestamp : string;
  e_pair_id : option string; e_task_id : option string; e_contract_id : option string;
  e_attempt_id : option string; e_actor : string; e_details_json : string;
  e_prev_hash : string; e_event_hash : string }.

Record DB := mkDB {
  projects : list Project;
  pairs : list Pair;
  tasks : list Task;
  task_contracts : list ContractRow;
  task_attempts : list TaskAttempt;
  audit_events : list AuditRow;
  last_sequence : Z;
  last_hash : string;
  worker_sessions : list WorkerSession;
  pair_provisioning_operations : list PairProvisioningOperation;
  dispatch_operations : list DispatchOperation;
  stop_operations : list StopOperation;
  restore_authorizations : list RestoreAuthorization;
  pair_restore_operations : list PairRestoreOperation;
  attempt_execution_budgets : list ExecutionBudget }.
#[export] Instance DB_settable : Settable DB := fun d =>
  mkDB (projects d) (pairs d) (tasks d) (task_contracts d) (task_attempts d) (audit_events d)
    (last_sequence d) (last_hash d) (worker_sessions d) (pair_provisioning_operations d)
    (dispatch_operations d) (stop_operations d) (restore_authorizations d)
    (pair_restore_operations d) (attempt_execution_budgets d).

(** A freshly migrated database. *)
Definition empty_db : DB :=
  mkDB [] [] [] [] [] [] 0 GenesisAuditHash [] [] [] [] [] [] [].

(** ** Row predicates of the queries *)
Section Has.
Implicit Types d : DB.
Definition has_project d id := existsb (fun p => pr_ProjectID p == id) (projects d).
Definition has_pair d id := existsb (fun p => p_PairID p == id) (pairs d).
Definition has_task d id := existsb (fun t => t_TaskID t == id) (tasks d).
Definition has_contract d id := existsb (fun k => k_contract_id k == id) (task_contracts d).
Definition has_contract_task d id task :=
  existsb (fun k => (k_contract_id k == id) && (k_task_id k == task)) (task_contracts d).
Definition has_attempt d id := existsb (fun a => a_AttemptID a == id) (task_attempts d).
Definition has_dispatch d id :=
  existsb (fun o => d_OperationID o == id) (dispatch_operations d).
Definition has_event d id := existsb (fun e => e_event_id e == id) (audit_events d).
Definition has_restore d id :=
  existsb (fun o => ro_OperationID o == id) (pair_restore_operations d).
End Has.

Definition opt_ok {A} (f : A -> bool) (o : option A) : bool :=
  match o with None => true | Some a => f a end.
Definition is_some {A} (o : option A) : bool := match o with Some _ => true | None => false end.
Definition is_null {A} (o : option A) : bool := negb (is_some o).

Definition guard_sql {A} (e : err) (bad : bool) (k : res A) : res A := if bad then Err e else k.

(** ** projects, pairs, tasks *)
Definition insert_project (p : Project) (d : DB) : res DB :=
  guard_sql SqlUnique (has_project d (pr_ProjectID p)) (Ok (d <| projects := projects d ++ [p] |>)).

Definition insert_pair (p : Pair) (d : DB) : res DB :=
  guard_sql SqlUnique
    (existsb (fun q => (p_PairID q == p_PairID p) || (p_ProjectID q == p_ProjectID p)) (pairs d))
    (guard_sql SqlForeignKey (negb (has_project d (p_ProjectID p)))
      (Ok (d <| pairs := pairs d ++ [p] |>))).

Definition task_check (t : Task) : bool := IsValid (t_State t) && (0 <=? t_CurrentAttempt t)%Z.

Definition insert_task (t : Task) (d : DB) : res DB :=
  guard_sql SqlCheck (negb (task_check t))
    (guard_sql SqlUnique (has_task d (t_TaskID t))
      (guard_sql SqlForeignKey (negb (has_pair d (t_PairID t)))
        (Ok (d <| tasks := tasks d ++ [t] |>)))).

(** [UPDATE tasks SET f WHERE p] and the number of rows it affects. *)
Definition update_tasks (p : Task -> bool) (f : Task -> Task) (d : DB) : res (DB * nat) :=
  guard_sql SqlCheck (negb (forallb (fun t => negb (p t) || task_check (f t)) (tasks d)))
    (Ok (d <| tasks := upd p f (tasks d) |>, affected p (tasks d))).

(** ** task_contracts *)
Definition insert_contract (k : ContractRow) (d : DB) : res DB :=
  guard_sql SqlCheck (negb (1 <=? k_revision_number k)%Z)
    (guard_sql SqlUnique
      (existsb (fun q => (k_contract_id q == k_contract_id k)
                 || ((k_task_id q == k_task_id k) && (k_revision_number q =? k_revision_number k)%Z)
                 || (is_some (k_supersedes_contract_id k)
                     && (k_supersedes_contract_id q == k_supersedes_contract_id k)))
        (task_contracts d))
      (guard_sql SqlForeignKey
        (negb (has_task d (k_task_id k) && opt_ok (has_contract d) (k_supersedes_contract_id k)))
        (Ok (d <| task_contracts := task_contracts d ++ [k] |>)))).

(** trg_task_contracts_prevent_update_immutable aborts the statement. *)
Definition update_contracts (p : ContractRow -> bool) (f : ContractRow -> ContractRow) (d : DB)
    : res (DB * nat) :=
  guard_sql SqlTrigger (existsb (fun k => p k && k_is_immutable k) (task_contracts d))
    (Ok (d <| task_contracts := upd p f (task_contracts d) |>, affected p (task_contracts d))).

(** ** task_attempts *)
Definition quarantine_check (q : QuarantineState) : bool :=
  match q with QuarantineOther _ => false | _ => true end.

Definition insert_attempt (a : TaskAttempt) (d : DB) : res DB :=
  guard_sql SqlCheck (negb ((0 <? a_AttemptNumber a)%Z && quarantine_check (a_QuarantineState a)))
    (guard_sql SqlUnique
      (existsb (fun b => (a_AttemptID b == a_AttemptID a)
                 || ((a_TaskID b == a_TaskID a) && (a_AttemptNumber b =? a_AttemptNumber a)%Z))
        (task_attempts d))
      (guard_sql SqlForeignKey
        (negb (has_task d (a_TaskID a) && has_contract_task d (a_ContractID a) (a_TaskID a)))
        (Ok (d <| task_attempts := task_attempts d ++ [a] |>)))).

Definition update_attempts (p : TaskAttempt -> bool) (f : TaskAttempt -> TaskAttempt) (d : DB)
    : res (DB * nat) :=
  guard_sql SqlCheck
    (negb (forallb (fun a => negb (p a) || quarantine_check (a_QuarantineState (f a)))
             (task_attempts d)))
    (Ok (d <| task_attempts := upd p f (task_attempts d) |>, affected p (task_attempts d))).

(** ** audit_events and audit_chain_state *)
Definition insert_audit (e : AuditRow) (d : DB) : res DB :=
  guard_sql SqlTrigger
    (existsb (fun r => (e_sequence r =? e_sequence e)%Z || (e_event_id r == e_event_id e))
       (audit_events d))
    (guard_sql SqlUnique (existsb (fun r => e_event_hash r == e_event_hash e) (audit_events d))
      (Ok (d <| audit_events := audit_events d ++ [e] |>))).

Definition update_chain (sequence : Z) (hash : string) (d : DB) : res DB :=
  Ok (d <| last_sequence := sequence |> <| last_hash := hash |>).

(** ** worker_sessions *)
Definition session_check (w : WorkerSession) : bool :=
  match ws_Status w with WorkerSessionOther _ => false | _ => true end
  && quarantine_check (ws_QuarantineState w).

Definition insert_session (w : WorkerSession) (d : DB) : res DB :=
  guard_sql SqlCheck (negb (session_check w))
    (guard_sql SqlUnique
      (existsb (fun v => (ws_PairID v == ws_PairID w) || (ws_SessionID v == ws_SessionID w))
        (worker_sessions d))
      (guard_sql SqlForeignKey (negb (has_pair d (ws_PairID w)))
        (Ok (d <| worker_sessions := worker_sessions d ++ [w] |>)))).

(** No statement of the store changes pair_id or session_id of a session. *)
Definition update_sessions (p : WorkerSession -> bool) (f : WorkerSession -> WorkerSession) (d : DB)
    : res (DB * nat) :=
  guard_sql SqlCheck (negb (forallb (fun w => negb (p w) || session_check (f w)) (worker_sessions d)))
    (Ok (d <| worker_sessions := upd p f (worker_sessions d) |>, affected p (worker_sessions d))).

(** ** pair_provisioning_operations *)
Definition provisioning_unresolved (o : PairProvisioningOperation) : bool :=
  match pp_Stage o with ProvisionRequested | ProvisionFailed => true | _ => false end.

Definition insert_provisioning (o : PairProvisioningOperation) (d : DB) : res DB :=
  guard_sql SqlUnique
    (existsb (fun q => (pp_OperationID q == pp_OperationID o)
               || (provisioning_unresolved o && provisioning_unresolved q && (pp_PairID q == pp_PairID o)))
      (pair_provisioning_operations d))
    (guard_sql SqlForeignKey (negb (has_pair d (pp_PairID o)))
      (Ok (d <| pair_provisioning_operations := pair_provisioning_operations d ++ [o] |>))).

(** The index idx_pair_provisioning_unresolved is re-checked for the rows the
    statement changes. *)
Definition update_provisioning (p : PairProvisioningOperation -> bool)
    (f : PairProvisioningOperation -> PairProvisioningOperation) (d : DB) : res (DB * nat) :=
  guard_sql SqlUnique
    (existsb (fun o => p o && provisioning_unresolved (f o)
        && existsb (fun q => (pp_OperationID q != pp_OperationID o) && provisioning_unresolved q
                             && (pp_PairID q == pp_PairID o)) (pair_provisioning_operations d))
      (pair_provisioning_operations d))
    (Ok (d <| pair_provisioning_operations := upd p f (pair_provisioning_operations d) |>,
         affected p (pair_provisioning_operations d))).

(** ** dispatch_operations *)
Definition insert_dispatch (o : DispatchOperation) (d : DB) : res DB :=
  guard_sql SqlUnique
    (existsb (fun q => (d_OperationID q == d_OperationID o) || (d_AttemptID q == d_AttemptID o))
      (dispatch_operations d))
    (guard_sql SqlForeignKey
      (negb (has_attempt d (d_AttemptID o) && has_pair d (d_PairID o) && has_task d (d_TaskID o)))
      (Ok (d <| dispatch_operations := dispatch_operations d ++ [o] |>))).

(** trg_dispatch_requires_execution_budget, trg_dispatch_confirmed_immutable *)
Definition dispatch_trigger (d : DB) (old new : DispatchOperation) : bool :=
  ((d_Stage new == SendConfirmed)
   && match d_ConfirmedAt new with
      | None => true
      | Some at_ =>
          negb (existsb (fun b => (b_DispatchOperationID b == d_OperationID new)
                          && (b_AttemptID b == d_AttemptID new) && (b_OriginAt b =? at_)%Z)
                  (attempt_execution_budgets d))
      end)
  || ((d_Stage old == SendConfirmed)
      && ((d_Stage new != SendConfirmed) || (d_ConfirmedAt new != d_ConfirmedAt old))).

(** [UPDATE ... SET] of stage or confirmed_at: the triggers fire. *)
Definition update_dispatch (p : DispatchOperation -> bool) (f : DispatchOperation -> DispatchOperation)
    (d : DB) : res (DB * nat) :=
  guard_sql SqlTrigger
    (existsb (fun o => p o && dispatch_trigger d o (f o)) (dispatch_operations d))
    (Ok (d <| dispatch_operations := upd p f (dispatch_operations d) |>,
         affected p (dispatch_operations d))).

(** [UPDATE ... SET resolution_state=?]: no trigger is attached to it. *)
Definition update_dispatch_resolution (p : DispatchOperation -> bool) (resolution : option string)
    (d : DB) : res (DB * nat) :=
  Ok (d <| dispatch_operations :=
        upd p (fun o => o <| d_ResolutionState := resolution |>) (dispatch_operations d) |>,
      affected p (dispatch_operations d)).

(** ** stop_operations *)
Definition stop_check (o : StopOperation) : bool :=
  match so_Purpose o with StopPurposeOther _ => false | _ => true end
  && match so_Stage o with StopStageOther _ => false | _ => true end
  && opt_ok (fun r => r == "TIMEOUT"%string) (so_InitiatingFailureReason o).

Definition insert_stop (o : StopOperation) (d : DB) : res DB :=
  guard_sql SqlCheck (negb (stop_check o))
    (guard_sql SqlUnique
      (existsb (fun q => (so_OperationID q == so_OperationID o)
                 || (is_some (so_RestoreOperationID o)
                     && (so_RestoreOperationID q == so_RestoreOperationID o))
                 || ((so_Purpose o == RunningAttemptStop) && (so_Purpose q == RunningAttemptStop)
                     && is_some (so_AttemptID o) && (so_AttemptID q == so_AttemptID o)))
        (stop_operations d))
      (guard_sql SqlForeignKey
        (negb (has_pair d (so_PairID o) && opt_ok (has_task d) (so_TaskID o)
               && opt_ok (has_contract d) (so_ContractID o)
               && opt_ok (has_attempt d) (so_AttemptID o)
               && opt_ok (has_restore d) (so_RestoreOperationID o)))
        (Ok (d <| stop_operations := stop_operations d ++ [o] |>)))).

(** No statement of the store updates the columns of the unique indexes or
    initiating_failure_reason. *)
Definition update_stops (p : StopOperation -> bool) (f : StopOperation -> StopOperation) (d : DB)
    : res (DB * nat) :=
  guard_sql SqlCheck (negb (forallb (fun o => negb (p o) || stop_check (f o)) (stop_operations d)))
    (Ok (d <| stop_operations := upd p f (stop_operations d) |>, affected p (stop_operations d))).

(** ** restore_authorizations *)
Definition authorization_check (a : RestoreAuthorization) : bool :=
  in_list (ra_RiskScope a) ["POSSIBLE_PROMPT_REPLAY"; "PROMPT_REPLAY_AND_UNRESOLVED_EXECUTION"]%string
  && match ra_ConsumedAt a, ra_ConsumedByOperationID a with
     | None, None => true
     | Some _, Some op => op == ra_OperationID a
     | _, _ => false
     end.

Definition insert_authorization (a : RestoreAuthorization) (d : DB) : res DB :=
  guard_sql SqlCheck (negb (authorization_check a))
    (guard_sql SqlUnique
      (existsb (fun b => (ra_AuthorizationID b == ra_AuthorizationID a)
                 || (ra_OperationID b == ra_OperationID a)
                 || (ra_AuthorizationEventID b == ra_AuthorizationEventID a)
                 || (is_some (ra_ConsumedByOperationID a)
                     && (ra_ConsumedByOperationID b == ra_ConsumedByOperationID a)))
        (restore_authorizations d))
      (guard_sql SqlForeignKey
        (negb (has_pair d (ra_PairID a) && has_event d (ra_AuthorizationEventID a)))
        (Ok (d <| restore_authorizations := restore_authorizations d ++ [a] |>)))).

(** ** pair_restore_operations *)
Definition restore_check (o : PairRestoreOperation) : bool :=
  opt_ok (fun m => in_list m ["native"; "saved_prompt"; "fresh"]%string) (ro_RestoreMode o)
  && opt_ok (fun b => match b with RestoreBasisOther _ => false | _ => true end) (ro_ResolutionBasis o)
  && (0 <=? ro_Version o)%Z
  && match ro_Stage o with
     | RestoreConfirmedStage =>
         is_some (ro_HTTP200At o) && is_some (ro_ObservedGeneration o) && is_some (ro_RestoreMode o)
     | RestoreRequestedStage =>
         is_null (ro_HTTP200At o) && is_null (ro_ObservedGeneration o) && is_null (ro_RestoreMode o)
     end
  && (if ro_ResolutionState o == RestoreResolved
      then is_some (ro_ResolvedAt o) && is_some (ro_ResolutionBasis o) && is_some (ro_ResolutionEventID o)
      else is_null (ro_ResolvedAt o) && is_null (ro_ResolutionBasis o) && is_null (ro_ResolutionEventID o))
  && ((ro_ResolutionBasis o != Some RestoreHTTP200Confirmed) || (ro_Stage o == RestoreConfirmedStage))
  && match ro_ResolutionState o with
     | RestoreRecoveryClaimed | RestoreCleanupClaimed =>
         is_some (ro_RecoveryPrincipal o) && is_some (ro_RecoveryClaimedAt o)
     | _ => true
     end.

Definition restore_unresolved (o : PairRestoreOperation) : bool :=
  ro_ResolutionState o != RestoreResolved.

Definition insert_restore (o : PairRestoreOperation) (d : DB) : res DB :=
  guard_sql SqlCheck (negb (restore_check o))
    (guard_sql SqlUnique
      (existsb (fun q => (ro_OperationID q == ro_OperationID o)
                 || (ro_AuthorizationID q == ro_AuthorizationID o)
                 || (is_some (ro_ResolutionEventID o)
                     && (ro_ResolutionEventID q == ro_ResolutionEventID o))
                 || (restore_unresolved o && restore_unresolved q && (ro_PairID q == ro_PairID o)))
        (pair_restore_operations d))
      (guard_sql SqlForeignKey
        (negb (has_pair d (ro_PairID o) && opt_ok (has_event d) (ro_ResolutionEventID o)
               && existsb (fun a => (ra_AuthorizationID a == ro_AuthorizationID o)
                            && (ra_OperationID a == ro_OperationID o) && (ra_PairID a == ro_PairID o)
                            && (ra_SessionID a == ro_SessionID o)
                            && (ra_ExpectedGeneration a == ro_ExpectedGeneration o))
                    (restore_authorizations d)))
        (Ok (d <| pair_restore_operations := pair_restore_operations d ++ [o] |>)))).

(** The resolution states trg_restore_op_forward_only lets an update reach. *)
Definition restore_step (old new : RestoreResolutionState) : bool :=
  (new == old) ||
  match old, new with
  | RestoreInFlight, (RestoreOutcomeUnknown | RestoreRecoveryClaimed) => true
  | RestoreOutcomeUnknown, RestoreRecoveryClaimed => true
  | RestoreRecoveryClaimed, (RestoreCleanupClaimed | RestoreResolved) => true
  | RestoreCleanupClaimed, RestoreResolved => true
  | _, _ => false
  end.

(** trg_restore_op_forward_only: true aborts the statement. *)
Definition restore_trigger (old new : PairRestoreOperation) : bool :=
  (ro_OperationID new != ro_OperationID old) || (ro_AuthorizationID new != ro_AuthorizationID old)
  || (ro_PairID new != ro_PairID old) || (ro_SessionID new != ro_SessionID old)
  || (ro_ExpectedGeneration new != ro_ExpectedGeneration old)
  || (ro_RequestedAt new != ro_RequestedAt old)
  || negb (ro_Version new =? ro_Version old + 1)%Z
  || ((ro_Stage old == RestoreConfirmedStage)
      && ((ro_Stage new != RestoreConfirmedStage) || (ro_HTTP200At new != ro_HTTP200At old)
          || (ro_ObservedGeneration new != ro_ObservedGeneration old)
          || (ro_RestoreMode new != ro_RestoreMode old)))
  || ((ro_Stage old == RestoreRequestedStage) && (ro_Stage new == RestoreConfirmedStage)
      && (ro_ResolutionState old != RestoreInFlight))
  || negb (restore_step (ro_ResolutionState old) (ro_ResolutionState new))
  || (ro_ResolutionState old == RestoreResolved).

(** The UNIQUE column is compared with the rows the statement leaves, those of
    the statement itself included. *)
Definition update_restores (p : PairRestoreOperation -> bool)
    (f : PairRestoreOperation -> PairRestoreOperation) (d : DB) : res (DB * nat) :=
  guard_sql SqlTrigger
    (existsb (fun o => p o && restore_trigger o (f o)) (pair_restore_operations d))
    (guard_sql SqlCheck
      (negb (forallb (fun o => negb (p o) || restore_check (f o)) (pair_restore_operations d)))
      (guard_sql SqlUnique
        (existsb (fun o => p o && is_some (ro_ResolutionEventID (f o))
            && existsb (fun q => (ro_OperationID q != ro_OperationID o)
                         && (ro_ResolutionEventID q == ro_ResolutionEventID (f o)))
                 (upd p f (pair_restore_operations d)))
          (pair_restore_operations d))
        (guard_sql SqlForeignKey
          (existsb (fun o => p o && negb (opt_ok (has_event d) (ro_ResolutionEventID (f o))))
            (pair_restore_operations d))
          (Ok (d <| pair_restore_operations := upd p f (pair_restore_operations d) |>,
               affected p (pair_restore_operations d)))))).

(** ** attempt_execution_budgets *)

(** SQLite's [length(trim(s)) > 0]: spaces are trimmed, and the length counts
    the characters before a NUL. *)
Fixpoint trimmed_nonempty (s : string) : bool :=
  match s with
  | EmptyString => false
  | String a t => if (a =? " ")%char then trimmed_nonempty t else negb (a =? "000")%char
  end.

Definition BasisAtomic : string := "SEND_CONFIRMATION_ATOMIC".
Definition BasisLegacy : string := "LEGACY_OPERATOR_VERIFIED".

Definition budget_check (b : ExecutionBudget) : bool :=
  (0 <? b_Duration b)%Z && trimmed_nonempty (b_PolicyRef b)
  && (((b_BindingBasis b == BasisAtomic)
       && is_null (b_AuthorizedPrincipal b) && is_null (b_EvidenceRef b))
      || ((b_BindingBasis b == BasisLegacy)
          && match b_AuthorizedPrincipal b, b_EvidenceRef b with
             | Some p, Some e => trimmed_nonempty p && trimmed_nonempty e
             | _, _ => false
             end)).

(** The row trg_execution_budget_lineage requires. *)
Definition budget_lineage (d : DB) (b : ExecutionBudget) : bool :=
  existsb (fun o =>
    (d_OperationID o == b_DispatchOperationID b) && (d_AttemptID o == b_AttemptID b)
    && existsb (fun a =>
         (a_AttemptID a == d_AttemptID o) && is_null (a_EndedAt a)
         && existsb (fun t =>
              (t_TaskID t == a_TaskID a) && (t_CurrentAttempt t =? a_AttemptNumber a)%Z
              && (((b_BindingBasis b == BasisAtomic) && (t_State t == StateDispatched)
                   && (d_Stage o == SendRequested) && is_null (d_ConfirmedAt o))
                  || ((b_BindingBasis b == BasisLegacy)
                      && in_list (t_State t) [StateDispatched; StateRunning]
                      && (d_Stage o == SendConfirmed) && (d_ConfirmedAt o == Some (b_OriginAt b)))))
              (tasks d))
         (task_attempts d))
    (dispatch_operations d).

Definition insert_budget (b : ExecutionBudget) (d : DB) : res DB :=
  guard_sql SqlTrigger (negb (budget_lineage d b))
    (guard_sql SqlCheck (negb (budget_check b))
      (guard_sql SqlUnique
        (existsb (fun c => (b_AttemptID c == b_AttemptID b)
                   || (b_DispatchOperationID c == b_DispatchOperationID b))
          (attempt_execution_budgets d))
        (guard_sql SqlForeignKey
          (negb (has_attempt d (b_AttemptID b) && has_dispatch d (b_DispatchOperationID b)))
          (Ok (d <| attempt_execution_budgets := attempt_execution_budgets d ++ [b] |>))))).
