(* ===== verification/Tx.v ===== *)
(** * Tx: the effects of the store and the logic the proofs use

    A store operation is a function of its environment (the clock, the random
    source, and the outcome of every statement sent to the driver) and of the
    database; a statement that fails leaves the database unchanged, and the
    transaction combinator restores the database unless the commit succeeds.
    [IoLost] at a commit is the ambiguous case: the commit is durable and the
    caller sees an error.  SQLite serialises writers, so one transaction is
    one uninterrupted run.

    The second part is the proof calculus: inversion of successful runs
    ([minv]) and the rule that a relation closed under the statements of a
    program holds between the databases before and after it ([Steps],
    [OpSteps]). *)

From S2P Require Import Prelude.
From S2P Require Import Domain.
From S2P Require Import Db.

Inductive IoOutcome : Type := IoOk | IoFail | IoBusy | IoLost.

Record Env := mkEnv {
  env_clock : nat -> Z;
  env_entropy : nat -> option string;  (* the 16 random bytes, in hexadecimal *)
  env_io : nat -> IoOutcome;
  env_text : nat -> string }.  (* the text of a driver's error *)

Record St := mkSt { st_db : DB; st_tick : nat }.

Definition M (A : Type) : Type := Env -> St -> res A * St.

#[export] Instance M_ret : MRet M := fun A a _ s => (Ok a, s).
#[export] Instance M_bind : MBind M := fun A B k m env s =>
  match m env s with
  | (Ok a, s') => k a env s'
  | (Err e, s') => (Err e, s')
  end.

Definition throw {A} (e : err) : M A := fun _ s => (Err e, s).
Definition reject_if (c : bool) (e : err) : M unit := if c then throw e else mret tt.
Definition map_err {A} (g : err -> err) (m : M A) : M A := fun env s =>
  match m env s with (Err e, s') => (Err (g e), s') | r => r end.
(** [errors.Is(err, sql.ErrNoRows)] *)
Definition no_rows (e : err) {A} (m : M A) : M A :=
  map_err (fun e0 => if e0 == ErrNoRows then e else e0) m.

Definition tick {A} (f : Env -> nat -> res A) : M A := fun env s =>
  (f env (st_tick s), mkSt (st_db s) (S (st_tick s))).

Definition timeNow : M Z := tick (fun env n => Ok (env_clock env n)).
Definition newAuditEventID : M string := tick (fun env n =>
  match env_entropy env n with
  | Some hex => Ok ("event-" ++ hex)%string
  | None => Err ErrEntropy
  end).
(** [if t.IsZero() { t = timeNow() }] *)
Definition now_if_zero (t : Z) : M Z := if (t =? 0)%Z then timeNow else mret t.

Definition io_result {A} (o : IoOutcome) (a : res A) : res A :=
  match o with IoOk => a | IoBusy => Err SqlBusy | IoFail | IoLost => Err SqlFailure end.

(** One SELECT; [query_row] scans one row and reports sql.ErrNoRows. *)
Definition query_res {A} (f : DB -> res A) : M A := fun env s =>
  (io_result (env_io env (st_tick s)) (f (st_db s)), mkSt (st_db s) (S (st_tick s))).
Definition query {A} (f : DB -> A) : M A := query_res (fun d => Ok (f d)).
Definition query_row {A} (f : DB -> option A) : M A :=
  query_res (fun d => match f d with Some a => Ok a | None => Err ErrNoRows end).

(** One INSERT, and one UPDATE returning the affected-row count. *)
Definition exec (f : DB -> res DB) : M unit := fun env s =>
  match io_result (env_io env (st_tick s)) (f (st_db s)) with
  | Ok d => (Ok tt, mkSt d (S (st_tick s)))
  | Err e => (Err e, mkSt (st_db s) (S (st_tick s)))
  end.
Definition exec_n (f : DB -> res (DB * nat)) : M nat := fun env s =>
  match io_result (env_io env (st_tick s)) (f (st_db s)) with
  | Ok (d, n) => (Ok n, mkSt d (S (st_tick s)))
  | Err e => (Err e, mkSt (st_db s) (S (st_tick s)))
  end.

(** What a transaction body ends with: [tx.Commit()] or a return that leaves
    the deferred [tx.Rollback()] to undo it. *)
Inductive verdict (A : Type) : Type := Commit (a : A) | Rollback (a : A).
Arguments Commit {A} a.
Arguments Rollback {A} a.

Definition with_tx {A} (body : M (verdict A)) : M A := fun env s =>
  match env_io env (st_tick s) with
  | IoFail | IoLost => (Err SqlFailure, mkSt (st_db s) (S (st_tick s)))
  | IoBusy => (Err SqlBusy, mkSt (st_db s) (S (st_tick s)))
  | IoOk =>
      match body env (mkSt (st_db s) (S (st_tick s))) with
      | (Err e, s') => (Err e, mkSt (st_db s) (st_tick s'))
      | (Ok (Rollback a), s') => (Ok a, mkSt (st_db s) (st_tick s'))
      | (Ok (Commit a), s') =>
          match env_io env (st_tick s') with
          | IoOk => (Ok a, mkSt (st_db s') (S (st_tick s')))
          | IoLost => (Err SqlFailure, mkSt (st_db s') (S (st_tick s')))
          | IoFail => (Err SqlFailure, mkSt (st_db s) (S (st_tick s')))
          | IoBusy => (Err SqlBusy, mkSt (st_db s) (S (st_tick s')))
          end
      end
  end.
Definition commit {A} (a : A) : M (verdict A) := mret (Commit a).
Definition rollback {A} (a : A) : M (verdict A) := mret (Rollback a).

(** A [sql.DB] without transaction: each statement commits on its own. *)
Definition autocommit (f : DB -> res DB) : M unit := with_tx (exec f;; commit tt).

(** An environment in which no call to the driver fails. *)
Definition healthy (env : Env) : Prop := forall n, env_io env n = IoOk.

(** ** Inversion of successful runs *)
Section Inversion.
Context {A B : Type}.
Implicit Types (env : Env) (s : St).

Lemma ret_ok env s s' (a b : A) :
  (mret a : M A) env s = (Ok b, s') -> b = a /\ s' = s.
Proof. by intros [= <- <-]. Qed.

Lemma throw_ok env s s' e (a : A) : throw e env s = (Ok a, s') -> False.
Proof. done. Qed.

Lemma bind_ok env s s' (m : M A) (k : A -> M B) b :
  (m ≫= k) env s = (Ok b, s') ->
  exists a s1, m env s = (Ok a, s1) /\ k a env s1 = (Ok b, s').
Proof.
  unfold mbind, M_bind. destruct (m env s) as [[a|e] s1]; intros H; [|done]. by exists a, s1.
Qed.

Lemma reject_if_ok env s s' c e u :
  reject_if c e env s = (Ok u, s') -> c = false /\ s' = s.
Proof. unfold reject_if, throw. destruct c; intros [=]; by subst. Qed.

Lemma map_err_ok env s s' g (m : M A) a :
  map_err g m env s = (Ok a, s') -> m env s = (Ok a, s').
Proof. unfold map_err. by destruct (m env s) as [[?|?] ?]. Qed.

Lemma query_res_ok env s s' (f : DB -> res A) a :
  query_res f env s = (Ok a, s') -> f (st_db s) = Ok a /\ st_db s' = st_db s.
Proof. unfold query_res, io_result. by destruct (env_io _ _); intros [= ? <-]. Qed.

Lemma query_ok env s s' (f : DB -> A) a :
  query f env s = (Ok a, s') -> a = f (st_db s) /\ st_db s' = st_db s.
Proof. intros [[= <-] H]%query_res_ok. done. Qed.

Lemma query_row_ok env s s' (f : DB -> option A) a :
  query_row f env s = (Ok a, s') -> f (st_db s) = Some a /\ st_db s' = st_db s.
Proof. intros [H1 H]%query_res_ok. destruct (f (st_db s)); by simplify_eq. Qed.

Lemma tick_ok env s s' (f : Env -> nat -> res A) a :
  tick f env s = (Ok a, s') -> f env (st_tick s) = Ok a /\ st_db s' = st_db s.
Proof. by intros [= ? <-]. Qed.

Lemma exec_ok env s s' f u :
  exec f env s = (Ok u, s') -> f (st_db s) = Ok (st_db s').
Proof.
  unfold exec, io_result. destruct (env_io _ _); try done.
  destruct (f (st_db s)) eqn:E; [|done]. by intros [= _ <-].
Qed.

Lemma exec_n_ok env s s' f n :
  exec_n f env s = (Ok n, s') -> f (st_db s) = Ok (st_db s', n).
Proof.
  unfold exec_n, io_result. destruct (env_io _ _); try done.
  destruct (f (st_db s)) as [[d m]|] eqn:E; [|done]. by intros [= <- <-].
Qed.
End Inversion.

Lemma timeNow_ok env s s' t : timeNow env s = (Ok t, s') -> st_db s' = st_db s.
Proof. by intros [_ ?]%tick_ok. Qed.
Lemma newAuditEventID_ok env s s' i : newAuditEventID env s = (Ok i, s') -> st_db s' = st_db s.
Proof. by intros [_ ?]%tick_ok. Qed.
Lemma now_if_zero_ok env s s' t0 t :
  now_if_zero t0 env s = (Ok t, s') -> st_db s' = st_db s /\ (t0 <> 0%Z -> t = t0).
Proof.
  unfold now_if_zero. destruct (t0 =? 0)%Z eqn:E.
  - intros ?%timeNow_ok. split; [done|]. intros Hn. breflect. done.
  - intros [-> ->]%ret_ok. done.
Qed.

(** The outcomes of a transaction: it failed or rolled back and the database
    is the one before, or its body ran to [Commit] and the database is the
    body's. *)
Lemma with_tx_cases {A} (body : M (verdict A)) env s r s' :
  with_tx body env s = (r, s') ->
  (st_db s' = st_db s /\
   (forall a, r = Ok a -> exists s1, body env (mkSt (st_db s) (S (st_tick s))) = (Ok (Rollback a), s1))) \/
  (exists a s1, body env (mkSt (st_db s) (S (st_tick s))) = (Ok (Commit a), s1) /\
                st_db s' = st_db s1 /\ (r = Ok a \/ r = Err SqlFailure)).
Proof.
  unfold with_tx. destruct (env_io env (st_tick s)); try (intros [= <- <-]; left; by split).
  destruct (body env _) as [[[a|a]|e] s1] eqn:E.
  - destruct (env_io env (st_tick s1)); intros [= <- <-].
    + right. exists a, s1. auto.
    + left. by split.
    + left. by split.
    + right. exists a, s1. auto.
  - intros [= <- <-]. left. split; [done|]. intros a' [= <-]. by exists s1.
  - intros [= <- <-]. left. by split.
Qed.

Lemma with_tx_ok {A} (body : M (verdict A)) env s s' a :
  with_tx body env s = (Ok a, s') ->
  exists s1, (body env (mkSt (st_db s) (S (st_tick s))) = (Ok (Commit a), s1) /\ st_db s' = st_db s1) \/
             (body env (mkSt (st_db s) (S (st_tick s))) = (Ok (Rollback a), s1) /\ st_db s' = st_db s).
Proof.
  intros H. destruct (with_tx_cases _ _ _ _ _ H) as [[Hd Hr]|(a' & s1 & Hb & Hd & [Hr|Hr])].
  - destruct (Hr a eq_refl) as [s1 Hb]. exists s1. auto.
  - injection Hr as <-. exists s1. auto.
  - done.
Qed.

(** [minv H] inverts a successful run [H : prog env s = (Ok a, s')] statement
    by statement, branch by branch; [minv_extra] is extended by the components
    with the inversion of their own operations. *)
Ltac minv_extra H := idtac.
Ltac minv_step H :=
  let x := fresh "x" in let s1 := fresh "s" in let H1 := fresh "R" in let H2 := fresh "R" in
  lazymatch type of H with
  | (Ok _, _) = (Ok _, _) => injection H as ? ?; subst
  | (Err _, _) = (Ok _, _) => discriminate H
  | mbind _ _ _ _ = (Ok _, _) =>
      apply bind_ok in H as (x & s1 & H1 & H2); cbn beta in H2; minv_step H1; minv_step H2
  | mret _ _ _ = (Ok _, _) => apply ret_ok in H as [? ?]; subst
  | commit _ _ _ = (Ok _, _) => unfold commit in H; apply ret_ok in H as [? ?]; subst
  | rollback _ _ _ = (Ok _, _) => unfold rollback in H; apply ret_ok in H as [? ?]; subst
  | throw _ _ _ = (Ok _, _) => exfalso; exact (throw_ok _ _ _ _ _ H)
  | reject_if _ _ _ _ = (Ok _, _) => apply reject_if_ok in H as [? ?]; subst
  | map_err _ _ _ _ = (Ok _, _) => apply map_err_ok in H; minv_step H
  | no_rows _ _ _ _ = (Ok _, _) => apply map_err_ok in H; minv_step H
  | query_row _ _ _ = (Ok _, _) => apply query_row_ok in H as [? ?]
  | query _ _ _ = (Ok _, _) => apply query_ok in H as [? ?]; subst
  | query_res _ _ _ = (Ok _, _) => apply query_res_ok in H as [? ?]
  | exec _ _ _ = (Ok _, _) => apply exec_ok in H
  | exec_n _ _ _ = (Ok _, _) => apply exec_n_ok in H
  | timeNow _ _ = (Ok _, _) => apply timeNow_ok in H
  | newAuditEventID _ _ = (Ok _, _) => apply newAuditEventID_ok in H
  | now_if_zero _ _ _ = (Ok _, _) => apply now_if_zero_ok in H as [? ?]
  | (if ?c then _ else _) _ _ = (Ok _, _) => destruct c eqn:?; minv_step H
  | (match ?c with _ => _ end) _ _ = (Ok _, _) => destruct c eqn:?; minv_step H
  | _ => minv_extra H
  end.
Ltac same_db :=
  repeat match goal with
  | E : Ok _ = Ok (st_db ?x) |- _ => is_var x; injection E as E; symmetry in E
  | E : st_db ?x = _ |- _ => is_var x; rewrite E in *; clear E
  end; cbn [st_db st_tick] in *.
Ltac minv H := minv_step H; same_db.

(** ** Relations a program maintains *)
Section Steps.
Context (R : DB -> DB -> Prop) `{!PreOrder R}.

(** Between the databases before and after every successful run. *)
Definition Steps {A} (m : M A) : Prop :=
  forall env s a s', m env s = (Ok a, s') -> R (st_db s) (st_db s').
(** Between the databases before and after every run, failed ones included. *)
Definition OpSteps {A} (m : M A) : Prop :=
  forall env s r s', m env s = (r, s') -> R (st_db s) (st_db s').

Lemma steps_ret {A} (a : A) : Steps (mret a).
Proof. intros env s b s' [-> ->]%ret_ok. reflexivity. Qed.
Lemma steps_throw {A} e : Steps (A:=A) (throw e).
Proof. by intros env s b s' ?. Qed.
Lemma steps_reject c e : Steps (reject_if c e).
Proof. intros env s b s' [_ ->]%reject_if_ok. reflexivity. Qed.
Lemma steps_bind {A B} (m : M A) (k : A -> M B) :
  Steps m -> (forall a, Steps (k a)) -> Steps (m ≫= k).
Proof.
  intros Hm Hk env s b s' (a & s1 & H1 & H2)%bind_ok.
  etransitivity; [by eapply Hm | by eapply Hk].
Qed.
Lemma steps_map_err {A} g (m : M A) : Steps m -> Steps (map_err g m).
Proof. intros Hm env s a s' H%map_err_ok. by eapply Hm. Qed.
Lemma steps_no_rows {A} e (m : M A) : Steps m -> Steps (no_rows e m).
Proof. apply steps_map_err. Qed.
Lemma steps_query_res {A} (f : DB -> res A) : Steps (query_res f).
Proof. intros env s a s' [_ ->]%query_res_ok. reflexivity. Qed.
Lemma steps_query {A} (f : DB -> A) : Steps (query f).
Proof. apply steps_query_res. Qed.
Lemma steps_query_row {A} (f : DB -> option A) : Steps (query_row f).
Proof. apply steps_query_res. Qed.
Lemma steps_timeNow : Steps timeNow.
Proof. intros env s a s' ->%timeNow_ok. reflexivity. Qed.
Lemma steps_eventID : Steps newAuditEventID.
Proof. intros env s a s' ->%newAuditEventID_ok. reflexivity. Qed.
Lemma steps_now t : Steps (now_if_zero t).
Proof. intros env s a s' [-> _]%now_if_zero_ok. reflexivity. Qed.
Lemma steps_exec f : (forall d d', f d = Ok d' -> R d d') -> Steps (exec f).
Proof. intros Hf env s a s' H%exec_ok. by apply Hf. Qed.
Lemma steps_exec_n f : (forall d d' n, f d = Ok (d', n) -> R d d') -> Steps (exec_n f).
Proof. intros Hf env s a s' H%exec_n_ok. by eapply Hf. Qed.

(** A transaction carries the relation to every outcome. *)
Lemma opsteps_with_tx {A} (body : M (verdict A)) : Steps body -> OpSteps (with_tx body).
Proof.
  intros Hb env s r s' [[-> _]|(a & s1 & H1 & -> & _)]%with_tx_cases; [reflexivity|].
  exact (Hb _ _ _ _ H1).
Qed.

Lemma opsteps_pure {A} (r : Env -> St -> res A * St) :
  (forall env s, st_db (snd (r env s)) = st_db s) -> OpSteps r.
Proof. intros H env s a s' E. specialize (H env s). rewrite E in H. cbn in H. rewrite H. reflexivity. Qed.
Lemma opsteps_ret {A} (a : A) : OpSteps (mret a).
Proof. by apply opsteps_pure. Qed.
Lemma opsteps_throw {A} e : OpSteps (A:=A) (throw e).
Proof. by apply opsteps_pure. Qed.
Lemma opsteps_reject c e : OpSteps (reject_if c e).
Proof. destruct c; [apply opsteps_throw | apply opsteps_ret]. Qed.
Lemma opsteps_query_res {A} (f : DB -> res A) : OpSteps (query_res f).
Proof. by apply opsteps_pure. Qed.
Lemma opsteps_query {A} (f : DB -> A) : OpSteps (query f).
Proof. by apply opsteps_pure. Qed.
Lemma opsteps_query_row {A} (f : DB -> option A) : OpSteps (query_row f).
Proof. by apply opsteps_pure. Qed.
Lemma opsteps_timeNow : OpSteps timeNow.
Proof. by apply opsteps_pure. Qed.
Lemma opsteps_eventID : OpSteps newAuditEventID.
Proof. by apply opsteps_pure. Qed.
Lemma opsteps_now t : OpSteps (now_if_zero t).
Proof. unfold now_if_zero. destruct (t =? 0)%Z; [apply opsteps_timeNow | apply opsteps_ret]. Qed.
Lemma opsteps_bind {A B} (m : M A) (k : A -> M B) :
  OpSteps m -> (forall a, OpSteps (k a)) -> OpSteps (m ≫= k).
Proof.
  intros Hm Hk env s r s'. unfold mbind, M_bind.
  destruct (m env s) as [[a|e] s1] eqn:E.
  - intros H. etransitivity; [by eapply Hm | by eapply Hk].
  - intros [= <- <-]. by eapply Hm.
Qed.
Lemma opsteps_map_err {A} g (m : M A) : OpSteps m -> OpSteps (map_err g m).
Proof.
  intros Hm env s r s'. unfold map_err. destruct (m env s) as [[a|e] s1] eqn:E; intros [= <- <-];
    by eapply Hm.
Qed.
Lemma steps_opsteps {A} (m : M A) : OpSteps m -> Steps m.
Proof. intros H env s a s'. apply H. Qed.
End Steps.

(** Follow the structure of a program; statements that change the database
    are left to the database [tbl] and the context. *)
Ltac steps_walk :=
  repeat first
    [ progress intros
    | match goal with |- PreOrder _ => typeclasses eauto end
    | apply steps_ret | apply steps_throw | apply steps_reject
    | apply steps_query | apply steps_query_row | apply steps_query_res
    | apply steps_timeNow | apply steps_eventID | apply steps_now
    | apply steps_no_rows | apply steps_map_err
    | match goal with
      | |- Steps _ (mbind _ _) => apply steps_bind
      | |- Steps _ (commit _) => apply steps_ret
      | |- Steps _ (rollback _) => apply steps_ret
      | |- Steps _ (if ?c then _ else _) => destruct c
      | |- Steps _ (match ?c with _ => _ end) => destruct c
      | |- Steps _ (let _ := _ in _) => cbv zeta
      end
    | solve [eauto with tbl] ].
Ltac opsteps_walk :=
  repeat first
    [ progress intros
    | match goal with |- PreOrder _ => typeclasses eauto end
    | apply opsteps_ret | apply opsteps_throw | apply opsteps_reject
    | apply opsteps_query | apply opsteps_query_row | apply opsteps_query_res
    | apply opsteps_timeNow | apply opsteps_eventID | apply opsteps_now
    | apply opsteps_map_err
    | match goal with
      | |- OpSteps _ (with_tx _) => apply opsteps_with_tx
      | |- OpSteps _ (mbind _ _) => apply opsteps_bind
      | |- OpSteps _ (no_rows _ _) => apply opsteps_map_err
      | |- OpSteps _ (if ?c then _ else _) => destruct c
      | |- OpSteps _ (match ?c with _ => _ end) => destruct c
      | |- OpSteps _ (let _ := _ in _) => cbv zeta
      end ].
