(* ===== verification/AuditLog.v ===== *)
(** * AuditLog: the hash-chained audit log

    internal/store/audit_store.go (framing, hash, append with retry, get,
    list, verification) and [appendAuditEventTx] of atomic_transitions.go.
    The theorems: the framing is injective, so two logs with the same head
    hash are the same log or exhibit a SHA-256 collision; every append keeps
    the chain valid; verification accepts exactly the valid chains. *)

From S2P Require Import Prelude.
From S2P Require Import Domain.
From S2P Require Import GoLib.
From S2P Require Import Db.
From S2P Require Import Tx.
From S2P Require Import Scrub.

Definition AuditDomainSeparator : string := "ai-supervisor:audit:v1".
Definition MaxAuditLimit : Z := 500.

(** ** Framing *)
Definition writePrefixedString (s : string) : string :=
  (big_endian 4 (Z.of_nat (String.length s)) ++ s)%string.

Definition frame (fields : list string) : string :=
  fold_right (fun f rest => (writePrefixedString f ++ rest)%string) ""%string fields.

(** The bytes written to the hash. *)
Definition event_preimage (seq : Z) (fields : list string) : string :=
  (writePrefixedString AuditDomainSeparator ++ big_endian 8 seq ++ frame fields)%string.

Definition option_text (o : option string) : string := match o with Some s => s | None => "" end.
Definition null_if_empty (s : string) : option string := if s == "" then None else Some s.

Record AuditRecord := mkAuditRecord {
  rec_Sequence : Z; rec_Event : AuditEvent; rec_PrevHash : string; rec_EventHash : string }.

Section Audit.
Context {L : GoLib}.

Definition ComputeEventHashRaw (seq : Z)
    (eventID eventType timestampStr pairID taskID contractID attemptID actor detailsJSON prevHash
       : string) : string :=
  sha256_hex (event_preimage seq
    [eventID; eventType; timestampStr; pairID; taskID; contractID; attemptID; actor;
     detailsJSON; prevHash]).

Definition ComputeEventHash (seq : Z) (event : AuditEvent) (detailsJSON prevHash : string) : string :=
  ComputeEventHashRaw seq (ev_EventID event) (ev_EventType event) (formatTime (ev_Timestamp event))
    (ev_PairID event) (ev_TaskID event) (ev_ContractID event) (ev_AttemptID event)
    (ev_Actor event) detailsJSON prevHash.

(** The hash of a stored row, as the verification recomputes it
    ([COALESCE(pair_id, '')] and so on). *)
Definition row_hash (r : AuditRow) : string :=
  ComputeEventHashRaw (e_sequence r) (e_event_id r) (e_event_type r) (e_timestamp r)
    (option_text (e_pair_id r)) (option_text (e_task_id r)) (option_text (e_contract_id r))
    (option_text (e_attempt_id r)) (e_actor r) (e_details_json r) (e_prev_hash r).

(** ** Appending *)
Definition too_long (s : string) : bool := (256 <? Z.of_nat (String.length s))%Z.

Definition event_fields_missing (event : AuditEvent) : bool :=
  (ev_EventID event == "") || (ev_EventType event == "") || (ev_Actor event == "").
Definition event_fields_too_long (event : AuditEvent) : bool :=
  existsb too_long [ev_EventID event; ev_EventType event; ev_Actor event; ev_TaskID event;
                    ev_ContractID event; ev_AttemptID event; ev_PairID event].

(** The SELECT 1 probes of the lineage checks. *)
Definition contract_of_task (c t : string) (d : DB) : option unit :=
  if has_contract_task d c t then Some tt else None.
Definition attempt_of (a t c : string) (d : DB) : option unit :=
  if existsb (fun x => (a_AttemptID x == a) && (a_TaskID x == t) && (a_ContractID x == c))
       (task_attempts d) then Some tt else None.
Definition task_of_pair (t p : string) (d : DB) : option unit :=
  if existsb (fun x => (t_TaskID x == t) && (t_PairID x == p)) (tasks d) then Some tt else None.

Definition when (c : bool) (m : M unit) : M unit := if c then m else mret tt.

(** [UPDATE audit_chain_state SET id = 1 WHERE id = 1] takes the write lock
    and changes nothing. *)
Definition own_chain_state : M unit := exec (fun d => Ok d).

(** The row an event becomes. *)
Definition audit_row (nextSeq : Z) (sanitized : AuditEvent) (detailsJSON lastHash eventHash : string)
    : AuditRow :=
  {| e_sequence := nextSeq; e_event_id := ev_EventID sanitized;
     e_event_type := ev_EventType sanitized; e_timestamp := formatTime (ev_Timestamp sanitized);
     e_pair_id := null_if_empty (ev_PairID sanitized);
     e_task_id := null_if_empty (ev_TaskID sanitized);
     e_contract_id := null_if_empty (ev_ContractID sanitized);
     e_attempt_id := null_if_empty (ev_AttemptID sanitized);
     e_actor := ev_Actor sanitized; e_details_json := detailsJSON;
     e_prev_hash := lastHash; e_event_hash := eventHash |}.

(** The shared tail: read the head, hash, insert, advance the head. *)
Definition append_row (sanitized : AuditEvent) (detailsJSON : string) : M AuditRecord :=
  own_chain_state;;
  head ← query (fun d => (last_sequence d, last_hash d));
  let '(lastSeq, lastHash) := head in
  let nextSeq := wrap64 (lastSeq + 1) in
  let eventHash := ComputeEventHash nextSeq sanitized detailsJSON lastHash in
  map_err (fun e => if (e == SqlUnique) || (e == SqlTrigger) then ErrDuplicateKey else e)
    (exec (insert_audit (audit_row nextSeq sanitized detailsJSON lastHash eventHash)));;
  exec (update_chain nextSeq eventHash);;
  mret (mkAuditRecord nextSeq sanitized lastHash eventHash).

(** [appendAuditEventTx] *)
Definition appendAuditEventTx (event : AuditEvent) : M AuditRecord :=
  reject_if (event_fields_missing event) ErrInput;;
  reject_if (event_fields_too_long event) ErrInput;;
  match SanitizeAuditEvent event with
  | None => throw ErrSanitize
  | Some (sanitized, detailsJSON) =>
      ts ← now_if_zero (ev_Timestamp sanitized);
      let sanitized := sanitized <| ev_Timestamp := ts |> in
      reject_if ((ev_ContractID sanitized != "") && (ev_TaskID sanitized == "")) ErrInvalidAuditLineage;;
      reject_if ((ev_AttemptID sanitized != "")
                 && ((ev_TaskID sanitized == "") || (ev_ContractID sanitized == "")))
        ErrInvalidAuditLineage;;
      when (ev_ContractID sanitized != "")
        (no_rows ErrInvalidAuditLineage
           (query_row (contract_of_task (ev_ContractID sanitized) (ev_TaskID sanitized))));;
      when (ev_AttemptID sanitized != "")
        (no_rows ErrInvalidAuditLineage
           (query_row (attempt_of (ev_AttemptID sanitized) (ev_TaskID sanitized)
                         (ev_ContractID sanitized))));;
      when ((ev_PairID sanitized != "") && (ev_TaskID sanitized != ""))
        (no_rows ErrInvalidAuditLineage
           (query_row (task_of_pair (ev_TaskID sanitized) (ev_PairID sanitized))));;
      append_row sanitized detailsJSON
  end.

(** *** AppendAuditEvent: its own transaction, retried while busy *)

(** [withRetry] looks for "database is locked" or "busy" in the text of the
    error.  An attempt returns the error it makes itself with its text; the
    text of a driver error is the environment's, [SqlBusy] standing for the
    one of SQLITE_BUSY.  What the code writes before the driver's text ends in
    ": " and has neither word. *)
Definition logical_error : Type := err * string.
Definition mentions_busy (text : string) : bool :=
  let errStr := ToLower text in Contains errStr "database is locked" || Contains errStr "busy".
Definition driver_busy (env : Env) (e : err) (n : nat) : bool :=
  (e == SqlBusy) || mentions_busy (env_text env n).

(** [select] on ctx.Done and the timer: the environment decides. *)
Definition backoff : M unit := query (fun _ => tt).

Fixpoint withRetry {A} (attempts : nat) (fn : M (A + logical_error)) : M A :=
  match attempts with
  | O => throw ErrInput   (* operation timed out after busy retries *)
  | S n => fun env s =>
      match fn env s with
      | (Ok (inl a), s') => (Ok a, s')
      | (Ok (inr (e, text)), s') =>
          if mentions_busy text then (backoff;; withRetry n fn) env s' else (Err e, s')
      | (Err e, s') =>
          if driver_busy env e (st_tick s') then (backoff;; withRetry n fn) env s' else (Err e, s')
      end
  end.
Definition maxRetries : nat := 20.

(** A lineage probe that fails with its own message. *)
Definition probe (c : bool) (f : DB -> option unit) (text : string)
    (k : M (verdict (AuditRecord + logical_error))) : M (verdict (AuditRecord + logical_error)) :=
  if c then
    found ← query (fun d => is_some (f d));
    if found : bool then k else rollback (inr (ErrInvalidAuditLineage, text))
  else k.

Definition lineage_text (body : string) : string :=
  ("store: invalid audit event lineage: " ++ body)%string.

(** The error of an event that is there already quotes its identifier, and the
    driver. *)
Definition duplicate_text (eventID driver : string) : string :=
  ("store: duplicate key constraint violation: duplicate audit event_id " ++ eventID ++ ": " ++ driver)%string.
Definition duplicate_as_text (eventID : string) (m : M (AuditRecord + logical_error))
    : M (AuditRecord + logical_error) := fun env s =>
  match m env s with
  | (Err ErrDuplicateKey, s') =>
      (Ok (inr (ErrDuplicateKey, duplicate_text eventID (env_text env (st_tick s')))), s')
  | r => r
  end.

Definition append_attempt (sanitized : AuditEvent) (detailsJSON : string)
    : M (AuditRecord + logical_error) :=
  let P := ev_PairID sanitized in let T := ev_TaskID sanitized in
  let C := ev_ContractID sanitized in let A := ev_AttemptID sanitized in
  duplicate_as_text (ev_EventID sanitized) (with_tx (
    probe (C != "") (contract_of_task C T)
      (lineage_text ("contract " ++ C ++ " does not belong to task " ++ T))
    (probe (A != "") (attempt_of A T C)
      (lineage_text ("attempt " ++ A ++ " does not belong to task " ++ T ++ " and contract " ++ C))
    (probe ((P != "") && (T != "")) (task_of_pair T P)
      (lineage_text ("task " ++ T ++ " does not belong to pair " ++ P))
    (probe ((T != "") && (C == "") && (A == "") && (P == ""))
      (fun d => if has_task d T then Some tt else None)
      (lineage_text ("task " ++ T ++ " not found"))
    (probe ((P != "") && (T == ""))
      (fun d => if has_pair d P then Some tt else None)
      (lineage_text ("pair " ++ P ++ " not found"))
    (rec ← append_row sanitized detailsJSON; commit (inl rec)))))))).

Definition AppendAuditEvent (event : AuditEvent) : M AuditRecord :=
  reject_if (ev_EventID event == "") ErrInput;;
  reject_if (ev_EventType event == "") ErrInput;;
  reject_if (ev_Actor event == "") ErrInput;;
  reject_if (event_fields_too_long event) ErrInput;;
  match SanitizeAuditEvent event with
  | None => throw ErrSanitize
  | Some (sanitized, detailsJSON) =>
      ts ← now_if_zero (ev_Timestamp sanitized);
      let sanitized := sanitized <| ev_Timestamp := ts |> in
      reject_if ((ev_ContractID sanitized != "") && (ev_TaskID sanitized == "")) ErrInvalidAuditLineage;;
      reject_if ((ev_AttemptID sanitized != "")
                 && ((ev_TaskID sanitized == "") || (ev_ContractID sanitized == "")))
        ErrInvalidAuditLineage;;
      withRetry maxRetries (append_attempt sanitized detailsJSON)
  end.

(** ** Verification *)

(** The loop of [VerifyAuditChain]: [None] is a reported break, otherwise the
    next expected sequence and previous hash. *)
Fixpoint verify_rows (expectedSeq : Z) (expectedPrevHash : string) (rows : list AuditRow)
    : option (Z * string) :=
  match rows with
  | [] => Some (expectedSeq, expectedPrevHash)
  | r :: rest =>
      if negb (e_sequence r =? expectedSeq)%Z then None
      else if e_prev_hash r != expectedPrevHash then None
      else if e_event_hash r != row_hash r then None
      else verify_rows (wrap64 (expectedSeq + 1)) (e_event_hash r) rest
  end.

Definition by_sequence (a b : AuditRow) : bool := (e_sequence a <=? e_sequence b)%Z.

(** The verdict of [VerifyAuditChain] on one snapshot, as a predicate. *)
Definition chain_valid (d : DB) : bool :=
  if (last_sequence d =? 0)%Z then
    if last_hash d != GenesisAuditHash then false
    else (Z.of_nat (length (audit_events d)) =? 0)%Z
  else
    match verify_rows 1 GenesisAuditHash (sort_by by_sequence (audit_events d)) with
    | None => false
    | Some (expectedSeq, expectedPrevHash) =>
        if negb (wrap64 (expectedSeq - 1) =? last_sequence d)%Z then false
        else expectedPrevHash == last_hash d
    end.

(** A read-only transaction, or a plain one when the driver refuses it. *)
Definition with_snapshot {A} (body : M (verdict A)) : M A := fun env s =>
  match env_io env (st_tick s) with
  | IoOk => with_tx body env s
  | _ => with_tx body env (mkSt (st_db s) (S (st_tick s)))
  end.

Definition VerifyAuditChain : M unit :=
  with_snapshot (
    head ← query (fun d => (last_sequence d, last_hash d));
    let '(headSeq, headHash) := head in
    if (headSeq =? 0)%Z then
      reject_if (headHash != GenesisAuditHash) ErrAuditChainInvalid;;
      count ← query (fun d => Z.of_nat (length (audit_events d)));
      reject_if (negb (count =? 0)%Z) ErrAuditChainInvalid;;
      rollback tt
    else
      rows ← query (fun d => sort_by by_sequence (audit_events d));
      match verify_rows 1 GenesisAuditHash rows with
      | None => throw ErrAuditChainInvalid
      | Some (expectedSeq, expectedPrevHash) =>
          let actualCount := wrap64 (expectedSeq - 1) in
          reject_if (negb (actualCount =? headSeq)%Z) ErrAuditChainInvalid;;
          reject_if (expectedPrevHash != headHash) ErrAuditChainInvalid;;
          rollback tt
      end).

(** ** Reading *)

(** [details_json] to [Details]: "{}" and "" are the empty map. *)
Definition decode_details (text : string) : option (list (string * value)) :=
  if (text == "") || (text == "{}") then Some [] else json_Unmarshal text.

(** The record of a row: its columns (NULLs read as empty strings, the
    timestamp as the instant its text denotes) and the decoded details. *)
Definition record_of_row (r : AuditRow) : option (AuditRow * list (string * value)) :=
  match decode_details (e_details_json r) with
  | None => None
  | Some det => Some (r, det)
  end.

Definition GetAuditEvent (eventID : string)
    : M (AuditRow * list (string * value)) :=
  reject_if (eventID == "") ErrInput;;
  r ← no_rows ErrAuditEventNotFound
        (query_row (fun d => find (fun e => e_event_id e == eventID) (audit_events d)));
  match record_of_row r with None => throw ErrJSON | Some rec => mret rec end.

(** The SELECT of [ListAuditEvents]. *)
Definition list_rows (afterSequence limit : Z) (d : DB) : list AuditRow :=
  let afterSequence := if (afterSequence <? 0)%Z then 0%Z else afterSequence in
  take (Z.to_nat limit)
    (sort_by by_sequence (select (fun e => (afterSequence <? e_sequence e)%Z) (audit_events d))).

Fixpoint decode_rows (rows : list AuditRow)
    : option (list (AuditRow * list (string * value))) :=
  match rows with
  | [] => Some []
  | r :: rest =>
      match record_of_row r, decode_rows rest with
      | Some rec, Some recs => Some (rec :: recs)
      | _, _ => None
      end
  end.

Definition ListAuditEvents (afterSequence limit : Z)
    : M (list (AuditRow * list (string * value))) :=
  reject_if ((limit <=? 0)%Z || (MaxAuditLimit <? limit)%Z) ErrInvalidLimit;;
  rows ← query (list_rows afterSequence limit);
  match decode_rows rows with None => throw ErrJSON | Some recs => mret recs end.
End Audit.

(** ** Injectivity of the framing *)
Definition framable (s : string) : Prop := (Z.of_nat (String.length s) < 2 ^ 32)%Z.

Lemma writePrefixedString_inj s t x y :
  framable s -> framable t ->
  (writePrefixedString s ++ x)%string = (writePrefixedString t ++ y)%string -> s = t /\ x = y.
Proof.
  unfold framable, writePrefixedString. intros Hs Ht. rewrite !append_assoc.
  intros [Hl H]%append_inj_length; [|by rewrite !big_endian_length].
  apply big_endian_inj in Hl. rewrite !Z.mod_small in Hl by lia.
  apply append_inj_length in H; [done|lia].
Qed.

Lemma frame_inj l1 l2 :
  Forall framable l1 -> Forall framable l2 -> length l1 = length l2 -> frame l1 = frame l2 -> l1 = l2.
Proof.
  intros H1. revert l2. induction H1 as [|s l1 Hs _ IH]; intros [|t l2] H2 Hl; try discriminate; [done|].
  inversion H2; subst. cbn [frame fold_right]. intros [-> H]%writePrefixedString_inj; [|done..].
  f_equal. apply IH; [done| |done]. by injection Hl.
Qed.

Lemma event_preimage_inj s1 s2 l1 l2 :
  is_int64 s1 -> is_int64 s2 -> Forall framable l1 -> Forall framable l2 -> length l1 = length l2 ->
  event_preimage s1 l1 = event_preimage s2 l2 -> s1 = s2 /\ l1 = l2.
Proof.
  intros Hs1 Hs2 Hf1 Hf2 Hl. unfold event_preimage.
  intros [_ H]%append_inj_length; [|done].
  apply append_inj_length in H as [Hs H]; [|by rewrite !big_endian_length].
  apply big_endian_inj in Hs. split; [|by apply frame_inj].
  unfold is_int64, min_int64, max_int64 in *.
  change (256 ^ Z.of_nat 8)%Z with 18446744073709551616%Z in Hs.
  assert (forall z, (-9223372036854775808 <= z <= 9223372036854775807)%Z ->
            (z mod 18446744073709551616 = if z <? 0 then z + 18446744073709551616 else z)%Z) as Hm.
  { intros z Hz. destruct (z <? 0)%Z eqn:E; breflect.
    - symmetry. apply Z.mod_unique with (-1)%Z; lia.
    - apply Z.mod_small. lia. }
  rewrite !Hm in Hs by lia. destruct (s1 <? 0)%Z eqn:?, (s2 <? 0)%Z eqn:?; breflect; lia.
Qed.

(** ** The chain *)
Section Chain.
Context {L : GoLib}.

(** What a row says, NULL and '' identified as in the hash. *)
Definition row_fields (r : AuditRow) : list string :=
  [e_event_id r; e_event_type r; e_timestamp r; option_text (e_pair_id r);
   option_text (e_task_id r); option_text (e_contract_id r); option_text (e_attempt_id r);
   e_actor r; e_details_json r; e_prev_hash r].
Definition row_view (r : AuditRow) : Z * list string := (e_sequence r, row_fields r).
Definition framed (r : AuditRow) : Prop := is_int64 (e_sequence r) /\ Forall framable (row_fields r).

(** The bytes hashed for a row. *)
Definition row_preimage (r : AuditRow) : string := event_preimage (e_sequence r) (row_fields r).
(** A row of each log, with different bytes hashed and the same SHA-256. *)
Definition collision (l1 l2 : list AuditRow) : Prop :=
  exists r1 r2, In r1 l1 /\ In r2 l2 /\ row_preimage r1 <> row_preimage r2 /\
    sha256_hex (row_preimage r1) = sha256_hex (row_preimage r2).
Lemma collision_mono l1 l2 m1 m2 :
  (forall r, In r l1 -> In r m1) -> (forall r, In r l2 -> In r m2) ->
  collision l1 l2 -> collision m1 m2.
Proof. intros H1 H2 (r1 & r2 & ? & ? & ?). exists r1, r2. auto. Qed.

Lemma row_hash_inj r1 r2 :
  framed r1 -> framed r2 -> row_hash r1 = row_hash r2 ->
  row_view r1 = row_view r2 \/ collision [r1] [r2].
Proof.
  intros [Hs1 Hf1] [Hs2 Hf2] Hh.
  destruct (decide (row_preimage r1 = row_preimage r2)) as [E|Hne].
  - left. apply event_preimage_inj in E as [E1 E2]; auto. unfold row_view. by rewrite E1, E2.
  - right. exists r1, r2. cbn. auto.
Qed.

Lemma verify_rows_app s p l r :
  verify_rows s p (l ++ [r]) =
    match verify_rows s p l with
    | None => None
    | Some (s1, p1) => verify_rows s1 p1 [r]
    end.
Proof.
  revert s p. induction l as [|x l IH]; intros s p; [done|].
  cbn [app verify_rows]. do 3 (case_match; [done|]). apply IH.
Qed.

Lemma verify_row s p r q h :
  verify_rows s p [r] = Some (q, h) <->
  e_sequence r = s /\ e_prev_hash r = p /\ e_event_hash r = row_hash r /\
  q = wrap64 (s + 1) /\ h = e_event_hash r.
Proof.
  cbn. split.
  - repeat case_match; try done. intros [= <- <-]. breflect. done.
  - intros (-> & -> & <- & -> & ->). by rewrite Z.eqb_refl, !eqb_refl.
Qed.

Lemma verify_rows_seq s p l q h :
  verify_rows s p l = Some (q, h) -> is_int64 s -> (s + Z.of_nat (length l) <= max_int64)%Z ->
  q = (s + Z.of_nat (length l))%Z /\ ordered by_sequence l = true.
Proof.
  revert s p. induction l as [|r l IH]; intros s p; cbn [verify_rows length].
  - intros [= <- <-] _ _. split; [lia|done].
  - repeat (case_match; [done|]). breflect. intros Hv Hs Hl.
    assert (wrap64 (s + 1) = s + 1)%Z as Hw.
    { apply wrap64_id. unfold is_int64 in *. lia. }
    rewrite Hw in Hv. destruct (IH _ _ Hv) as [-> Ho].
    { unfold is_int64 in *. lia. }
    { lia. }
    split; [lia|]. cbn. rewrite Ho, andb_true_r.
    destruct l as [|r' l]; [done|]. cbn in Hv |- *.
    case_match; [done|]. breflect. unfold by_sequence. apply Z.leb_le. lia.
Qed.

(** The invariant: the log is verified row by row and the head is its end. *)
Record Chain (d : DB) : Prop := {
  chain_last : last_sequence d = Z.of_nat (length (audit_events d));
  chain_rows : verify_rows 1 GenesisAuditHash (audit_events d)
               = Some ((Z.of_nat (length (audit_events d)) + 1)%Z, last_hash d) }.
Definition log_small (d : DB) : Prop := (Z.of_nat (length (audit_events d)) < max_int64)%Z.

Lemma chain_empty : Chain empty_db.
Proof. by split. Qed.

Lemma chain_chain_valid d : Chain d -> log_small d -> chain_valid d = true.
Proof.
  intros [Hl Hr] Hs. unfold chain_valid, log_small in *.
  destruct (verify_rows_seq _ _ _ _ _ Hr) as [_ Ho]; [done|lia|].
  destruct (last_sequence d =? 0)%Z eqn:E; breflect.
  - destruct (audit_events d); [|cbn in *; lia]. cbn in Hr. injection Hr as <-. done.
  - rewrite sort_by_ordered, Hr by done.
    rewrite Z.add_simpl_r, wrap64_id by (unfold is_int64, min_int64; lia).
    by rewrite <- Hl, Z.eqb_refl, eqb_refl.
Qed.

Lemma chain_valid_rows d :
  chain_valid d = true -> log_small d ->
  let rows := sort_by by_sequence (audit_events d) in
  last_sequence d = Z.of_nat (length rows) /\
  verify_rows 1 GenesisAuditHash rows = Some ((Z.of_nat (length rows) + 1)%Z, last_hash d).
Proof.
  unfold chain_valid, log_small. cbn zeta. intros Hc Hs.
  destruct (last_sequence d =? 0)%Z eqn:E.
  - case_match; [done|]. breflect. destruct (audit_events d); [|cbn in Hc; lia]. cbn.
    split; [done|]. by match goal with E : last_hash d = _ |- _ => rewrite E end.
  - destruct (verify_rows _ _ _) as [[q h]|] eqn:Hv; [|done]. case_match; [done|]. breflect.
    destruct (verify_rows_seq _ _ _ _ _ Hv) as [-> _]; [done|rewrite sort_by_length; lia|].
    rewrite wrap64_id in *.
    2: { rewrite sort_by_length. unfold is_int64, min_int64. lia. }
    split; [lia|]. f_equal. f_equal; [lia|done].
Qed.

Lemma verify_rows_same l1 : forall l2 p q1 q2 h s,
  length l1 = length l2 -> is_int64 s -> (s + Z.of_nat (length l1) <= max_int64)%Z ->
  Forall framed l1 -> Forall framed l2 ->
  verify_rows s p l1 = Some (q1, h) -> verify_rows s p l2 = Some (q2, h) ->
  map row_view l1 = map row_view l2 \/ collision l1 l2.
Proof.
  induction l1 as [|r1 l1 IH] using rev_ind; intros l2 p q1 q2 h s Hl Hs Hb F1 F2 V1 V2.
  - left. by destruct l2.
  - destruct l2 as [|r2 l2 _] using rev_ind; [rewrite length_app in Hl; cbn in Hl; lia|].
    rewrite !length_app in *. cbn in Hl, Hb.
    rewrite verify_rows_app in V1, V2.
    destruct (verify_rows s p l1) as [[s1 p1]|] eqn:E1; [|done].
    destruct (verify_rows s p l2) as [[s2 p2]|] eqn:E2; [|done].
    apply verify_row in V1 as (Hq1 & Hp1 & Hh1 & _ & Hx1).
    apply verify_row in V2 as (Hq2 & Hp2 & Hh2 & _ & Hx2).
    apply Forall_app in F1 as [F1 G1]. apply Forall_app in F2 as [F2 G2].
    apply Forall_inv in G1, G2.
    destruct (row_hash_inj r1 r2) as [Hv|Hc]; [done|done|congruence| |right].
    2: { revert Hc. apply collision_mono; intros r [->|[]]; apply in_or_app; cbn; auto. }
    assert (p1 = p2) as ->.
    { rewrite <- Hp1, <- Hp2. unfold row_view, row_fields in Hv. congruence. }
    destruct (IH l2 p s1 s2 p2 s) as [Hm|Hc]; auto; [lia..| |right].
    2: { revert Hc. apply collision_mono; intros r Hr; apply in_or_app; auto. }
    left. rewrite !map_app. cbn. by rewrite Hm, Hv.
Qed.
End Chain.

(** ** The effect of an append *)
Section Effect.
Context {L : GoLib}.

Definition with_log (d : DB) (rows : list AuditRow) (seq : Z) (hash : string) : DB :=
  d <| audit_events := rows |> <| last_sequence := seq |> <| last_hash := hash |>.

(** [d'] is [d] with row [r] appended to the log and the head moved to it. *)
Definition appends (r : AuditRow) (d d' : DB) : Prop :=
  d' = with_log d (audit_events d ++ [r]) (e_sequence r) (e_event_hash r) /\
  e_sequence r = wrap64 (last_sequence d + 1) /\ e_prev_hash r = last_hash d /\
  e_event_hash r = row_hash r /\ has_event d (e_event_id r) = false /\
  existsb (fun x => e_sequence x =? e_sequence r)%Z (audit_events d) = false /\
  existsb (fun x => e_event_hash x == e_event_hash r) (audit_events d) = false.

(** The append of event [ev]: its sanitised content, in its lineage. *)
Definition logged (ev : AuditEvent) (d d' : DB) : Prop :=
  exists r, appends r d d' /\
    e_event_id r = ev_EventID ev /\ e_event_type r = ev_EventType ev /\
    e_actor r = ScrubString (ev_Actor ev) /\
    (exists m, SanitizeDetails (ev_Details ev) = Some (m, e_details_json r)) /\
    e_pair_id r = null_if_empty (ev_PairID ev) /\ e_task_id r = null_if_empty (ev_TaskID ev) /\
    e_contract_id r = null_if_empty (ev_ContractID ev) /\
    e_attempt_id r = null_if_empty (ev_AttemptID ev) /\
    (ev_Timestamp ev <> 0%Z -> e_timestamp r = formatTime (ev_Timestamp ev)).

Lemma option_text_null s : option_text (null_if_empty s) = s.
Proof. unfold null_if_empty. destruct (s == "") eqn:E; [|done]. by apply eqb_eq in E as ->. Qed.

Lemma row_hash_audit_row n ev json prev h :
  row_hash (audit_row n ev json prev h) = ComputeEventHash n ev json prev.
Proof. unfold row_hash. cbn. by rewrite !option_text_null. Qed.

Lemma insert_audit_ok r d d' :
  insert_audit r d = Ok d' ->
  d' = d <| audit_events := audit_events d ++ [r] |> /\ has_event d (e_event_id r) = false /\
  existsb (fun x => e_sequence x =? e_sequence r)%Z (audit_events d) = false /\
  existsb (fun x => e_event_hash x == e_event_hash r) (audit_events d) = false.
Proof.
  unfold insert_audit, guard_sql. case_match eqn:E; [done|]. case_match; [done|]. intros [= <-].
  split; [done|]. unfold has_event.
  split_and!; [| |done]; apply not_true_iff_false; intros (x & Hx & Hq)%existsb_exists;
    pose proof (existsb_false_in _ _ x E Hx) as Hf; cbn in Hf; by breflect.
Qed.

Lemma append_row_ok ev json env s rec s' :
  append_row ev json env s = (Ok rec, s') ->
  exists r, appends r (st_db s) (st_db s') /\
    r = audit_row (rec_Sequence rec) ev json (rec_PrevHash rec) (rec_EventHash rec) /\
    rec_Event rec = ev.
Proof.
  unfold append_row, own_chain_state, update_chain. intros Hrun. minv Hrun.
  match goal with E : insert_audit ?r _ = Ok _ |- _ =>
    apply insert_audit_ok in E as (E & Hn & Hs & Hh); exists r end.
  same_db. split; [|done]. unfold appends. rewrite row_hash_audit_row. done.
Qed.
End Effect.

Lemma when_probe_ok env s s' c e (f : DB -> option unit) u :
  when c (no_rows e (query_row f)) env s = (Ok u, s') ->
  st_db s' = st_db s /\ (c = true -> is_some (f (st_db s)) = true).
Proof.
  unfold when. destruct c; intros H; minv H; [|done].
  split; [done|]. intros _. by match goal with E : f _ = _ |- _ => rewrite E end.
Qed.

Ltac minv_extra H ::=
  lazymatch type of H with
  | when _ _ _ _ = (Ok _, _) => apply when_probe_ok in H as [? ?]
  | _ => idtac
  end.

Section AppendTx.
Context {L : GoLib}.

Lemma appendAuditEventTx_ok ev env s rec s' :
  appendAuditEventTx ev env s = (Ok rec, s') -> logged ev (st_db s) (st_db s').
Proof.
  unfold appendAuditEventTx. intros Hrun. minv Hrun.
  match goal with E : append_row _ _ _ _ = _ |- _ => apply append_row_ok in E as (r & Ha & Hr & _) end.
  same_db.
  match goal with E : SanitizeAuditEvent _ = Some (?a, ?j) |- _ =>
    rename E into Hsan; destruct (SanitizeAuditEvent_identity _ _ _ Hsan) as (Ei & Et & Ets & Eta & Ec & Eat & Ep) end.
  unfold SanitizeAuditEvent in Hsan. destruct (SanitizeDetails _) as [[m j]|] eqn:Es; [|done].
  injection Hsan as <- <-. cbn in *.
  exists r. rewrite Hr in *. cbn in *. split_and!; [exact Ha|done|done|done|by exists m|done|done|done|done|].
  intros Hz. match goal with E : ev_Timestamp _ <> _ -> _ |- _ => by rewrite E end.
Qed.
End AppendTx.

Ltac minv_extra H ::=
  lazymatch type of H with
  | when _ _ _ _ = (Ok _, _) => apply when_probe_ok in H as [? ?]
  | appendAuditEventTx _ _ _ = (Ok _, _) => apply appendAuditEventTx_ok in H
  | _ => idtac
  end.

(** ** The log of every run: append-only, and valid when it was *)
Section LogStep.
Context {L : GoLib}.

Record log_step (d d' : DB) : Prop := {
  log_prefix : exists suffix, audit_events d' = audit_events d ++ suffix;
  log_chain : log_small d' -> Chain d -> Chain d' }.

Lemma log_step_same d d' :
  audit_events d' = audit_events d -> last_sequence d' = last_sequence d ->
  last_hash d' = last_hash d -> log_step d d'.
Proof.
  intros He Hs Hh. split.
  - exists []. by rewrite app_nil_r.
  - intros _ [Hl Hr]. split; by rewrite ?He, ?Hs, ?Hh.
Qed.

#[export] Instance log_step_preorder : PreOrder log_step.
Proof.
  split.
  - intros d. by apply log_step_same.
  - intros d1 d2 d3 [[l1 H1] C1] [[l2 H2] C2]. split.
    + exists (l1 ++ l2). by rewrite H2, H1, app_assoc.
    + intros Hs Hc. apply C2; [done|]. apply C1; [|done].
      unfold log_small in *. rewrite H2, length_app in Hs. lia.
Qed.

Lemma appends_log_step r d d' : appends r d d' -> log_step d d'.
Proof.
  intros (-> & Hs & Hp & Hh & _). split; [by exists [r]|].
  unfold log_small. cbn. rewrite length_app. cbn. intros Hsm [Hl Hr].
  assert (e_sequence r = Z.of_nat (length (audit_events d)) + 1)%Z as Hq.
  { rewrite Hs, Hl. apply wrap64_id. unfold is_int64, min_int64. lia. }
  split; cbn; rewrite length_app; cbn; [lia|].
  rewrite verify_rows_app, Hr. apply verify_row. split_and!; auto.
  rewrite wrap64_id; [lia|]. unfold is_int64, min_int64. lia.
Qed.

Lemma logged_log_step ev d d' : logged ev d d' -> log_step d d'.
Proof. intros (r & Ha & _). by eapply appends_log_step. Qed.

Lemma duplicate_as_text_cases id m env s r s' :
  duplicate_as_text id m env s = (r, s') ->
  exists r1, m env s = (r1, s') /\ (r1 = r \/ (r1 = Err ErrDuplicateKey /\ exists x, r = Ok (inr x))).
Proof.
  unfold duplicate_as_text. destruct (m env s) as [[a|e] s1]; [by intros [= <- <-]; eauto|].
  destruct e; intros [= <- <-]; eexists; (split; [reflexivity|]); first [by left | right; eauto].
Qed.

(** Any relation that contains the appends is maintained by the two append
    operations. *)
Section Any.
Context (R : DB -> DB -> Prop) `{!PreOrder R} (HR : forall r d d', appends r d d' -> R d d').

Lemma steps_append_row ev json : Steps R (append_row ev json).
Proof. intros env s a s' (r & Ha & _)%append_row_ok. by eapply HR. Qed.
Lemma steps_appendAuditEventTx ev : Steps R (appendAuditEventTx ev).
Proof. intros env s a s' (r & Ha & _)%appendAuditEventTx_ok. by eapply HR. Qed.

Lemma opsteps_withRetry {A} n (fn : M (A + logical_error)) :
  OpSteps R fn -> OpSteps R (withRetry n fn).
Proof.
  intros Hf. induction n as [|n IH]; intros env s r s'; cbn [withRetry].
  - intros H. by apply (opsteps_throw R _ _ _ _ _ H).
  - assert (forall env s r s', (backoff;; withRetry n fn) env s = (r, s') -> R (st_db s) (st_db s')) as Hb.
    { apply (opsteps_bind R); [|done]. apply opsteps_query. done. }
    destruct (fn env s) as [[[a|[e text]]|e] s1] eqn:E; pose proof (Hf _ _ _ _ E) as H1.
    + by intros [= <- <-].
    + case_match; [|by intros [= <- <-]]. intros H2. etransitivity; [exact H1|by eapply Hb].
    + case_match; [|by intros [= <- <-]]. intros H2. etransitivity; [exact H1|by eapply Hb].
Qed.
Lemma opsteps_duplicate_as_text id m : OpSteps R m -> OpSteps R (duplicate_as_text id m).
Proof. intros Hm env s r s' (r1 & H & _)%duplicate_as_text_cases. by apply Hm in H. Qed.

Lemma steps_probe c f text k : Steps R k -> Steps R (probe c f text k).
Proof. intros Hk. unfold probe. by steps_walk. Qed.

Lemma opsteps_append_attempt ev json : OpSteps R (append_attempt ev json).
Proof.
  unfold append_attempt. apply opsteps_duplicate_as_text, opsteps_with_tx; [done|]. repeat apply steps_probe.
  apply steps_bind; [done|apply steps_append_row|]. intros a. by apply steps_ret.
Qed.

Lemma opsteps_AppendAuditEvent ev : OpSteps R (AppendAuditEvent ev).
Proof.
  unfold AppendAuditEvent. repeat (opsteps_walk; try done).
  apply opsteps_withRetry, opsteps_append_attempt.
Qed.
End Any.
End LogStep.

(** ** What verification accepts *)
Lemma opsteps_with_snapshot (R : DB -> DB -> Prop) `{!PreOrder R} {A} (body : M (verdict A)) :
  Steps R body -> OpSteps R (with_snapshot body).
Proof.
  intros Hb env s r s' H. unfold with_snapshot in H. destruct (env_io _ _); by eapply opsteps_with_tx in H.
Qed.

Section Verify.
Context {L : GoLib}.

Definition prev_of (genesis : string) (rows : list AuditRow) (i : nat) : string :=
  match i with
  | O => genesis
  | S j => match nth_error rows j with Some r => e_event_hash r | None => genesis end
  end.

(** The rows are numbered from [s], linked by their hashes, starting at [p]. *)
Definition linked_rows (s : Z) (p : string) (rows : list AuditRow) : Prop :=
  forall i r, nth_error rows i = Some r ->
    e_sequence r = (s + Z.of_nat i)%Z /\ e_prev_hash r = prev_of p rows i /\
    e_event_hash r = row_hash r.

(** The specification of a valid log. *)
Definition valid_log (d : DB) : Prop :=
  let rows := sort_by by_sequence (audit_events d) in
  last_sequence d = Z.of_nat (length rows) /\
  last_hash d = prev_of GenesisAuditHash rows (length rows) /\
  linked_rows 1 GenesisAuditHash rows.

Lemma linked_rows_cons s p r rows :
  linked_rows s p (r :: rows) <->
  e_sequence r = s /\ e_prev_hash r = p /\ e_event_hash r = row_hash r /\
  linked_rows (s + 1) (e_event_hash r) rows.
Proof.
  assert (forall i r', nth_error rows i = Some r' ->
            prev_of p (r :: rows) (S i) = prev_of (e_event_hash r) rows i) as Hp.
  { intros i r' Hi. destruct i as [|j]; [done|]. cbn.
    destruct (nth_error rows j) eqn:E; [done|].
    apply nth_error_None in E. assert (nth_error rows (S j) = None) by (apply nth_error_None; lia).
    congruence. }
  split.
  - intros H. destruct (H 0%nat r eq_refl) as (H1 & H2 & H3).
    split_and!; [lia|done|done|]. intros i r' Hi. destruct (H (S i) r' Hi) as (G1 & G2 & G3).
    split_and!; [lia| |done]. by rewrite <- (Hp i r' Hi).
  - intros (H1 & H2 & H3 & H4) i r' Hi. destruct i as [|i]; cbn in Hi.
    + injection Hi as <-. split_and!; [lia|done|done].
    + destruct (H4 i r' Hi) as (G1 & G2 & G3). split_and!; [lia| |done]. by rewrite (Hp i r' Hi).
Qed.

Lemma verify_rows_linked rows : forall s p,
  is_int64 s -> (s + Z.of_nat (length rows) <= max_int64)%Z ->
  linked_rows s p rows ->
  verify_rows s p rows = Some ((s + Z.of_nat (length rows))%Z, prev_of p rows (length rows)).
Proof.
  induction rows as [|r rows IH]; intros s p Hs Hb Hl.
  - cbn. f_equal. f_equal. lia.
  - apply linked_rows_cons in Hl as (<- & <- & Hh & Hl). cbn [verify_rows length] in *.
    rewrite Z.eqb_refl, eqb_refl, <- Hh, eqb_refl. cbn [negb].
    rewrite wrap64_id by (unfold is_int64 in *; lia).
    rewrite IH; [|unfold is_int64 in *; lia|lia|done].
    f_equal. f_equal; [lia|].
    destruct rows as [|x rows] using rev_ind; [done|].
    rewrite length_app. cbn [length]. rewrite Nat.add_1_r. cbn [prev_of].
    rewrite nth_error_app2, Nat.sub_diag by lia. cbn.
    rewrite nth_error_app2, Nat.sub_diag by lia. done.
Qed.

Lemma linked_verify_rows rows : forall s p q h,
  is_int64 s -> (s + Z.of_nat (length rows) <= max_int64)%Z ->
  verify_rows s p rows = Some (q, h) -> linked_rows s p rows.
Proof.
  induction rows as [|r rows IH]; intros s p q h Hs Hb Hv.
  - intros i r Hi. by destruct i.
  - cbn [verify_rows length] in *. do 3 (case_match; [done|]). breflect.
    apply linked_rows_cons. split_and!; try done.
    rewrite wrap64_id in Hv by (unfold is_int64 in *; lia).
    eapply IH; [| |exact Hv]; unfold is_int64 in *; lia.
Qed.

Lemma chain_valid_spec d : log_small d -> (chain_valid d = true <-> valid_log d).
Proof.
  intros Hs. split.
  - intros Hc. destruct (chain_valid_rows d Hc Hs) as [Hl Hv]. unfold valid_log, log_small in *.
    assert (1 + Z.of_nat (length (sort_by by_sequence (audit_events d))) <= max_int64)%Z as Hb
      by (rewrite sort_by_length; lia).
    pose proof (linked_verify_rows _ 1 _ _ _ ltac:(done) Hb Hv) as Hk.
    rewrite (verify_rows_linked _ 1 _ ltac:(done) Hb Hk) in Hv. injection Hv as _ Hh. done.
  - unfold valid_log, log_small, chain_valid in *. intros (Hl & Hh & Hk).
    assert (1 + Z.of_nat (length (sort_by by_sequence (audit_events d))) <= max_int64)%Z as Hb
      by (rewrite sort_by_length; lia).
    rewrite (verify_rows_linked _ 1 _ ltac:(done) Hb Hk).
    rewrite sort_by_length in *.
    destruct (last_sequence d =? 0)%Z eqn:E; breflect.
    + assert (length (audit_events d) = 0%nat) as H0 by lia. rewrite H0 in *. cbn in Hh.
      by rewrite Hh, eqb_refl.
    + rewrite wrap64_id by (unfold is_int64, min_int64; lia).
      rewrite <- Hh, eqb_refl. by destruct (_ =? _)%Z eqn:?; breflect; [|lia].
Qed.
End Verify.

(** Without a failure, the verdict is that of the snapshot. *)
Lemma VerifyAuditChain_verdict {L : GoLib} env s :
  healthy env ->
  fst (VerifyAuditChain env s) = if chain_valid (st_db s) then Ok tt else Err ErrAuditChainInvalid.
Proof.
  intros Hh. unfold VerifyAuditChain, with_snapshot, with_tx, query, query_res, mbind, M_bind, chain_valid.
  rewrite !Hh. cbn -[verify_rows sort_by Z.of_nat]. unfold reject_if, throw, mret, M_ret.
  destruct (last_sequence (st_db s) =? 0)%Z; cbn -[verify_rows sort_by Z.of_nat].
  - destruct (last_hash (st_db s) != GenesisAuditHash); [done|]. cbn -[Z.of_nat]. rewrite Hh.
    cbn -[Z.of_nat]. by destruct (_ =? 0)%Z.
  - rewrite Hh. cbn -[verify_rows sort_by]. destruct (verify_rows _ _ _) as [[q h]|]; [|done].
    destruct (wrap64 (q - 1) =? _)%Z; [|done]. cbn. destruct (h == last_hash (st_db s)); done.
Qed.

(** C18: [VerifyAuditChain], when no statement fails, accepts exactly the valid
    logs: sequences 1, 2, ... without gap, every row linked to its predecessor
    (the first to the genesis hash), every hash the hash of the row's content,
    the persisted head the end of the log; otherwise it reports
    ErrAuditChainInvalid.  It never changes the database, whatever fails. *)
Theorem VerifyAuditChain_spec {L : GoLib} (env : Env) (s : St) :
  log_small (st_db s) ->
  (healthy env ->
     (fst (VerifyAuditChain env s) = Ok tt <-> valid_log (st_db s)) /\
     (fst (VerifyAuditChain env s) = Err ErrAuditChainInvalid <-> ~ valid_log (st_db s))) /\
  st_db (snd (VerifyAuditChain env s)) = st_db s.
Proof.
  intros Hs. split.
  - intros Hh. rewrite <- chain_valid_spec by done.
    rewrite VerifyAuditChain_verdict by done. destruct (chain_valid (st_db s)); intuition congruence.
  - destruct (VerifyAuditChain env s) as [r s'] eqn:E.
    apply (opsteps_with_snapshot eq) in E; [by symmetry|]. steps_walk.
Qed.

(** C16: Tamper evidence: two logs that verify and have the same head agree on
    every row (event, lineage, actor, details, time; NULL and the empty string
    are not told apart), or two of their rows hash different bytes to the same
    SHA-256.  The bounds on field lengths are those of the 4-byte prefix. *)
Theorem audit_head_determines_log {L : GoLib} (d1 d2 : DB) :
  log_small d1 -> log_small d2 ->
  Forall framed (audit_events d1) -> Forall framed (audit_events d2) ->
  chain_valid d1 = true -> chain_valid d2 = true ->
  last_sequence d1 = last_sequence d2 -> last_hash d1 = last_hash d2 ->
  map row_view (sort_by by_sequence (audit_events d1))
    = map row_view (sort_by by_sequence (audit_events d2))
  \/ collision (audit_events d1) (audit_events d2).
Proof.
  intros S1 S2 F1 F2 C1 C2 Hl Hh.
  destruct (chain_valid_rows d1 C1 S1) as [L1 V1], (chain_valid_rows d2 C2 S2) as [L2 V2].
  unfold log_small in *. rewrite Hh in V1.
  destruct (verify_rows_same (sort_by by_sequence (audit_events d1))
    (sort_by by_sequence (audit_events d2)) GenesisAuditHash _ _ _ 1 ltac:(lia) ltac:(done)
    ltac:(rewrite sort_by_length; lia) (sort_by_forall _ _ _ F1) (sort_by_forall _ _ _ F2) V1 V2)
    as [Hm|Hc]; [by left|right].
  revert Hc. apply collision_mono; intros r; apply sort_by_in.
Qed.

(** ** The retry loop and its error text *)
Section Busy.
Context {L : GoLib}.

Definition missing_contract_text (ev : AuditEvent) : string :=
  lineage_text ("contract " ++ ev_ContractID ev ++ " does not belong to task " ++ ev_TaskID ev).

Lemma append_attempt_no_contract env s ev json :
  healthy env -> ev_ContractID ev <> ""%string ->
  has_contract_task (st_db s) (ev_ContractID ev) (ev_TaskID ev) = false ->
  exists s', append_attempt ev json env s
             = (Ok (inr (ErrInvalidAuditLineage, missing_contract_text ev)), s') /\
             st_db s' = st_db s.
Proof.
  intros Hh Hc Hn. unfold append_attempt, duplicate_as_text, with_tx, probe, contract_of_task. rewrite Hh.
  apply eqb_false in Hc. rewrite Hc. cbn [negb].
  unfold query, query_res, mbind, M_bind. cbn. rewrite Hh. cbn. rewrite Hn. cbn.
  eexists. split; reflexivity.
Qed.

Lemma withRetry_no_contract env ev json n : forall s,
  healthy env -> ev_ContractID ev <> ""%string ->
  has_contract_task (st_db s) (ev_ContractID ev) (ev_TaskID ev) = false ->
  fst (withRetry (S n) (append_attempt ev json) env s) =
    if mentions_busy (missing_contract_text ev) then Err ErrInput else Err ErrInvalidAuditLineage.
Proof.
  intros s Hh Hc. revert s.
  induction n as [|n IH]; intros s Hn; cbn [withRetry];
    destruct (append_attempt_no_contract env s ev json Hh Hc Hn) as (s' & -> & Hd);
    (destruct (mentions_busy (missing_contract_text ev)) eqn:E; [|done]);
    unfold backoff, query, query_res, mbind, M_bind; cbn; rewrite Hh; cbn; [done|].
  rewrite <- (IH (mkSt (st_db s') (S (st_tick s')))); [done|]. cbn. by rewrite Hd.
Qed.
End Busy.

(** An event that names a contract its task does not own is refused.  The
    refusal is ErrInvalidAuditLineage, unless the text of that very error,
    which quotes the caller's identifiers, contains "busy" or "database is
    locked": then the retry loop takes it for SQLite contention, repeats it
    twenty times and reports a time-out without the sentinel. *)
Theorem AppendAuditEvent_missing_contract {L : GoLib} (env : Env) (s : St) (ev ev' : AuditEvent)
    (json : string) :
  healthy env ->
  event_fields_missing ev = false -> event_fields_too_long ev = false ->
  SanitizeAuditEvent ev = Some (ev', json) ->
  ev_TaskID ev <> ""%string -> ev_ContractID ev <> ""%string ->
  has_contract_task (st_db s) (ev_ContractID ev) (ev_TaskID ev) = false ->
  fst (AppendAuditEvent ev env s) =
    if mentions_busy (missing_contract_text ev) then Err ErrInput else Err ErrInvalidAuditLineage.
Proof.
  intros Hh Hm Hl Hs Ht Hc Hn. unfold AppendAuditEvent.
  unfold event_fields_missing in Hm. breflect.
  destruct (SanitizeAuditEvent_identity _ _ _ Hs) as (_ & _ & Ets & Eta & Ec & Eat & Ep).
  apply eqb_false in Ht as Ht', Hc as Hc'.
  repeat match goal with E : _ <> ""%string |- _ => apply eqb_false in E end.
  unfold reject_if. repeat match goal with E : _ = false |- _ => rewrite E; revert E end. intros.
  rewrite Hs. unfold now_if_zero, timeNow, tick, throw, mret, M_ret, mbind, M_bind. cbn -[withRetry].
  assert (forall e st, st_db st = st_db s -> ev_TaskID e = ev_TaskID ev ->
    ev_ContractID e = ev_ContractID ev ->
    fst (withRetry maxRetries (append_attempt e json) env st) =
      if mentions_busy (missing_contract_text ev) then Err ErrInput else Err ErrInvalidAuditLineage) as Hr.
  { intros e st Hst E1 E2.
    assert (missing_contract_text e = missing_contract_text ev) as <-.
    { unfold missing_contract_text. by rewrite E1, E2. }
    refine (withRetry_no_contract env e json 19 st Hh _ _).
    - rewrite E2. by apply eqb_false.
    - by rewrite Hst, E1, E2. }
  destruct (ev_Timestamp ev' =? 0)%Z; cbn -[withRetry];
    rewrite Ec, Eta, Eat; rewrite ?Ht', ?Hc'; cbn -[withRetry]; rewrite andb_false_r;
    by apply Hr.
Qed.
