(* ===== verification/TaskStore.v ===== *)
(** * TaskStore: project_store.go, pair_store.go, task_store.go, contract_store.go

    Projects, pairs, tasks and task contracts: creation, reading, the
    compare-and-set transition of a task and the insertion of a contract
    revision. *)

From S2P Require Import Prelude.
From S2P Require Import Domain.
From S2P Require Import Workflow.
From S2P Require Import GoLib.
From S2P Require Import Db.
From S2P Require Import Tx.

(** The two constraint failures the store gives a sentinel. *)
Definition map_constraint (e : err) : err :=
  match e with
  | SqlUnique => ErrDuplicateKey
  | SqlForeignKey => ErrForeignKeyViolation
  | _ => e
  end.
Definition map_unique (e : err) : err := match e with SqlUnique => ErrDuplicateKey | _ => e end.

(** ** Projects *)
Definition CreateProject (p : Project) : M unit :=
  reject_if (blank (pr_ProjectID p)) ErrInput;;
  reject_if (blank (pr_Name p)) ErrInput;;
  reject_if (blank (pr_RootPath p)) ErrInput;;
  registeredAt ← now_if_zero (pr_RegisteredAt p);
  let repoURL := if negb (blank (pr_RepoURL p)) then TrimSpace (pr_RepoURL p) else "" in
  map_err map_unique (autocommit (insert_project
    {| pr_ProjectID := pr_ProjectID p; pr_Name := pr_Name p; pr_RootPath := pr_RootPath p;
       pr_RepoURL := repoURL; pr_RegisteredAt := registeredAt |})).

Definition find_project (projectID : string) (d : DB) : option Project :=
  find (fun p => pr_ProjectID p == projectID) (projects d).
Definition GetProject (projectID : string) : M Project :=
  no_rows ErrProjectNotFound (query_row (find_project projectID)).

(** ** Pairs *)
Definition CreatePair (p : Pair) : M unit :=
  reject_if (blank (p_PairID p)) ErrInput;;
  reject_if (blank (p_ProjectID p)) ErrInput;;
  reject_if (blank (p_CurrentPhaseID p)) ErrInput;;
  reject_if (blank (p_State p)) ErrInput;;
  createdAt ← now_if_zero (p_CreatedAt p);
  let activeTaskID := if negb (blank (p_ActiveTaskID p)) then TrimSpace (p_ActiveTaskID p) else "" in
  map_err map_constraint (autocommit (insert_pair
    {| p_PairID := p_PairID p; p_ProjectID := p_ProjectID p;
       p_CurrentPhaseID := p_CurrentPhaseID p; p_ActiveTaskID := activeTaskID;
       p_State := p_State p; p_CreatedAt := createdAt |})).

Definition find_pair (pairID : string) (d : DB) : option Pair :=
  find (fun p => p_PairID p == pairID) (pairs d).
Definition GetPair (pairID : string) : M Pair :=
  no_rows ErrPairNotFound (query_row (find_pair pairID)).

(** ** Tasks *)
Definition CreateTask (t : Task) : M unit :=
  reject_if (blank (t_TaskID t)) ErrInput;;
  reject_if (blank (t_PhaseID t)) ErrInput;;
  reject_if (blank (t_PairID t)) ErrInput;;
  reject_if (t_State t != StateDraft) ErrInvalidInitialTaskState;;
  reject_if (negb (t_CurrentAttempt t =? 0)%Z) ErrInvalidInitialTaskState;;
  createdAt ← now_if_zero (t_CreatedAt t);
  let updatedAt := if (t_UpdatedAt t =? 0)%Z then createdAt else t_UpdatedAt t in
  map_err map_constraint (autocommit (insert_task
    {| t_TaskID := t_TaskID t; t_PhaseID := t_PhaseID t; t_PairID := t_PairID t;
       t_State := t_State t; t_CurrentAttempt := t_CurrentAttempt t;
       t_CreatedAt := createdAt; t_UpdatedAt := updatedAt |})).

Definition find_task (taskID : string) (d : DB) : option Task :=
  find (fun t => t_TaskID t == taskID) (tasks d).
Definition GetTask (taskID : string) : M Task :=
  no_rows ErrTaskNotFound (query_row (find_task taskID)).

(** [ORDER BY revision_number DESC LIMIT 1] *)
Fixpoint latest_of (best : option ContractRow) (l : list ContractRow) : option ContractRow :=
  match l with
  | [] => best
  | k :: rest =>
      latest_of (match best with
                 | None => Some k
                 | Some b => if (k_revision_number b <? k_revision_number k)%Z then Some k else Some b
                 end) rest
  end.
Definition latest_contract (taskID : string) (d : DB) : option ContractRow :=
  latest_of None (select (fun k => k_task_id k == taskID) (task_contracts d)).

(** The lane states of the pair invariant. *)
Definition lane_state (st : TaskState) : bool :=
  in_list st [StateDispatched; StateRunning; StateReviewing].

(** A task of the pair, other than [taskID], that holds the lane. *)
Definition lane_holder (pairID taskID : string) (d : DB) : option Task :=
  find (fun t => (t_PairID t == pairID) && (t_TaskID t != taskID) && lane_state (t_State t)) (tasks d).

(** READY-entry preconditions on the latest contract of the task. *)
Definition ready_precondition (taskID : string) (expectedFrom : TaskState) : M unit :=
  k ← no_rows ErrReadyContractRequired (query_row (latest_contract taskID));
  match expectedFrom with
  | StateDraft | StateRevisionRequired => reject_if (k_is_immutable k) ErrReadyContractRequired
  | StateFailed => reject_if (negb (k_is_immutable k)) ErrReadyContractRequired
  | _ => throw ErrReadyContractRequired
  end.

Definition TransitionTask (taskID : string) (expectedFrom to : TaskState) : M unit :=
  reject_if ((expectedFrom == StateReady) && (to == StateDispatched)) ErrAtomicDispatchRequired;;
  match Transition expectedFrom to with
  | Some _ => throw ErrTransition
  | None =>
      with_tx (
        t ← no_rows ErrTaskNotFound (query_row (find_task taskID));
        reject_if (t_State t != expectedFrom) ErrStateConflict;;
        (if to == StateReady then ready_precondition taskID expectedFrom else mret tt);;
        (if (to == StateRunning) || (to == StateReviewing) then
           busy ← query (lane_holder (t_PairID t) taskID);
           reject_if (is_some busy) ErrPairBusy
         else mret tt);;
        now ← timeNow;
        rows ← exec_n (update_tasks (fun x => (t_TaskID x == taskID) && (t_State x == expectedFrom))
                         (fun x => x <| t_State := to |> <| t_UpdatedAt := now |>));
        (if (rows =? 0)%nat then
           no_rows ErrTaskNotFound (query_row (find_task taskID));; throw ErrStateConflict
         else commit tt))
  end.

(** ** Task contracts *)
Definition find_contract (contractID : string) (d : DB) : option ContractRow :=
  find (fun k => k_contract_id k == contractID) (task_contracts d).

(** Revision and lineage checks of a revision above 1. *)
Definition check_superseded (c : TaskContract) : M unit :=
  match c_SupersedesContractID c with
  | None => throw ErrInvalidContractLineage
  | Some sup =>
      reject_if (blank sup) ErrInvalidContractLineage;;
      prev ← no_rows ErrInvalidContractLineage (query_row (find_contract (TrimSpace sup)));
      reject_if (k_task_id prev != c_TaskID c) ErrInvalidContractLineage;;
      reject_if (negb (k_revision_number prev =? wrap64 (c_RevisionNumber c - 1))%Z)
        ErrInvalidContractLineage;;
      reject_if (k_base_sha prev != c_BaseSHA c) ErrInvalidContractLineage;;
      reject_if (negb (k_is_immutable prev)) ErrInvalidContractLineage
  end.

Section Contracts.
Context {L : GoLib}.

Definition InsertTaskContract (c : TaskContract) : M unit :=
  reject_if (blank (c_ContractID c)) ErrInput;;
  reject_if (blank (c_TaskID c)) ErrInput;;
  reject_if (c_RevisionNumber c <? 1)%Z ErrInput;;
  reject_if (blank (c_BaseSHA c)) ErrInput;;
  reject_if (c_IsImmutable c) ErrInvalidContractLineage;;
  match json_Marshal_contract c with
  | None => throw ErrJSON
  | Some payload =>
      with_tx (
        t ← no_rows ErrTaskNotFound (query_row (find_task (c_TaskID c)));
        (if (c_RevisionNumber c =? 1)%Z then
           reject_if (t_State t != StateDraft) ErrContractInsertState;;
           reject_if (match c_SupersedesContractID c with Some s => negb (blank s) | None => false end)
             ErrInvalidContractLineage
         else
           reject_if ((t_State t != StateRevisionRequired) && (t_State t != StateDraft))
             ErrContractInsertState;;
           check_superseded c);;
        map_err map_constraint (exec (insert_contract
          {| k_contract_id := c_ContractID c; k_task_id := c_TaskID c;
             k_revision_number := c_RevisionNumber c;
             k_supersedes_contract_id := c_SupersedesContractID c;
             k_base_sha := c_BaseSHA c; k_payload_json := payload; k_is_immutable := false |}));;
        commit tt)
  end.

Definition GetTaskContract (contractID : string) : M TaskContract :=
  k ← no_rows ErrContractNotFound (query_row (find_contract contractID));
  match json_Unmarshal_contract (k_payload_json k) with
  | None => throw ErrJSON
  | Some c => mret (c <| c_IsImmutable := k_is_immutable k |>)
  end.
End Contracts.
