(* ===== verification/DbFacts.v ===== *)
(** * DbFacts: what a statement that succeeds has done

    One inversion lemma per INSERT and UPDATE of [Db]: the table it changes,
    the row count, and the constraint that held. *)

From S2P Require Import Prelude.
From S2P Require Import Domain.
From S2P Require Import Db.
From S2P Require Import TaskStore.

Section Facts.
Implicit Types (d : DB).

Lemma guard_sql_ok {A} e b (k : res A) a : guard_sql e b k = Ok a -> b = false /\ k = Ok a.
Proof. unfold guard_sql. by destruct b. Qed.

(** *** Inserts *)
Lemma insert_project_ok p d d' :
  insert_project p d = Ok d' ->
  d' = d <| projects := projects d ++ [p] |> /\ has_project d (pr_ProjectID p) = false.
Proof. unfold insert_project. intros [H1 [= <-]]%guard_sql_ok. done. Qed.

Lemma insert_pair_ok p d d' :
  insert_pair p d = Ok d' ->
  d' = d <| pairs := pairs d ++ [p] |> /\ has_project d (p_ProjectID p) = true /\
  existsb (fun q => (p_PairID q == p_PairID p) || (p_ProjectID q == p_ProjectID p)) (pairs d) = false.
Proof.
  unfold insert_pair. intros [H1 H]%guard_sql_ok. apply guard_sql_ok in H as [H2 [= <-]].
  breflect. done.
Qed.

Lemma insert_task_ok t d d' :
  insert_task t d = Ok d' ->
  d' = d <| tasks := tasks d ++ [t] |> /\ task_check t = true /\ has_task d (t_TaskID t) = false /\
  has_pair d (t_PairID t) = true.
Proof.
  unfold insert_task. intros [H1 H]%guard_sql_ok. apply guard_sql_ok in H as [H2 H].
  apply guard_sql_ok in H as [H3 [= <-]]. breflect. done.
Qed.

Lemma insert_contract_ok k d d' :
  insert_contract k d = Ok d' ->
  d' = d <| task_contracts := task_contracts d ++ [k] |> /\ (1 <= k_revision_number k)%Z /\
  has_task d (k_task_id k) = true /\ opt_ok (has_contract d) (k_supersedes_contract_id k) = true /\
  forall q, In q (task_contracts d) ->
    k_contract_id q <> k_contract_id k /\
    (k_task_id q = k_task_id k -> k_revision_number q <> k_revision_number k) /\
    (k_supersedes_contract_id k <> None ->
       k_supersedes_contract_id q <> k_supersedes_contract_id k).
Proof.
  unfold insert_contract. intros [H1 H]%guard_sql_ok. apply guard_sql_ok in H as [H2 H].
  apply guard_sql_ok in H as [H3 [= <-]]. breflect. repeat split; try done.
  all: match goal with Hin : In ?q _ |- _ => apply (existsb_false_in _ _ q H2) in Hin end; breflect.
  - done.
  - intros Ht Hr. rewrite Ht, Hr, eqb_refl, Z.eqb_refl in *. done.
  - intros Hs Hq. rewrite Hq, eqb_refl in *.
    by destruct (k_supersedes_contract_id k).
Qed.

Lemma insert_attempt_ok a d d' :
  insert_attempt a d = Ok d' ->
  d' = d <| task_attempts := task_attempts d ++ [a] |> /\ (0 < a_AttemptNumber a)%Z /\
  has_task d (a_TaskID a) = true /\ has_contract_task d (a_ContractID a) (a_TaskID a) = true /\
  forall b, In b (task_attempts d) ->
    a_AttemptID b <> a_AttemptID a /\
    (a_TaskID b = a_TaskID a -> a_AttemptNumber b <> a_AttemptNumber a).
Proof.
  unfold insert_attempt. intros [H1 H]%guard_sql_ok. apply guard_sql_ok in H as [H2 H].
  apply guard_sql_ok in H as [H3 [= <-]]. breflect. repeat split; try done.
  all: match goal with Hin : In ?q _ |- _ => apply (existsb_false_in _ _ q H2) in Hin end; breflect.
  - done.
  - intros Ht Hr. rewrite Ht, Hr, eqb_refl, Z.eqb_refl in *. done.
Qed.

Lemma insert_session_ok w d d' :
  insert_session w d = Ok d' ->
  d' = d <| worker_sessions := worker_sessions d ++ [w] |> /\ has_pair d (ws_PairID w) = true /\
  forall v, In v (worker_sessions d) -> ws_PairID v <> ws_PairID w /\ ws_SessionID v <> ws_SessionID w.
Proof.
  unfold insert_session. intros [H1 H]%guard_sql_ok. apply guard_sql_ok in H as [H2 H].
  apply guard_sql_ok in H as [H3 [= <-]]. breflect. repeat split; try done.
  all: match goal with Hin : In ?q _ |- _ => apply (existsb_false_in _ _ q H2) in Hin end; breflect; done.
Qed.

Lemma insert_provisioning_ok o d d' :
  insert_provisioning o d = Ok d' ->
  d' = d <| pair_provisioning_operations := pair_provisioning_operations d ++ [o] |> /\
  has_pair d (pp_PairID o) = true /\
  forall q, In q (pair_provisioning_operations d) ->
    pp_OperationID q <> pp_OperationID o /\
    (provisioning_unresolved o = true -> provisioning_unresolved q = true -> pp_PairID q <> pp_PairID o).
Proof.
  unfold insert_provisioning. intros [H1 H]%guard_sql_ok. apply guard_sql_ok in H as [H2 [= <-]].
  breflect. repeat split; try done.
  all: match goal with Hin : In ?q _ |- _ => apply (existsb_false_in _ _ q H1) in Hin end; breflect.
  - done.
  - intros Hu Hv Hp. rewrite Hu, Hv, Hp, eqb_refl in *. done.
Qed.

Lemma insert_dispatch_ok o d d' :
  insert_dispatch o d = Ok d' ->
  d' = d <| dispatch_operations := dispatch_operations d ++ [o] |> /\
  has_attempt d (d_AttemptID o) = true /\ has_pair d (d_PairID o) = true /\
  has_task d (d_TaskID o) = true /\
  forall q, In q (dispatch_operations d) ->
    d_OperationID q <> d_OperationID o /\ d_AttemptID q <> d_AttemptID o.
Proof.
  unfold insert_dispatch. intros [H1 H]%guard_sql_ok. apply guard_sql_ok in H as [H2 [= <-]].
  breflect. repeat split; try done.
  all: match goal with Hin : In ?q _ |- _ => apply (existsb_false_in _ _ q H1) in Hin end; breflect; done.
Qed.

Lemma insert_stop_ok o d d' :
  insert_stop o d = Ok d' ->
  d' = d <| stop_operations := stop_operations d ++ [o] |> /\ stop_check o = true /\
  has_pair d (so_PairID o) = true /\
  forall q, In q (stop_operations d) ->
    so_OperationID q <> so_OperationID o /\
    (so_RestoreOperationID o <> None -> so_RestoreOperationID q <> so_RestoreOperationID o) /\
    (so_Purpose o = RunningAttemptStop -> so_AttemptID o <> None -> so_Purpose q = RunningAttemptStop ->
       so_AttemptID q <> so_AttemptID o).
Proof.
  unfold insert_stop. intros [H1 H]%guard_sql_ok. apply guard_sql_ok in H as [H2 H].
  apply guard_sql_ok in H as [H3 [= <-]]. breflect. repeat split; try done.
  all: match goal with Hin : In ?q _ |- _ => apply (existsb_false_in _ _ q H2) in Hin end; breflect.
  - done.
  - intros Hs Hq. rewrite Hq, eqb_refl in *. by destruct (so_RestoreOperationID o).
  - intros Hs Ha Hq He. rewrite Hs, Hq, He, !eqb_refl in *. by destruct (so_AttemptID o).
Qed.

Lemma insert_authorization_ok a d d' :
  insert_authorization a d = Ok d' ->
  d' = d <| restore_authorizations := restore_authorizations d ++ [a] |> /\
  forall b, In b (restore_authorizations d) -> ra_AuthorizationID b <> ra_AuthorizationID a.
Proof.
  unfold insert_authorization. intros [H1 H]%guard_sql_ok. apply guard_sql_ok in H as [H2 H].
  apply guard_sql_ok in H as [H3 [= <-]]. split; [done|].
  intros b Hb. pose proof (existsb_false_in _ _ b H2 Hb) as Hf. cbn in Hf. by breflect.
Qed.

Lemma insert_restore_ok o d d' :
  insert_restore o d = Ok d' ->
  d' = d <| pair_restore_operations := pair_restore_operations d ++ [o] |> /\
  restore_check o = true /\ has_pair d (ro_PairID o) = true /\
  forall q, In q (pair_restore_operations d) ->
    ro_OperationID q <> ro_OperationID o /\ ro_AuthorizationID q <> ro_AuthorizationID o /\
    (restore_unresolved o = true -> restore_unresolved q = true -> ro_PairID q <> ro_PairID o).
Proof.
  unfold insert_restore. intros [H1 H]%guard_sql_ok. apply guard_sql_ok in H as [H2 H].
  apply guard_sql_ok in H as [H3 [= <-]]. breflect. repeat split; try done.
  all: match goal with Hin : In ?q _ |- _ => apply (existsb_false_in _ _ q H2) in Hin end; breflect; try done.
  intros Hu Hv Hp. rewrite Hu, Hv, Hp, eqb_refl in *. done.
Qed.

Lemma insert_budget_ok b d d' :
  insert_budget b d = Ok d' ->
  d' = d <| attempt_execution_budgets := attempt_execution_budgets d ++ [b] |> /\
  budget_lineage d b = true /\ budget_check b = true /\
  forall c, In c (attempt_execution_budgets d) ->
    b_AttemptID c <> b_AttemptID b /\ b_DispatchOperationID c <> b_DispatchOperationID b.
Proof.
  unfold insert_budget. intros [H1 H]%guard_sql_ok. apply guard_sql_ok in H as [H2 H].
  apply guard_sql_ok in H as [H3 H]. apply guard_sql_ok in H as [H4 [= <-]]. breflect.
  repeat split; try done.
  all: match goal with Hin : In ?q _ |- _ => apply (existsb_false_in _ _ q H3) in Hin end; breflect; done.
Qed.

(** *** Updates *)
Lemma update_tasks_ok p f d d' n :
  update_tasks p f d = Ok (d', n) ->
  d' = d <| tasks := upd p f (tasks d) |> /\ n = affected p (tasks d) /\
  forall t, In t (tasks d) -> p t = true -> task_check (f t) = true.
Proof.
  unfold update_tasks. intros [H1 [= <- <-]]%guard_sql_ok. breflect. repeat split.
  intros t Hin Hp. rewrite forallb_forall in H1. specialize (H1 t Hin). by rewrite Hp in H1.
Qed.
Lemma update_contracts_ok p f d d' n :
  update_contracts p f d = Ok (d', n) ->
  d' = d <| task_contracts := upd p f (task_contracts d) |> /\ n = affected p (task_contracts d) /\
  forall k, In k (task_contracts d) -> p k = true -> k_is_immutable k = false.
Proof.
  unfold update_contracts. intros [H1 [= <- <-]]%guard_sql_ok. repeat split.
  intros k Hin Hp. apply (existsb_false_in _ _ k H1) in Hin. by rewrite Hp in Hin.
Qed.
Lemma update_attempts_ok p f d d' n :
  update_attempts p f d = Ok (d', n) ->
  d' = d <| task_attempts := upd p f (task_attempts d) |> /\ n = affected p (task_attempts d).
Proof. unfold update_attempts. by intros [H1 [= <- <-]]%guard_sql_ok. Qed.
Lemma update_sessions_ok p f d d' n :
  update_sessions p f d = Ok (d', n) ->
  d' = d <| worker_sessions := upd p f (worker_sessions d) |> /\ n = affected p (worker_sessions d).
Proof. unfold update_sessions. by intros [H1 [= <- <-]]%guard_sql_ok. Qed.
Lemma update_provisioning_ok p f d d' n :
  update_provisioning p f d = Ok (d', n) ->
  d' = d <| pair_provisioning_operations := upd p f (pair_provisioning_operations d) |>.
Proof. unfold update_provisioning. by intros [H1 [= <- <-]]%guard_sql_ok. Qed.
Lemma update_dispatch_ok p f d d' n :
  update_dispatch p f d = Ok (d', n) ->
  d' = d <| dispatch_operations := upd p f (dispatch_operations d) |> /\
  n = affected p (dispatch_operations d) /\
  forall o, In o (dispatch_operations d) -> p o = true -> dispatch_trigger d o (f o) = false.
Proof.
  unfold update_dispatch. intros [H1 [= <- <-]]%guard_sql_ok. repeat split.
  intros o Hin Hp. apply (existsb_false_in _ _ o H1) in Hin. by rewrite Hp in Hin.
Qed.
Lemma update_dispatch_resolution_ok p r d d' n :
  update_dispatch_resolution p r d = Ok (d', n) ->
  d' = d <| dispatch_operations :=
         upd p (fun o => o <| d_ResolutionState := r |>) (dispatch_operations d) |>.
Proof. by intros [= <- <-]. Qed.
Lemma update_stops_ok p f d d' n :
  update_stops p f d = Ok (d', n) ->
  d' = d <| stop_operations := upd p f (stop_operations d) |> /\ n = affected p (stop_operations d).
Proof. unfold update_stops. by intros [H1 [= <- <-]]%guard_sql_ok. Qed.
Lemma update_restores_ok p f d d' n :
  update_restores p f d = Ok (d', n) ->
  d' = d <| pair_restore_operations := upd p f (pair_restore_operations d) |> /\
  n = affected p (pair_restore_operations d) /\
  forall o, In o (pair_restore_operations d) -> p o = true ->
    restore_trigger o (f o) = false /\ restore_check (f o) = true.
Proof.
  unfold update_restores. intros [H1 H]%guard_sql_ok. apply guard_sql_ok in H as [H2 H].
  apply guard_sql_ok in H as [H3 H]. apply guard_sql_ok in H as [H4 [= <- <-]]. breflect.
  repeat split.
  - apply (existsb_false_in _ _ o H1) in H. by rewrite H0 in H.
  - rewrite forallb_forall in H2. specialize (H2 o H). by rewrite H0 in H2.
Qed.
End Facts.

(** A statement that leaves the rows a query looks at. *)
Lemma find_upd_skip {A} (p q : A -> bool) (f : A -> A) l :
  (forall r, p r = true -> q r = false /\ q (f r) = false) -> find q (upd p f l) = find q l.
Proof.
  intros H. unfold upd. induction l as [|r l IH]; [done|]. cbn. destruct (p r) eqn:E.
  - destruct (H r E) as [-> ->]. done.
  - by rewrite IH.
Qed.
Lemma find_upd {A} (p q : A -> bool) (f : A -> A) l :
  (forall r, p r = true -> q (f r) = q r) ->
  find q (upd p f l) = option_map (fun r => if p r then f r else r) (find q l).
Proof.
  intros H. unfold upd. induction l as [|r l IH]; [done|]. cbn. destruct (p r) eqn:E.
  - rewrite (H r E). destruct (q r); [cbn; by rewrite E|done].
  - destruct (q r); [cbn; by rewrite E|done].
Qed.
