(* ===== verification/Lifecycle.v ===== *)
(** * Lifecycle: session_lifecycle.go and provisioning_transactions.go

    The shared guards of the pair lifecycle, the worker session, pair
    provisioning (reserve, confirm, fail) and the insertion of a stop
    operation ([createStopOperationTx]), which stop_transactions.go and
    restore_transactions.go call. *)

From S2P Require Import Prelude.
From S2P Require Import Domain.
From S2P Require Import GoLib.
From S2P Require Import Db.
From S2P Require Import Tx.
From S2P Require Import Scrub.
From S2P Require Import AuditLog.
From S2P Require Import TaskStore.

(** ** Shared predicates of the queries *)
Definition task_in_pair (d : DB) (taskID pairID : string) : bool :=
  existsb (fun t => (t_TaskID t == taskID) && (t_PairID t == pairID)) (tasks d).
Definition current_attempt_of (t : Task) (a : TaskAttempt) : bool :=
  (a_TaskID a == t_TaskID t) && (a_AttemptNumber a =? t_CurrentAttempt t)%Z.
Definition has_current_attempt (d : DB) (t : Task) : bool :=
  existsb (current_attempt_of t) (task_attempts d).
Definition open_attempt_in_pair (d : DB) (pairID : string) : bool :=
  existsb (fun a => task_in_pair d (a_TaskID a) pairID && is_null (a_EndedAt a)) (task_attempts d).
Definition unclean_attempt_in_pair (d : DB) (pairID : string) : bool :=
  existsb (fun a => task_in_pair d (a_TaskID a) pairID && (a_QuarantineState a != QuarantineClean))
    (task_attempts d).
Definition restore_owned (d : DB) (pairID : string) : bool :=
  existsb (fun o => (ro_PairID o == pairID) && restore_unresolved o) (pair_restore_operations d).
Definition provisioning_owned (d : DB) (pairID : string) : bool :=
  existsb (fun o => (pp_PairID o == pairID) && provisioning_unresolved o)
    (pair_provisioning_operations d).
Definition stop_pending (r : StopResolutionState) : bool :=
  in_list r [StopResolutionInFlight; StopResolutionCallOutcomeUnknown;
             StopResolutionConfirmationTimeout; StopResolutionReissueRequiresHuman].
Definition pending_stop (d : DB) (pairID : string) : bool :=
  existsb (fun o => (so_PairID o == pairID) && stop_pending (so_ResolutionState o)) (stop_operations d).
Definition find_session (pairID : string) (d : DB) : option WorkerSession :=
  find (fun w => ws_PairID w == pairID) (worker_sessions d).
Definition find_attempt (attemptID : string) (d : DB) : option TaskAttempt :=
  find (fun a => a_AttemptID a == attemptID) (task_attempts d).

(** ** json_extract on stored details *)
Section Json.
Context {L : GoLib}.
Definition json_field (text key : string) : option value :=
  match json_Unmarshal text with Some m => map_lookup key m | None => None end.
(** [json_extract(details_json,'$.key') = s] *)
Definition json_is (text key s : string) : bool :=
  match json_field text key with Some (VStr x) => x == s | _ => false end.
Definition json_is_null (text key : string) : bool :=
  match json_field text key with None | Some VNull => true | _ => false end.
Definition json_is_true (text key : string) : bool :=
  match json_field text key with Some (VBool b) => b | _ => false end.
End Json.

(** ** Shared statements *)

(** [mapLifecycleWriteError] *)
Definition mapLifecycleWriteError {A} (m : M A) : M A := map_err map_constraint m.

(** [operationCASResult] *)
Definition operationCASResult (m : M nat) : M unit :=
  n ← mapLifecycleWriteError m;
  reject_if (n =? 0)%nat ErrStateConflict.

(** [if n != 1 { return e }] after RowsAffected *)
Definition affects_one (e : err) (m : M nat) : M unit :=
  n ← m;
  reject_if (negb (n =? 1)%nat) e.

Definition valueOrEmpty (o : option string) : string := match o with Some s => s | None => "" end.

(** A Go map literal, as a map sorted by key. *)
Definition details (l : list (string * value)) : list (string * value) :=
  fold_left (fun m kv => map_insert (fst kv) (snd kv) m) l [].
Notation "k ↦ v" := (pair (k : string) (v : value)) (at level 60, no associativity) : struct_scope.

Definition audit_event (id kind : string) (ts : Z) (pairID taskID contractID attemptID actor : string)
    (det : list (string * value)) : AuditEvent :=
  {| ev_EventID := id; ev_EventType := kind; ev_Timestamp := ts; ev_TaskID := taskID;
     ev_ContractID := contractID; ev_AttemptID := attemptID; ev_PairID := pairID;
     ev_Actor := actor; ev_Details := details det |}.
(** An event of the pair alone. *)
Definition pair_event (id kind : string) (ts : Z) (pairID actor : string)
    (det : list (string * value)) : AuditEvent := audit_event id kind ts pairID "" "" "" actor det.

Definition opt_value (o : option string) : value := match o with Some s => VStr s | None => VNull end.

Definition rejectUnresolvedRestore (pairID : string) : M unit :=
  unresolved ← query (fun d => restore_owned d pairID);
  reject_if unresolved ErrQuarantinedExecution.
Definition rejectUnresolvedProvisioning (pairID : string) : M unit :=
  unresolved ← query (fun d => provisioning_owned d pairID);
  reject_if unresolved ErrQuarantinedExecution.

(** ** Lineage of an attempt and of a session *)
Definition attempt_snapshot (attemptID taskID contractID session generation : string)
    (a : TaskAttempt) : bool :=
  (a_AttemptID a == attemptID) && (a_TaskID a == taskID) && (a_ContractID a == contractID)
  && (a_SessionID a == Some session) && (a_TerminalGeneration a == Some generation).
Definition session_tuple (pairID session generation : string) (w : WorkerSession) : bool :=
  (ws_PairID w == pairID) && (ws_SessionID w == session) && (ws_TerminalGeneration w == generation).

(** [currentOpenAttemptLineage] of atomic_transitions.go *)
Definition open_lineage (taskID attemptID : string) (d : DB) : option (string * string) :=
  t ← find_task taskID d;
  a ← find (fun a => current_attempt_of t a && (a_AttemptID a == attemptID) && is_null (a_EndedAt a))
        (task_attempts d);
  Some (t_PairID t, a_ContractID a).
Definition currentOpenAttemptLineage (taskID attemptID : string) : M (string * string) :=
  no_rows ErrAttemptLineageMismatch (query_row (open_lineage taskID attemptID)).

(** [attempt_number=(SELECT current_attempt FROM tasks WHERE task_id=?)] *)
Definition is_current_number (d : DB) (taskID : string) (a : TaskAttempt) : bool :=
  match find_task taskID d with
  | Some t => (a_AttemptNumber a =? t_CurrentAttempt t)%Z
  | None => false
  end.

(** [exec_n] of an UPDATE whose WHERE clause reads other tables. *)
Definition update_attempts_where (p : DB -> TaskAttempt -> bool) (f : TaskAttempt -> TaskAttempt)
    (d : DB) : res (DB * nat) := update_attempts (p d) f d.

Definition unknown_delivery (d : DB) (pairID : string) : bool :=
  existsb (fun o => (d_PairID o == pairID)
                    && (d_ResolutionState o == Some RecoveryDeliveryOutcomeUnknown))
    (dispatch_operations d).
Definition other_quarantined_attempt (d : DB) (pairID attemptID : string) : bool :=
  existsb (fun a => task_in_pair d (a_TaskID a) pairID && (a_AttemptID a != attemptID)
                    && (a_QuarantineState a == QuarantineQuarantined)) (task_attempts d).

(** ** APIs closed in favour of the lifecycle transactions *)
Definition CreateWorkerSession (session : WorkerSession) : M unit := throw ErrAtomicDispatchRequired.
Definition CreatePairProvisioningOperation (operation : PairProvisioningOperation) : M unit :=
  throw ErrAtomicDispatchRequired.
Definition UpdatePairProvisioningOperationStage (operationID : string)
    (expected next : PairProvisioningStage) : M unit := throw ErrAtomicDispatchRequired.
Definition CreateDispatchOperation (operation : DispatchOperation) : M unit :=
  throw ErrAtomicDispatchRequired.
Definition UpdateDispatchOperationStage (operationID : string) (expected next : DispatchStage) : M unit :=
  throw ErrAtomicDispatchRequired.

(** ** Transition tables of the operations *)
Definition validProvisioningTransition (from to : PairProvisioningStage) : bool :=
  ((from == ProvisionRequested) && ((to == ProvisionConfirmed) || (to == ProvisionFailed)))
  || ((from == ProvisionFailed) && (to == ProvisionResolved)).
Definition validDispatchTransition (from to : DispatchStage) : bool :=
  ((from == DispatchBound) && (to == SendRequested)) || ((from == SendRequested) && (to == SendConfirmed)).
Definition validStopTransition (from to : StopStage) : bool :=
  if from == to then true
  else ((from == StopRequested)
        && ((to == StopCallSucceeded) || (to == StopCallFailed) || (to == StopTargetAbsent)))
       || ((from == StopCallSucceeded)
           && ((to == StopTerminationConfirmed) || (to == StopTargetAbsent))).

(** ** Reading *)
Definition GetWorkerSessionByPair (pairID : string) : M WorkerSession :=
  no_rows ErrWorkerSessionNotFound (query_row (find_session pairID)).
Definition GetWorkerSessionByID (sessionID : string) : M WorkerSession :=
  no_rows ErrWorkerSessionNotFound
    (query_row (fun d => find (fun w => ws_SessionID w == sessionID) (worker_sessions d))).
Definition GetPairProvisioningOperation (operationID : string) : M PairProvisioningOperation :=
  no_rows ErrOperationNotFound
    (query_row (fun d => find (fun o => pp_OperationID o == operationID) (pair_provisioning_operations d))).
Definition find_dispatch (operationID : string) (d : DB) : option DispatchOperation :=
  find (fun o => d_OperationID o == operationID) (dispatch_operations d).
Definition GetDispatchOperation (operationID : string) : M DispatchOperation :=
  no_rows ErrOperationNotFound (query_row (find_dispatch operationID)).
Definition find_stop (operationID : string) (d : DB) : option StopOperation :=
  find (fun o => so_OperationID o == operationID) (stop_operations d).
Definition GetStopOperation (operationID : string) : M StopOperation :=
  no_rows ErrOperationNotFound (query_row (find_stop operationID)).

(** ** The worker session *)
Record WorkerSessionCASUpdate := mkWorkerSessionCASUpdate {
  wu_ExpectedStatus : WorkerSessionStatus; wu_ExpectedQuarantineState : QuarantineState;
  wu_Status : WorkerSessionStatus; wu_QuarantineState : QuarantineState;
  wu_TerminalGeneration : option string; wu_UpdatedAt : Z }.

Definition UpdateWorkerSessionStatusAndQuarantine (pairID : string) (update : WorkerSessionCASUpdate)
    : M unit :=
  reject_if ((wu_ExpectedQuarantineState update != wu_QuarantineState update)
             || is_some (wu_TerminalGeneration update)) ErrAtomicDispatchRequired;;
  updatedAt ← now_if_zero (wu_UpdatedAt update);
  with_tx (
    rejectUnresolvedRestore pairID;;
    rejectUnresolvedProvisioning pairID;;
    rows ← mapLifecycleWriteError (exec_n (update_sessions
      (fun w => (ws_PairID w == pairID) && (ws_Status w == wu_ExpectedStatus update)
                && (ws_QuarantineState w == wu_ExpectedQuarantineState update))
      (fun w => w <| ws_Status := wu_Status update |>
                  <| ws_QuarantineState := wu_QuarantineState update |>
                  <| ws_TerminalGeneration :=
                       match wu_TerminalGeneration update with
                       | Some g => g | None => ws_TerminalGeneration w end |>
                  <| ws_UpdatedAt := updatedAt |>)));
    (if (rows =? 0)%nat then
       no_rows ErrWorkerSessionNotFound (query_row (find_session pairID));; throw ErrStateConflict
     else commit tt)).

(** ** Provisioning *)
Section Provisioning.
Context {L : GoLib}.

(** "active or inconsistent task lineage" *)
Definition provisioning_lineage_blocked (d : DB) (pairID : string) : bool :=
  open_attempt_in_pair d pairID
  || existsb (fun t => (t_PairID t == pairID)
       && (((0 <? t_CurrentAttempt t)%Z && negb (has_current_attempt d t))
           || (in_list (t_State t) [StateDispatched; StateRunning; StateBlocked; StateReviewing]
               && ((t_CurrentAttempt t =? 0)%Z || negb (has_current_attempt d t)))))
      (tasks d).

Definition pair_quarantined (d : DB) (pairID : string) : bool :=
  existsb (fun w => (ws_PairID w == pairID) && (ws_QuarantineState w != QuarantineClean))
    (worker_sessions d)
  || unclean_attempt_in_pair d pairID.

Definition ReservePairProvisioning (operation : PairProvisioningOperation) (actor : string) : M unit :=
  let opID := pp_OperationID operation in let pairID := pp_PairID operation in
  reject_if ((opID == "") || (pairID == "") || (pp_ClientToken operation == "") || (actor == ""))
    ErrInput;;
  now ← now_if_zero (pp_RequestedAt operation);
  eventID ← newAuditEventID;
  with_tx (
    sessions ← query (fun d => affected (fun w => ws_PairID w == pairID) (worker_sessions d));
    reject_if (negb (sessions =? 0)%nat) ErrStateConflict;;
    unresolved ← query (fun d => restore_owned d pairID || provisioning_owned d pairID
                                 || pending_stop d pairID);
    reject_if unresolved ErrQuarantinedExecution;;
    blocked ← query (fun d => provisioning_lineage_blocked d pairID);
    reject_if blocked ErrQuarantinedExecution;;
    quarantined ← query (fun d => pair_quarantined d pairID);
    reject_if quarantined ErrQuarantinedExecution;;
    mapLifecycleWriteError (exec (insert_provisioning
      {| pp_OperationID := opID; pp_PairID := pairID; pp_Stage := ProvisionRequested;
         pp_ClientToken := pp_ClientToken operation; pp_SessionID := None; pp_RequestedAt := now;
         pp_CompletedAt := None; pp_ResolvedAt := None; pp_ResolvedBy := None;
         pp_ResolutionNotes := None |}));;
    appendAuditEventTx (pair_event eventID AuditPairSessionProvisionRequested now pairID actor
      ["operation_id" ↦ VStr opID; "stage" ↦ VStr "PROVISION_REQUESTED";
       "client_token" ↦ VStr (pp_ClientToken operation)]);;
    commit tt).

Definition requested_provisioning (operationID : string) (d : DB) : option PairProvisioningOperation :=
  find (fun o => (pp_OperationID o == operationID) && (pp_Stage o == ProvisionRequested))
    (pair_provisioning_operations d).

Definition ConfirmPairProvisioning (operationID : string) (session : WorkerSession) (actor : string)
    (completedAt : Z) : M unit :=
  reject_if ((actor == "") || (ws_PairID session == "") || (ws_SessionID session == "")
             || (ws_TerminalGeneration session == "")) ErrInput;;
  completedAt ← now_if_zero completedAt;
  eventID ← newAuditEventID;
  let quarantine := if ws_QuarantineState session == QuarantineOther ""
                    then QuarantineClean else ws_QuarantineState session in
  let createdAt := if (ws_CreatedAt session =? 0)%Z then completedAt else ws_CreatedAt session in
  with_tx (
    op ← no_rows ErrStateConflict (query_row (requested_provisioning operationID));
    let pairID := pp_PairID op in
    reject_if (pairID != ws_PairID session) ErrStateConflict;;
    appendAuditEventTx (pair_event eventID AuditPairSessionProvisioned completedAt pairID actor
      ["operation_id" ↦ VStr operationID; "stage" ↦ VStr "PROVISION_CONFIRMED";
       "session_id" ↦ VStr (ws_SessionID session);
       "terminal_generation" ↦ VStr (ws_TerminalGeneration session)]);;
    affects_one ErrStateConflict (exec_n (update_provisioning
      (fun o => (pp_OperationID o == operationID) && (pp_PairID o == pairID)
                && (pp_Stage o == ProvisionRequested))
      (fun o => o <| pp_Stage := ProvisionConfirmed |>
                  <| pp_SessionID := Some (ws_SessionID session) |>
                  <| pp_CompletedAt := Some completedAt |>)));;
    mapLifecycleWriteError (exec (insert_session
      (session <| ws_QuarantineState := quarantine |> <| ws_CreatedAt := createdAt |>
               <| ws_UpdatedAt := completedAt |>)));;
    commit tt).

Definition FailPairProvisioning (operationID actor reason : string) (failedAt : Z) : M unit :=
  reject_if ((actor == "") || (reason == "")) ErrInput;;
  failedAt ← now_if_zero failedAt;
  eventID ← newAuditEventID;
  with_tx (
    op ← no_rows ErrStateConflict (query_row (requested_provisioning operationID));
    let pairID := pp_PairID op in
    appendAuditEventTx (pair_event eventID AuditPairSessionProvisionFailed failedAt pairID actor
      ["operation_id" ↦ VStr operationID; "stage" ↦ VStr "PROVISION_FAILED"; "reason" ↦ VStr reason]);;
    affects_one ErrStateConflict (exec_n (update_provisioning
      (fun o => (pp_OperationID o == operationID) && (pp_Stage o == ProvisionRequested))
      (fun o => o <| pp_Stage := ProvisionFailed |> <| pp_CompletedAt := Some failedAt |>)));;
    commit tt).
End Provisioning.
