(* ===== verification/DispatchStore.v ===== *)
(** * DispatchStore: dispatch.go, dispatch_transactions.go, atomic_transitions.go

    The dispatch saga: binding of a task to the pair's session
    ([PrepareBoundDispatch]), pre-send holds, the send intent and its
    confirmation with the execution budget, unknown delivery, and the two
    atomic closures of an attempt. *)

From S2P Require Import Prelude.
From S2P Require Import Domain.
From S2P Require Import Workflow.
From S2P Require Import ReportPath.
From S2P Require Import GoLib.
From S2P Require Import Db.
From S2P Require Import Tx.
From S2P Require Import Scrub.
From S2P Require Import AuditLog.
From S2P Require Import TaskStore.
From S2P Require Import Lifecycle.

Record DispatchBinding := mkDispatchBinding {
  db_OperationID : string; db_SessionID : string; db_TerminalGeneration : string }.

Definition GetTaskAttempt (attemptID : string) : M TaskAttempt :=
  no_rows ErrAttemptNotFound (query_row (find_attempt attemptID)).

(** The legacy entry point, closed. *)
Definition PrepareDispatch (taskID contractID attemptID expectedReportPath : string) (startedAt : Z)
    : M TaskAttempt := throw ErrBoundDispatchRequired.

(** [SELECT MAX(revision_number) FROM task_contracts WHERE task_id = ?] *)
Definition max_revision (taskID : string) (d : DB) : option Z :=
  option_map k_revision_number (latest_contract taskID d).

(** RecordPreSendHold and the others join the operation with its attempt. *)
Definition dispatch_attempt (operationID : string) (d : DB) : option (DispatchOperation * TaskAttempt) :=
  o ← find_dispatch operationID d;
  a ← find_attempt (d_AttemptID o) d;
  Some (o, a).

Section Dispatch.
Context {L : GoLib}.

(** Step 6 of the transaction when bound: the session and the guards. *)
Definition check_binding (taskID pairID : string) (binding : DispatchBinding) : M unit :=
  w ← no_rows ErrWorkerSessionNotFound (query_row (find_session pairID));
  reject_if ((ws_SessionID w != db_SessionID binding)
             || (ws_TerminalGeneration w != db_TerminalGeneration binding)) ErrWorkerSessionNotFound;;
  reject_if (ws_QuarantineState w != QuarantineClean) ErrQuarantinedExecution;;
  blockedAttempts ← query (fun d => affected (fun a => (a_TaskID a == taskID)
                        && (a_QuarantineState a != QuarantineClean)) (task_attempts d));
  reject_if (negb (blockedAttempts =? 0)%nat) ErrQuarantinedExecution;;
  rejectUnresolvedProvisioning pairID.

(** The contract of step 4 and its freeze of step 5. *)
Definition freeze_latest_contract (taskID contractID : string) : M unit :=
  k ← no_rows ErrContractNotFound (query_row (find_contract contractID));
  reject_if (k_task_id k != taskID) ErrContractNotOwned;;
  latest ← query_row (max_revision taskID);
  reject_if (negb (k_revision_number k =? latest)%Z) ErrStaleContractRevision;;
  (if negb (k_is_immutable k) then
     exec_n (update_contracts
       (fun x => (k_contract_id x == contractID) && negb (k_is_immutable x))
       (fun x => x <| k_is_immutable := true |>));;
     mret tt
   else mret tt).

(** The transaction of [prepareDispatch]. *)
Definition dispatch_tx (taskID contractID attemptID expectedReportPath : string) (now : Z)
    (binding : option DispatchBinding) : M (verdict TaskAttempt) :=
  rows ← exec_n (update_tasks
    (fun t => (t_TaskID t == taskID) && (t_State t == StateReady))
    (fun t => t <| t_State := StateDispatched |>
                <| t_CurrentAttempt := wrap64 (t_CurrentAttempt t + 1) |>
                <| t_UpdatedAt := now |>));
  (if (rows =? 0)%nat then
     no_rows ErrTaskNotFound (query_row (find_task taskID));; throw ErrTaskNotReady
   else mret tt);;
  t ← query_row (find_task taskID);
  let pairID := t_PairID t in
  let allocatedAttemptNumber := t_CurrentAttempt t in
  blocked ← query (fun d => restore_owned d pairID || provisioning_owned d pairID);
  reject_if blocked ErrQuarantinedExecution;;
  busy ← query (lane_holder pairID taskID);
  reject_if (is_some busy) ErrPairBusy;;
  freeze_latest_contract taskID contractID;;
  match binding with Some b => check_binding taskID pairID b | None => mret tt end;;
  let attempt :=
    {| a_AttemptID := attemptID; a_AttemptNumber := allocatedAttemptNumber;
       a_TaskID := taskID; a_ContractID := contractID;
       a_ExpectedReportPath := expectedReportPath; a_StartedAt := now; a_EndedAt := None;
       a_WorkerReportRaw := ""; a_SessionID := option_map db_SessionID binding;
       a_TerminalGeneration := option_map db_TerminalGeneration binding;
       a_RecoveryDisposition := None; a_QuarantineState := QuarantineClean |} in
  map_err map_constraint (exec (insert_attempt attempt));;
  match binding with
  | None => mret tt
  | Some b =>
      mapLifecycleWriteError (exec (insert_dispatch
        {| d_OperationID := db_OperationID b; d_AttemptID := attemptID; d_PairID := pairID;
           d_TaskID := taskID; d_SessionID := db_SessionID b;
           d_TerminalGeneration := db_TerminalGeneration b; d_Stage := DispatchBound;
           d_RequestedAt := now; d_ConfirmedAt := None; d_ResolutionState := None |}));;
      eventID ← newAuditEventID;
      appendAuditEventTx (audit_event eventID AuditTaskDispatchBound now pairID taskID contractID
        attemptID "supervisor"
        ["session_id" ↦ VStr (db_SessionID b);
         "terminal_generation" ↦ VStr (db_TerminalGeneration b)]);;
      mret tt
  end;;
  commit attempt.

Definition prepareDispatch (taskID contractID attemptID expectedReportPath : string) (startedAt : Z)
    (binding : option DispatchBinding) : M TaskAttempt :=
  match CanonicalExpectedReportPath taskID attemptID with
  | None => throw ErrReportPathMismatch
  | Some canonicalPath =>
      reject_if (expectedReportPath != canonicalPath) ErrReportPathMismatch;;
      now ← now_if_zero startedAt;
      with_tx (dispatch_tx taskID contractID attemptID expectedReportPath now binding)
  end.

Definition PrepareBoundDispatch (taskID contractID attemptID expectedReportPath : string)
    (startedAt : Z) (binding : DispatchBinding) : M TaskAttempt :=
  reject_if (blank (db_OperationID binding) || blank (db_SessionID binding)
             || blank (db_TerminalGeneration binding)) ErrInput;;
  prepareDispatch taskID contractID attemptID expectedReportPath startedAt (Some binding).

(** ** Pre-send holds *)
Definition HoldPending : string := "RECOVERY_PENDING".
Definition HoldProtocol : string := "PRE_SEND_PROTOCOL_UNVERIFIED".

Definition RecordPreSendHold (operationID disposition actor : string) (at_ : Z) : M unit :=
  reject_if (negb (in_list disposition [HoldPending; HoldProtocol]) || (actor == "")) ErrInput;;
  at_ ← now_if_zero at_;
  eventID ← newAuditEventID;
  with_tx (
    oa ← no_rows ErrOperationNotFound (query_row (dispatch_attempt operationID));
    let '(o, a) := oa in
    reject_if (d_Stage o != DispatchBound) ErrStateConflict;;
    let current := a_RecoveryDisposition a in
    if current == Some disposition then rollback tt
    else
      reject_if (match current with
                 | Some c => (c == HoldProtocol) || (disposition != HoldProtocol)
                 | None => false end) ErrStateConflict;;
      appendAuditEventTx (audit_event eventID AuditPreSendAdmissibilityRejected at_ (d_PairID o)
        (d_TaskID o) (a_ContractID a) (d_AttemptID o) actor
        ["dispatch_operation_id" ↦ VStr operationID; "pre_send_disposition" ↦ VStr disposition]);;
      affects_one ErrStateConflict (exec_n (update_attempts
        (fun x => (a_AttemptID x == d_AttemptID o) && is_null (a_EndedAt x)
                  && (a_RecoveryDisposition x == current) && (a_SessionID x == Some (d_SessionID o))
                  && (a_TerminalGeneration x == Some (d_TerminalGeneration o)))
        (fun x => x <| a_RecoveryDisposition := Some disposition |>)));;
      commit tt).

Definition RecordPreSendAdmissibilityRejected (operationID observedActivity actor : string) (at_ : Z)
    : M unit :=
  reject_if (negb (in_list observedActivity ["active"; "blocked"; "exited"]%string)) ErrInput;;
  reject_if (actor == "") ErrInput;;
  at_ ← now_if_zero at_;
  eventID ← newAuditEventID;
  with_tx (
    oa ← no_rows ErrAttemptLineageMismatch
           (query_row (fun d => oa ← dispatch_attempt operationID d;
                                if is_null (a_EndedAt (snd oa)) then Some oa else None));
    let '(o, a) := oa in
    reject_if (d_Stage o != DispatchBound) ErrStateConflict;;
    appendAuditEventTx (audit_event eventID AuditPreSendAdmissibilityRejected at_ (d_PairID o)
      (d_TaskID o) (a_ContractID a) (d_AttemptID o) actor
      ["operation_id" ↦ VStr operationID; "error_code" ↦ VStr "PRE_SEND_ADMISSIBILITY_REJECTED";
       "observed_activity" ↦ VStr observedActivity; "task_state" ↦ VStr "DISPATCHED";
       "attempt_remains_open" ↦ VBool true]);;
    commit tt).

(** The exact open current attempt of a bound dispatch. *)
Definition held_attempt (attemptID operationID : string) (d : DB) : option (Task * TaskAttempt) :=
  a ← find_attempt attemptID d;
  t ← find_task (a_TaskID a) d;
  o ← find (fun o => (d_AttemptID o == a_AttemptID a) && (d_OperationID o == operationID))
        (dispatch_operations d);
  if (d_Stage o == DispatchBound) && (d_TaskID o == a_TaskID a) && (d_PairID o == t_PairID t)
     && (a_SessionID a == Some (d_SessionID o)) && (a_TerminalGeneration a == Some (d_TerminalGeneration o))
     && (a_AttemptNumber a =? t_CurrentAttempt t)%Z && is_null (a_EndedAt a)
  then Some (t, a) else None.

Definition ResolvePreSendHold (operationID attemptID expectedDisposition sessionID generation activity
    principal actor : string) (at_ : Z) : M unit :=
  reject_if ((attemptID == "") || (sessionID == "") || (generation == "") || (actor == "")
             || ((activity != "idle") && (activity != "waiting_input"))
             || ((expectedDisposition != HoldPending) && (principal == ""))) ErrInput;;
  reject_if ((expectedDisposition != HoldPending) && (expectedDisposition != HoldProtocol)) ErrInput;;
  at_ ← now_if_zero at_;
  eventID ← newAuditEventID;
  with_tx (
    ta ← no_rows ErrAttemptLineageMismatch (query_row (held_attempt attemptID operationID));
    let '(t, a) := ta in
    reject_if ((a_RecoveryDisposition a != Some expectedDisposition)
               || (a_SessionID a != Some sessionID) || (a_TerminalGeneration a != Some generation))
      ErrStateConflict;;
    w ← query_row (find_session (t_PairID t));
    reject_if ((ws_SessionID w != sessionID) || (ws_TerminalGeneration w != generation))
      ErrStateConflict;;
    appendAuditEventTx (audit_event eventID AuditPreSendStatusRecovered at_ (t_PairID t) (a_TaskID a)
      (a_ContractID a) attemptID actor
      ["expected_disposition" ↦ VStr expectedDisposition; "session_id" ↦ VStr sessionID;
       "terminal_generation" ↦ VStr generation; "activity_state" ↦ VStr activity;
       "authorized_principal" ↦ VStr principal]);;
    affects_one ErrStateConflict (exec_n (update_attempts
      (fun x => (a_AttemptID x == attemptID) && is_null (a_EndedAt x)
                && (a_RecoveryDisposition x == Some expectedDisposition)
                && (a_SessionID x == Some sessionID) && (a_TerminalGeneration x == Some generation))
      (fun x => x <| a_RecoveryDisposition := None |>)));;
    commit tt).

(** ** Send intent *)
Definition send_admissible (pairID attemptID session generation : string) (d : DB) : bool :=
  existsb (fun w => session_tuple pairID session generation w
                    && (ws_QuarantineState w == QuarantineClean)) (worker_sessions d)
  && negb (restore_owned d pairID) && negb (provisioning_owned d pairID)
  && existsb (fun a => (a_AttemptID a == attemptID) && is_null (a_EndedAt a)
       && (a_SessionID a == Some session) && (a_TerminalGeneration a == Some generation)
       && existsb (fun t => (t_TaskID t == a_TaskID a) && (t_PairID t == pairID)
                            && (a_AttemptNumber a =? t_CurrentAttempt t)%Z
                            && (t_State t == StateDispatched)) (tasks d))
      (task_attempts d).

Definition RecordSendRequested (operationID observedSessionID observedGeneration activity : string)
    (isTerminated : bool) (actor : string) (at_ : Z) : M unit :=
  reject_if ((actor == "") || (observedSessionID == "") || (observedGeneration == "")
             || ((activity != "idle") && (activity != "waiting_input")) || isTerminated) ErrInput;;
  at_ ← now_if_zero at_;
  eventID ← newAuditEventID;
  with_tx (
    oa ← no_rows ErrOperationNotFound (query_row (dispatch_attempt operationID));
    let '(o, a) := oa in
    reject_if ((d_Stage o != DispatchBound) || is_some (a_RecoveryDisposition a)) ErrStateConflict;;
    reject_if ((d_SessionID o != observedSessionID) || (d_TerminalGeneration o != observedGeneration))
      ErrAttemptLineageMismatch;;
    valid ← query (send_admissible (d_PairID o) (d_AttemptID o) (d_SessionID o) (d_TerminalGeneration o));
    reject_if (negb valid) ErrQuarantinedExecution;;
    appendAuditEventTx (audit_event eventID AuditDispatchSendRequested at_ (d_PairID o) (d_TaskID o)
      (a_ContractID a) (d_AttemptID o) actor
      ["dispatch_operation_id" ↦ VStr operationID; "stage" ↦ VStr "SEND_REQUESTED";
       "session_id" ↦ VStr (d_SessionID o); "terminal_generation" ↦ VStr (d_TerminalGeneration o)]);;
    affects_one ErrStateConflict (exec_n (update_dispatch
      (fun x => (d_OperationID x == operationID) && (d_Stage x == DispatchBound)
                && is_null (d_ResolutionState x))
      (fun x => x <| d_Stage := SendRequested |>)));;
    commit tt).

(** ** Send confirmation *)
Definition confirmation_row (operationID : string) (d : DB)
    : option (DispatchOperation * Task * TaskAttempt * WorkerSession) :=
  o ← find_dispatch operationID d;
  t ← find_task (d_TaskID o) d;
  a ← find_attempt (d_AttemptID o) d;
  w ← find_session (d_PairID o) d;
  Some (o, t, a, w).

(** [len(policies) != 1 || ...] *)
Definition the_policy (policies : list ExecutionBudgetPolicy) : option ExecutionBudgetPolicy :=
  match policies with
  | [p] => if (ebp_Duration p <=? 0)%Z || blank (ebp_PolicyRef p) then None else Some p
  | _ => None
  end.

Definition RecordSendConfirmed (operationID actor : string) (validatedHTTP200 : bool) (at_ : Z)
    (policies : list ExecutionBudgetPolicy) : M unit :=
  reject_if (negb validatedHTTP200) ErrInput;;
  reject_if (actor == "") ErrInput;;
  match the_policy policies with
  | None => throw ErrStateConflict
  | Some policy =>
      at_ ← now_if_zero at_;
      let deadline := (at_ + ebp_Duration policy)%Z in
      reject_if (negb (at_ <? deadline)%Z || (at_ <? 0)%Z || (year_10000 <=? deadline)%Z)
        ErrStateConflict;;
      eventID ← newAuditEventID;
      with_tx (
        row ← no_rows ErrOperationNotFound (query_row (confirmation_row operationID));
        let '(o, t, a, w) := row in
        reject_if (d_Stage o != SendRequested) ErrStateConflict;;
        reject_if ((t_State t != StateDispatched)
                   || negb (t_CurrentAttempt t =? a_AttemptNumber a)%Z
                   || (ws_SessionID w != d_SessionID o)
                   || (ws_TerminalGeneration w != d_TerminalGeneration o)) ErrAttemptLineageMismatch;;
        open ← map_err (fun _ => ErrAttemptLineageMismatch)
          (query_row (fun d => find (fun x => (a_AttemptID x == d_AttemptID o) && is_null (a_EndedAt x))
                                 (task_attempts d)));
        exec (insert_budget
          {| b_AttemptID := d_AttemptID o; b_DispatchOperationID := operationID; b_OriginAt := at_;
             b_DeadlineAt := deadline; b_Duration := ebp_Duration policy;
             b_PolicyRef := ebp_PolicyRef policy; b_BindingBasis := BasisAtomic;
             b_AuthorizedPrincipal := None; b_EvidenceRef := None; b_BoundAt := at_ |});;
        appendAuditEventTx (audit_event eventID AuditDispatchSendConfirmed at_ (d_PairID o) (d_TaskID o)
          (a_ContractID open) (d_AttemptID o) actor
          ["dispatch_operation_id" ↦ VStr operationID; "stage" ↦ VStr "SEND_CONFIRMED";
           "http_status" ↦ VInt 200; "budget_origin_at" ↦ VStr (formatTime at_);
           "execution_deadline_at" ↦ VStr (formatTime deadline);
           "duration_ns" ↦ VInt (ebp_Duration policy); "policy_ref" ↦ VStr (ebp_PolicyRef policy)]);;
        affects_one ErrStateConflict (exec_n (update_dispatch
          (fun x => (d_OperationID x == operationID) && (d_Stage x == SendRequested)
                    && is_null (d_ResolutionState x))
          (fun x => x <| d_Stage := SendConfirmed |> <| d_ConfirmedAt := Some at_ |>)));;
        commit tt)
  end.

(** The joined row of [GetExecutionBudget]; a NULL snapshot or confirmation
    does not scan into a string. *)
Definition budget_row (attemptID : string) (d : DB)
    : res (ExecutionBudget * DispatchOperation * Z * Task * TaskAttempt * string * string) :=
  match
    (b ← find (fun b => b_AttemptID b == attemptID) (attempt_execution_budgets d);
     o ← find (fun o => (d_OperationID o == b_DispatchOperationID b) && (d_AttemptID o == b_AttemptID b))
           (dispatch_operations d);
     a ← find_attempt (b_AttemptID b) d;
     t ← find_task (a_TaskID a) d;
     if (d_TaskID o == t_TaskID t) && (d_PairID o == t_PairID t) then Some (b, o, t, a) else None)
  with
  | None => Err ErrNoRows
  | Some (b, o, t, a) =>
      match d_ConfirmedAt o, a_SessionID a, a_TerminalGeneration a with
      | Some confirmedAt, Some session, Some generation => Ok (b, o, confirmedAt, t, a, session, generation)
      | _, _, _ => Err ErrScan
      end
  end.

Definition GetExecutionBudget (attemptID : string) : M ExecutionBudget :=
  row ← no_rows ErrOperationNotFound (query_res (budget_row attemptID));
  let '(b, o, confirmedAt, t, a, session, generation) := row in
  let open := is_null (a_EndedAt a) && (t_CurrentAttempt t =? a_AttemptNumber a)%Z in
  reject_if ((d_Stage o != SendConfirmed) || negb (confirmedAt =? b_OriginAt b)%Z
             || negb (in_list (t_State t) [StateDispatched; StateRunning]) || negb open
             || (session != d_SessionID o) || (generation != d_TerminalGeneration o)
             || (b_Duration b <=? 0)%Z || blank (b_PolicyRef b)
             || negb (b_OriginAt b + b_Duration b =? b_DeadlineAt b)%Z
             || negb (b_OriginAt b <? b_DeadlineAt b)%Z
             || (b_OriginAt b <? 0)%Z || (year_10000 <=? b_DeadlineAt b)%Z) ErrStateConflict;;
  mret b.

(** ** Legacy budget binding *)

Definition legacy_row (attemptID : string) (d : DB)
    : res (Task * TaskAttempt * DispatchOperation * string * string * Z) :=
  match
    (a ← find_attempt attemptID d;
     t ← find_task (a_TaskID a) d;
     o ← find (fun o => d_AttemptID o == a_AttemptID a) (dispatch_operations d);
     Some (t, a, o))
  with
  | None => Err ErrNoRows
  | Some (t, a, o) =>
      match a_SessionID a, a_TerminalGeneration a, d_ConfirmedAt o with
      | Some session, Some generation, Some confirmedAt => Ok (t, a, o, session, generation, confirmedAt)
      | _, _, _ => Err ErrScan
      end
  end.

(** The exact replay of a binding already made. *)
Definition legacy_replay (attemptID operationID principal evidenceRef : string) (confirmedAt deadline : Z)
    (policy : ExecutionBudgetPolicy) (b : ExecutionBudget) : bool :=
  (b_DispatchOperationID b == operationID) && (b_OriginAt b =? confirmedAt)%Z
  && (b_DeadlineAt b =? deadline)%Z && (b_Duration b =? ebp_Duration policy)%Z
  && (b_PolicyRef b == ebp_PolicyRef policy) && (b_BindingBasis b == BasisLegacy)
  && (b_AuthorizedPrincipal b == Some principal) && (b_EvidenceRef b == Some evidenceRef).

Definition legacy_audits (attemptID operationID principal evidenceRef : string) (d : DB) : nat :=
  affected (fun e => (e_event_type e == AuditExecutionBudgetLegacyBound)
              && (e_attempt_id e == Some attemptID) && (e_actor e == principal)
              && json_is (e_details_json e) "evidence_ref" evidenceRef
              && json_is (e_details_json e) "dispatch_operation_id" operationID)
    (audit_events d).

Definition BindLegacyExecutionBudget (attemptID principal scope evidenceRef : string)
    (policy : ExecutionBudgetPolicy) (at_ : Z) : M unit :=
  reject_if ((principal == "") || (scope != "LEGACY_EXECUTION_BUDGET_RECONCILIATION")
             || blank evidenceRef || blank (ebp_PolicyRef policy) || (ebp_Duration policy <=? 0)%Z
             || (at_ =? 0)%Z) ErrStateConflict;;
  with_tx (
    row ← query_res (legacy_row attemptID);
    let '(t, a, o, session, generation, confirmedAt) := row in
    reject_if (is_some (a_EndedAt a) || negb (t_CurrentAttempt t =? a_AttemptNumber a)%Z
               || (d_Stage o != SendConfirmed)
               || negb (in_list (t_State t) [StateDispatched; StateRunning])) ErrStateConflict;;
    w ← query_row (find_session (t_PairID t));
    reject_if ((session != ws_SessionID w) || (generation != ws_TerminalGeneration w))
      ErrAttemptLineageMismatch;;
    let deadline := (confirmedAt + ebp_Duration policy)%Z in
    reject_if (negb (confirmedAt <? deadline)%Z || (confirmedAt <? 0)%Z || (year_10000 <=? deadline)%Z)
      ErrStateConflict;;
    let operationID := d_OperationID o in
    count ← query (fun d => affected (fun b => (b_AttemptID b == attemptID)
                                       || (b_DispatchOperationID b == operationID))
                              (attempt_execution_budgets d));
    if negb (count =? 0)%nat then
      reject_if (negb (count =? 1)%nat) ErrStateConflict;;
      b ← map_err (fun _ => ErrStateConflict)
        (query_row (fun d => find (fun b => b_AttemptID b == attemptID) (attempt_execution_budgets d)));
      reject_if (negb (legacy_replay attemptID operationID principal evidenceRef confirmedAt deadline
                         policy b)) ErrStateConflict;;
      audits ← query (legacy_audits attemptID operationID principal evidenceRef);
      reject_if (negb (audits =? 1)%nat) ErrStateConflict;;
      rollback tt
    else
      exec (insert_budget
        {| b_AttemptID := attemptID; b_DispatchOperationID := operationID; b_OriginAt := confirmedAt;
           b_DeadlineAt := deadline; b_Duration := ebp_Duration policy;
           b_PolicyRef := ebp_PolicyRef policy; b_BindingBasis := BasisLegacy;
           b_AuthorizedPrincipal := Some principal; b_EvidenceRef := Some evidenceRef;
           b_BoundAt := at_ |});;
      id ← newAuditEventID;
      appendAuditEventTx (audit_event id AuditExecutionBudgetLegacyBound at_ (t_PairID t) (t_TaskID t)
        (a_ContractID a) attemptID principal
        ["dispatch_operation_id" ↦ VStr operationID; "session_id" ↦ VStr session;
         "terminal_generation" ↦ VStr generation; "origin_at" ↦ VStr (formatTime confirmedAt);
         "deadline_at" ↦ VStr (formatTime deadline); "duration_ns" ↦ VInt (ebp_Duration policy);
         "policy_ref" ↦ VStr (ebp_PolicyRef policy); "binding_basis" ↦ VStr BasisLegacy;
         "authorized_principal" ↦ VStr principal; "authority_scope" ↦ VStr scope;
         "evidence_ref" ↦ VStr evidenceRef]);;
      commit tt).

(** ** Unknown delivery *)
Definition transition_ok (from to : TaskState) : M unit :=
  reject_if (match Transition from to with Some _ => true | None => false end) ErrTransition.

Definition RecordUnknownDelivery (operationID actor : string) (at_ : Z) : M unit :=
  reject_if (actor == "") ErrInput;;
  at_ ← now_if_zero at_;
  eventID ← newAuditEventID;
  escalationEventID ← newAuditEventID;
  with_tx (
    oa ← no_rows ErrOperationNotFound (query_row (dispatch_attempt operationID));
    let '(o, a) := oa in
    let pairID := d_PairID o in let taskID := d_TaskID o in
    let contractID := a_ContractID a in let attemptID := d_AttemptID o in
    reject_if (d_Stage o != SendRequested) ErrStateConflict;;
    t ← query_row (find_task taskID);
    reject_if (t_State t != StateDispatched) ErrStateConflict;;
    transition_ok StateDispatched StateFailed;;
    transition_ok StateFailed StateHumanRequired;;
    appendAuditEventTx (audit_event eventID AuditTaskStateTransition at_ pairID taskID contractID
      attemptID actor
      ["dispatch_operation_id" ↦ VStr operationID; "from_state" ↦ VStr "DISPATCHED";
       "to_state" ↦ VStr "FAILED"; "failure_reason" ↦ VStr RecoveryUncertainDeliveryCrash;
       "recovery_disposition" ↦ VStr RecoveryUncertainDeliveryCrash;
       "resolution_state" ↦ VStr RecoveryDeliveryOutcomeUnknown]);;
    quarantineEventID ← newAuditEventID;
    appendAuditEventTx (audit_event quarantineEventID AuditUncertainDeliveryQuarantine at_ pairID taskID
      contractID attemptID actor
      ["dispatch_operation_id" ↦ VStr operationID;
       "resolution_state" ↦ VStr RecoveryDeliveryOutcomeUnknown;
       "session_id" ↦ VStr (d_SessionID o); "terminal_generation" ↦ VStr (d_TerminalGeneration o)]);;
    appendAuditEventTx (audit_event escalationEventID AuditTaskStateTransition at_ pairID taskID
      contractID attemptID actor
      ["dispatch_operation_id" ↦ VStr operationID; "from_state" ↦ VStr "FAILED";
       "to_state" ↦ VStr "HUMAN_REQUIRED"; "reason" ↦ VStr RecoveryUncertainDeliveryCrash]);;
    affects_one ErrStateConflict (exec_n (update_tasks
      (fun x => (t_TaskID x == taskID) && (t_State x == StateDispatched))
      (fun x => x <| t_State := StateFailed |> <| t_UpdatedAt := at_ |>)));;
    affects_one ErrStateConflict (exec_n (update_tasks
      (fun x => (t_TaskID x == taskID) && (t_State x == StateFailed))
      (fun x => x <| t_State := StateHumanRequired |> <| t_UpdatedAt := at_ |>)));;
    affects_one ErrAttemptLineageMismatch (exec_n (update_attempts_where
      (fun d x => (a_AttemptID x == attemptID) && (a_TaskID x == taskID) && is_null (a_EndedAt x)
                  && is_current_number d taskID x)
      (fun x => x <| a_EndedAt := Some at_ |>
                  <| a_RecoveryDisposition := Some RecoveryUncertainDeliveryCrash |>
                  <| a_QuarantineState := QuarantineQuarantined |>)));;
    affects_one ErrStateConflict (exec_n (update_dispatch_resolution
      (fun x => (d_OperationID x == operationID) && (d_Stage x == SendRequested)
                && is_null (d_ResolutionState x)) (Some RecoveryDeliveryOutcomeUnknown)));;
    affects_one ErrStateConflict (exec_n (update_sessions
      (session_tuple pairID (d_SessionID o) (d_TerminalGeneration o))
      (fun w => w <| ws_QuarantineState := QuarantineQuarantined |> <| ws_UpdatedAt := at_ |>)));;
    commit tt).

(** ** Atomic closures (atomic_transitions.go) *)
Definition requiresDoubleQuarantine (disposition : string) : bool :=
  in_list disposition ["PRE_SEND_IDENTITY_MISMATCH"; "STALE_EXECUTION_GENERATION"; "SESSION_ABSENT"]%string.

(** The session the attempt's snapshot names. *)
Definition snapshot_session (pairID attemptID taskID : string) (d : DB) (w : WorkerSession) : bool :=
  (ws_PairID w == pairID)
  && existsb (fun a => (a_AttemptID a == attemptID) && (a_TaskID a == taskID)
                       && (a_SessionID a == Some (ws_SessionID w))
                       && (a_TerminalGeneration a == Some (ws_TerminalGeneration w))) (task_attempts d).
Definition update_sessions_where (p : DB -> WorkerSession -> bool) (f : WorkerSession -> WorkerSession)
    (d : DB) : res (DB * nat) := update_sessions (p d) f d.

Definition AtomicTerminalTransition (taskID : string) (expectedCurrentState newState : TaskState)
    (failureReason attemptID disposition : string) : M unit :=
  reject_if ((newState != StateFailed)
             || ((expectedCurrentState != StateRunning) && (expectedCurrentState != StateDispatched)))
    ErrInvalidOperationTransition;;
  transition_ok expectedCurrentState newState;;
  reject_if (blank disposition) ErrInput;;
  reject_if (blank failureReason) ErrInput;;
  eventID ← newAuditEventID;
  now ← timeNow;
  with_tx (
    lineage ← currentOpenAttemptLineage taskID attemptID;
    let '(pairID, contractID) := lineage in
    affects_one ErrStateConflict (exec_n (update_tasks
      (fun t => (t_TaskID t == taskID) && (t_State t == expectedCurrentState))
      (fun t => t <| t_State := newState |> <| t_UpdatedAt := now |>)));;
    let double := requiresDoubleQuarantine disposition in
    affects_one ErrAttemptLineageMismatch (exec_n (update_attempts_where
      (fun d a => (a_AttemptID a == attemptID) && (a_TaskID a == taskID) && is_null (a_EndedAt a)
                  && is_current_number d taskID a)
      (fun a => a <| a_EndedAt := Some now |> <| a_RecoveryDisposition := Some disposition |>
                  <| a_QuarantineState :=
                       if double then QuarantineQuarantined else a_QuarantineState a |>)));;
    (if double then
       affects_one ErrAttemptLineageMismatch (exec_n (update_sessions_where
         (snapshot_session pairID attemptID taskID)
         (fun w => w <| ws_QuarantineState := QuarantineQuarantined |> <| ws_UpdatedAt := now |>)))
     else mret tt);;
    appendAuditEventTx (audit_event eventID AuditTaskStateTransition now pairID taskID contractID
      attemptID "supervisor"
      ["from_state" ↦ VStr (TaskState_string expectedCurrentState);
       "to_state" ↦ VStr (TaskState_string newState); "failure_reason" ↦ VStr failureReason;
       "recovery_disposition" ↦ VStr disposition]);;
    commit tt).

Definition AtomicAttemptClosureTransition (taskID attemptID disposition : string) : M unit :=
  reject_if (disposition != RecoveryAOBlockedEscalated) ErrInvalidOperationTransition;;
  eventID ← newAuditEventID;
  now ← timeNow;
  with_tx (
    lineage ← currentOpenAttemptLineage taskID attemptID;
    let '(pairID, contractID) := lineage in
    affects_one ErrStateConflict (exec_n (update_tasks
      (fun t => (t_TaskID t == taskID) && (t_State t == StateBlocked))
      (fun t => t <| t_State := StateHumanRequired |> <| t_UpdatedAt := now |>)));;
    affects_one ErrAttemptLineageMismatch (exec_n (update_attempts_where
      (fun d a => (a_AttemptID a == attemptID) && (a_TaskID a == taskID) && is_null (a_EndedAt a)
                  && is_current_number d taskID a)
      (fun a => a <| a_EndedAt := Some now |>
                  <| a_RecoveryDisposition := Some RecoveryAOBlockedEscalated |>)));;
    appendAuditEventTx (audit_event eventID AuditWorkerBlockedEscalated now pairID taskID contractID
      attemptID "supervisor"
      ["from_state" ↦ VStr "BLOCKED"; "to_state" ↦ VStr "HUMAN_REQUIRED";
       "recovery_disposition" ↦ VStr RecoveryAOBlockedEscalated]);;
    commit tt).
End Dispatch.
