(* ===== verification/StopStore.v ===== *)
(** * StopStore: stop_transactions.go and createStopOperationTx

    The stop saga of a pair: reservation, acceptance of the /kill call, its
    outcome (D11) with the closure of a live attempt (D12), startup
    classification and the administrative acceptance of a stop's risk. *)

From S2P Require Import Prelude.
From S2P Require Import Domain.
From S2P Require Import GoLib.
From S2P Require Import Db.
From S2P Require Import Tx.
From S2P Require Import Scrub.
From S2P Require Import AuditLog.
From S2P Require Import TaskStore.
From S2P Require Import Lifecycle.

(** ** Inserting a stop operation *)

(** The unresolved restore of the pair as [createStopOperationTx] scans it:
    a NULL recovery_principal does not scan into a string. *)
Definition scan_unresolved_restore (pairID : string) (d : DB)
    : res (option (PairRestoreOperation * string)) :=
  match find (fun o => (ro_PairID o == pairID) && restore_unresolved o) (pair_restore_operations d) with
  | None => Ok None
  | Some o =>
      match ro_RecoveryPrincipal o with
      | None => Err ErrScan
      | Some principal => Ok (Some (o, principal))
      end
  end.

(** The attempt, of the task and contract, in the pair. *)
Definition attempt_lineage (attemptID taskID contractID pairID : string) (d : DB) : option TaskAttempt :=
  find (fun a => (a_AttemptID a == attemptID) && (a_TaskID a == taskID) && (a_ContractID a == contractID)
                 && task_in_pair d taskID pairID) (task_attempts d).
Definition contract_lineage (contractID taskID pairID : string) (d : DB) : option unit :=
  if has_contract_task d contractID taskID && task_in_pair d taskID pairID then Some tt else None.
Definition task_lineage (taskID pairID : string) (d : DB) : option unit :=
  if task_in_pair d taskID pairID then Some tt else None.

Definition check_stop_lineage (operation : StopOperation) : M unit :=
  reject_if (((so_Purpose operation == RunningAttemptStop) || (so_Purpose operation == QuarantineCleanup))
             && is_null (so_AttemptID operation)) ErrAttemptLineageMismatch;;
  reject_if ((so_Purpose operation == PairMaintenance) && is_some (so_AttemptID operation))
    ErrAttemptLineageMismatch;;
  match so_AttemptID operation with
  | Some attemptID =>
      match so_TaskID operation, so_ContractID operation with
      | Some taskID, Some contractID =>
          a ← no_rows ErrAttemptLineageMismatch
                (query_row (attempt_lineage attemptID taskID contractID (so_PairID operation)));
          reject_if ((a_SessionID a != Some (so_SessionID operation))
                     || (a_TerminalGeneration a != Some (so_TerminalGeneration operation)))
            ErrAttemptLineageMismatch
      | _, _ => throw ErrAttemptLineageMismatch
      end
  | None =>
      match so_ContractID operation with
      | Some contractID =>
          match so_TaskID operation with
          | None => throw ErrAttemptLineageMismatch
          | Some taskID =>
              no_rows ErrAttemptLineageMismatch
                (query_row (contract_lineage contractID taskID (so_PairID operation)))
          end
      | None =>
          match so_TaskID operation with
          | None => mret tt
          | Some taskID =>
              no_rows ErrAttemptLineageMismatch
                (query_row (task_lineage taskID (so_PairID operation)))
          end
      end
  end.

(** A closed quarantined attempt. *)
Definition closed_quarantine (attemptID : string) (d : DB) : bool :=
  existsb (fun a => (a_AttemptID a == attemptID) && is_some (a_EndedAt a)
                    && (a_QuarantineState a == QuarantineQuarantined)) (task_attempts d).

Definition check_stop_restore (operation : StopOperation) (cleanupObservation : list string) : M unit :=
  owner ← query_res (scan_unresolved_restore (so_PairID operation));
  match owner with
  | None =>
      reject_if (is_some (so_RestoreOperationID operation)) ErrAttemptLineageMismatch;;
      rejectUnresolvedProvisioning (so_PairID operation)
  | Some (restore, recoveryPrincipal) =>
      let observedRuntime :=
        match cleanupObservation with
        | [g] => (g != "") && (so_TerminalGeneration operation == g)
        | _ => false
        end in
      let claimed := ro_ResolutionState restore == RestoreCleanupClaimed in
      let same_session := so_SessionID operation == ro_SessionID restore in
      let validNewGenerationMaintenance :=
        (so_Purpose operation == PairMaintenance) && is_null (so_AttemptID operation)
        && is_null (so_TaskID operation) && is_null (so_ContractID operation)
        && claimed && same_session && observedRuntime
        && match ro_ObservedGeneration restore with
           | None => true | Some g => so_TerminalGeneration operation == g end in
      let validOldGenerationCleanup :=
        (so_Purpose operation == QuarantineCleanup) && is_some (so_AttemptID operation)
        && claimed && same_session
        && (so_TerminalGeneration operation == ro_ExpectedGeneration restore) in
      reject_if ((so_RestoreOperationID operation != Some (ro_OperationID restore))
                 || (so_RestorePrincipal operation != Some recoveryPrincipal)
                 || (recoveryPrincipal == "")
                 || (negb validNewGenerationMaintenance && negb validOldGenerationCleanup))
        ErrQuarantinedExecution;;
      (if validOldGenerationCleanup then
         closed ← query (closed_quarantine (valueOrEmpty (so_AttemptID operation)));
         reject_if (negb closed) ErrAttemptLineageMismatch
       else mret tt)
  end.

Section Stop.
Context {L : GoLib}.

(** The row written: the restore principal is not a column. *)
Definition stop_row (operation : StopOperation) : StopOperation :=
  operation <| so_RestorePrincipal := None |>.

Definition createStopOperationTx (operation : StopOperation) (cleanupObservation : list string)
    : M unit :=
  check_stop_lineage operation;;
  check_stop_restore operation cleanupObservation;;
  mapLifecycleWriteError (exec (insert_stop (stop_row operation)));;
  match so_RestoreOperationID operation with
  | None => mret tt
  | Some restoreID =>
      eventID ← newAuditEventID;
      appendAuditEventTx (audit_event eventID AuditStopOperationRequested (so_RequestedAt operation)
        (so_PairID operation) (valueOrEmpty (so_TaskID operation))
        (valueOrEmpty (so_ContractID operation)) (valueOrEmpty (so_AttemptID operation))
        (so_Actor operation)
        ["stop_operation_id" ↦ VStr (so_OperationID operation);
         "purpose" ↦ VStr (StopPurpose_string (so_Purpose operation));
         "restore_operation_id" ↦ VStr restoreID;
         "principal" ↦ VStr (valueOrEmpty (so_RestorePrincipal operation));
         "session_id" ↦ VStr (so_SessionID operation);
         "target_generation" ↦ VStr (so_TerminalGeneration operation)]);;
      mret tt
  end.

Definition appendStopAudit (stop : StopOperation) (kind : string) (at_ : Z)
    (extra : list (string * value)) : M unit :=
  id ← newAuditEventID;
  appendAuditEventTx (audit_event id kind at_ (so_PairID stop) (valueOrEmpty (so_TaskID stop))
    (valueOrEmpty (so_ContractID stop)) (valueOrEmpty (so_AttemptID stop)) (so_Actor stop)
    (["stop_operation_id" ↦ VStr (so_OperationID stop);
      "purpose" ↦ VStr (StopPurpose_string (so_Purpose stop));
      "session_id" ↦ VStr (so_SessionID stop);
      "target_generation" ↦ VStr (so_TerminalGeneration stop)]
     ++ match so_InitiatingFailureReason stop with
        | Some r => ["initiating_failure_reason" ↦ VStr r] | None => [] end
     ++ ["restore_operation_id" ↦ opt_value (so_RestoreOperationID stop)]
     ++ extra)%list);;
  mret tt.

(** [getStopOperationTx] does not read termination_confirmed_at and
    resolved_at. *)
Definition stop_view (o : StopOperation) : StopOperation :=
  o <| so_TerminationConfirmedAt := None |> <| so_ResolvedAt := None |>.
Definition getStopOperationTx (id : string) : M StopOperation :=
  no_rows ErrOperationNotFound (query_row (fun d => option_map stop_view (find_stop id d))).

(** ** ReserveStopOperation *)

(** The state of the task whose current open attempt is the one named. *)
Definition live_task (taskID pairID attemptID contractID : string) (d : DB) : option Task :=
  find (fun t => (t_TaskID t == taskID) && (t_PairID t == pairID)
                 && existsb (fun a => current_attempt_of t a && (a_AttemptID a == attemptID)
                                      && (a_ContractID a == contractID) && is_null (a_EndedAt a))
                      (task_attempts d)) (tasks d).
Definition cleanup_task (taskID pairID attemptID contractID : string) (d : DB) : option Task :=
  find (fun t => (t_TaskID t == taskID) && (t_PairID t == pairID)
                 && existsb (fun a => (a_TaskID a == t_TaskID t) && (a_AttemptID a == attemptID)
                                      && (a_ContractID a == contractID) && is_some (a_EndedAt a)
                                      && (a_QuarantineState a == QuarantineQuarantined))
                      (task_attempts d)) (tasks d).

(** The budget of the attempt with its dispatch, and the timeout guard. *)
Definition timeout_budget (attemptID pairID taskID session generation : string) (d : DB)
    : option (ExecutionBudget * DispatchOperation * bool) :=
  b ← find (fun b => b_AttemptID b == attemptID) (attempt_execution_budgets d);
  o ← find (fun o => (d_OperationID o == b_DispatchOperationID b) && (d_AttemptID o == b_AttemptID b)
                     && (d_PairID o == pairID) && (d_TaskID o == taskID)) (dispatch_operations d);
  a ← find_attempt (b_AttemptID b) d;
  w ← find_session (d_PairID o) d;
  let guard := (a_QuarantineState a == QuarantineClean) && (ws_QuarantineState w == QuarantineClean)
               && (is_null (a_RecoveryDisposition a)
                   || (a_RecoveryDisposition a == Some "AO_WAITING_INPUT_OBSERVED"%string))
               && (ws_SessionID w == session) && (ws_TerminalGeneration w == generation) in
  Some (b, o, guard).

Definition check_timeout_stop (stop : StopOperation) (attemptID taskID : string) : M unit :=
  found ← map_err (fun _ => ErrStateConflict)
    (query_row (timeout_budget attemptID (so_PairID stop) taskID (so_SessionID stop)
                  (so_TerminalGeneration stop)));
  let '(b, o, guard) := found in
  reject_if ((b_Duration b <=? 0)%Z || blank (b_PolicyRef b)
             || negb (b_OriginAt b + b_Duration b =? b_DeadlineAt b)%Z
             || (d_Stage o != SendConfirmed) || negb guard
             || (d_SessionID o != so_SessionID stop)
             || (d_TerminalGeneration o != so_TerminalGeneration stop)
             || (so_RequestedAt stop <? b_DeadlineAt b)%Z) ErrStateConflict.

(** The admission of the three purposes. *)
Definition check_stop_purpose (stop : StopOperation) : M unit :=
  match so_Purpose stop with
  | RunningAttemptStop =>
      match so_AttemptID stop, so_TaskID stop, so_ContractID stop with
      | Some attemptID, Some taskID, Some contractID =>
          t ← map_err (fun _ => ErrAttemptLineageMismatch)
                (query_row (live_task taskID (so_PairID stop) attemptID contractID));
          reject_if (t_State t != StateRunning) ErrStateConflict;;
          (if is_some (so_InitiatingFailureReason stop)
           then check_timeout_stop stop attemptID taskID else mret tt)
      | _, _, _ => throw ErrAttemptLineageMismatch
      end
  | QuarantineCleanup =>
      match so_AttemptID stop, so_TaskID stop, so_ContractID stop with
      | Some attemptID, Some taskID, Some contractID =>
          t ← map_err (fun _ => ErrAttemptLineageMismatch)
                (query_row (cleanup_task taskID (so_PairID stop) attemptID contractID));
          reject_if ((t_State t != StateFailed) && (t_State t != StateHumanRequired))
            ErrAttemptLineageMismatch
      | _, _, _ => throw ErrAttemptLineageMismatch
      end
  | PairMaintenance =>
      reject_if (is_some (so_TaskID stop) || is_some (so_ContractID stop) || is_some (so_AttemptID stop))
        ErrAttemptLineageMismatch
  | StopPurposeOther _ => throw ErrAttemptLineageMismatch
  end.

Definition ReserveStopOperation (stop : StopOperation) : M unit :=
  reject_if (is_some (so_RestoreOperationID stop) || is_some (so_RestorePrincipal stop)
             || (so_OperationID stop == "") || (so_PairID stop == "") || (so_SessionID stop == "")
             || (so_TerminalGeneration stop == "") || (so_Actor stop == ""))
    ErrAttemptLineageMismatch;;
  let stop := if so_Stage stop == StopStageOther "" then stop <| so_Stage := StopRequested |> else stop in
  let stop := if so_ResolutionState stop == StopResolutionOther ""
              then stop <| so_ResolutionState := StopResolutionInFlight |> else stop in
  reject_if ((so_Stage stop != StopRequested) || (so_ResolutionState stop != StopResolutionInFlight))
    ErrInvalidOperationTransition;;
  requestedAt ← now_if_zero (so_RequestedAt stop);
  let stop := stop <| so_RequestedAt := requestedAt |> in
  reject_if (match so_InitiatingFailureReason stop with
             | Some r => (r != "TIMEOUT") || (so_Purpose stop != RunningAttemptStop)
             | None => false end) ErrStateConflict;;
  with_tx (
    w ← no_rows ErrAttemptLineageMismatch (query_row (find_session (so_PairID stop)));
    reject_if ((ws_SessionID w != so_SessionID stop)
               || (ws_TerminalGeneration w != so_TerminalGeneration stop)) ErrAttemptLineageMismatch;;
    pending ← query (fun d => pending_stop d (so_PairID stop));
    reject_if pending ErrStateConflict;;
    check_stop_purpose stop;;
    createStopOperationTx stop [];;
    operationCASResult (exec_n (update_sessions
      (session_tuple (so_PairID stop) (so_SessionID stop) (so_TerminalGeneration stop))
      (fun w => w <| ws_QuarantineState := QuarantineQuarantined |>
                  <| ws_UpdatedAt := so_RequestedAt stop |>)));;
    (if so_Purpose stop == RunningAttemptStop then
       operationCASResult (exec_n (update_attempts
         (fun a => attempt_snapshot (valueOrEmpty (so_AttemptID stop)) (valueOrEmpty (so_TaskID stop))
                     (valueOrEmpty (so_ContractID stop)) (so_SessionID stop)
                     (so_TerminalGeneration stop) a && is_null (a_EndedAt a))
         (fun a => a <| a_QuarantineState := QuarantineQuarantined |>)))
     else mret tt);;
    appendStopAudit stop AuditStopOperationRequested (so_RequestedAt stop) [];;
    commit tt).

Definition CreateStopOperation (operation : StopOperation) : M unit := ReserveStopOperation operation.

(** ** The timeout winner's precheck *)
Definition unresolved_elsewhere (d : DB) (pairID operationID : string) : bool :=
  existsb (fun o => (so_PairID o == pairID) && (so_OperationID o != operationID)
                    && stop_pending (so_ResolutionState o)) (stop_operations d).
Definition timeout_effect_owned (stop : StopOperation) (taskID contractID attemptID : string) (d : DB)
    : bool :=
  let pairID := so_PairID stop in
  existsb (fun t => (t_PairID t == pairID) && (t_TaskID t == taskID) && (t_State t == StateRunning)
    && existsb (fun a => current_attempt_of t a
         && attempt_snapshot attemptID (t_TaskID t) contractID (so_SessionID stop)
              (so_TerminalGeneration stop) a
         && is_null (a_EndedAt a)
         && (is_null (a_RecoveryDisposition a)
             || (a_RecoveryDisposition a == Some "AO_WAITING_INPUT_OBSERVED"%string))
         && (a_QuarantineState a == QuarantineQuarantined)
         && existsb (fun o => (d_AttemptID o == a_AttemptID a) && (d_Stage o == SendConfirmed)
                              && is_null (d_ResolutionState o)) (dispatch_operations d))
       (task_attempts d)
    && existsb (fun w => session_tuple (t_PairID t) (so_SessionID stop) (so_TerminalGeneration stop) w
                         && (ws_QuarantineState w == QuarantineQuarantined)) (worker_sessions d))
    (tasks d)
  && negb (unresolved_elsewhere d pairID (so_OperationID stop))
  && negb (restore_owned d pairID) && negb (provisioning_owned d pairID)
  && negb (unknown_delivery d pairID)
  && negb (other_quarantined_attempt d pairID attemptID).

Definition ValidateTimeoutEffectOwner (operationID : string) : M unit :=
  with_tx (
    stop ← getStopOperationTx operationID;
    reject_if ((so_InitiatingFailureReason stop != Some "TIMEOUT"%string)
               || (so_Purpose stop != RunningAttemptStop) || (so_Stage stop != StopRequested)
               || (so_ResolutionState stop != StopResolutionInFlight)) ErrStateConflict;;
    match so_TaskID stop, so_ContractID stop, so_AttemptID stop with
    | Some taskID, Some contractID, Some attemptID =>
        valid ← query (timeout_effect_owned stop taskID contractID attemptID);
        reject_if (negb valid) ErrQuarantinedExecution;;
        commit tt
    | _, _, _ => throw ErrStateConflict
    end).

(** ** The accepted call *)
Definition guardStopRestoreOwner (stop : StopOperation) : M unit :=
  owner ← query (fun d => find (fun o => (ro_PairID o == so_PairID stop) && restore_unresolved o)
                            (pair_restore_operations d));
  match owner with
  | None => reject_if (is_some (so_RestoreOperationID stop)) ErrStateConflict
  | Some o =>
      reject_if ((so_RestoreOperationID stop != Some (ro_OperationID o))
                 || (ro_ResolutionState o != RestoreCleanupClaimed)) ErrQuarantinedExecution
  end.

Definition CommitStopCallAccepted (operationID : string) (callAt deadline : Z) : M unit :=
  reject_if ((callAt =? 0)%Z || (deadline =? 0)%Z || negb (callAt <? deadline)%Z) ErrStateConflict;;
  with_tx (
    stop ← getStopOperationTx operationID;
    guardStopRestoreOwner stop;;
    reject_if ((so_Stage stop != StopRequested) || (so_ResolutionState stop != StopResolutionInFlight))
      ErrStateConflict;;
    operationCASResult (exec_n (update_stops
      (fun o => (so_OperationID o == operationID) && (so_Stage o == StopRequested)
                && (so_ResolutionState o == StopResolutionInFlight)
                && is_null (so_CallCompletedAt o) && is_null (so_ConfirmationDeadlineAt o))
      (fun o => o <| so_Stage := StopCallSucceeded |> <| so_CallCompletedAt := Some callAt |>
                  <| so_ConfirmationDeadlineAt := Some deadline |>)));;
    appendStopAudit stop AuditStopOperationCallSucceeded callAt
      ["call_completed_at" ↦ VStr (formatTime callAt);
       "confirmation_deadline_at" ↦ VStr (formatTime deadline)];;
    commit tt).

(** ** The outcome *)
Record StopTerminalOutcome := mkStopTerminalOutcome {
  st_ExpectedStage : StopStage; st_Stage : StopStage; st_Resolution : StopResolutionState;
  st_At : Z; st_ObservedSessionID : string; st_ObservedGeneration : string;
  st_ObservedIsTerminated : bool }.

Definition validStopOutcome (o : StopTerminalOutcome) : bool :=
  match st_Resolution o with
  | StopResolutionTerminationConfirmed =>
      (st_ExpectedStage o == StopCallSucceeded) && (st_Stage o == StopTerminationConfirmed)
  | StopResolutionTargetAbsent => st_Stage o == StopTargetAbsent
  | StopResolutionCallFailed => (st_ExpectedStage o == StopRequested) && (st_Stage o == StopCallFailed)
  | StopResolutionConfirmationTimeout =>
      (st_ExpectedStage o == StopCallSucceeded) && (st_Stage o == StopCallSucceeded)
  | StopResolutionGenerationMismatch => st_Stage o == st_ExpectedStage o
  | StopResolutionEffectUnprovenAlreadyTerminated | StopResolutionCallOutcomeUnknown =>
      (st_ExpectedStage o == StopRequested) && (st_Stage o == StopRequested)
  | _ => false
  end.

Definition stopOutcomeAuditType (o : StopTerminalOutcome) : string :=
  match st_Resolution o with
  | StopResolutionTerminationConfirmed => AuditStopOperationConfirmed
  | StopResolutionTargetAbsent => AuditStopOperationTargetAbsent
  | StopResolutionCallFailed => AuditStopOperationCallFailed
  | StopResolutionCallOutcomeUnknown => AuditStopOperationCallOutcomeUnknown
  | StopResolutionConfirmationTimeout => AuditStopConfirmationTimeout
  | StopResolutionGenerationMismatch | StopResolutionEffectUnprovenAlreadyTerminated =>
      AuditStopOperationResolved
  | _ => ""
  end.

Definition stopDisposition (o : StopTerminalOutcome) (physical : bool) : string :=
  if physical then "WORKER_STOPPED"
  else match st_Resolution o with
       | StopResolutionTargetAbsent => "SESSION_ABSENT"
       | StopResolutionConfirmationTimeout => "STOP_CONFIRMATION_TIMEOUT"
       | StopResolutionGenerationMismatch => "STOP_GENERATION_MISMATCH"
       | StopResolutionCallOutcomeUnknown => "STOP_CALL_OUTCOME_UNKNOWN"
       | _ => "WORKER_TERMINATION_UNKNOWN"
       end.

Definition other_risk (d : DB) (pairID attemptID : string) : bool :=
  other_quarantined_attempt d pairID attemptID || restore_owned d pairID || unknown_delivery d pairID.

Definition closeLiveStopTx (stop : StopOperation) (outcome : StopTerminalOutcome) (physical : bool)
    : M unit :=
  match so_TaskID stop, so_ContractID stop, so_AttemptID stop with
  | Some taskID, Some contractID, Some attemptID =>
      lineage ← currentOpenAttemptLineage taskID attemptID;
      reject_if ((fst lineage != so_PairID stop) || (snd lineage != contractID))
        ErrAttemptLineageMismatch;;
      a ← query_row (find_attempt attemptID);
      reject_if ((a_SessionID a != Some (so_SessionID stop))
                 || (a_TerminalGeneration a != Some (so_TerminalGeneration stop)))
        ErrAttemptLineageMismatch;;
      let disposition := stopDisposition outcome physical in
      operationCASResult (exec_n (update_tasks
        (fun t => (t_TaskID t == taskID) && (t_PairID t == so_PairID stop) && (t_State t == StateRunning))
        (fun t => t <| t_State := StateFailed |> <| t_UpdatedAt := st_At outcome |>)));;
      let quarantine := if physical then QuarantineClean else QuarantineQuarantined in
      operationCASResult (exec_n (update_attempts_where
        (fun d a => attempt_snapshot attemptID taskID contractID (so_SessionID stop)
                      (so_TerminalGeneration stop) a
                    && is_null (a_EndedAt a) && is_current_number d taskID a)
        (fun a => a <| a_EndedAt := Some (st_At outcome) |>
                    <| a_RecoveryDisposition := Some disposition |>
                    <| a_QuarantineState := quarantine |>)));;
      otherRisk ← query (fun d => other_risk d (so_PairID stop) attemptID);
      let workerQuarantine :=
        if physical && negb otherRisk then QuarantineClean else QuarantineQuarantined in
      operationCASResult (exec_n (update_sessions
        (session_tuple (so_PairID stop) (so_SessionID stop) (so_TerminalGeneration stop))
        (fun w => w <| ws_Status := if physical then WorkerSessionTerminated else ws_Status w |>
                    <| ws_QuarantineState := workerQuarantine |>
                    <| ws_UpdatedAt := st_At outcome |>)));;
      id ← newAuditEventID;
      let failureReason :=
        match so_InitiatingFailureReason stop with Some r => r | None => disposition end in
      appendAuditEventTx (audit_event id AuditTaskStateTransition (st_At outcome) (so_PairID stop)
        taskID contractID attemptID (so_Actor stop)
        ["from_state" ↦ VStr "RUNNING"; "to_state" ↦ VStr "FAILED";
         "failure_reason" ↦ VStr failureReason; "recovery_disposition" ↦ VStr disposition;
         "stop_operation_id" ↦ VStr (so_OperationID stop)]);;
      (if physical then
         appendStopAudit stop AuditQuarantineResolvedPhysical (st_At outcome)
           ["lineage" ↦ VStr "attempt"; "attempt_id" ↦ VStr attemptID];;
         (if workerQuarantine == QuarantineClean then
            appendStopAudit stop AuditQuarantineResolvedPhysical (st_At outcome)
              ["lineage" ↦ VStr "worker_session"]
          else mret tt)
       else mret tt)
  | _, _, _ => throw ErrAttemptLineageMismatch
  end.

Definition stop_outcome_details (stop : StopOperation) (outcome : StopTerminalOutcome)
    (logicalResolution physical : bool) : list (string * value) :=
  (["resolution_state" ↦ VStr (StopResolutionState_string (st_Resolution outcome))]
   ++ (if logicalResolution then
         ["pair_id" ↦ VStr (so_PairID stop);
          "task_id" ↦ VStr (valueOrEmpty (so_TaskID stop));
          "contract_id" ↦ VStr (valueOrEmpty (so_ContractID stop));
          "attempt_id" ↦ VStr (valueOrEmpty (so_AttemptID stop));
          "old_stage" ↦ VStr (StopStage_string (so_Stage stop));
          "new_stage" ↦ VStr (StopStage_string (st_Stage outcome));
          "old_resolution" ↦ VStr (StopResolutionState_string (so_ResolutionState stop));
          "new_resolution" ↦ VStr (StopResolutionState_string (st_Resolution outcome));
          "observed_session_id" ↦ VStr (st_ObservedSessionID outcome);
          "observed_generation" ↦ VStr (st_ObservedGeneration outcome);
          "is_terminated" ↦ VBool (st_ObservedIsTerminated outcome);
          "actor" ↦ VStr (so_Actor stop)]
       else [])
   ++ (if physical then
         ["confirmation_deadline_at" ↦
            VStr (match so_ConfirmationDeadlineAt stop with Some t => formatTime t | None => "" end);
          "termination_confirmed_at" ↦ VStr (formatTime (st_At outcome));
          "observed_session_id" ↦ VStr (st_ObservedSessionID outcome);
          "observed_generation" ↦ VStr (st_ObservedGeneration outcome);
          "is_terminated" ↦ VBool true]
       else []))%list.

(** D11: positive proof, strictly before the deadline. *)
Definition positive_proof (stop : StopOperation) (outcome : StopTerminalOutcome) : bool :=
  (st_ExpectedStage outcome == StopCallSucceeded)
  && match so_CallCompletedAt stop, so_ConfirmationDeadlineAt stop with
     | Some call, Some deadline => negb (st_At outcome <? call)%Z && (st_At outcome <? deadline)%Z
     | _, _ => false
     end
  && st_ObservedIsTerminated outcome && (st_ObservedSessionID outcome == so_SessionID stop)
  && (st_ObservedGeneration outcome == so_TerminalGeneration stop).

Definition logical_observation (stop : StopOperation) (outcome : StopTerminalOutcome) : bool :=
  (st_ObservedSessionID outcome == so_SessionID stop) && (st_ObservedGeneration outcome != "")
  && negb ((st_Resolution outcome == StopResolutionGenerationMismatch)
           && (st_ObservedGeneration outcome == so_TerminalGeneration stop))
  && negb ((st_Resolution outcome == StopResolutionEffectUnprovenAlreadyTerminated)
           && (negb (st_ObservedIsTerminated outcome)
               || (st_ObservedGeneration outcome != so_TerminalGeneration stop))).

(** The runtime after the outcome of a stop that is not a live one. *)
Definition settle_cleanup_runtime (stop : StopOperation) (outcome : StopTerminalOutcome)
    (physical : bool) : M unit :=
  w ← query_row (fun d => find (fun w => (ws_PairID w == so_PairID stop)
                                         && (ws_SessionID w == so_SessionID stop)) (worker_sessions d));
  if ws_TerminalGeneration w == so_TerminalGeneration stop then
    operationCASResult (exec_n (update_sessions
      (session_tuple (so_PairID stop) (so_SessionID stop) (so_TerminalGeneration stop))
      (fun w => w <| ws_Status := if physical then WorkerSessionTerminated else ws_Status w |>
                  <| ws_QuarantineState := QuarantineQuarantined |>
                  <| ws_UpdatedAt := st_At outcome |>)))
  else reject_if (is_null (so_RestoreOperationID stop) || (so_Purpose stop != QuarantineCleanup))
         ErrAttemptLineageMismatch.

Definition CommitStopOutcome (operationID : string) (outcome : StopTerminalOutcome) : M unit :=
  reject_if (st_At outcome =? 0)%Z ErrStateConflict;;
  with_tx (
    stop ← getStopOperationTx operationID;
    guardStopRestoreOwner stop;;
    reject_if ((so_Stage stop != st_ExpectedStage outcome)
               || (so_ResolutionState stop != StopResolutionInFlight)
               || negb (validStopTransition (st_ExpectedStage outcome) (st_Stage outcome)))
      ErrStateConflict;;
    let physical := (st_Stage outcome == StopTerminationConfirmed)
                    && (st_Resolution outcome == StopResolutionTerminationConfirmed) in
    reject_if (if physical then negb (positive_proof stop outcome)
               else (st_Stage outcome == StopTerminationConfirmed)
                    || (st_Resolution outcome == StopResolutionTerminationConfirmed))
      ErrStateConflict;;
    let logicalResolution := (st_Resolution outcome == StopResolutionGenerationMismatch)
                    || (st_Resolution outcome == StopResolutionEffectUnprovenAlreadyTerminated) in
    reject_if (logicalResolution && negb (logical_observation stop outcome)) ErrStateConflict;;
    reject_if (negb (validStopOutcome outcome)) ErrInvalidOperationTransition;;
    operationCASResult (exec_n (update_stops
      (fun o => (so_OperationID o == operationID) && (so_Stage o == st_ExpectedStage outcome)
                && (so_ResolutionState o == StopResolutionInFlight))
      (fun o => o <| so_Stage := st_Stage outcome |>
                  <| so_ResolutionState := st_Resolution outcome |>
                  <| so_ResolvedAt := Some (st_At outcome) |>
                  <| so_TerminationConfirmedAt := if physical then Some (st_At outcome) else None |>)));;
    (if stopOutcomeAuditType outcome != "" then
       appendStopAudit stop (stopOutcomeAuditType outcome) (st_At outcome)
         (stop_outcome_details stop outcome logicalResolution physical)
     else mret tt);;
    (if so_Purpose stop == RunningAttemptStop then closeLiveStopTx stop outcome physical
     else settle_cleanup_runtime stop outcome physical);;
    commit tt).

(** ** The compatibility entry point *)
Record StopStageUpdate := mkStopStageUpdate {
  su_ExpectedResolutionState : StopResolutionState; su_CallCompletedAt : option Z;
  su_ConfirmationDeadlineAt : option Z; su_TerminationConfirmedAt : option Z;
  su_ResolvedAt : option Z; su_ResolutionState : option StopResolutionState;
  su_ObservedSessionID : string; su_ObservedGeneration : string; su_ObservedIsTerminated : bool }.

Definition UpdateStopOperationStage (operationID : string) (expected next : StopStage)
    (update : StopStageUpdate) : M unit :=
  reject_if (negb (validStopTransition expected next)) ErrInvalidOperationTransition;;
  if (expected == StopRequested) && (next == StopCallSucceeded) then
    match su_CallCompletedAt update, su_ConfirmationDeadlineAt update with
    | Some call, Some deadline =>
        reject_if (is_some (su_ResolvedAt update) || is_some (su_TerminationConfirmedAt update)
                   || match su_ResolutionState update with
                      | Some r => r != StopResolutionInFlight | None => false end) ErrStateConflict;;
        CommitStopCallAccepted operationID call deadline
    | _, _ => throw ErrStateConflict
    end
  else if (expected == StopCallSucceeded) && (next == StopCallSucceeded)
          && is_null (su_ResolutionState update) then
    match su_CallCompletedAt update, su_ConfirmationDeadlineAt update with
    | Some call, Some deadline =>
        reject_if (is_some (su_ResolvedAt update) || is_some (su_TerminationConfirmedAt update))
          ErrStateConflict;;
        stop ← GetStopOperation operationID;
        reject_if ((so_Stage stop != StopCallSucceeded)
                   || (so_ResolutionState stop != StopResolutionInFlight)
                   || (so_CallCompletedAt stop != Some call)
                   || (so_ConfirmationDeadlineAt stop != Some deadline)) ErrStateConflict
    | _, _ => throw ErrStateConflict
    end
  else
    reject_if (su_ResolutionState update == Some StopResolutionInFlight) ErrStateConflict;;
    match su_ResolutionState update with
    | None => throw ErrAtomicDispatchRequired
    | Some resolution =>
        reject_if (((su_ExpectedResolutionState update != StopResolutionOther "")
                    && (su_ExpectedResolutionState update != StopResolutionInFlight))
                   || is_some (su_CallCompletedAt update)
                   || is_some (su_ConfirmationDeadlineAt update)) ErrAtomicDispatchRequired;;
        now ← timeNow;
        let at_ := match su_ResolvedAt update with Some t => t | None => now end in
        let at_ := match su_TerminationConfirmedAt update with Some t => t | None => at_ end in
        CommitStopOutcome operationID (mkStopTerminalOutcome expected next resolution at_
          (su_ObservedSessionID update) (su_ObservedGeneration update) (su_ObservedIsTerminated update))
    end.

(** ** Startup classification of an abandoned stop *)
Definition ClassifyAbandonedStopAlive (operationID sessionID generation actor invocation : string)
    (at_ : Z) : M unit :=
  reject_if ((operationID == "") || (sessionID == "") || (generation == "") || (actor == "")
             || (at_ =? 0)%Z) ErrStateConflict;;
  with_tx (
    stop ← getStopOperationTx operationID;
    reject_if ((so_SessionID stop != sessionID) || (so_TerminalGeneration stop != generation))
      ErrStateConflict;;
    if (so_Stage stop == StopRequested) && (so_ResolutionState stop == StopResolutionReissueRequiresHuman)
    then rollback tt
    else
      reject_if ((so_Stage stop != StopRequested) || (so_ResolutionState stop != StopResolutionInFlight)
                 || (so_SessionID stop != sessionID) || (so_TerminalGeneration stop != generation))
        ErrStateConflict;;
      guardStopRestoreOwner stop;;
      operationCASResult (exec_n (update_stops
        (fun o => (so_OperationID o == operationID) && (so_Stage o == StopRequested)
                  && (so_ResolutionState o == StopResolutionInFlight) && (so_Purpose o == so_Purpose stop)
                  && (so_PairID o == so_PairID stop) && (so_SessionID o == so_SessionID stop)
                  && (so_TerminalGeneration o == so_TerminalGeneration stop)
                  && (valueOrEmpty (so_TaskID o) == valueOrEmpty (so_TaskID stop))
                  && (valueOrEmpty (so_ContractID o) == valueOrEmpty (so_ContractID stop))
                  && (valueOrEmpty (so_AttemptID o) == valueOrEmpty (so_AttemptID stop))
                  && (valueOrEmpty (so_RestoreOperationID o) == valueOrEmpty (so_RestoreOperationID stop)))
        (fun o => o <| so_ResolutionState := StopResolutionReissueRequiresHuman |>
                    <| so_ResolvedAt := Some at_ |>)));;
      appendStopAudit stop AuditStopOperationResolved at_
        ["old_stage" ↦ VStr "STOP_REQUESTED"; "new_stage" ↦ VStr "STOP_REQUESTED";
         "old_resolution" ↦ VStr "IN_FLIGHT"; "new_resolution" ↦ VStr "STOP_REISSUE_REQUIRES_HUMAN";
         "observed_session_id" ↦ VStr sessionID; "observed_generation" ↦ VStr generation;
         "is_terminated" ↦ VBool false; "observation_source" ↦ VStr "GetWorkerStatus";
         "observation_time" ↦ VStr (formatTime at_);
         "reason" ↦ VStr "AUTOMATIC_REISSUE_PROHIBITED";
         "recovery_invocation" ↦ VStr invocation; "actor" ↦ VStr actor];;
      commit tt).
End Stop.
