(* ===== verification/RestoreStore.v ===== *)
(** * RestoreStore: restore_transactions.go

    The restore saga of a pair: the one-shot reservation that quarantines the
    session, confirmation, the ambiguous outcome, recovery and cleanup claims,
    and the two resolutions with the evidence each requires. *)

From S2P Require Import Prelude.
From S2P Require Import Domain.
From S2P Require Import GoLib.
From S2P Require Import Db.
From S2P Require Import Tx.
From S2P Require Import Scrub.
From S2P Require Import AuditLog.
From S2P Require Import TaskStore.
From S2P Require Import Lifecycle.
From S2P Require Import StopStore.

Definition find_restore (operationID : string) (d : DB) : option PairRestoreOperation :=
  find (fun o => ro_OperationID o == operationID) (pair_restore_operations d).
Definition GetPairRestoreOperation (operationID : string) : M PairRestoreOperation :=
  no_rows ErrOperationNotFound (query_row (find_restore operationID)).

(** The admission predicate of [ReservePairRestore]. *)
Definition restore_blocked (d : DB) (pairID : string) : bool :=
  open_attempt_in_pair d pairID
  || unclean_attempt_in_pair d pairID
  || existsb (fun o => (d_PairID o == pairID) && (d_Stage o == SendRequested)
                       && is_null (d_ResolutionState o)) (dispatch_operations d)
  || existsb (fun t => (t_PairID t == pairID)
       && (((0 <? t_CurrentAttempt t)%Z && negb (has_current_attempt d t))
           || (in_list (t_State t) [StateDispatched; StateRunning; StateBlocked]
               && negb (existsb (fun a => current_attempt_of t a && is_null (a_EndedAt a))
                          (task_attempts d)))))
      (tasks d)
  || provisioning_owned d pairID || restore_owned d pairID || pending_stop d pairID.

(** [task_id IN (SELECT task_id FROM tasks WHERE pair_id=?)] with the snapshot *)
Definition restore_linked_attempt (pairID session generation : string) (d : DB) (a : TaskAttempt) : bool :=
  (a_SessionID a == Some session) && (a_TerminalGeneration a == Some generation)
  && task_in_pair d (a_TaskID a) pairID.

(** A linked stop that is not terminal. *)
Definition linked_stop_pending (d : DB) (operationID : string) : bool :=
  existsb (fun o => (so_RestoreOperationID o == Some operationID)
             && negb (in_list (so_ResolutionState o)
                        [StopResolutionTerminationConfirmed; StopResolutionTargetAbsent;
                         StopResolutionAdministrativeRiskAccepted])) (stop_operations d).

Section Restore.
Context {L : GoLib}.

Definition ReservePairRestore (request : RestoreReservation) : M unit :=
  let pairID := rr_PairID request in
  reject_if ((rr_AuthorizationID request == "") || (rr_OperationID request == "") || (pairID == "")
             || (rr_SessionID request == "") || (rr_ExpectedGeneration request == "")
             || (rr_AuthorizedPrincipal request == "") || (rr_Actor request == "")) ErrInput;;
  reject_if ((rr_RiskScope request != "POSSIBLE_PROMPT_REPLAY")
             && (rr_RiskScope request != "PROMPT_REPLAY_AND_UNRESOLVED_EXECUTION")) ErrInput;;
  now ← now_if_zero (rr_At request);
  riskEventID ← newAuditEventID;
  requestEventID ← newAuditEventID;
  with_tx (
    w ← no_rows ErrWorkerSessionNotFound (query_row (find_session pairID));
    reject_if ((ws_SessionID w != rr_SessionID request)
               || (ws_TerminalGeneration w != rr_ExpectedGeneration request)) ErrStateConflict;;
    reject_if (ws_QuarantineState w != QuarantineClean) ErrQuarantinedExecution;;
    reject_if (ws_Status w != WorkerSessionTerminated) ErrStateConflict;;
    blocked ← query (fun d => restore_blocked d pairID);
    reject_if blocked ErrQuarantinedExecution;;
    affects_one ErrStateConflict (exec_n (update_sessions
      (fun v => session_tuple pairID (rr_SessionID request) (rr_ExpectedGeneration request) v
                && (ws_Status v == WorkerSessionTerminated)
                && (ws_QuarantineState v == ws_QuarantineState w))
      (fun v => v <| ws_QuarantineState := QuarantineQuarantined |> <| ws_UpdatedAt := now |>)));;
    exec_n (update_attempts_where
      (restore_linked_attempt pairID (rr_SessionID request) (rr_ExpectedGeneration request))
      (fun a => a <| a_QuarantineState := QuarantineQuarantined |>));;
    appendAuditEventTx (pair_event riskEventID AuditPairRestoreRiskAccepted now pairID (rr_Actor request)
      ["operation_id" ↦ VStr (rr_OperationID request); "session_id" ↦ VStr (rr_SessionID request);
       "expected_generation" ↦ VStr (rr_ExpectedGeneration request);
       "risk_scope" ↦ VStr (rr_RiskScope request);
       "authorized_principal" ↦ VStr (rr_AuthorizedPrincipal request)]);;
    mapLifecycleWriteError (exec (insert_authorization
      {| ra_AuthorizationID := rr_AuthorizationID request; ra_OperationID := rr_OperationID request;
         ra_PairID := pairID; ra_SessionID := rr_SessionID request;
         ra_ExpectedGeneration := rr_ExpectedGeneration request; ra_RiskScope := rr_RiskScope request;
         ra_AuthorizedPrincipal := rr_AuthorizedPrincipal request;
         ra_AuthorizationEventID := riskEventID; ra_IssuedAt := now; ra_ConsumedAt := Some now;
         ra_ConsumedByOperationID := Some (rr_OperationID request) |}));;
    appendAuditEventTx (pair_event requestEventID AuditPairRestoreRequested now pairID (rr_Actor request)
      ["operation_id" ↦ VStr (rr_OperationID request);
       "authorization_id" ↦ VStr (rr_AuthorizationID request);
       "session_id" ↦ VStr (rr_SessionID request);
       "expected_generation" ↦ VStr (rr_ExpectedGeneration request)]);;
    mapLifecycleWriteError (exec (insert_restore
      {| ro_OperationID := rr_OperationID request; ro_AuthorizationID := rr_AuthorizationID request;
         ro_PairID := pairID; ro_SessionID := rr_SessionID request;
         ro_ExpectedGeneration := rr_ExpectedGeneration request; ro_ObservedGeneration := None;
         ro_RestoreMode := None; ro_Stage := RestoreRequestedStage;
         ro_ResolutionState := RestoreInFlight; ro_ResolutionBasis := None;
         ro_RecoveryPrincipal := None; ro_RecoveryClaimedAt := None; ro_RequestedAt := now;
         ro_HTTP200At := None; ro_ResolvedAt := None; ro_ResolutionEventID := None;
         ro_Version := 0 |}));;
    commit tt).

(** [version=version+1] *)
Definition bump (o : PairRestoreOperation) : PairRestoreOperation :=
  o <| ro_Version := (ro_Version o + 1)%Z |>.

(** [transitionRestore] with the UPDATE it is called with. *)
Definition transitionRestore (operationID actor eventType : string)
    (where_ : PairRestoreOperation -> bool) (set : PairRestoreOperation -> PairRestoreOperation) : M unit :=
  with_tx (
    op ← no_rows ErrOperationNotFound (query_row (find_restore operationID));
    eventID ← newAuditEventID;
    now ← timeNow;
    appendAuditEventTx (pair_event eventID eventType now (ro_PairID op) actor
      ["operation_id" ↦ VStr operationID]);;
    affects_one ErrStateConflict (exec_n (update_restores
      (fun o => where_ o && (ro_OperationID o == operationID) && (ro_Version o =? ro_Version op)%Z) set));;
    commit tt).

Definition RecordPairRestoreUnknown (operationID actor : string) : M unit :=
  transitionRestore operationID actor AuditPairRestoreOutcomeUnknown
    (fun o => ro_ResolutionState o == RestoreInFlight)
    (fun o => bump (o <| ro_ResolutionState := RestoreOutcomeUnknown |>)).

Definition ConfirmPairRestore (operationID sessionID oldGeneration newGeneration restoreMode : string)
    (sessionStatus : WorkerSessionStatus) (actor : string) (confirmedAt : Z) : M unit :=
  reject_if ((sessionID == "") || (oldGeneration == "") || (newGeneration == "") || (restoreMode == "")
             || (actor == "")
             || match sessionStatus with WorkerSessionOther _ => true | _ => false end) ErrInput;;
  reject_if (negb (in_list restoreMode ["native"; "saved_prompt"; "fresh"]%string)) ErrInput;;
  confirmedAt ← now_if_zero confirmedAt;
  eventID ← newAuditEventID;
  with_tx (
    op ← no_rows ErrOperationNotFound (query_row (find_restore operationID));
    let pairID := ro_PairID op in
    reject_if ((ro_ExpectedGeneration op != oldGeneration) || (ro_Stage op != RestoreRequestedStage)
               || (ro_ResolutionState op != RestoreInFlight)) ErrStateConflict;;
    w ← query_row (find_session pairID);
    reject_if ((ws_SessionID w != sessionID) || (ws_TerminalGeneration w != oldGeneration))
      ErrStateConflict;;
    appendAuditEventTx (pair_event eventID AuditPairRestoreConfirmed confirmedAt pairID actor
      ["operation_id" ↦ VStr operationID; "session_id" ↦ VStr sessionID;
       "old_generation" ↦ VStr oldGeneration; "observed_generation" ↦ VStr newGeneration;
       "restore_mode" ↦ VStr restoreMode; "basis" ↦ VStr "RESTORE_HTTP_200_CONFIRMED"]);;
    affects_one ErrStateConflict (exec_n (update_restores
      (fun o => (ro_OperationID o == operationID) && (ro_Version o =? ro_Version op)%Z
                && (ro_Stage o == RestoreRequestedStage) && (ro_ResolutionState o == RestoreInFlight))
      (fun o => bump (o <| ro_Stage := RestoreConfirmedStage |>
                        <| ro_ObservedGeneration := Some newGeneration |>
                        <| ro_RestoreMode := Some restoreMode |>
                        <| ro_HTTP200At := Some confirmedAt |>))));;
    affects_one ErrStateConflict (exec_n (update_sessions
      (session_tuple pairID sessionID oldGeneration)
      (fun v => v <| ws_TerminalGeneration := newGeneration |> <| ws_Status := sessionStatus |>
                  <| ws_QuarantineState := QuarantineQuarantined |>
                  <| ws_UpdatedAt := confirmedAt |>)));;
    commit tt).

(** The claim both resolutions and [ClaimRestoreRecovery] write. *)
Definition claim_recovery (principal : string) (at_ : Z) (o : PairRestoreOperation)
    : PairRestoreOperation :=
  bump (o <| ro_ResolutionState := RestoreRecoveryClaimed |>
          <| ro_RecoveryPrincipal := Some principal |> <| ro_RecoveryClaimedAt := Some at_ |>).
Definition resolve_with (basis : RestoreResolutionBasis) (at_ : Z) (eventID : string)
    (o : PairRestoreOperation) : PairRestoreOperation :=
  bump (o <| ro_ResolutionState := RestoreResolved |> <| ro_ResolutionBasis := Some basis |>
          <| ro_ResolvedAt := Some at_ |> <| ro_ResolutionEventID := Some eventID |>).

(** A NULL observed_generation does not scan into a string. *)
Definition scan_observed (operationID : string) (d : DB) : res (PairRestoreOperation * string) :=
  match find_restore operationID d with
  | None => Err ErrNoRows
  | Some o => match ro_ObservedGeneration o with Some g => Ok (o, g) | None => Err ErrScan end
  end.

Definition ResolveConfirmedRestore (operationID sessionID observedGeneration activityState principal
    actor : string) (resolvedAt : Z) : M unit :=
  reject_if ((sessionID == "") || (observedGeneration == "") || (principal == "") || (actor == "")
             || ((activityState != "idle") && (activityState != "waiting_input"))) ErrInput;;
  resolvedAt ← now_if_zero resolvedAt;
  eventID ← newAuditEventID;
  with_tx (
    row ← no_rows ErrOperationNotFound (query_res (scan_observed operationID));
    let '(op, opObserved) := row in
    let pairID := ro_PairID op in
    reject_if ((ro_SessionID op != sessionID) || (opObserved != observedGeneration)
               || (ro_Stage op != RestoreConfirmedStage)) ErrStateConflict;;
    let alreadyResolved := (ro_ResolutionState op == RestoreResolved)
                           && (ro_ResolutionBasis op == Some RestoreHTTP200Confirmed)
                           && (ro_RecoveryPrincipal op == Some principal) in
    reject_if (negb alreadyResolved && (ro_ResolutionState op != RestoreInFlight)
               && (ro_ResolutionState op != RestoreRecoveryClaimed)) ErrStateConflict;;
    reject_if (negb alreadyResolved && (ro_ResolutionState op == RestoreRecoveryClaimed)
               && (ro_RecoveryPrincipal op != Some principal)) ErrStateConflict;;
    w ← query_row (find_session pairID);
    reject_if ((ws_SessionID w != sessionID) || (ws_TerminalGeneration w != observedGeneration))
      ErrStateConflict;;
    pendingStop ← query (fun d => linked_stop_pending d operationID);
    reject_if pendingStop ErrStateConflict;;
    if alreadyResolved then rollback tt
    else
      version ←
        (if ro_ResolutionState op == RestoreInFlight then
           claimEventID ← newAuditEventID;
           appendAuditEventTx (pair_event claimEventID AuditPairRestoreRecoveryClaimed resolvedAt pairID
             actor ["operation_id" ↦ VStr operationID; "session_id" ↦ VStr sessionID;
                    "observed_generation" ↦ VStr observedGeneration; "principal" ↦ VStr principal]);;
           affects_one ErrStateConflict (exec_n (update_restores
             (fun o => (ro_OperationID o == operationID) && (ro_Stage o == RestoreConfirmedStage)
                       && (ro_ResolutionState o == RestoreInFlight)
                       && (ro_Version o =? ro_Version op)%Z)
             (claim_recovery principal resolvedAt)));;
           mret (ro_Version op + 1)%Z
         else mret (ro_Version op));
      appendAuditEventTx (pair_event eventID AuditPairRestoreResolved resolvedAt pairID actor
        ["operation_id" ↦ VStr operationID; "session_id" ↦ VStr sessionID;
         "observed_generation" ↦ VStr observedGeneration; "activity_state" ↦ VStr activityState;
         "basis" ↦ VStr "RESTORE_HTTP_200_CONFIRMED"]);;
      affects_one ErrStateConflict (exec_n (update_restores
        (fun o => (ro_OperationID o == operationID) && (ro_Stage o == RestoreConfirmedStage)
                  && (ro_ResolutionState o == RestoreRecoveryClaimed) && (ro_Version o =? version)%Z
                  && (ro_ObservedGeneration o == Some observedGeneration))
        (resolve_with RestoreHTTP200Confirmed resolvedAt eventID)));;
      commit tt).

(** ** Positive D11 evidence: the stop row and its exact audit tuple *)
Definition d11_audit (o : StopOperation) (confirmed deadline : Z) (e : AuditRow) : bool :=
  let j := e_details_json e in
  (e_event_type e == AuditStopOperationConfirmed)
  && json_is j "stop_operation_id" (so_OperationID o)
  && match so_RestoreOperationID o with
     | None => json_is_null j "restore_operation_id"
     | Some r => json_is j "restore_operation_id" r
     end
  && (e_pair_id e == Some (so_PairID o)) && (e_task_id e == so_TaskID o)
  && (e_contract_id e == so_ContractID o) && (e_attempt_id e == so_AttemptID o)
  && json_is j "session_id" (so_SessionID o)
  && json_is j "target_generation" (so_TerminalGeneration o)
  && json_is j "confirmation_deadline_at" (formatTime deadline)
  && json_is j "termination_confirmed_at" (formatTime confirmed)
  && json_is j "observed_session_id" (so_SessionID o)
  && json_is j "observed_generation" (so_TerminalGeneration o)
  && json_is_true j "is_terminated".

Definition d11_lineage (d : DB) (o : StopOperation) : bool :=
  match so_Purpose o with
  | PairMaintenance => is_null (so_TaskID o) && is_null (so_ContractID o) && is_null (so_AttemptID o)
  | QuarantineCleanup | RunningAttemptStop =>
      is_some (so_AttemptID o)
      && existsb (fun a => (Some (a_AttemptID a) == so_AttemptID o) && (Some (a_TaskID a) == so_TaskID o)
           && (Some (a_ContractID a) == so_ContractID o) && task_in_pair d (a_TaskID a) (so_PairID o)
           && (a_SessionID a == Some (so_SessionID o))
           && (a_TerminalGeneration a == Some (so_TerminalGeneration o))
           && is_some (a_EndedAt a) && (a_QuarantineState a == QuarantineQuarantined))
         (task_attempts d)
  | StopPurposeOther _ => false
  end.

(** Empty [restoreID], [attemptID], [exactStopID]: not constrained. *)
Definition positiveD11StopEvidence (pairID sessionID generation restoreID attemptID exactStopID : string)
    (d : DB) : bool :=
  existsb (fun o =>
    (so_PairID o == pairID) && (so_SessionID o == sessionID) && (so_TerminalGeneration o == generation)
    && ((restoreID == "") || (so_RestoreOperationID o == Some restoreID))
    && ((attemptID == "") || (so_AttemptID o == Some attemptID))
    && ((exactStopID == "") || (so_OperationID o == exactStopID))
    && (so_Stage o == StopTerminationConfirmed)
    && (so_ResolutionState o == StopResolutionTerminationConfirmed)
    && is_some (so_ResolvedAt o) && d11_lineage d o
    && match so_TerminationConfirmedAt o, so_ConfirmationDeadlineAt o, so_CallCompletedAt o with
       | Some confirmed, Some deadline, Some call =>
           existsb (d11_audit o confirmed deadline) (audit_events d)
           && negb (confirmed <? call)%Z && (confirmed <? deadline)%Z
       | _, _, _ => false
       end)
    (stop_operations d).

(** Administrative acceptance of the lineage by a linked stop. *)
Definition administrativeOrPhysicalLineage (restoreID pairID principal session generation attempt : string)
    (d : DB) : bool :=
  positiveD11StopEvidence pairID session generation "" attempt "" d
  || existsb (fun e =>
       let j := e_details_json e in
       (e_event_type e == AuditAdministrativeRiskAccepted) && (e_pair_id e == Some pairID)
       && (e_actor e == principal) && json_is j "authority_scope" "STOP_ADMINISTRATIVE_RECONCILIATION"
       && json_is j "session_id" session && json_is j "terminal_generation" generation
       && json_is j "attempt_id" attempt && json_is j "restore_operation_id" restoreID
       && existsb (fun s => json_is j "stop_operation_id" (so_OperationID s) && (so_PairID s == pairID)
            && (so_SessionID s == session) && (so_RestoreOperationID s == Some restoreID)
            && ((json_is j "class" "CLASS_B" && (so_ResolutionState s == StopResolutionTargetAbsent))
                || (json_is j "class" "CLASS_C"
                    && (so_ResolutionState s == StopResolutionAdministrativeRiskAccepted))))
          (stop_operations d))
       (audit_events d).

(** The quarantined attempts of the pair; a NULL snapshot does not scan. *)
Definition quarantined_attempts (pairID : string) (d : DB) : list TaskAttempt :=
  select (fun a => task_in_pair d (a_TaskID a) pairID && (a_QuarantineState a == QuarantineQuarantined))
    (task_attempts d).
Fixpoint scan_lineages (l : list TaskAttempt) : res (list (string * string * string)) :=
  match l with
  | [] => Ok []
  | a :: rest =>
      match a_SessionID a, a_TerminalGeneration a, scan_lineages rest with
      | Some s, Some g, Ok t => Ok ((a_AttemptID a, s, g) :: t)
      | Some _, Some _, Err e => Err e
      | _, _, _ => Err ErrScan
      end
  end.

(** Each lineage must satisfy [ok] in turn. *)
Fixpoint each_lineage (ok : string -> string -> string -> DB -> bool)
    (l : list (string * string * string)) : M unit :=
  match l with
  | [] => mret tt
  | (id, session, generation) :: rest =>
      valid ← query (ok id session generation);
      reject_if (negb valid) ErrStateConflict;;
      each_lineage ok rest
  end.

Definition restoreAdministrativeCoverageTx (restoreID pairID principal : string) : M unit :=
  w ← query_row (find_session pairID);
  (if ws_QuarantineState w == QuarantineQuarantined then
     ok ← query (administrativeOrPhysicalLineage restoreID pairID principal (ws_SessionID w)
                   (ws_TerminalGeneration w) "");
     reject_if (negb ok) ErrStateConflict
   else mret tt);;
  all ← query_res (fun d => scan_lineages (quarantined_attempts pairID d));
  each_lineage (fun id session generation =>
    administrativeOrPhysicalLineage restoreID pairID principal session generation id) all.

(** Class A: the linked stop proves the current runtime, and every
    quarantined attempt has its own proof. *)
Definition physical_coverage (operationID pairID sessionID : string) (op : PairRestoreOperation) : M unit :=
  stop ← map_err (fun _ => ErrStateConflict)
    (query_row (fun d => find (fun o => (so_RestoreOperationID o == Some operationID)
                                        && (so_PairID o == pairID) && (so_SessionID o == sessionID))
                           (stop_operations d)));
  let runtimeGeneration := so_TerminalGeneration stop in
  w ← query_row (find_session pairID);
  reject_if ((ws_SessionID w != sessionID)
             || ((ro_Stage op == RestoreConfirmedStage) && (ws_TerminalGeneration w != runtimeGeneration))
             || ((ro_Stage op == RestoreRequestedStage)
                 && (ws_TerminalGeneration w != ro_ExpectedGeneration op))) ErrStateConflict;;
  valid ← query (positiveD11StopEvidence pairID sessionID runtimeGeneration operationID "" "");
  reject_if (negb valid) ErrStateConflict;;
  lineages ← query_res (fun d => scan_lineages (quarantined_attempts pairID d));
  each_lineage (fun id session generation =>
    positiveD11StopEvidence pairID session generation "" id "") lineages.

Definition ResolveAmbiguousRestore (operationID pairID sessionID generation : string)
    (basis : RestoreResolutionBasis) (evidence principal actor : string) (resolvedAt : Z) : M unit :=
  reject_if ((operationID == "") || (pairID == "") || (sessionID == "") || (generation == "")
             || ((basis != PhysicalExecutionResolution) && (basis != AdministrativeRiskResolution))
             || (evidence == "") || (principal == "") || (actor == "")) ErrInput;;
  resolvedAt ← now_if_zero resolvedAt;
  claimEvent ← newAuditEventID;
  resolutionEvent ← newAuditEventID;
  let det := ["operation_id" ↦ VStr operationID;
              "basis" ↦ VStr (RestoreResolutionBasis_string basis);
              "principal" ↦ VStr principal; "evidence" ↦ VStr evidence] in
  with_tx (
    op ← no_rows ErrOperationNotFound (query_row (find_restore operationID));
    reject_if ((ro_PairID op != pairID) || (ro_SessionID op != sessionID)
               || (ro_ExpectedGeneration op != generation)) ErrAttemptLineageMismatch;;
    pendingStop ← query (fun d => linked_stop_pending d operationID);
    reject_if pendingStop ErrStateConflict;;
    (if basis == AdministrativeRiskResolution then
       linked ← query (fun d => existsb (fun o => so_RestoreOperationID o == Some operationID)
                                  (stop_operations d));
       (if linked : bool then restoreAdministrativeCoverageTx operationID pairID principal else mret tt)
     else mret tt);;
    if (ro_ResolutionState op == RestoreResolved) && (ro_ResolutionBasis op == Some basis)
       && (ro_RecoveryPrincipal op == Some principal)
    then rollback tt
    else
      reject_if (negb (in_list (ro_ResolutionState op)
                   [RestoreOutcomeUnknown; RestoreRecoveryClaimed; RestoreCleanupClaimed]))
        ErrStateConflict;;
      (if basis == PhysicalExecutionResolution then physical_coverage operationID pairID sessionID op
       else mret tt);;
      appendAuditEventTx (pair_event claimEvent AuditPairRestoreRecoveryClaimed resolvedAt pairID actor det);;
      source ←
        (if ro_ResolutionState op == RestoreOutcomeUnknown then
           affects_one ErrStateConflict (exec_n (update_restores
             (fun o => (ro_OperationID o == operationID)
                       && (ro_ResolutionState o == ro_ResolutionState op)
                       && (ro_Version o =? ro_Version op)%Z)
             (claim_recovery principal resolvedAt)));;
           mret (RestoreRecoveryClaimed, (ro_Version op + 1)%Z)
         else
           owner ← query_res (fun d => match find_restore operationID d with
                                       | None => Err ErrNoRows
                                       | Some o => match ro_RecoveryPrincipal o with
                                                   | Some p => Ok p | None => Err ErrScan end
                                       end);
           reject_if (owner != principal) ErrStateConflict;;
           mret (ro_ResolutionState op, ro_Version op));
      appendAuditEventTx (pair_event resolutionEvent AuditPairRestoreResolved resolvedAt pairID actor det);;
      affects_one ErrStateConflict (exec_n (update_restores
        (fun o => (ro_OperationID o == operationID) && (ro_ResolutionState o == fst source)
                  && (ro_Version o =? snd source)%Z)
        (resolve_with basis resolvedAt resolutionEvent)));;
      commit tt).

(** ** Cleanup and recovery claims *)
Definition ClaimRestoreCleanup (operationID pairID sessionID targetGeneration principal actor : string)
    (claimedAt : Z) : M unit := throw ErrAtomicDispatchRequired.

Record RestoreCleanupObservation := mkRestoreCleanupObservation {
  co_SessionID : string; co_TerminalGeneration : string; co_IsTerminated : bool }.

Definition ClaimRestoreCleanupWithStop (stop : StopOperation) (principal actor : string) (claimedAt : Z)
    (observations : list RestoreCleanupObservation) : M unit :=
  let restoreID := valueOrEmpty (so_RestoreOperationID stop) in
  reject_if ((so_OperationID stop == "") || (restoreID == "") || (so_PairID stop == "")
             || (so_SessionID stop == "") || (so_TerminalGeneration stop == "") || (principal == "")
             || (actor == "")) ErrInput;;
  reject_if (so_RestorePrincipal stop != Some principal) ErrStateConflict;;
  claimedAt ← now_if_zero claimedAt;
  let stop := if (so_RequestedAt stop =? 0)%Z then stop <| so_RequestedAt := claimedAt |> else stop in
  let stop := if so_Actor stop == "" then stop <| so_Actor := actor |> else stop in
  let stop := if so_Stage stop == StopStageOther "" then stop <| so_Stage := StopRequested |> else stop in
  let stop := if so_ResolutionState stop == StopResolutionOther ""
              then stop <| so_ResolutionState := StopResolutionInFlight |> else stop in
  reject_if ((so_Stage stop != StopRequested) || (so_ResolutionState stop != StopResolutionInFlight))
    ErrInput;;
  reject_if (1 <? length observations)%nat ErrInput;;
  let observation := match observations with
                     | [o] => o | _ => mkRestoreCleanupObservation "" "" false end in
  reject_if ((so_Purpose stop == PairMaintenance)
             && ((co_SessionID observation != so_SessionID stop)
                 || (co_TerminalGeneration observation != so_TerminalGeneration stop)
                 || co_IsTerminated observation)) ErrStateConflict;;
  claimEventID ← newAuditEventID;
  with_tx (
    op ← no_rows ErrOperationNotFound (query_row (find_restore restoreID));
    let pairID := ro_PairID op in let sessionID := ro_SessionID op in
    let expected := ro_ExpectedGeneration op in let observed := ro_ObservedGeneration op in
    let validObservedGeneration := (so_Purpose stop == PairMaintenance)
      && (co_SessionID observation == sessionID)
      && (co_TerminalGeneration observation == so_TerminalGeneration stop) in
    reject_if ((pairID != so_PairID stop) || (sessionID != so_SessionID stop)
               || (ro_ResolutionState op != RestoreRecoveryClaimed)
               || (ro_RecoveryPrincipal op != Some principal)
               || ((so_TerminalGeneration stop != expected)
                   && (observed != Some (so_TerminalGeneration stop)) && negb validObservedGeneration))
      ErrStateConflict;;
    w ← query_row (find_session pairID);
    reject_if ((ws_SessionID w != sessionID) || (ws_QuarantineState w != QuarantineQuarantined)
               || match observed with
                  | Some g => ws_TerminalGeneration w != g
                  | None => ws_TerminalGeneration w != expected
                  end) ErrStateConflict;;
    appendAuditEventTx (pair_event claimEventID AuditPairRestoreCleanupClaimed claimedAt pairID actor
      ["operation_id" ↦ VStr restoreID; "session_id" ↦ VStr sessionID;
       "expected_generation" ↦ VStr expected; "target_generation" ↦ VStr (so_TerminalGeneration stop);
       "observation_session_id" ↦ VStr (co_SessionID observation);
       "observation_generation" ↦ VStr (co_TerminalGeneration observation);
       "principal" ↦ VStr principal]);;
    affects_one ErrStateConflict (exec_n (update_restores
      (fun o => (ro_OperationID o == restoreID) && (ro_PairID o == pairID) && (ro_SessionID o == sessionID)
                && (ro_ResolutionState o == RestoreRecoveryClaimed)
                && (ro_RecoveryPrincipal o == Some principal) && (ro_Version o =? ro_Version op)%Z)
      (fun o => bump (o <| ro_ResolutionState := RestoreCleanupClaimed |>))));;
    createStopOperationTx stop [co_TerminalGeneration observation];;
    commit tt).

Definition ClaimRestoreRecovery (operationID pairID sessionID generation principal actor : string)
    (claimedAt : Z) : M unit :=
  reject_if ((operationID == "") || (pairID == "") || (sessionID == "") || (generation == "")
             || (principal == "") || (actor == "")) ErrInput;;
  claimedAt ← now_if_zero claimedAt;
  eventID ← newAuditEventID;
  with_tx (
    op ← no_rows ErrOperationNotFound (query_row (find_restore operationID));
    let allowed := (ro_ResolutionState op == RestoreOutcomeUnknown)
      || ((ro_ResolutionState op == RestoreInFlight) && (ro_Stage op == RestoreConfirmedStage)) in
    let genMatches := (generation == ro_ExpectedGeneration op)
      || (ro_ObservedGeneration op == Some generation) in
    reject_if ((ro_PairID op != pairID) || (ro_SessionID op != sessionID) || negb allowed
               || negb genMatches) ErrStateConflict;;
    appendAuditEventTx (pair_event eventID AuditPairRestoreRecoveryClaimed claimedAt pairID actor
      ["operation_id" ↦ VStr operationID; "session_id" ↦ VStr sessionID;
       "generation" ↦ VStr generation; "principal" ↦ VStr principal]);;
    affects_one ErrStateConflict (exec_n (update_restores
      (fun o => (ro_OperationID o == operationID) && (ro_PairID o == pairID)
                && (ro_SessionID o == sessionID) && (ro_ResolutionState o == ro_ResolutionState op)
                && (ro_Version o =? ro_Version op)%Z)
      (claim_recovery principal claimedAt)));;
    commit tt).
End Restore.
