(* ===== verification/RecoveryStore.v ===== *)
(** * RecoveryStore: recovery.go and recovery_transactions.go

    What a restarting daemon reads ([ClassifyRestartRecovery],
    [ListRecoverySnapshot]) and the transactions of the startup sweep and of
    the post-send poller: an AO outage, an exact observation of the session,
    an interrupted restore and an unconfirmed provisioning. *)

From S2P Require Import Prelude.
From S2P Require Import Domain.
From S2P Require Import GoLib.
From S2P Require Import Db.
From S2P Require Import Tx.
From S2P Require Import Scrub.
From S2P Require Import AuditLog.
From S2P Require Import TaskStore.
From S2P Require Import Lifecycle.

(** [ORDER BY] on a text key. *)
Definition by_text {R} (key : R -> string) : list R -> list R :=
  sort_by (fun a b => String.leb (key a) (key b)).

(** ** recovery.go *)
Inductive RecoveryClassification : Type :=
| ClassificationExternalReconciliationRequired
| ClassificationInconsistentPersistedState.
#[export] Instance RecoveryClassification_eq_dec : EqDecision RecoveryClassification.
Proof. solve_decision. Defined.

Record RecoveryCandidate := mkRecoveryCandidate {
  rc_TaskID : string; rc_AttemptID : string; rc_AttemptNumber : Z; rc_ContractID : string;
  rc_Classification : RecoveryClassification }.

(** One iteration of the loop over the dispatched tasks. *)
Definition classify_task (t : Task) : M RecoveryCandidate :=
  found ← query (fun d => find (current_attempt_of t) (task_attempts d));
  mret match found with
       | None => mkRecoveryCandidate (t_TaskID t) "" (t_CurrentAttempt t) ""
                   ClassificationInconsistentPersistedState
       | Some a => mkRecoveryCandidate (t_TaskID t) (a_AttemptID a) (t_CurrentAttempt t) (a_ContractID a)
                     (if is_some (a_EndedAt a) then ClassificationInconsistentPersistedState
                      else ClassificationExternalReconciliationRequired)
       end.
Fixpoint classify_tasks (l : list Task) : M (list RecoveryCandidate) :=
  match l with
  | [] => mret []
  | t :: rest => c ← classify_task t; cs ← classify_tasks rest; mret (c :: cs)
  end.

(** The candidates come with the error, not instead of it. *)
Definition ClassifyRestartRecovery : M (list RecoveryCandidate * option err) :=
  ts ← query (fun d => by_text t_TaskID (select (fun t => t_State t == StateDispatched) (tasks d)));
  candidates ← classify_tasks ts;
  mret (candidates,
        if existsb (fun c => rc_Classification c == ClassificationInconsistentPersistedState) candidates
        then Some ErrInconsistentPersistedState else None).

(** ** recovery_transactions.go: the snapshot *)
Record RecoveryExecution := mkRecoveryExecution {
  x_OperationID : string; x_PairID : string; x_TaskID : string; x_ContractID : string;
  x_AttemptID : string; x_SessionID : string; x_Generation : string; x_TaskState : string;
  x_DispatchStage : string; x_Disposition : option string }.
#[export] Instance RecoveryExecution_eq_dec : EqDecision RecoveryExecution.
Proof. solve_decision. Defined.

Record RecoveryStop := mkRecoveryStop {
  xs_OperationID : string; xs_Stage : StopStage; xs_Purpose : StopPurpose;
  xs_SessionID : string; xs_Generation : string }.

Record RecoverySnapshot := mkRecoverySnapshot {
  RestoreIDs : list string; ProvisionIDs : list string; StopOwnedAttemptIDs : list string;
  Executions : list RecoveryExecution; StopOperations : list RecoveryStop;
  Blocked : list RecoveryExecution }.

Definition execution_row (o : DispatchOperation) (t : Task) (a : TaskAttempt) : RecoveryExecution :=
  mkRecoveryExecution (d_OperationID o) (d_PairID o) (d_TaskID o) (a_ContractID a) (d_AttemptID o)
    (d_SessionID o) (d_TerminalGeneration o) (TaskState_string (t_State t))
    (DispatchStage_string (d_Stage o)) (a_RecoveryDisposition a).

(** The join of an operation with its task and the task's current attempt. *)
Definition joined_execution (d : DB) (o : DispatchOperation) : option (Task * TaskAttempt) :=
  t ← find_task (d_TaskID o) d;
  a ← find (fun a => (a_AttemptID a == d_AttemptID o) && current_attempt_of t a) (task_attempts d);
  Some (t, a).

(** The LEFT JOINs of the consistency check. *)
Definition inconsistent_task (d : DB) (t : Task) : bool :=
  in_list (t_State t) [StateDispatched; StateRunning; StateBlocked]
  && match find (current_attempt_of t) (task_attempts d) with
     | None => true
     | Some a =>
         is_some (a_EndedAt a) || is_null (a_SessionID a) || is_null (a_TerminalGeneration a)
         || match find (fun o => (d_AttemptID o == a_AttemptID a) && (d_TaskID o == t_TaskID t)
                                 && (d_PairID o == t_PairID t)) (dispatch_operations d) with
            | None => true
            | Some o => in_list (t_State t) [StateRunning; StateBlocked] && (d_Stage o != SendConfirmed)
            end
     end.

Definition recoverable (t : Task) (o : DispatchOperation) : bool :=
  ((t_State t == StateDispatched)
   && ((d_Stage o == DispatchBound)
       || ((d_Stage o == SendRequested) && is_null (d_ResolutionState o))
       || (d_Stage o == SendConfirmed)))
  || ((t_State t == StateRunning) && (d_Stage o == SendConfirmed)).

(** The rows of a join, for the operations with all the joined rows. *)
Definition executions_where (keep : DB -> Task -> TaskAttempt -> DispatchOperation -> bool) (d : DB)
    : list RecoveryExecution :=
  by_text x_OperationID
    (flat_map (fun o => match joined_execution d o with
                        | Some (t, a) => if is_null (a_EndedAt a) && keep d t a o
                                         then [execution_row o t a] else []
                        | None => []
                        end) (dispatch_operations d)).

Definition stop_owned_attempts (d : DB) : list string :=
  by_text (fun s => s) (remove_dups
    (flat_map (fun o => match so_AttemptID o with
       | Some id => if (so_Purpose o == RunningAttemptStop)
                       && existsb (fun a => (a_AttemptID a == id) && is_null (a_EndedAt a)) (task_attempts d)
                    then [id] else []
       | None => []
       end) (stop_operations d))).

Definition stops_in_flight (d : DB) : list RecoveryStop :=
  by_text xs_OperationID
    (map (fun o => mkRecoveryStop (so_OperationID o) (so_Stage o) (so_Purpose o) (so_SessionID o)
                     (so_TerminalGeneration o))
      (select (fun o => (so_ResolutionState o == StopResolutionInFlight)
                        && in_list (so_Stage o) [StopRequested; StopCallSucceeded]) (stop_operations d))).

Definition blocked_executions (d : DB) : list RecoveryExecution :=
  by_text x_TaskID
    (flat_map (fun t => match find (current_attempt_of t) (task_attempts d) with
       | Some a => if (t_State t == StateBlocked) && is_null (a_EndedAt a)
                   then [mkRecoveryExecution "" (t_PairID t) (t_TaskID t) (a_ContractID a) (a_AttemptID a)
                           (valueOrEmpty (a_SessionID a)) (valueOrEmpty (a_TerminalGeneration a))
                           (TaskState_string (t_State t)) "" (a_RecoveryDisposition a)]
                   else []
       | None => []
       end) (tasks d)).

Definition ListRecoverySnapshot : M RecoverySnapshot :=
  with_tx (
    inconsistent ← query (fun d => existsb (inconsistent_task d) (tasks d));
    reject_if inconsistent ErrInconsistentPersistedState;;
    restores ← query (fun d => by_text (fun s => s) (map ro_OperationID
      (select (fun o => (ro_ResolutionState o == RestoreInFlight)
                        && in_list (ro_Stage o) [RestoreRequestedStage; RestoreConfirmedStage])
         (pair_restore_operations d))));
    provisions ← query (fun d => by_text (fun s => s) (map pp_OperationID
      (select (fun o => pp_Stage o == ProvisionRequested) (pair_provisioning_operations d))));
    owned ← query stop_owned_attempts;
    executions ← query (executions_where (fun _ t _ o => recoverable t o));
    stops ← query stops_in_flight;
    blocked ← query blocked_executions;
    commit (mkRecoverySnapshot restores provisions owned executions stops blocked)).

Definition ListOpenConfirmedWithoutBudget : M (list RecoveryExecution) :=
  query (executions_where (fun d t a o =>
    (d_Stage o == SendConfirmed) && in_list (t_State t) [StateDispatched; StateRunning]
    && negb (existsb (fun b => b_AttemptID b == a_AttemptID a) (attempt_execution_budgets d)))).

Section Recovery.
Context {L : GoLib}.

Definition RecordRecoverySweepEvent (invocationID actor event : string) (at_ : Z) : M unit :=
  reject_if ((invocationID == "") || (actor == "")
             || ((event != "STARTUP_RECOVERY_SWEEP_STARTED")
                 && (event != "STARTUP_RECOVERY_SWEEP_COMPLETED"))) ErrStateConflict;;
  at_ ← now_if_zero at_;
  id ← newAuditEventID;
  with_tx (
    appendAuditEventTx (audit_event id event at_ "" "" "" "" actor
      ["invocation_id" ↦ VStr invocationID; "classification_only" ↦ VBool true]);;
    commit tt).

(** ** Post-send outage and observation *)
Definition sameRecoveryExecution (a b : RecoveryExecution) : bool :=
  (x_OperationID a == x_OperationID b) && (x_PairID a == x_PairID b) && (x_TaskID a == x_TaskID b)
  && (x_ContractID a == x_ContractID b) && (x_AttemptID a == x_AttemptID b)
  && (x_SessionID a == x_SessionID b) && (x_Generation a == x_Generation b)
  && (x_TaskState a == x_TaskState b) && (x_DispatchStage a == x_DispatchStage b)
  && (x_Disposition a == x_Disposition b).

Definition stop_owned (x : RecoveryExecution) (d : DB) : bool :=
  existsb (fun o => (so_Purpose o == RunningAttemptStop) && (so_PairID o == x_PairID x)
                    && (so_TaskID o == Some (x_TaskID x)) && (so_ContractID o == Some (x_ContractID x))
                    && (so_AttemptID o == Some (x_AttemptID x)) && (so_SessionID o == x_SessionID x)
                    && (so_TerminalGeneration o == x_Generation x)) (stop_operations d).
Definition guardStopOwnedExecutionTx (x : RecoveryExecution) : M unit :=
  owned ← query (stop_owned x);
  reject_if owned ErrStateConflict.

Definition current_execution (operationID : string) (d : DB) : option RecoveryExecution :=
  o ← find_dispatch operationID d;
  ta ← joined_execution d o;
  if is_null (a_EndedAt (snd ta)) then Some (execution_row o (fst ta) (snd ta)) else None.
(** ... with [d.resolution_state IS NULL] *)
Definition unresolved_execution (operationID : string) (d : DB) : option RecoveryExecution :=
  o ← find_dispatch operationID d;
  if is_null (d_ResolutionState o) then current_execution operationID d else None.

Definition execution_event (id kind : string) (at_ : Z) (x : RecoveryExecution) (actor : string)
    (det : list (string * value)) : AuditEvent :=
  audit_event id kind at_ (x_PairID x) (x_TaskID x) (x_ContractID x) (x_AttemptID x) actor det.
Definition execution_snapshot (x : RecoveryExecution) (a : TaskAttempt) : bool :=
  attempt_snapshot (x_AttemptID x) (x_TaskID x) (x_ContractID x) (x_SessionID x) (x_Generation x) a.

Definition RecordPostSendOutage (expected : RecoveryExecution) (actor classification invocation : string)
    (at_ : Z) : M unit :=
  reject_if ((x_OperationID expected == "") || (actor == "") || (at_ =? 0)%Z) ErrStateConflict;;
  with_tx (
    current ← query_row (current_execution (x_OperationID expected));
    reject_if (negb (sameRecoveryExecution current expected)
               || (x_DispatchStage current != "SEND_CONFIRMED")
               || ((x_TaskState current != "DISPATCHED") && (x_TaskState current != "RUNNING")))
      ErrStateConflict;;
    guardStopOwnedExecutionTx current;;
    w ← query_row (find_session (x_PairID current));
    reject_if ((ws_SessionID w != x_SessionID current)
               || (ws_TerminalGeneration w != x_Generation current)) ErrAttemptLineageMismatch;;
    match x_Disposition current with
    | Some disposition =>
        if disposition == "RECOVERY_PENDING" then rollback tt else throw ErrStateConflict
    | None =>
        operationCASResult (exec_n (fun d => update_attempts
          (fun a => execution_snapshot current a && is_null (a_EndedAt a)
                    && is_null (a_RecoveryDisposition a) && is_current_number d (x_TaskID current) a)
          (fun a => a <| a_RecoveryDisposition := Some "RECOVERY_PENDING"%string |>) d));;
        id ← newAuditEventID;
        appendAuditEventTx (execution_event id "POST_SEND_RECOVERY_PENDING" at_ current actor
          ["dispatch_operation_id" ↦ VStr (x_OperationID current);
           "dispatch_stage" ↦ VStr (x_DispatchStage current);
           "session_id" ↦ VStr (x_SessionID current); "generation" ↦ VStr (x_Generation current);
           "old_task_state" ↦ VStr (x_TaskState current); "new_task_state" ↦ VStr (x_TaskState current);
           "old_disposition" ↦ VNull; "new_disposition" ↦ VStr "RECOVERY_PENDING";
           "observation_time" ↦ VStr (formatTime at_); "observation_source" ↦ VStr "GetWorkerStatus";
           "error_classification" ↦ VStr classification; "recovery_invocation" ↦ VStr invocation]);;
        commit tt
    end).

Record PostSendObservation := mkPostSendObservation {
  ob_SessionID : string; ob_Generation : string; ob_Activity : string;
  ob_Terminated : bool; ob_Absent : bool; ob_HandoffAvailable : bool }.

(** [terminalDisposition] *)
Definition terminal_disposition (current : RecoveryExecution) (observed : PostSendObservation) : string :=
  if ob_Absent observed then "SESSION_ABSENT"
  else if ob_Generation observed != x_Generation current then "STALE_EXECUTION_GENERATION"
  else if ob_Terminated observed then "WORKER_TERMINATION_UNKNOWN"
  else if (x_TaskState current == "DISPATCHED") && (ob_Activity observed == "idle")
          && negb (ob_HandoffAvailable observed) then "MISSED_ACTIVE_WINDOW"
  else "".

(** A DISPATCHED execution seen idle, alive and of its generation. *)
Definition missed_active_window (current : RecoveryExecution) (observed : PostSendObservation) : bool :=
  (x_TaskState current == "DISPATCHED") && (ob_Activity observed == "idle")
  && (ob_Generation observed == x_Generation current) && negb (ob_Absent observed)
  && negb (ob_Terminated observed).

(** [newDisposition] *)
Definition observed_disposition (current : RecoveryExecution) (observed : PostSendObservation)
    : option string :=
  if missed_active_window current observed then Some "MISSED_ACTIVE_WINDOW"%string
  else if terminal_disposition current observed != "" then Some (terminal_disposition current observed)
  else if ob_Activity observed == "waiting_input" then Some "AO_WAITING_INPUT_OBSERVED"%string
  else if ob_Activity observed == "blocked" then Some "AO_BLOCKED_DECISION"%string
  else None.

(** [newState] *)
Definition observed_state (current : RecoveryExecution) (observed : PostSendObservation) : string :=
  if terminal_disposition current observed != "" then "FAILED"
  else if (x_TaskState current == "DISPATCHED")
          && (in_list (ob_Activity observed) ["active"; "waiting_input"; "blocked"]%string
              || ((ob_Activity observed == "idle") && ob_HandoffAvailable observed))
  then "RUNNING" else x_TaskState current.

Definition recovery_pending (x : RecoveryExecution) : bool :=
  x_Disposition x == Some "RECOVERY_PENDING"%string.
Definition task_state_of (s : string) : TaskState :=
  match find (fun st => TaskState_string st == s) AllTaskStates with
  | Some st => st | None => StateOther s end.

(** The attempt and the session of a terminal observation. *)
Definition close_observed (current : RecoveryExecution) (observed : PostSendObservation)
    (terminalDisposition runtimeGeneration : string) (at_ : Z) : M unit :=
  let lost := in_list terminalDisposition ["SESSION_ABSENT"; "STALE_EXECUTION_GENERATION"]%string in
  operationCASResult (exec_n (update_attempts
    (fun a => execution_snapshot current a && is_null (a_EndedAt a)
              && (a_RecoveryDisposition a == x_Disposition current))
    (fun a => a <| a_EndedAt := Some at_ |> <| a_RecoveryDisposition := Some terminalDisposition |>
                <| a_QuarantineState := if lost then QuarantineQuarantined else a_QuarantineState a |>)));;
  (if lost then
     operationCASResult (exec_n (update_sessions
       (session_tuple (x_PairID current) (x_SessionID current) runtimeGeneration)
       (fun w => w <| ws_QuarantineState := QuarantineQuarantined |> <| ws_UpdatedAt := at_ |>)))
   else mret tt);;
  if ob_Terminated observed && (ob_Generation observed == x_Generation current)
     && negb (ob_Absent observed)
  then
    operationCASResult (exec_n (update_sessions
      (session_tuple (x_PairID current) (x_SessionID current) (x_Generation current))
      (fun w => w <| ws_Status := WorkerSessionTerminated |> <| ws_UpdatedAt := at_ |>)))
  else mret tt.

(** Everything [ObservePostSend] writes, once the observation is admitted. *)
Definition apply_observation (current : RecoveryExecution) (observed : PostSendObservation)
    (runtimeGeneration actor invocation : string) (at_ : Z) : M unit :=
  let terminalDisposition := terminal_disposition current observed in
  let newDisposition := observed_disposition current observed in
  let newState := observed_state current observed in
  (if recovery_pending current then
     id ← newAuditEventID;
     appendAuditEventTx (execution_event id "POST_SEND_STATUS_RECOVERED" at_ current actor
       ["dispatch_operation_id" ↦ VStr (x_OperationID current);
        "dispatch_stage" ↦ VStr (x_DispatchStage current);
        "session_id" ↦ VStr (x_SessionID current); "generation" ↦ VStr (x_Generation current);
        "old_task_state" ↦ VStr (x_TaskState current); "new_task_state" ↦ VStr newState;
        "old_disposition" ↦ VStr "RECOVERY_PENDING"; "new_disposition" ↦ opt_value newDisposition;
        "observation_time" ↦ VStr (formatTime at_); "observation_source" ↦ VStr "GetWorkerStatus";
        "observed_activity" ↦ VStr (ob_Activity observed);
        "recovery_invocation" ↦ VStr invocation]);;
     mret tt
   else mret tt);;
  (if newState != x_TaskState current then
     operationCASResult (exec_n (fun d => update_tasks
       (fun t => (t_TaskID t == x_TaskID current) && (t_PairID t == x_PairID current)
                 && (t_State t == task_state_of (x_TaskState current))
                 && existsb (fun a => (a_AttemptID a == x_AttemptID current)
                                      && (a_AttemptNumber a =? t_CurrentAttempt t)%Z) (task_attempts d))
       (fun t => t <| t_State := task_state_of newState |> <| t_UpdatedAt := at_ |>) d));;
     id ← newAuditEventID;
     appendAuditEventTx (execution_event id AuditTaskStateTransition at_ current actor
       ["from_state" ↦ VStr (x_TaskState current); "to_state" ↦ VStr newState;
        "recovery_disposition" ↦ opt_value newDisposition;
        "dispatch_operation_id" ↦ VStr (x_OperationID current)]);;
     mret tt
   else mret tt);;
  (if terminalDisposition != "" then
     close_observed current observed terminalDisposition runtimeGeneration at_
   else if recovery_pending current || is_some newDisposition then
     operationCASResult (exec_n (update_attempts
       (fun a => execution_snapshot current a && is_null (a_EndedAt a)
                 && (a_RecoveryDisposition a == x_Disposition current))
       (fun a => a <| a_RecoveryDisposition := newDisposition |>)))
   else mret tt);;
  (if (ob_Activity observed == "blocked") && (terminalDisposition == "") then
     id ← newAuditEventID;
     appendAuditEventTx (execution_event id "WORKER_BLOCKED_ON_DECISION" at_ current actor
       ["dispatch_operation_id" ↦ VStr (x_OperationID current);
        "observed_activity" ↦ VStr "blocked"]);;
     mret tt
   else mret tt);;
  if missed_active_window current observed then
    id ← newAuditEventID;
    appendAuditEventTx (execution_event id "MISSED_ACTIVE_WINDOW_HANDOFF_DOWNSTREAM" at_ current actor
      ["dispatch_operation_id" ↦ VStr (x_OperationID current);
       "handoff_available" ↦ VBool (ob_HandoffAvailable observed);
       "recovery_disposition" ↦ VStr "MISSED_ACTIVE_WINDOW"]);;
    mret tt
  else mret tt.

Definition ObservePostSend (expected : RecoveryExecution) (observed : PostSendObservation)
    (actor invocation : string) (at_ : Z) : M unit :=
  reject_if ((actor == "") || (at_ =? 0)%Z || (x_DispatchStage expected != "SEND_CONFIRMED")
             || (ob_SessionID observed != x_SessionID expected)) ErrStateConflict;;
  with_tx (
    current ← query_row (unresolved_execution (x_OperationID expected));
    reject_if (negb (sameRecoveryExecution current expected)
               || ((x_TaskState current != "DISPATCHED") && (x_TaskState current != "RUNNING")))
      ErrStateConflict;;
    guardStopOwnedExecutionTx current;;
    w ← query_row (find_session (x_PairID current));
    reject_if ((ws_SessionID w != x_SessionID current)
               || ((ws_TerminalGeneration w != x_Generation current)
                   && (ob_Generation observed == x_Generation current))) ErrAttemptLineageMismatch;;
    reject_if ((terminal_disposition current observed == "")
               && negb (in_list (ob_Activity observed)
                          ["waiting_input"; "blocked"; "active"; "idle"; "exited"]%string))
      ErrStateConflict;;
    if is_some (x_Disposition current) && negb (recovery_pending current)
       && (terminal_disposition current observed == "")
    then rollback tt
    else
      apply_observation current observed (ws_TerminalGeneration w) actor invocation at_;;
      commit tt).

Definition RecordRecoveryAbsent (expected : RecoveryExecution) (actor : string) (at_ : Z) : M unit :=
  reject_if (x_DispatchStage expected != "SEND_CONFIRMED") ErrStateConflict;;
  ObservePostSend expected (mkPostSendObservation (x_SessionID expected) "" "" false true false)
    actor "" at_.

(** ** Startup classification *)
Definition ClassifyInterruptedRestore (operationID actor : string) (at_ : Z) : M unit :=
  reject_if ((operationID == "") || (actor == "")) ErrStateConflict;;
  at_ ← now_if_zero at_;
  with_tx (
    o ← no_rows ErrOperationNotFound
          (query_row (fun d => find (fun o => ro_OperationID o == operationID) (pair_restore_operations d)));
    if ((ro_Stage o == RestoreConfirmedStage) && (ro_ResolutionState o == RestoreInFlight))
       || ((ro_Stage o == RestoreRequestedStage) && (ro_ResolutionState o == RestoreOutcomeUnknown))
    then rollback tt
    else
      reject_if ((ro_Stage o != RestoreRequestedStage) || (ro_ResolutionState o != RestoreInFlight))
        ErrStateConflict;;
      operationCASResult (exec_n (update_restores
        (fun x => (ro_OperationID x == operationID) && (ro_PairID x == ro_PairID o)
                  && (ro_SessionID x == ro_SessionID o)
                  && (ro_ExpectedGeneration x == ro_ExpectedGeneration o)
                  && (ro_Stage x == RestoreRequestedStage) && (ro_ResolutionState x == RestoreInFlight)
                  && (ro_Version x =? ro_Version o)%Z)
        (fun x => x <| ro_ResolutionState := RestoreOutcomeUnknown |>
                    <| ro_Version := (ro_Version x + 1)%Z |>)));;
      operationCASResult (exec_n (update_sessions
        (session_tuple (ro_PairID o) (ro_SessionID o) (ro_ExpectedGeneration o))
        (fun w => w <| ws_QuarantineState := QuarantineQuarantined |> <| ws_UpdatedAt := at_ |>)));;
      exec_n (fun d => update_attempts
        (fun a => (a_SessionID a == Some (ro_SessionID o))
                  && (a_TerminalGeneration a == Some (ro_ExpectedGeneration o))
                  && task_in_pair d (a_TaskID a) (ro_PairID o))
        (fun a => a <| a_QuarantineState := QuarantineQuarantined |>) d);;
      id ← newAuditEventID;
      appendAuditEventTx (pair_event id AuditPairRestoreOutcomeUnknown at_ (ro_PairID o) actor
        ["operation_id" ↦ VStr operationID; "stage" ↦ VStr "RESTORE_REQUESTED";
         "old_resolution" ↦ VStr "IN_FLIGHT"; "new_resolution" ↦ VStr "RESTORE_OUTCOME_UNKNOWN";
         "session_id" ↦ VStr (ro_SessionID o);
         "expected_generation" ↦ VStr (ro_ExpectedGeneration o);
         "source" ↦ VStr "STARTUP_RECOVERY_SWEEP"]);;
      commit tt).

Definition FailProvisioningAtStartup (operationID actor : string) (at_ : Z) : M unit :=
  reject_if ((operationID == "") || (actor == "")) ErrStateConflict;;
  at_ ← now_if_zero at_;
  with_tx (
    o ← no_rows ErrOperationNotFound
          (query_row (fun d => find (fun o => pp_OperationID o == operationID)
                                 (pair_provisioning_operations d)));
    if pp_Stage o == ProvisionFailed then rollback tt
    else
      reject_if (pp_Stage o != ProvisionRequested) ErrStateConflict;;
      operationCASResult (exec_n (update_provisioning
        (fun x => (pp_OperationID x == operationID) && (pp_PairID x == pp_PairID o)
                  && (pp_Stage x == ProvisionRequested))
        (fun x => x <| pp_Stage := ProvisionFailed |> <| pp_CompletedAt := Some at_ |>
                    <| pp_ResolvedAt := Some at_ |>
                    <| pp_ResolutionNotes := Some "STARTUP_RECOVERY_SWEEP"%string |>)));;
      id ← newAuditEventID;
      appendAuditEventTx (pair_event id AuditPairSessionProvisionFailed at_ (pp_PairID o) actor
        ["operation_id" ↦ VStr operationID; "stage" ↦ VStr "PROVISION_FAILED";
         "reason" ↦ VStr "STARTUP_RECOVERY_SWEEP"]);;
      commit tt).
End Recovery.
