(* ===== verification/Clearance.v ===== *)
(** * Clearance: clearance_transactions.go and the administrative part of
    stop_transactions.go

    The two human decisions of the quarantine protocol: the acceptance of an
    unproven stop's risk ([AcceptStopAdministrativeRisk]) and the release of a
    pair's quarantine against evidence for every lineage
    ([ClearQuarantineWithEvidence], D6). *)

From S2P Require Import Prelude.
From S2P Require Import Domain.
From S2P Require Import GoLib.
From S2P Require Import Db.
From S2P Require Import Tx.
From S2P Require Import Scrub.
From S2P Require Import AuditLog.
From S2P Require Import TaskStore.
From S2P Require Import Lifecycle.
From S2P Require Import StopStore.
From S2P Require Import RestoreStore.

Inductive ClearanceBasis : Type :=
| ClearancePhysical | ClearanceAbsenceAdministrative | ClearanceRiskAdministrative
| ClearanceBasisOther (raw : string).
#[export] Instance ClearanceBasis_eq_dec : EqDecision ClearanceBasis.
Proof. solve_decision. Defined.
Definition ClearanceBasis_string (b : ClearanceBasis) : string :=
  match b with
  | ClearancePhysical => "CLASS_A_PHYSICAL"
  | ClearanceAbsenceAdministrative => "CLASS_B_ABSENCE_ADMINISTRATIVE"
  | ClearanceRiskAdministrative => "CLASS_C_RISK_ADMINISTRATIVE"
  | ClearanceBasisOther raw => raw
  end.

Record LineageClearance := mkLineageClearance {
  lc_AttemptID : string; lc_SessionID : string; lc_TerminalGeneration : string;
  lc_Basis : ClearanceBasis; lc_StopOperationID : string; lc_Evidence : string }.

Record QuarantineClearance := mkQuarantineClearance {
  qc_PairID : string; qc_RestoreOperationID : string; qc_Principal : string; qc_At : Z;
  qc_Session : LineageClearance; qc_Attempts : list LineageClearance }.

(** The lineage of each quarantined attempt, by attempt id. *)
Abbreviation lineages := (list (string * (string * string))) (only parsing).
Definition find_lineage (id : string) (l : lineages) : option (string * string) :=
  option_map snd (find (fun kv => fst kv == id) l).

Record AdministrativeStopDecision := mkAdministrativeStopDecision {
  as_StopOperationID : string; as_PairID : string; as_SessionID : string;
  as_TerminalGeneration : string; as_Purpose : StopPurpose; as_AttemptID : string;
  as_RestoreOperationID : string; as_ExpectedStage : StopStage;
  as_ExpectedResolution : StopResolutionState; as_Principal : string; as_AuthorityScope : string;
  as_Reason : string; as_EvidenceReferences : list string; as_Lineages : list LineageClearance;
  as_At : Z }.

Definition sameStrings (a b : list string) : bool := a == b.

(** ** Accepted events read back *)
Record stopAcceptance := mkstopAcceptance {
  sa_Principal : string; sa_Scope : string; sa_Reason : string; sa_Class : string;
  sa_SessionID : string; sa_Generation : string; sa_RestoreID : string; sa_OldResolution : string;
  sa_Evidence : list string }.

(** Decoding of a JSON value into a Go [string] and a [[]string]: an absent
    or null value leaves the zero value, another kind is an error. *)
Definition decode_string (v : option value) : option string :=
  match v with None | Some VNull => Some "" | Some (VStr s) => Some s | _ => None end.
Definition decode_strings (v : option value) : option (list string) :=
  match v with
  | None | Some VNull => Some []
  | Some (VList l) => mapM (fun x => decode_string (Some x)) l
  | _ => None
  end.

Section Clearance.
Context {L : GoLib}.

Definition decode_acceptance (raw : string) : option (string * stopAcceptance) :=
  m ← json_Unmarshal raw;
  let field k := decode_string (map_lookup k m) in
  attempt ← field "attempt_id"; principal ← field "principal"; scope ← field "authority_scope";
  reason ← field "reason"; class ← field "class"; session ← field "session_id";
  generation ← field "terminal_generation"; restoreID ← field "restore_operation_id";
  old ← field "old_resolution"; evidence ← decode_strings (map_lookup "evidence_references" m);
  Some (attempt, mkstopAcceptance principal scope reason class session generation restoreID old evidence).

Fixpoint collect_acceptances (l : list AuditRow) (acc : list (string * stopAcceptance))
    : res (list (string * stopAcceptance)) :=
  match l with
  | [] => Ok acc
  | e :: rest =>
      match decode_acceptance (e_details_json e) with
      | None => Err ErrJSON
      | Some (attempt, v) =>
          if existsb (fun kv => fst kv == attempt) acc then Err ErrStateConflict
          else collect_acceptances rest ((attempt, v) :: acc)
      end
  end.
Definition stopAcceptanceEventsTx (stopID : string) : M (list (string * stopAcceptance)) :=
  query_res (fun d => collect_acceptances
    (select (fun e => (e_event_type e == AuditAdministrativeRiskAccepted)
                      && json_is (e_details_json e) "stop_operation_id" stopID) (audit_events d)) []).

(** Exactly one acceptance of the lineage by the principal. *)
Definition acceptedLineageTx (stopID pairID principal session generation attempt class restoreID : string)
    (d : DB) : bool :=
  (affected (fun e =>
     let j := e_details_json e in
     (e_event_type e == AuditAdministrativeRiskAccepted) && (e_pair_id e == Some pairID)
     && (e_actor e == principal) && json_is j "stop_operation_id" stopID
     && json_is j "session_id" session && json_is j "terminal_generation" generation
     && json_is j "attempt_id" attempt && json_is j "class" class
     && json_is j "restore_operation_id" restoreID
     && json_is j "authority_scope" "STOP_ADMINISTRATIVE_RECONCILIATION") (audit_events d) =? 1)%nat.

(** ** AcceptStopAdministrativeRisk *)
Definition decision_class (a : AdministrativeStopDecision) : string :=
  if (as_ExpectedResolution a == StopResolutionTargetAbsent) && (as_ExpectedStage a == StopTargetAbsent)
  then "CLASS_B" else "CLASS_C".

(** A replay must name the lineages already accepted, unchanged. *)
Fixpoint check_replay (a : AdministrativeStopDecision) (prior : list (string * stopAcceptance))
    (seen : list string) (l : list LineageClearance) : bool :=
  match l with
  | [] => true
  | x :: rest =>
      negb (in_list (lc_AttemptID x) seen)
      && match find (fun kv => fst kv == lc_AttemptID x) prior with
         | None => false
         | Some (_, v) =>
             (sa_Principal v == as_Principal a) && (sa_Scope v == as_AuthorityScope a)
             && (sa_Reason v == as_Reason a) && (sa_Class v == decision_class a)
             && (sa_SessionID v == lc_SessionID x) && (sa_Generation v == lc_TerminalGeneration x)
             && (sa_RestoreID v == as_RestoreOperationID a)
             && (sa_OldResolution v == StopResolutionState_string (as_ExpectedResolution a))
             && sameStrings (sa_Evidence v) (as_EvidenceReferences a)
         end
      && check_replay a prior (lc_AttemptID x :: seen) rest
  end.

Definition lineage_key (x : LineageClearance) : string :=
  if lc_AttemptID x == "" then "@session" else lc_AttemptID x.

(** The quarantined session of the pair, or a quarantined attempt in it. *)
Definition check_lineage_row (pairID : string) (x : LineageClearance) : M unit :=
  if lc_AttemptID x == "" then
    w ← query_row (find_session pairID);
    reject_if ((ws_SessionID w != lc_SessionID x) || (ws_TerminalGeneration w != lc_TerminalGeneration x)
               || (ws_QuarantineState w != QuarantineQuarantined)) ErrAttemptLineageMismatch
  else
    a ← query_row (fun d => find (fun a => (a_AttemptID a == lc_AttemptID x)
                                           && task_in_pair d (a_TaskID a) pairID) (task_attempts d));
    reject_if (is_null (a_SessionID a) || is_null (a_TerminalGeneration a)) ErrScan;;
    reject_if ((a_SessionID a != Some (lc_SessionID x))
               || (a_TerminalGeneration a != Some (lc_TerminalGeneration x))
               || (a_QuarantineState a != QuarantineQuarantined)) ErrAttemptLineageMismatch.

Fixpoint check_decision_lineages (a : AdministrativeStopDecision) (stop : StopOperation)
    (seen : list string) (l : list LineageClearance) : M unit :=
  match l with
  | [] => mret tt
  | x :: rest =>
      reject_if (in_list (lineage_key x) seen || (lc_SessionID x == "") || (lc_TerminalGeneration x == "")
                 || (lc_SessionID x != as_SessionID a)) ErrAttemptLineageMismatch;;
      reject_if ((decision_class a == "CLASS_B")
                 && ((lc_SessionID x != so_SessionID stop)
                     || (lc_TerminalGeneration x != so_TerminalGeneration stop)
                     || ((lc_AttemptID x != "") && (lc_AttemptID x != valueOrEmpty (so_AttemptID stop)))))
        ErrAttemptLineageMismatch;;
      check_lineage_row (as_PairID a) x;;
      check_decision_lineages a stop (lineage_key x :: seen) rest
  end.

(** [SELECT task_id,contract_id FROM task_attempts]; empty for the session. *)
Definition attempt_links (attemptID : string) : M (string * string) :=
  if attemptID == "" then mret (""%string, ""%string)
  else a ← query_row (find_attempt attemptID); mret (a_TaskID a, a_ContractID a).

Fixpoint accept_lineages (a : AdministrativeStopDecision) (newResolution : StopResolutionState)
    (l : list LineageClearance) : M unit :=
  match l with
  | [] => mret tt
  | x :: rest =>
      id ← newAuditEventID;
      links ← attempt_links (lc_AttemptID x);
      appendAuditEventTx (audit_event id AuditAdministrativeRiskAccepted (as_At a) (as_PairID a)
        (fst links) (snd links) (lc_AttemptID x) (as_Principal a)
        ["stop_operation_id" ↦ VStr (as_StopOperationID a);
         "purpose" ↦ VStr (StopPurpose_string (as_Purpose a));
         "session_id" ↦ VStr (lc_SessionID x); "terminal_generation" ↦ VStr (lc_TerminalGeneration x);
         "attempt_id" ↦ VStr (lc_AttemptID x); "principal" ↦ VStr (as_Principal a);
         "authority_scope" ↦ VStr (as_AuthorityScope a); "reason" ↦ VStr (as_Reason a);
         "evidence_references" ↦ VList (map VStr (as_EvidenceReferences a));
         "old_resolution" ↦ VStr (StopResolutionState_string (as_ExpectedResolution a));
         "new_resolution" ↦ VStr (StopResolutionState_string newResolution);
         "restore_operation_id" ↦ VStr (as_RestoreOperationID a);
         "class" ↦ VStr (decision_class a)]);;
      accept_lineages a newResolution rest
  end.

Definition absence_audited (stopID pairID : string) (d : DB) : bool :=
  existsb (fun e => (e_event_type e == AuditStopOperationTargetAbsent) && (e_pair_id e == Some pairID)
                    && json_is (e_details_json e) "stop_operation_id" stopID) (audit_events d).

(** Owner and state of the restore a stop is linked to. *)
Definition check_restore_principal (restoreID pairID principal : string) : M unit :=
  o ← query_row (fun d => find (fun o => (ro_OperationID o == restoreID) && (ro_PairID o == pairID))
                            (pair_restore_operations d));
  match ro_RecoveryPrincipal o with
  | None => throw ErrScan
  | Some owner =>
      reject_if ((owner != principal) || (ro_ResolutionState o != RestoreCleanupClaimed)) ErrStateConflict
  end.

(** The stop a decision names, at the stage it expects. *)
Definition decided_stop (a : AdministrativeStopDecision) (o : StopOperation) : bool :=
  (so_OperationID o == as_StopOperationID a) && (so_PairID o == as_PairID a)
  && (so_SessionID o == as_SessionID a) && (so_TerminalGeneration o == as_TerminalGeneration a)
  && (so_Purpose o == as_Purpose a) && (so_Stage o == as_ExpectedStage a).

Definition AcceptStopAdministrativeRisk (a : AdministrativeStopDecision) : M unit :=
  let class := decision_class a in
  reject_if ((as_StopOperationID a == "") || (as_PairID a == "") || (as_SessionID a == "")
             || (as_TerminalGeneration a == "") || (as_Principal a == "")
             || (as_AuthorityScope a != "STOP_ADMINISTRATIVE_RECONCILIATION") || (as_Reason a == "")
             || (as_EvidenceReferences a == []) || (length (as_Lineages a) =? 0)%nat
             || (as_At a =? 0)%Z) ErrStateConflict;;
  reject_if (in_list "" (as_EvidenceReferences a)) ErrStateConflict;;
  with_tx (
    stop ← getStopOperationTx (as_StopOperationID a);
    reject_if ((so_PairID stop != as_PairID a) || (so_SessionID stop != as_SessionID a)
               || (so_TerminalGeneration stop != as_TerminalGeneration a)
               || (so_Purpose stop != as_Purpose a)
               || (valueOrEmpty (so_AttemptID stop) != as_AttemptID a)
               || (valueOrEmpty (so_RestoreOperationID stop) != as_RestoreOperationID a)
               || (so_Stage stop != as_ExpectedStage a)) ErrAttemptLineageMismatch;;
    reject_if ((class == "CLASS_C")
               && in_list (as_ExpectedResolution a)
                    [StopResolutionInFlight; StopResolutionTerminationConfirmed;
                     StopResolutionAdministrativeRiskAccepted; StopResolutionTargetAbsent])
      ErrStateConflict;;
    prior ← stopAcceptanceEventsTx (as_StopOperationID a);
    if negb (length prior =? 0)%nat then
      reject_if (negb (length prior =? length (as_Lineages a))%nat) ErrStateConflict;;
      reject_if (negb (check_replay a prior [] (as_Lineages a))) ErrStateConflict;;
      reject_if ((class == "CLASS_C")
                 && (so_ResolutionState stop != StopResolutionAdministrativeRiskAccepted))
        ErrStateConflict;;
      reject_if ((class == "CLASS_B") && (so_ResolutionState stop != StopResolutionTargetAbsent))
        ErrStateConflict;;
      rollback tt
    else
      guardStopRestoreOwner stop;;
      match so_RestoreOperationID stop with
      | None => mret tt
      | Some restoreID => check_restore_principal restoreID (as_PairID a) (as_Principal a)
      end;;
      reject_if ((class == "CLASS_B")
                 && ((so_ResolutionState stop != StopResolutionTargetAbsent)
                     || (as_ExpectedResolution a != so_ResolutionState stop))) ErrStateConflict;;
      (if class == "CLASS_B" then
         audited ← query (absence_audited (as_StopOperationID a) (as_PairID a));
         reject_if (negb audited) ErrStateConflict
       else mret tt);;
      check_decision_lineages a stop [] (as_Lineages a);;
      reject_if (so_ResolutionState stop != as_ExpectedResolution a) ErrStateConflict;;
      newResolution ←
        (if class == "CLASS_C" then
           operationCASResult (exec_n (update_stops
             (fun o => decided_stop a o && (so_ResolutionState o == as_ExpectedResolution a))
             (fun o => o <| so_ResolutionState := StopResolutionAdministrativeRiskAccepted |>
                         <| so_ResolvedAt := Some (as_At a) |>)));;
           mret StopResolutionAdministrativeRiskAccepted
         else
           operationCASResult (exec_n (update_stops
             (fun o => decided_stop a o && (so_ResolutionState o == StopResolutionTargetAbsent))
             (fun o => o)));;
           mret (as_ExpectedResolution a));
      accept_lineages a newResolution (as_Lineages a);;
      commit tt).

(** ** Evidence *)
Definition priorLineageClearanceTx (stopID pairID session generation attemptID : string) (d : DB) : bool :=
  existsb (fun e =>
    let j := e_details_json e in
    in_list (e_event_type e) [AuditQuarantineResolvedPhysical; AuditQuarantineResolvedAdministrative]
    && (e_pair_id e == Some pairID) && (valueOrEmpty (e_attempt_id e) == attemptID)
    && json_is j "stop_operation_id" stopID && json_is j "session_id" session
    && json_is j "terminal_generation" generation) (audit_events d).

Definition stop_of_pair (stopID pairID : string) (d : DB) : option StopOperation :=
  find (fun o => (so_OperationID o == stopID) && (so_PairID o == pairID)) (stop_operations d).
Definition clearanceStopRestoreLink (stopID pairID : string) : M string :=
  o ← query_row (stop_of_pair stopID pairID);
  mret (valueOrEmpty (so_RestoreOperationID o)).

(** The 404 evidence of class B. *)
Definition absent_stop (pairID : string) (item : LineageClearance) (d : DB) : bool :=
  existsb (fun o => (so_OperationID o == lc_StopOperationID item) && (so_PairID o == pairID)
                    && (so_SessionID o == lc_SessionID item)
                    && (so_TerminalGeneration o == lc_TerminalGeneration item)
                    && ((lc_AttemptID item == "") || (so_AttemptID o == Some (lc_AttemptID item)))
                    && (so_Stage o == StopTargetAbsent)
                    && (so_ResolutionState o == StopResolutionTargetAbsent)) (stop_operations d).

(** The acceptance of one lineage under the given class. *)
Definition check_accepted (request : QuarantineClearance) (item : LineageClearance) (class : string)
    : M unit :=
  restoreLink ← clearanceStopRestoreLink (lc_StopOperationID item) (qc_PairID request);
  accepted ← query (acceptedLineageTx (lc_StopOperationID item) (qc_PairID request) (qc_Principal request)
                      (lc_SessionID item) (lc_TerminalGeneration item) (lc_AttemptID item) class
                      restoreLink);
  reject_if (negb accepted) ErrStateConflict.

Definition verifyClearanceBasis (request : QuarantineClearance) (item : LineageClearance) : M unit :=
  reject_if ((lc_SessionID item == "") || (lc_TerminalGeneration item == "") || (lc_Evidence item == ""))
    ErrAttemptLineageMismatch;;
  match lc_Basis item with
  | ClearancePhysical =>
      reject_if (lc_StopOperationID item == "") ErrStateConflict;;
      o ← query_row (find_stop (lc_StopOperationID item));
      reject_if ((so_PairID o != qc_PairID request) || (so_SessionID o != lc_SessionID item)
                 || (so_TerminalGeneration o != lc_TerminalGeneration item)
                 || ((lc_AttemptID item != "")
                     && (valueOrEmpty (so_AttemptID o) != lc_AttemptID item)))
        ErrAttemptLineageMismatch;;
      valid ← query (positiveD11StopEvidence (qc_PairID request) (lc_SessionID item)
                       (lc_TerminalGeneration item) "" (lc_AttemptID item) (lc_StopOperationID item));
      reject_if (negb valid) ErrStateConflict
  | ClearanceAbsenceAdministrative =>
      reject_if (lc_StopOperationID item == "") ErrStateConflict;;
      absent ← query (absent_stop (qc_PairID request) item);
      reject_if (negb absent) ErrStateConflict;;
      check_accepted request item "CLASS_B"
  | ClearanceRiskAdministrative =>
      reject_if (lc_StopOperationID item == "") ErrStateConflict;;
      o ← query_row (stop_of_pair (lc_StopOperationID item) (qc_PairID request));
      reject_if (so_ResolutionState o != StopResolutionAdministrativeRiskAccepted) ErrStateConflict;;
      check_accepted request item "CLASS_C"
  | ClearanceBasisOther _ => throw ErrInvalidOperationTransition
  end.

(** ** guardPairStopsForClearance *)
Definition risk_class (r : StopResolutionState) : option string :=
  match r with
  | StopResolutionTargetAbsent => Some "CLASS_B"%string
  | StopResolutionAdministrativeRiskAccepted => Some "CLASS_C"%string
  | _ => None
  end.

(** The stop's own attempt, when it is one of the lineages to clear. *)
Definition risk_attempt (r : StopOperation) (attempts : lineages) : option string :=
  match so_AttemptID r with
  | Some id => if find_lineage id attempts == Some (so_SessionID r, so_TerminalGeneration r)
               then Some id else None
  | None => None
  end.

(** A stop's risk on one lineage: cleared before, or accepted now. *)
Definition check_risk (request : QuarantineClearance) (r : StopOperation)
    (session generation attempt class : string) : M unit :=
  cleared ← query (priorLineageClearanceTx (so_OperationID r) (qc_PairID request) session generation attempt);
  if cleared : bool then mret tt
  else
    ok ← query (acceptedLineageTx (so_OperationID r) (qc_PairID request) (qc_Principal request) session
                  generation attempt class (valueOrEmpty (so_RestoreOperationID r)));
    reject_if (negb ok) ErrQuarantinedExecution.

Definition same_runtime (r : StopOperation) (session generation : string) : bool :=
  (so_SessionID r == session) && (so_TerminalGeneration r == generation).

Fixpoint check_risks (request : QuarantineClearance) (session generation : string) (attempts : lineages)
    (l : list StopOperation) : M unit :=
  match l with
  | [] => mret tt
  | r :: rest =>
      (if so_ResolutionState r == StopResolutionTerminationConfirmed then mret tt
       else match risk_class (so_ResolutionState r) with
            | None => throw ErrQuarantinedExecution
            | Some class =>
                (if same_runtime r session generation
                 then check_risk request r session generation "" class else mret tt);;
                match risk_attempt r attempts with
                | Some id => check_risk request r (so_SessionID r) (so_TerminalGeneration r) id class
                | None => mret tt
                end
            end);;
      check_risks request session generation attempts rest
  end.

(** [latestSession], [latestAttempt]: the last stop of the loop that matches. *)
Definition latest_stop (p : StopOperation -> bool) (l : list StopOperation) : string :=
  match find p (rev l) with Some r => so_OperationID r | None => "" end.

Definition guardPairStopsForClearance (request : QuarantineClearance) (session generation : string)
    (attempts : lineages) : M unit :=
  risks ← query (fun d => select (fun o => so_PairID o == qc_PairID request) (stop_operations d));
  check_risks request session generation attempts risks;;
  let latestSession := latest_stop (fun r => same_runtime r session generation) risks in
  reject_if ((latestSession != "") && (lc_StopOperationID (qc_Session request) != latestSession))
    ErrStateConflict;;
  reject_if (existsb (fun item =>
      let latest := latest_stop (fun r => risk_attempt r attempts == Some (lc_AttemptID item)) risks in
      (latest != "") && (lc_StopOperationID item != latest)) (qc_Attempts request))
    ErrAttemptLineageMismatch.

(** ** ClearQuarantineWithEvidence *)
Fixpoint scan_clearance (l : list TaskAttempt) : res lineages :=
  match l with
  | [] => Ok []
  | a :: rest =>
      match a_SessionID a, a_TerminalGeneration a with
      | Some s, Some g =>
          match scan_clearance rest with Ok t => Ok ((a_AttemptID a, (s, g)) :: t) | Err e => Err e end
      | _, _ => Err ErrAttemptLineageMismatch
      end
  end.

Fixpoint check_items (request : QuarantineClearance) (expected : lineages) (seen : list string)
    (l : list LineageClearance) : M unit :=
  match l with
  | [] => mret tt
  | item :: rest =>
      reject_if ((lc_AttemptID item == "") || in_list (lc_AttemptID item) seen || (lc_Evidence item == ""))
        ErrAttemptLineageMismatch;;
      reject_if (find_lineage (lc_AttemptID item) expected
                 != Some (lc_SessionID item, lc_TerminalGeneration item)) ErrAttemptLineageMismatch;;
      verifyClearanceBasis request item;;
      check_items request expected (lc_AttemptID item :: seen) rest
  end.

Definition appendClearanceAudit (request : QuarantineClearance) (at_ : Z) (item : LineageClearance)
    : M unit :=
  id ← newAuditEventID;
  let kind := if lc_Basis item == ClearancePhysical then AuditQuarantineResolvedPhysical
              else AuditQuarantineResolvedAdministrative in
  links ← attempt_links (lc_AttemptID item);
  appendAuditEventTx (audit_event id kind at_ (qc_PairID request) (fst links) (snd links)
    (lc_AttemptID item) (qc_Principal request)
    (["session_id" ↦ VStr (lc_SessionID item); "terminal_generation" ↦ VStr (lc_TerminalGeneration item);
      "basis" ↦ VStr (ClearanceBasis_string (lc_Basis item)); "evidence" ↦ VStr (lc_Evidence item);
      "principal" ↦ VStr (qc_Principal request);
      "restore_operation_id" ↦ VStr (qc_RestoreOperationID request);
      "stop_operation_id" ↦ VStr (lc_StopOperationID item)]
     ++ if lc_Basis item == ClearanceRiskAdministrative
        then ["resolution_state" ↦ VStr "ADMINISTRATIVE_RISK_ACCEPTED"] else [])%list);;
  mret tt.

Fixpoint clear_items (request : QuarantineClearance) (at_ : Z) (l : list LineageClearance) : M unit :=
  match l with
  | [] => mret tt
  | item :: rest =>
      operationCASResult (exec_n (update_attempts
        (fun a => (a_AttemptID a == lc_AttemptID item) && (a_SessionID a == Some (lc_SessionID item))
                  && (a_TerminalGeneration a == Some (lc_TerminalGeneration item))
                  && (a_QuarantineState a == QuarantineQuarantined) && is_some (a_EndedAt a))
        (fun a => a <| a_QuarantineState := QuarantineClean |>)));;
      appendClearanceAudit request at_ item;;
      clear_items request at_ rest
  end.

Definition check_restore_resolved (request : QuarantineClearance) : M unit :=
  if qc_RestoreOperationID request != "" then
    o ← query_row (fun d => find (fun o => (ro_OperationID o == qc_RestoreOperationID request)
                                           && (ro_PairID o == qc_PairID request))
                              (pair_restore_operations d));
    reject_if (ro_ResolutionState o != RestoreResolved) ErrStateConflict
  else mret tt.

Definition ClearQuarantineWithEvidence (request : QuarantineClearance) : M unit :=
  let item := qc_Session request in
  reject_if ((qc_PairID request == "") || (qc_Principal request == "") || (lc_AttemptID item != "")
             || (lc_Evidence item == "")) ErrStateConflict;;
  at_ ← now_if_zero (qc_At request);
  with_tx (
    rejectUnresolvedRestore (qc_PairID request);;
    check_restore_resolved request;;
    w ← query_row (find_session (qc_PairID request));
    let session := ws_SessionID w in let generation := ws_TerminalGeneration w in
    reject_if ((ws_QuarantineState w != QuarantineQuarantined) || (lc_SessionID item != session)
               || (lc_TerminalGeneration item != generation)) ErrAttemptLineageMismatch;;
    expected ← query_res (fun d => scan_clearance (quarantined_attempts (qc_PairID request) d));
    reject_if (negb (length expected =? length (qc_Attempts request))%nat) ErrAttemptLineageMismatch;;
    guardPairStopsForClearance request session generation expected;;
    check_items request expected [] (qc_Attempts request);;
    verifyClearanceBasis request item;;
    clear_items request at_ (qc_Attempts request);;
    operationCASResult (exec_n (update_sessions
      (fun x => session_tuple (qc_PairID request) session generation x
                && (ws_QuarantineState x == QuarantineQuarantined))
      (fun x => x <| ws_QuarantineState := QuarantineClean |> <| ws_UpdatedAt := at_ |>)));;
    appendClearanceAudit request at_ item;;
    commit tt).
End Clearance.
