(* ===== verification/Protocol.v ===== *)
(** * Protocol: the abstract specification of the store

    [proto release d d'] is one change the protocol allows: a row inserted in
    its initial state, a row moved along its state machine with its identity
    kept, one audit record appended, or the binding of a READY task to an
    attempt.  [release] says whether a quarantine may be lifted.  Every
    operation of the store is a sequence of such changes (Refinement), so an
    invariant of [proto] is an invariant of the store. *)

From stdpp Require Import relations.
From S2P Require Import Prelude.
From S2P Require Import Domain.
From S2P Require Import Workflow.
From S2P Require Import GoLib.
From S2P Require Import Db.
From S2P Require Import Tx.
From S2P Require Import AuditLog.
From S2P Require Import TaskStore.
From S2P Require Import Lifecycle.
From S2P Require Import StopStore.

(** ** Row moves: what stays, and what may change *)

(** A row is named by its key: the condition on the first row with it. *)
Definition task_identity (t t' : Task) : Prop :=
  t_TaskID t' = t_TaskID t /\ t_PhaseID t' = t_PhaseID t /\ t_PairID t' = t_PairID t /\
  t_CreatedAt t' = t_CreatedAt t.

Definition lane_free (d : DB) (t : Task) : Prop := lane_holder (t_PairID t) (t_TaskID t) d = None.

(** READY needs a contract: frozen for a retry, mutable otherwise. *)
Definition ready_contract (d : DB) (t : Task) : Prop :=
  exists k, latest_contract (t_TaskID t) d = Some k /\
            k_is_immutable k = (t_State t == StateFailed).

Definition task_move (d : DB) (t t' : Task) : Prop :=
  task_identity t t' /\ t_CurrentAttempt t' = t_CurrentAttempt t /\
  CanTransition (t_State t) (t_State t') = true /\ t_State t' <> StateDispatched /\
  (find_task (t_TaskID t) d = Some t ->
     (lane_state (t_State t') = true -> lane_state (t_State t) = true \/ lane_free d t) /\
     (t_State t' = StateReady -> ready_contract d t)).

Definition attempt_move (release : bool) (a a' : TaskAttempt) : Prop :=
  a_AttemptID a' = a_AttemptID a /\ a_AttemptNumber a' = a_AttemptNumber a /\
  a_TaskID a' = a_TaskID a /\ a_ContractID a' = a_ContractID a /\
  a_ExpectedReportPath a' = a_ExpectedReportPath a /\ a_StartedAt a' = a_StartedAt a /\
  a_SessionID a' = a_SessionID a /\ a_TerminalGeneration a' = a_TerminalGeneration a /\
  (a_EndedAt a <> None ->
     a_EndedAt a' = a_EndedAt a /\ a_RecoveryDisposition a' = a_RecoveryDisposition a) /\
  (release = false -> a_QuarantineState a = QuarantineQuarantined ->
     a_QuarantineState a' = QuarantineQuarantined).

Definition session_move (release : bool) (w w' : WorkerSession) : Prop :=
  ws_PairID w' = ws_PairID w /\ ws_SessionID w' = ws_SessionID w /\
  ws_RuntimeType w' = ws_RuntimeType w /\ ws_WorkerAgentID w' = ws_WorkerAgentID w /\
  ws_CreatedAt w' = ws_CreatedAt w /\
  (release = false -> ws_QuarantineState w = QuarantineQuarantined ->
     ws_QuarantineState w' = QuarantineQuarantined).

Definition provisioning_move (o o' : PairProvisioningOperation) : Prop :=
  pp_OperationID o' = pp_OperationID o /\ pp_PairID o' = pp_PairID o /\
  pp_ClientToken o' = pp_ClientToken o /\ pp_RequestedAt o' = pp_RequestedAt o /\
  validProvisioningTransition (pp_Stage o) (pp_Stage o') = true.

Definition dispatch_identity (o o' : DispatchOperation) : Prop :=
  d_OperationID o' = d_OperationID o /\ d_AttemptID o' = d_AttemptID o /\
  d_PairID o' = d_PairID o /\ d_TaskID o' = d_TaskID o /\ d_SessionID o' = d_SessionID o /\
  d_TerminalGeneration o' = d_TerminalGeneration o /\ d_RequestedAt o' = d_RequestedAt o.
Definition dispatch_move (o o' : DispatchOperation) : Prop :=
  dispatch_identity o o' /\ d_ResolutionState o = None /\ d_ResolutionState o' = None /\
  validDispatchTransition (d_Stage o) (d_Stage o') = true /\
  (d_Stage o' <> SendConfirmed -> d_ConfirmedAt o' = d_ConfirmedAt o).

Definition stop_tuple (o : StopOperation) :=
  (so_OperationID o, so_Purpose o, so_PairID o, so_TaskID o, so_ContractID o, so_AttemptID o,
   so_SessionID o, so_TerminalGeneration o, so_RequestedAt o, so_RestoreOperationID o,
   so_InitiatingFailureReason o).
Definition stop_identity (o o' : StopOperation) : Prop := stop_tuple o' = stop_tuple o.

(** D11: the deadline is written once, with the accepted call; termination is
    confirmed by an observation at or after the call and before it. *)
Definition confirmed_in_time (o : StopOperation) : Prop :=
  exists call deadline confirmed,
    so_CallCompletedAt o = Some call /\ so_ConfirmationDeadlineAt o = Some deadline /\
    so_TerminationConfirmedAt o = Some confirmed /\ (call <= confirmed < deadline)%Z.
Definition stop_terminated (o : StopOperation) : bool :=
  (so_Stage o == StopTerminationConfirmed)
  || (so_ResolutionState o == StopResolutionTerminationConfirmed).
Definition stop_move (d : DB) (o o' : StopOperation) : Prop :=
  stop_identity o o' /\ validStopTransition (so_Stage o) (so_Stage o') = true /\
  so_ResolutionState o <> StopResolutionTerminationConfirmed /\
  (so_ConfirmationDeadlineAt o <> None ->
     so_ConfirmationDeadlineAt o' = so_ConfirmationDeadlineAt o /\
     so_CallCompletedAt o' = so_CallCompletedAt o) /\
  (find_stop (so_OperationID o) d = Some o -> stop_terminated o = false ->
     stop_terminated o' = true ->
     so_Stage o = StopCallSucceeded /\ so_Stage o' = StopTerminationConfirmed /\
     so_ResolutionState o' = StopResolutionTerminationConfirmed /\ confirmed_in_time o').

(** A new contract revision: the first one, or the successor of a frozen one. *)
Definition contract_successor (d : DB) (k : ContractRow) : Prop :=
  k_is_immutable k = false /\ is_int64 (k_revision_number k) /\
  (k_revision_number k = 1%Z \/
   exists sup prev,
     k_supersedes_contract_id k = Some sup /\ find_contract (TrimSpace sup) d = Some prev /\
     k_task_id prev = k_task_id k /\ k_revision_number prev = wrap64 (k_revision_number k - 1) /\
     k_base_sha prev = k_base_sha k /\ k_is_immutable prev = true).

(** The writes of [PrepareBoundDispatch] before its audit record, and the
    conditions they are made under. *)
Definition freeze (contractID : string) (d : DB) : res (DB * nat) :=
  update_contracts (fun x => (k_contract_id x == contractID) && negb (k_is_immutable x))
    (fun x => x <| k_is_immutable := true |>) d.
Definition start_task (taskID : string) (now : Z) (d : DB) : res (DB * nat) :=
  update_tasks (fun t => (t_TaskID t == taskID) && (t_State t == StateReady))
    (fun t => t <| t_State := StateDispatched |>
                <| t_CurrentAttempt := wrap64 (t_CurrentAttempt t + 1) |>
                <| t_UpdatedAt := now |>) d.

Record binds (d d' : DB) (t : Task) (k : ContractRow) (w : WorkerSession) (a : TaskAttempt)
    (o : DispatchOperation) : Prop := mkbinds {
  bind_moved : exists n d1 d2 d3,
    start_task (t_TaskID t) (a_StartedAt a) d = Ok (d1, S n) /\ find_task (t_TaskID t) d1 = Some t /\
    (d2 = d1 /\ k_is_immutable k = true \/
     exists m, freeze (k_contract_id k) d1 = Ok (d2, m) /\ k_is_immutable k = false) /\
    insert_attempt a d2 = Ok d3 /\ insert_dispatch o d3 = Ok d';
  bind_lane : lane_free d t;
  bind_owned : restore_owned d (t_PairID t) = false /\ provisioning_owned d (t_PairID t) = false;
  bind_contract : find_contract (k_contract_id k) d = Some k /\ k_task_id k = t_TaskID t /\
    exists l, latest_contract (t_TaskID t) d = Some l /\ k_revision_number k = k_revision_number l;
  bind_session : find_session (t_PairID t) d = Some w /\ ws_QuarantineState w = QuarantineClean;
  bind_clean : forall b, In b (task_attempts d) -> a_TaskID b = t_TaskID t ->
    a_QuarantineState b = QuarantineClean;
  bind_attempt : a_TaskID a = t_TaskID t /\ a_AttemptNumber a = t_CurrentAttempt t /\
    a_ContractID a = k_contract_id k /\ a_SessionID a = Some (ws_SessionID w) /\
    a_TerminalGeneration a = Some (ws_TerminalGeneration w) /\ a_EndedAt a = None /\
    a_RecoveryDisposition a = None /\ a_QuarantineState a = QuarantineClean;
  bind_dispatch : d_AttemptID o = a_AttemptID a /\ d_TaskID o = t_TaskID t /\
    d_PairID o = t_PairID t /\ d_SessionID o = ws_SessionID w /\
    d_TerminalGeneration o = ws_TerminalGeneration w /\ d_Stage o = DispatchBound /\
    d_ConfirmedAt o = None /\ d_ResolutionState o = None }.

Section Proto.
Context {L : GoLib}.

Inductive proto (release : bool) : DB -> DB -> Prop :=
| P_project p d d' : insert_project p d = Ok d' -> proto release d d'
| P_pair p d d' : insert_pair p d = Ok d' -> proto release d d'
| P_task t d d' :
    insert_task t d = Ok d' -> t_State t = StateDraft -> t_CurrentAttempt t = 0%Z ->
    proto release d d'
| P_contract k d d' : insert_contract k d = Ok d' -> contract_successor d k -> proto release d d'
| P_tasks id p f d d' n :
    update_tasks p f d = Ok (d', n) ->
    (forall t, In t (tasks d) -> p t = true -> t_TaskID t = id /\ task_move d t (f t)) ->
    proto release d d'
| P_bind d d' t k w a o : binds d d' t k w a o -> proto release d d'
| P_attempts p f d d' n :
    update_attempts p f d = Ok (d', n) ->
    (forall a, In a (task_attempts d) -> p a = true -> attempt_move release a (f a)) ->
    proto release d d'
| P_session w d d' : insert_session w d = Ok d' -> proto release d d'
| P_sessions p f d d' n :
    update_sessions p f d = Ok (d', n) ->
    (forall w, In w (worker_sessions d) -> p w = true -> session_move release w (f w)) ->
    proto release d d'
| P_provisioning o d d' :
    insert_provisioning o d = Ok d' -> pp_Stage o = ProvisionRequested -> proto release d d'
| P_provisionings p f d d' n :
    update_provisioning p f d = Ok (d', n) ->
    (forall o, In o (pair_provisioning_operations d) -> p o = true -> provisioning_move o (f o)) ->
    proto release d d'
| P_dispatches p f d d' n :
    update_dispatch p f d = Ok (d', n) ->
    (forall o, In o (dispatch_operations d) -> p o = true -> dispatch_move o (f o)) ->
    proto release d d'
| P_unknown p d d' n :
    update_dispatch_resolution p (Some RecoveryDeliveryOutcomeUnknown) d = Ok (d', n) ->
    (forall o, In o (dispatch_operations d) -> p o = true ->
       d_Stage o = SendRequested /\ d_ResolutionState o = None) ->
    proto release d d'
| P_stop o d d' :
    insert_stop o d = Ok d' -> so_Stage o = StopRequested ->
    so_ResolutionState o = StopResolutionInFlight -> proto release d d'
| P_stops p f d d' n :
    update_stops p f d = Ok (d', n) ->
    (forall o, In o (stop_operations d) -> p o = true -> f o = o \/ stop_move d o (f o)) ->
    proto release d d'
| P_authorization x d d' : insert_authorization x d = Ok d' -> proto release d d'
| P_restore o d d' :
    insert_restore o d = Ok d' -> ro_Stage o = RestoreRequestedStage ->
    ro_ResolutionState o = RestoreInFlight -> proto release d d'
| P_restores p f d d' n : update_restores p f d = Ok (d', n) -> proto release d d'
| P_budget b d d' :
    insert_budget b d = Ok d' -> b_DeadlineAt b = (b_OriginAt b + b_Duration b)%Z ->
    proto release d d'
| P_audit r d d' : appends r d d' -> proto release d d'.

(** A run of an operation: any number of allowed changes. *)
Definition protos (release : bool) : DB -> DB -> Prop := rtc (proto release).
#[export] Instance protos_preorder release : PreOrder (protos release).
Proof. unfold protos. apply _. Qed.

Lemma proto_release d d' release : proto false d d' -> proto release d d'.
Proof.
  intros H. destruct release; [|done].
  destruct H; try (by econstructor; eauto).
  - eapply P_attempts; [done|]. intros a Hin Hp. specialize (H0 a Hin Hp).
    unfold attempt_move in *. naive_solver.
  - eapply P_sessions; [done|]. intros w Hin Hp. specialize (H0 w Hin Hp).
    unfold session_move in *. naive_solver.
Qed.
Lemma protos_release d d' release : protos false d d' -> protos release d d'.
Proof. induction 1; [apply rtc_refl | eapply rtc_l; [by apply proto_release|done]]. Qed.

Lemma protos_once release d d' : proto release d d' -> protos release d d'.
Proof. apply rtc_once. Qed.
End Proto.
