(* ===== verification/History.v ===== *)
(** * History: what no operation of the store undoes

    Every change of [proto] moves rows forward: a row keeps its identity, a
    task follows the canonical graph, a closed attempt stays as it was closed,
    a frozen contract and a budget never change, a dispatch, a restore and a
    stop only advance, and the audit log only grows. *)

From stdpp Require Import relations.
From S2P Require Import Prelude.
From S2P Require Import Domain.
From S2P Require Import Workflow.
From S2P Require Import GoLib.
From S2P Require Import Db.
From S2P Require Import Tx.
From S2P Require Import AuditLog.
From S2P Require Import TaskStore.
From S2P Require Import DbFacts.
From S2P Require Import Lifecycle.
From S2P Require Import Protocol.

(** ** Forward tables: each row has a later version of itself *)
Section Forward.
Context {A : Type} (R : A -> A -> Prop) `{!PreOrder R}.
Definition forward (l l' : list A) : Prop := forall r, In r l -> exists r', In r' l' /\ R r r'.

#[export] Instance forward_preorder : PreOrder forward.
Proof.
  split.
  - intros l r Hr. by exists r.
  - intros l1 l2 l3 H1 H2 r Hr. destruct (H1 r Hr) as (r' & Hr' & E1).
    destruct (H2 r' Hr') as (r'' & Hr'' & E2). exists r''. split; [done|by etransitivity].
Qed.
Lemma forward_refl l : forward l l.
Proof. reflexivity. Qed.
Lemma forward_app l l2 : forward l (l ++ l2).
Proof. intros r Hr. exists r. split; [|done]. apply in_or_app. by left. Qed.
Lemma forward_upd p f l :
  (forall r, In r l -> p r = true -> R r (f r)) -> forward l (upd p f l).
Proof.
  intros H r Hr. exists (if p r then f r else r). split.
  - apply in_upd. by exists r.
  - destruct (p r) eqn:E; [by apply H|done].
Qed.
End Forward.

(** ** Inversion of one change *)
Lemma upd_nothing {A} (f : A -> A) (l : list A) : upd (fun _ => false) f l = l.
Proof. unfold upd. by rewrite map_id. Qed.

(** The tables after a binding. *)
Definition started (taskID : string) (now : Z) : list Task -> list Task :=
  upd (fun t => (t_TaskID t == taskID) && (t_State t == StateReady))
    (fun t => t <| t_State := StateDispatched |>
                <| t_CurrentAttempt := wrap64 (t_CurrentAttempt t + 1) |> <| t_UpdatedAt := now |>).
Lemma binds_ok d d' t k w a o :
  binds d d' t k w a o ->
  exists pk,
    d' = d <| tasks := started (t_TaskID t) (a_StartedAt a) (tasks d) |>
           <| task_contracts := upd pk (fun x => x <| k_is_immutable := true |>) (task_contracts d) |>
           <| task_attempts := task_attempts d ++ [a] |>
           <| dispatch_operations := dispatch_operations d ++ [o] |> /\
    (forall x, In x (task_contracts d) -> pk x = true ->
       k_contract_id x = k_contract_id k /\ k_is_immutable x = false) /\
    (k_is_immutable k = false -> forall x, In x (task_contracts d) ->
       k_contract_id x = k_contract_id k -> k_is_immutable x = false -> pk x = true) /\
    (0 < a_AttemptNumber a)%Z /\
    (forall b, In b (task_attempts d) -> a_AttemptID b <> a_AttemptID a /\
       (a_TaskID b = a_TaskID a -> a_AttemptNumber b <> a_AttemptNumber a)) /\
    (forall q, In q (dispatch_operations d) ->
       d_OperationID q <> d_OperationID o /\ d_AttemptID q <> d_AttemptID o).
Proof.
  intros []. destruct bind_moved as (n & d1 & d2 & d3 & (-> & _ & _)%update_tasks_ok & _ & Hfz & Ha & Ho).
  apply insert_attempt_ok in Ha as (-> & Hpos & _ & _ & Ha).
  apply insert_dispatch_ok in Ho as (-> & _ & _ & _ & Ho). cbn in Ha, Ho.
  destruct Hfz as [[-> Hk]|(m & (-> & _)%update_contracts_ok & Hk)].
  - exists (fun _ => false). split; [|split; [done|split; [congruence|done]]].
    rewrite upd_nothing. by destruct d.
  - exists (fun x => (k_contract_id x == k_contract_id k) && negb (k_is_immutable x)).
    split; [by destruct d|]. split.
    + intros x _ Hx. breflect. done.
    + split; [|done]. intros _ x _ -> ->. by rewrite eqb_refl.
Qed.

(** [proto_cases H] turns a change into the equation of the new database. *)
Ltac ok_inv :=
  match goal with
  | H : insert_project _ _ = Ok ?d' |- _ => apply insert_project_ok in H as [-> ?]
  | H : insert_pair _ _ = Ok ?d' |- _ => apply insert_pair_ok in H as (-> & ? & ?)
  | H : insert_task _ _ = Ok ?d' |- _ => apply insert_task_ok in H as (-> & ? & ? & ?)
  | H : insert_contract _ _ = Ok ?d' |- _ => apply insert_contract_ok in H as (-> & ? & ? & ? & ?)
  | H : insert_session _ _ = Ok ?d' |- _ => apply insert_session_ok in H as (-> & ? & ?)
  | H : insert_provisioning _ _ = Ok ?d' |- _ => apply insert_provisioning_ok in H as (-> & ? & ?)
  | H : insert_stop _ _ = Ok ?d' |- _ => apply insert_stop_ok in H as (-> & ? & ? & ?)
  | H : insert_authorization _ _ = Ok ?d' |- _ => apply insert_authorization_ok in H as [-> ?]
  | H : insert_restore _ _ = Ok ?d' |- _ => apply insert_restore_ok in H as (-> & ? & ? & ?)
  | H : insert_budget _ _ = Ok ?d' |- _ => apply insert_budget_ok in H as (-> & ? & ? & ?)
  | H : update_tasks _ _ _ = Ok (?d', _) |- _ => apply update_tasks_ok in H as (-> & _ & ?)
  | H : update_attempts _ _ _ = Ok (?d', _) |- _ => apply update_attempts_ok in H as (-> & _)
  | H : update_sessions _ _ _ = Ok (?d', _) |- _ => apply update_sessions_ok in H as (-> & _)
  | H : update_provisioning _ _ _ = Ok (?d', _) |- _ => apply update_provisioning_ok in H as ->
  | H : update_dispatch _ _ _ = Ok (?d', _) |- _ => apply update_dispatch_ok in H as (-> & _ & ?)
  | H : update_dispatch_resolution _ _ _ = Ok (?d', _) |- _ => apply update_dispatch_resolution_ok in H as ->
  | H : update_stops _ _ _ = Ok (?d', _) |- _ => apply update_stops_ok in H as (-> & _)
  | H : update_restores _ _ _ = Ok (?d', _) |- _ => apply update_restores_ok in H as (-> & _ & ?)
  | H : appends _ _ ?d' |- _ =>
      let Ha := fresh "Ha" in pose proof H as Ha; destruct H as (-> & _); rename Ha into H
  | H : binds _ ?d' _ _ _ _ _ |- _ =>
      let Hb := fresh "Hbind" in pose proof H as Hb;
      apply binds_ok in H as (?pk & -> & ? & ? & ? & ? & ?)
  end.
Ltac proto_cases H := destruct H; ok_inv; unfold with_log; cbn.

(** ** Versions of a row *)
Definition task_later (t t' : Task) : Prop :=
  t_TaskID t' = t_TaskID t /\ t_PairID t' = t_PairID t /\ t_PhaseID t' = t_PhaseID t /\
  t_CreatedAt t' = t_CreatedAt t /\ follows (t_State t) (t_State t').

Definition attempt_later (a a' : TaskAttempt) : Prop :=
  a_AttemptID a' = a_AttemptID a /\ a_AttemptNumber a' = a_AttemptNumber a /\
  a_TaskID a' = a_TaskID a /\ a_ContractID a' = a_ContractID a /\
  a_ExpectedReportPath a' = a_ExpectedReportPath a /\ a_StartedAt a' = a_StartedAt a /\
  a_SessionID a' = a_SessionID a /\ a_TerminalGeneration a' = a_TerminalGeneration a /\
  (a_EndedAt a <> None ->
     a_EndedAt a' = a_EndedAt a /\ a_RecoveryDisposition a' = a_RecoveryDisposition a).

Definition contract_later (k k' : ContractRow) : Prop :=
  k' = k \/ (k_is_immutable k = false /\ k' = k <| k_is_immutable := true |>).

Definition stage_rank (s : DispatchStage) : nat :=
  match s with DispatchBound => 0 | SendRequested => 1 | SendConfirmed => 2 end.
Definition dispatch_later (o o' : DispatchOperation) : Prop :=
  d_OperationID o' = d_OperationID o /\ d_AttemptID o' = d_AttemptID o /\
  d_PairID o' = d_PairID o /\ d_TaskID o' = d_TaskID o /\ d_SessionID o' = d_SessionID o /\
  d_TerminalGeneration o' = d_TerminalGeneration o /\
  stage_rank (d_Stage o) <= stage_rank (d_Stage o') /\
  (d_Stage o = SendConfirmed -> d_ConfirmedAt o' = d_ConfirmedAt o).

Definition resolution_path : RestoreResolutionState -> RestoreResolutionState -> Prop :=
  rtc (fun x y => restore_step x y = true).
Definition restore_later (o o' : PairRestoreOperation) : Prop :=
  ro_OperationID o' = ro_OperationID o /\ ro_AuthorizationID o' = ro_AuthorizationID o /\
  ro_PairID o' = ro_PairID o /\ ro_SessionID o' = ro_SessionID o /\
  ro_ExpectedGeneration o' = ro_ExpectedGeneration o /\
  (ro_Version o <= ro_Version o')%Z /\
  (ro_Stage o = RestoreConfirmedStage ->
     ro_Stage o' = RestoreConfirmedStage /\ ro_HTTP200At o' = ro_HTTP200At o /\
     ro_ObservedGeneration o' = ro_ObservedGeneration o /\ ro_RestoreMode o' = ro_RestoreMode o) /\
  resolution_path (ro_ResolutionState o) (ro_ResolutionState o') /\
  (ro_ResolutionState o = RestoreResolved -> o' = o).

Definition provisioning_later (o o' : PairProvisioningOperation) : Prop :=
  pp_OperationID o' = pp_OperationID o /\ pp_PairID o' = pp_PairID o /\
  pp_ClientToken o' = pp_ClientToken o /\ pp_RequestedAt o' = pp_RequestedAt o.
#[export] Instance provisioning_later_preorder : PreOrder provisioning_later.
Proof.
  split.
  - intros o. by repeat split.
  - intros o1 o2 o3 (?&?&?&?) (?&?&?&?). repeat split; congruence.
Qed.

(** The identity of a stop and its deadline are written once; a confirmed
    termination is final. *)
Definition stop_later (o o' : StopOperation) : Prop :=
  stop_identity o o' /\
  (so_ConfirmationDeadlineAt o <> None ->
     so_ConfirmationDeadlineAt o' = so_ConfirmationDeadlineAt o /\
     so_CallCompletedAt o' = so_CallCompletedAt o) /\
  (so_ResolutionState o = StopResolutionTerminationConfirmed -> o' = o).

#[export] Instance task_later_preorder : PreOrder task_later.
Proof.
  split.
  - intros t. by repeat split.
  - intros t1 t2 t3 (?&?&?&?&?) (?&?&?&?&?). repeat split; try congruence. by etransitivity.
Qed.
#[export] Instance attempt_later_preorder : PreOrder attempt_later.
Proof.
  split.
  - intros a. by repeat split.
  - intros a1 a2 a3 (?&?&?&?&?&?&?&?&E1) (?&?&?&?&?&?&?&?&E2). repeat split; try congruence.
    all: intros; destruct E1; [done|]; destruct E2; congruence.
Qed.
#[export] Instance contract_later_preorder : PreOrder contract_later.
Proof.
  split.
  - intros k. by left.
  - intros k1 k2 k3 [->|[H1 ->]] [->|[H2 ->]].
    + by left.
    + by right.
    + by right.
    + by cbn in H2.
Qed.
#[export] Instance dispatch_later_preorder : PreOrder dispatch_later.
Proof.
  split.
  - intros o. by repeat split.
  - intros o1 o2 o3 (?&?&?&?&?&?&E1&C1) (?&?&?&?&?&?&E2&C2). repeat split; try congruence.
    + lia.
    + intros Hc. rewrite C2; [auto|]. rewrite Hc in E1. cbn in E1.
      destruct (d_Stage o2); cbn in *; (done || lia).
Qed.
#[export] Instance restore_later_preorder : PreOrder restore_later.
Proof.
  split.
  - intros o. by repeat split.
  - intros o1 o2 o3 (?&?&?&?&?&?&S1&P1&R1) (?&?&?&?&?&?&S2&P2&R2).
    split; [congruence|]. split; [congruence|]. split; [congruence|]. split; [congruence|].
    split; [congruence|]. split; [lia|]. split; [|split].
    + intros Hs. destruct (S1 Hs) as (E1 & E2 & E3 & E4). destruct (S2 E1) as (?&?&?&?).
      repeat split; congruence.
    + by etransitivity.
    + intros Hr. rewrite (R1 Hr) in *. auto.
Qed.
#[export] Instance stop_later_preorder : PreOrder stop_later.
Proof.
  split.
  - intros o. by repeat split.
  - intros o1 o2 o3 (I1 & D1 & F1) (I2 & D2 & F2). unfold stop_identity in *. split; [congruence|].
    split.
    + intros Hd. destruct (D1 Hd) as [E1 E2]. rewrite <- E1 in Hd. destruct (D2 Hd). split; congruence.
    + intros Hr. rewrite (F1 Hr) in *. auto.
Qed.

Section History.
Context {L : GoLib}.

Record history (d d' : DB) : Prop := mkhistory {
  h_tasks : forward task_later (tasks d) (tasks d');
  h_contracts : forward contract_later (task_contracts d) (task_contracts d');
  h_attempts : forward attempt_later (task_attempts d) (task_attempts d');
  h_dispatches : forward dispatch_later (dispatch_operations d) (dispatch_operations d');
  h_stops : forward stop_later (stop_operations d) (stop_operations d');
  h_restores : forward restore_later (pair_restore_operations d) (pair_restore_operations d');
  h_provisionings : forward provisioning_later (pair_provisioning_operations d)
    (pair_provisioning_operations d');
  h_budgets : forward eq (attempt_execution_budgets d) (attempt_execution_budgets d');
  h_authorizations : forward eq (restore_authorizations d) (restore_authorizations d') }.

#[export] Instance history_preorder : PreOrder history.
Proof.
  split.
  - intros d. constructor; reflexivity.
  - intros d1 d2 d3 [] []. constructor; etransitivity; eassumption.
Qed.

Lemma restore_later_step o o' :
  restore_trigger o o' = false -> restore_later o o'.
Proof.
  unfold restore_trigger, restore_later. intros H. breflect.
  split; [done|]. split; [done|]. split; [done|]. split; [done|]. split; [done|].
  split; [lia|]. split; [|split; [by apply rtc_once|done]].
  intros Hs. rewrite Hs, eqb_refl in *. cbn in *. breflect. done.
Qed.

Lemma dispatch_later_step d o o' :
  dispatch_move o o' -> dispatch_trigger d o o' = false -> dispatch_later o o'.
Proof.
  intros ((?&?&?&?&?&?&?)&_&_&Hv&_) Ht. unfold dispatch_later. unfold dispatch_trigger in Ht. breflect.
  repeat split; try done.
  - revert Hv. by destruct (d_Stage o), (d_Stage o'); cbn; try lia.
  - intros Hc. rewrite Hc in *. revert Hv. by destruct (d_Stage o').
Qed.

Lemma proto_history release d d' : proto release d d' -> history d d'.
Proof.
  intros H. proto_cases H; constructor; cbn; try reflexivity; try apply forward_app; try apply _.
  - apply forward_upd; [apply _|]. intros t Hin Hp.
    destruct (H0 t Hin Hp) as (_ & (?&?&?&?) & _ & Hc & _). repeat split; try done. by apply rtc_once.
  - apply forward_upd; [apply _|]. intros x Hin Hp. breflect. repeat split; try done. cbn.
    apply rtc_once. unfold moves. by replace (t_State x) with StateReady.
  - apply forward_upd; [apply _|]. intros x Hin Hp. right. split; [|done]. naive_solver.
  - apply forward_upd; [apply _|]. intros x Hin Hp. destruct (H0 x Hin Hp). repeat split; naive_solver.
  - apply forward_upd; [apply _|]. intros x Hin Hp.
    destruct (H0 x Hin Hp) as (?&?&?&?&_). by repeat split.
  - apply forward_upd; [apply _|]. intros x Hin Hp. eapply dispatch_later_step; eauto.
  - apply forward_upd; [apply _|]. intros x Hin Hp. by repeat split.
  - apply forward_upd; [apply _|]. intros x Hin Hp.
    destruct (H0 x Hin Hp) as [->|(Hid & _ & Hr & Hd & _)]; [reflexivity|]. by split.
  - apply forward_upd; [apply _|]. intros x Hin Hp. apply restore_later_step. naive_solver.
Qed.

Lemma protos_history release d d' : protos release d d' -> history d d'.
Proof. induction 1; [done|]. etransitivity; [by eapply proto_history|done]. Qed.
End History.
