(* ===== verification/Invariants.v ===== *)
(** * Invariants: what holds of every database the store can reach

    The invariants are preserved by every change of [proto] and hold of an
    empty database: unique keys, one task per pair in a lane state, the
    lineage of contract revisions and attempts, the agreement of dispatch
    operations with their attempts and budgets, at most one unresolved restore
    per pair, and terminations confirmed in time. *)

From stdpp Require Import relations.
From S2P Require Import Prelude.
From S2P Require Import Domain.
From S2P Require Import Workflow.
From S2P Require Import GoLib.
From S2P Require Import Db.
From S2P Require Import Tx.
From S2P Require Import AuditLog.
From S2P Require Import TaskStore.
From S2P Require Import DbFacts.
From S2P Require Import Lifecycle.
From S2P Require Import Protocol.
From S2P Require Import History.

(** ** Keys *)
Definition contract_key (k : ContractRow) := (k_task_id k, k_revision_number k).
Definition attempt_key (a : TaskAttempt) := (a_TaskID a, a_AttemptNumber a).

Record keys_unique (d : DB) : Prop := mkkeys {
  key_projects : List.NoDup (map pr_ProjectID (projects d));
  key_pairs : List.NoDup (map p_PairID (pairs d));
  key_tasks : List.NoDup (map t_TaskID (tasks d));
  key_contracts : List.NoDup (map k_contract_id (task_contracts d));
  key_revisions : List.NoDup (map contract_key (task_contracts d));
  key_attempts : List.NoDup (map a_AttemptID (task_attempts d));
  key_numbers : List.NoDup (map attempt_key (task_attempts d));
  key_events : List.NoDup (map e_sequence (audit_events d));
  key_sessions : List.NoDup (map ws_PairID (worker_sessions d));
  key_provisionings : List.NoDup (map pp_OperationID (pair_provisioning_operations d));
  key_dispatches : List.NoDup (map d_OperationID (dispatch_operations d));
  key_dispatched : List.NoDup (map d_AttemptID (dispatch_operations d));
  key_stops : List.NoDup (map so_OperationID (stop_operations d));
  key_authorizations : List.NoDup (map ra_AuthorizationID (restore_authorizations d));
  key_restores : List.NoDup (map ro_OperationID (pair_restore_operations d));
  key_budgets : List.NoDup (map b_AttemptID (attempt_execution_budgets d)) }.

Lemma existsb_key_fresh {A} (key : A -> string) l k :
  existsb (fun r => key r == k) l = false -> forall x, In x l -> key x <> k.
Proof. intros H x Hin. pose proof (existsb_false_in _ _ _ H Hin) as E. by apply eqb_neq in E. Qed.

Lemma find_key_in {A} (key : A -> string) l r :
  List.NoDup (map key l) -> In r l -> find (fun x => key x == key r) l = Some r.
Proof.
  intros Hnd Hin. destruct (find _ l) as [r'|] eqn:E.
  - apply find_spec in E as [Hin' Hk]. breflect. f_equal. by eapply nodup_key_eq.
  - exfalso. pose proof (find_none _ _ E r Hin) as Hn. cbn in Hn. by rewrite eqb_refl in Hn.
Qed.

(** In a database with unique keys a row is the row of its key. *)
Lemma find_task_in d t : keys_unique d -> In t (tasks d) -> find_task (t_TaskID t) d = Some t.
Proof. intros H Hin. by apply (find_key_in t_TaskID); [apply key_tasks|]. Qed.
Lemma find_stop_in d o :
  keys_unique d -> In o (stop_operations d) -> find_stop (so_OperationID o) d = Some o.
Proof. intros H Hin. by apply (find_key_in so_OperationID); [apply key_stops|]. Qed.

(** ** The invariants *)

(** At most one task of a pair is DISPATCHED, RUNNING or REVIEWING. *)
Definition lane_exclusive (d : DB) : Prop :=
  forall t1 t2, In t1 (tasks d) -> In t2 (tasks d) -> t_PairID t1 = t_PairID t2 ->
    lane_state (t_State t1) = true -> lane_state (t_State t2) = true -> t1 = t2.

(** A revision is the first, or follows a frozen one of the same task and base. *)
Definition contract_lineage (d : DB) : Prop :=
  forall k, In k (task_contracts d) ->
    (1 <= k_revision_number k)%Z /\
    (k_revision_number k = 1%Z \/
     exists p, In p (task_contracts d) /\ k_task_id p = k_task_id k /\
       k_revision_number p = (k_revision_number k - 1)%Z /\ k_base_sha p = k_base_sha k /\
       k_is_immutable p = true).

(** The attempts of a task are numbered 1 to its current attempt. *)
Definition attempt_numbers (d : DB) : Prop :=
  forall t, In t (tasks d) ->
    is_int64 (t_CurrentAttempt t) /\ (0 <= t_CurrentAttempt t)%Z /\
    (t_State t <> StateDraft -> t_State t <> StateReady -> t_State t <> StateCancelled ->
       (0 < t_CurrentAttempt t)%Z) /\
    forall n, (1 <= n <= t_CurrentAttempt t)%Z <->
      exists a, In a (task_attempts d) /\ a_TaskID a = t_TaskID t /\ a_AttemptNumber a = n.

(** An attempt executes a frozen contract of its task. *)
Definition attempt_contracts (d : DB) : Prop :=
  forall a, In a (task_attempts d) ->
    (exists t, In t (tasks d) /\ t_TaskID t = a_TaskID a) /\
    exists k, In k (task_contracts d) /\ k_contract_id k = a_ContractID a /\
      k_task_id k = a_TaskID a /\ k_is_immutable k = true.

(** A dispatch names the attempt, the task, the pair and the session snapshot
    it was bound with; a confirmed one has the budget of its confirmation. *)
Definition dispatch_bindings (d : DB) : Prop :=
  forall o, In o (dispatch_operations d) ->
    (exists a, In a (task_attempts d) /\ a_AttemptID a = d_AttemptID o /\ a_TaskID a = d_TaskID o /\
       a_SessionID a = Some (d_SessionID o) /\ a_TerminalGeneration a = Some (d_TerminalGeneration o)) /\
    (exists t, In t (tasks d) /\ t_TaskID t = d_TaskID o /\ t_PairID t = d_PairID o) /\
    (d_Stage o = SendConfirmed -> exists b, In b (attempt_execution_budgets d) /\
       b_DispatchOperationID b = d_OperationID o /\ b_AttemptID b = d_AttemptID o /\
       d_ConfirmedAt o = Some (b_OriginAt b)).

Definition budgets_sound (d : DB) : Prop :=
  forall b, In b (attempt_execution_budgets d) ->
    (0 < b_Duration b)%Z /\ b_DeadlineAt b = (b_OriginAt b + b_Duration b)%Z /\
    exists o, In o (dispatch_operations d) /\ d_OperationID o = b_DispatchOperationID b /\
      d_AttemptID o = b_AttemptID b.

Definition restores_sound (d : DB) : Prop :=
  (forall o, In o (pair_restore_operations d) -> restore_check o = true) /\
  forall o1 o2, In o1 (pair_restore_operations d) -> In o2 (pair_restore_operations d) ->
    ro_PairID o1 = ro_PairID o2 -> restore_unresolved o1 = true -> restore_unresolved o2 = true ->
    ro_OperationID o1 = ro_OperationID o2.

Definition stops_sound (d : DB) : Prop :=
  forall o, In o (stop_operations d) -> stop_terminated o = true ->
    so_Stage o = StopTerminationConfirmed /\
    so_ResolutionState o = StopResolutionTerminationConfirmed /\ confirmed_in_time o.

Section Preservation.
Context {L : GoLib}.

Lemma empty_keys : keys_unique empty_db.
Proof. constructor; constructor. Qed.

Lemma proto_keys release d d' : proto release d d' -> keys_unique d -> keys_unique d'.
Proof.
  intros H K. proto_cases H; destruct K; constructor; cbn; try assumption.
  all: try (apply nodup_key_snoc; [assumption|]).
  all: try (unfold started; rewrite upd_map; [assumption|]).
  all: try (intros row Hp; breflect; done).
  all: intros row Hin; try intros Hp;
    repeat match goal with H : forall q, In q ?l -> _, Hin : In row ?l |- _ => specialize (H row Hin) end.
  all: unfold contract_key, attempt_key, attempt_move, session_move, dispatch_move,
    dispatch_identity, provisioning_move, stop_move, stop_identity, stop_tuple, task_move, task_identity in *.
  all: try match goal with H : ?p ?y = true -> _, Hp : ?p ?y = true |- _ => specialize (H Hp) end.
  all: try solve [destruct_and?; first [done | congruence]].
  - by eapply existsb_key_fresh.
  - match goal with E : existsb _ (pairs d) = false |- _ =>
      pose proof (existsb_false_in _ _ _ E Hin) as Hf end. cbn in Hf. by breflect.
  - by eapply existsb_key_fresh.
  - naive_solver congruence.
  - naive_solver congruence.
  - naive_solver congruence.
  - destruct_and?. by match goal with E : restore_trigger _ _ = false |- _ =>
      apply restore_later_step in E as (? & _) end.
  - destruct H as (_ & _ & _ & _ & _ & Hs & _). pose proof (existsb_false_in _ _ _ Hs Hin) as Hf.
    cbn in Hf. by breflect.
Qed.

(** ** The lane of a pair *)
Lemma lane_free_other d t x :
  lane_free d t -> In x (tasks d) -> t_PairID x = t_PairID t -> lane_state (t_State x) = true ->
  t_TaskID x = t_TaskID t.
Proof.
  unfold lane_free, lane_holder. intros Hf Hin Hp Hl. pose proof (find_none _ _ Hf x Hin) as Hn.
  cbn beta in Hn. rewrite Hp, eqb_refl, Hl in Hn.
  destruct (t_TaskID x == t_TaskID t) eqn:E; [by breflect|done].
Qed.

Lemma lane_exclusive_upd d p f id :
  keys_unique d -> lane_exclusive d ->
  (forall t, In t (tasks d) -> p t = true ->
     t_TaskID t = id /\ t_PairID (f t) = t_PairID t /\
     (lane_state (t_State (f t)) = true -> lane_state (t_State t) = true \/ lane_free d t)) ->
  lane_exclusive (d <| tasks := upd p f (tasks d) |>).
Proof.
  intros K X Hp y1 y2 Hy1 Hy2 He L1 L2. cbn in *.
  apply in_upd in Hy1 as (t1 & I1 & ->), Hy2 as (t2 & I2 & ->).
  assert (t1 = t2) as <-; [|done].
  destruct (p t1) eqn:E1, (p t2) eqn:E2.
  - apply (nodup_key_eq t_TaskID (tasks d)); [apply K|done..|].
    destruct (Hp t1 I1 E1) as (-> & _), (Hp t2 I2 E2) as (-> & _). done.
  - destruct (Hp t1 I1 E1) as (_ & Ht & Hl). destruct (Hl L1) as [Hs|F].
    + apply X; try done. congruence.
    + apply (nodup_key_eq t_TaskID (tasks d)); [apply K|done..|]. symmetry.
      eapply lane_free_other; eauto. congruence.
  - destruct (Hp t2 I2 E2) as (_ & Ht & Hl). destruct (Hl L2) as [Hs|F].
    + apply X; try done. congruence.
    + apply (nodup_key_eq t_TaskID (tasks d)); [apply K|done..|].
      eapply lane_free_other; eauto. congruence.
  - by apply X.
Qed.

Lemma bind_started d d' t k w a o :
  keys_unique d -> binds d d' t k w a o ->
  exists t0, In t0 (tasks d) /\ t_State t0 = StateReady /\ t_TaskID t0 = t_TaskID t /\
    t_PairID t0 = t_PairID t /\ t_CurrentAttempt t = wrap64 (t_CurrentAttempt t0 + 1) /\
    (forall x, In x (tasks d) -> (t_TaskID x == t_TaskID t) && (t_State x == StateReady) = true -> x = t0).
Proof.
  intros K []. destruct bind_moved as (n & d1 & d2 & d3 & (-> & Hn & _)%update_tasks_ok & Hf & _).
  assert (affected (fun t0 => (t_TaskID t0 == t_TaskID t) && (t_State t0 == StateReady)) (tasks d) <> 0)
    as (t0 & Hin & Hp)%affected_pos by lia. breflect.
  assert (forall x, In x (tasks d) -> t_TaskID x = t_TaskID t -> x = t0) as Hu.
  { intros x Hx Hid. apply (nodup_key_eq t_TaskID (tasks d)); [apply K|done..|congruence]. }
  exists t0. apply find_spec in Hf as [Hin' _]. cbn in Hin'. apply in_upd in Hin' as (t1 & I1 & Ht).
  assert (t1 = t0) as ->.
  { apply Hu; [done|]. rewrite Ht. by case_match. }
  rewrite Ht. match goal with E : t_TaskID t0 = _, F : t_State t0 = _ |- _ => rewrite E, F end.
  rewrite !eqb_refl. cbn. repeat split; try done. intros x Hx Hc. breflect. by apply Hu.
Qed.

Lemma proto_lane release d d' :
  proto release d d' -> keys_unique d -> lane_exclusive d -> lane_exclusive d'.
Proof.
  intros H K X. proto_cases H; try exact X.
  - intros t1 t2. cbn. rewrite !in_app_iff. cbn. intros I1 I2.
    destruct I1 as [I1|[<-|[]]], I2 as [I2|[<-|[]]]; intros Hp L1 L2; try by apply X.
    all: by match goal with E : t_State _ = StateDraft |- _ => rewrite E in * end.
  - apply (lane_exclusive_upd _ _ _ id); [done..|]. intros x Hin Hp.
    destruct (H0 x Hin Hp) as (Hid & (_ & _ & Hpr & _) & _ & _ & _ & Hl).
    repeat split; try done. intros L1. apply Hl; [by apply find_task_in|done].
  - destruct (bind_started _ _ _ _ _ _ _ K Hbind) as (t0 & I0 & S0 & E0 & P0 & _ & Hu).
    eapply (lane_exclusive_upd d _ _ (t_TaskID t)); [done..|]. intros x Hin Hp.
    rewrite (Hu x Hin Hp). repeat split; try done. intros _. right.
    destruct Hbind as [_ Hl _ _ _ _ _ _]. unfold lane_free in *. by rewrite E0, P0.
Qed.

(** ** Contracts and attempts *)
Lemma upd_some {A} (p : A -> bool) f l r :
  In r l -> exists r', In r' (upd p f l) /\ (r' = r \/ p r = true /\ r' = f r).
Proof.
  intros Hin. exists (if p r then f r else r). split; [apply in_upd; by exists r|].
  destruct (p r); auto.
Qed.

Lemma proto_contracts release d d' :
  proto release d d' -> contract_lineage d -> contract_lineage d'.
Proof.
  intros H X. proto_cases H; try exact X; unfold contract_lineage; cbn.
  - intros k1. rewrite in_app_iff. intros [Hin|[<-|[]]].
    + destruct (X k1 Hin) as [Hge [Hone|(q & Hq & Hr)]]; split; auto. right. exists q.
      rewrite in_app_iff. tauto.
    + match goal with E : contract_successor _ _ |- _ =>
        destruct E as (_ & Hi & [E1|(sup & q & _ & Hf & Ht & Hr & Hb & Hq)]) end; split; auto.
      right. exists q. apply find_spec in Hf as [Hin _]. rewrite in_app_iff. repeat split; auto.
      rewrite Hr. apply wrap64_id. unfold is_int64, min_int64 in *. lia.
  - intros k1 Hin. apply in_upd in Hin as (k0 & Hin & Hk1).
    assert (k_task_id k1 = k_task_id k0 /\ k_revision_number k1 = k_revision_number k0 /\
            k_base_sha k1 = k_base_sha k0) as (-> & -> & ->) by (subst k1; by destruct (pk k0)).
    destruct (X k0 Hin) as [Hge [Hone|(q & Hq & Ht & Hr & Hb & Hi)]]; split; auto.
    right. destruct (upd_some pk (fun x => x <| k_is_immutable := true |>) _ _ Hq) as (q' & Hq' & Hc).
    exists q'. split; [done|]. by destruct Hc as [->|[_ ->]].
Qed.

Lemma task_of_upd p f (d : DB) id :
  (forall t, In t (tasks d) -> p t = true -> t_TaskID (f t) = t_TaskID t) ->
  (exists t, In t (tasks d) /\ t_TaskID t = id) ->
  exists t, In t (upd p f (tasks d)) /\ t_TaskID t = id.
Proof.
  intros Hp (t & Hin & <-). destruct (upd_some p f _ _ Hin) as (t' & Hin' & [->|[Hpt ->]]).
  - by exists t.
  - exists (f t). auto.
Qed.

Lemma proto_attempt_contracts release d d' :
  proto release d d' -> keys_unique d -> attempt_contracts d -> attempt_contracts d'.
Proof.
  intros H K X. proto_cases H; try exact X; unfold attempt_contracts; cbn.
  - intros a Hin. destruct (X a Hin) as [(t0 & Ht & Hid) Hk]. split; [|done].
    exists t0. rewrite in_app_iff. auto.
  - intros a Hin. destruct (X a Hin) as [Ht (q & Hq & Hk)]. split; [done|].
    exists q. rewrite in_app_iff. auto.
  - intros a Hin. destruct (X a Hin) as [Ht Hk]. split; [|done].
    apply task_of_upd; [|done]. intros t Ht' Hp. destruct (H0 t Ht' Hp) as (_ & (E & _) & _). done.
  - intros a1. rewrite in_app_iff. intros [Hin|[<-|[]]].
    + destruct (X a1 Hin) as [Ht (q & Hq & Hid & Htk & Hi)]. split.
      * apply task_of_upd; [by intros; cbn|done].
      * exists q. repeat split; try done. apply in_upd. exists q. split; [done|].
        destruct (pk q) eqn:E; [|done]. destruct (H q Hq E). congruence.
    + destruct (bind_started _ _ _ _ _ _ _ K Hbind) as (t0 & I0 & _ & E0 & _).
      destruct Hbind as [_ _ _ [Hk [Hkt _]] _ _ Ha _]. destruct Ha as (Ea & _ & Ec & _).
      rewrite Ea, Ec. split; [apply task_of_upd; [done|by exists t0]|].
      apply find_spec in Hk as [Hk _]. destruct (k_is_immutable k) eqn:Ei.
      * exists k. repeat split; try done. apply in_upd. exists k. split; [done|].
        destruct (pk k) eqn:E; [|done]. destruct (H k Hk E). congruence.
      * exists (k <| k_is_immutable := true |>). repeat split; try done.
        apply in_upd. exists k. split; [done|]. by rewrite (H0 eq_refl k Hk eq_refl Ei).
  - intros a Hin. apply in_upd in Hin as (a0 & Hin & ->). destruct (X a0 Hin) as [Ht Hk].
    destruct (p a0) eqn:E; [|done]. destruct (H0 a0 Hin E) as (_ & _ & Et & Ec & _). by rewrite Et, Ec.
Qed.

(** ** Attempt numbers *)
Lemma numbers_same_task (atts atts' : list TaskAttempt) n id :
  map attempt_key atts' = map attempt_key atts ->
  ((exists a, In a atts /\ a_TaskID a = id /\ a_AttemptNumber a = n) <->
   (exists a, In a atts' /\ a_TaskID a = id /\ a_AttemptNumber a = n)).
Proof.
  intros Hm. assert (forall l, (exists a, In a l /\ a_TaskID a = id /\ a_AttemptNumber a = n) <->
    In (id, n) (map attempt_key l)) as Hl.
  { intros l. rewrite in_map_iff. unfold attempt_key.
    split; intros (a & H1 & H2); exists a; naive_solver congruence. }
  by rewrite !Hl, Hm.
Qed.

Lemma proto_attempt_numbers release d d' :
  proto release d d' -> keys_unique d -> attempt_contracts d -> attempt_numbers d -> attempt_numbers d'.
Proof.
  intros H K C X. proto_cases H; try exact X; unfold attempt_numbers; cbn.
  - intros x. rewrite in_app_iff. intros [Hin|[<-|[]]]; [by apply X|].
    match goal with E : t_CurrentAttempt _ = 0%Z |- _ => rewrite E end.
    split; [done|]. split; [lia|]. split; [done|]. intros n. split; [lia|].
    intros (a & Ha & Hid & _). destruct (C a Ha) as [(y & Hy & Hyid) _].
    exfalso. match goal with E : has_task _ _ = false |- _ =>
      apply (existsb_key_fresh _ _ _ E y Hy); congruence end.
  - intros x Hin. apply in_upd in Hin as (y & Hin & ->). destruct (p y) eqn:E; [|by apply X].
    destruct (H0 y Hin E) as (_ & (Hid & _) & Hc & Hmv & Hnd & _). rewrite Hid, Hc.
    destruct (X y Hin) as (Hi & Hge & Hst & Hn). split; [done|]. split; [done|]. split; [|done].
    intros Hd Hr Hx. apply Hst; intros Hs; rewrite Hs in Hmv;
      revert Hmv Hnd Hd Hr Hx; destruct (t_State (f y)); vm_compute; congruence.
  - destruct (bind_started _ _ _ _ _ _ _ K Hbind) as (t0 & I0 & S0 & E0 & _ & Hc & Hu).
    destruct Hbind as [_ _ _ _ _ _ Ha _]. destruct Ha as (Ea & En & _).
    destruct (X t0 I0) as (Hi & Hge & _ & Hn).
    assert (0 < wrap64 (t_CurrentAttempt t0 + 1))%Z as Hw by (rewrite <- Hc, <- En; done).
    pose proof (wrap64_succ_pos _ Hi Hw) as Hs. rewrite Hc, Hs in En.
    intros x Hin. apply in_upd in Hin as (y & Hin & ->).
    destruct ((t_TaskID y == t_TaskID t) && (t_State y == StateReady)) eqn:E.
    + rewrite (Hu y Hin E). cbn. rewrite Hs.
      split; [rewrite <- Hs; apply wrap64_range|].
      split; [lia|]. split; [lia|]. intros m. split.
      * intros Hm. destruct (decide (m = (t_CurrentAttempt t0 + 1)%Z)) as [->|Hne].
        -- exists a. rewrite in_app_iff. repeat split; [right; by left|congruence|done].
        -- destruct (Hn m) as [Hex _]. destruct Hex as (b & Hb & Hid & Hm'); [lia|].
           exists b. rewrite in_app_iff. auto.
      * intros (b & Hb & Hid & Hm). apply in_app_iff in Hb as [Hb|[<-|[]]]; [|lia].
        assert (1 <= m <= t_CurrentAttempt t0)%Z; [|lia]. apply Hn. by exists b.
    + destruct (X y Hin) as (Hi' & Hge' & Hst' & Hn'). repeat (split; [done|]). intros m.
      rewrite Hn'. split; intros (b & Hb & Hid & Hm).
      * exists b. rewrite in_app_iff. auto.
      * apply in_app_iff in Hb as [Hb|[<-|[]]]; [by exists b|]. exfalso.
        assert (y = t0) as ->.
        { apply (nodup_key_eq t_TaskID (tasks d)); [apply K|done..|congruence]. }
        rewrite E0, S0, !eqb_refl in E. done.
  - intros x Hin. destruct (X x Hin) as (Hi & Hge & Hst & Hn). repeat (split; [done|]). intros m.
    rewrite Hn. apply numbers_same_task, upd_map. intros a Ha Hp.
    destruct (H0 a Ha Hp) as (_ & E1 & E2 & _). unfold attempt_key. by rewrite E1, E2.
Qed.

(** ** Dispatch operations and budgets *)
Definition bound_attempt (d : DB) (o : DispatchOperation) : Prop :=
  exists a, In a (task_attempts d) /\ a_AttemptID a = d_AttemptID o /\ a_TaskID a = d_TaskID o /\
    a_SessionID a = Some (d_SessionID o) /\ a_TerminalGeneration a = Some (d_TerminalGeneration o).
Definition bound_task (d : DB) (o : DispatchOperation) : Prop :=
  exists t, In t (tasks d) /\ t_TaskID t = d_TaskID o /\ t_PairID t = d_PairID o.
Definition confirmed_budget (d : DB) (o : DispatchOperation) : Prop :=
  d_Stage o = SendConfirmed -> exists b, In b (attempt_execution_budgets d) /\
    b_DispatchOperationID b = d_OperationID o /\ b_AttemptID b = d_AttemptID o /\
    d_ConfirmedAt o = Some (b_OriginAt b).

(** The three depend on later versions of their rows only. *)
Lemma bound_attempt_later d d' o :
  history d d' -> bound_attempt d o -> bound_attempt d' o.
Proof.
  intros [_ _ Ha _ _ _ _ _] (a & Hin & H). destruct (Ha a Hin) as (a' & Hin' & Hl).
  exists a'. split; [done|]. unfold attempt_later in Hl. destruct_and?. repeat split; congruence.
Qed.
Lemma bound_task_later d d' o : history d d' -> bound_task d o -> bound_task d' o.
Proof.
  intros [Ht _ _ _ _ _ _ _] (t & Hin & H). destruct (Ht t Hin) as (t' & Hin' & Hl).
  exists t'. split; [done|]. unfold task_later in Hl. destruct_and?. split; congruence.
Qed.
Lemma confirmed_budget_later d d' o :
  history d d' -> confirmed_budget d o -> confirmed_budget d' o.
Proof.
  intros Hh Hc Hs. destruct (Hc Hs) as (b & Hin & H).
  destruct (h_budgets _ _ Hh b Hin) as (b' & Hin' & <-). by exists b.
Qed.

Lemma dispatch_identity_bindings d o o' :
  dispatch_identity o o' -> bound_attempt d o -> bound_task d o -> bound_attempt d o' /\ bound_task d o'.
Proof.
  intros (E1 & E2 & E3 & E4 & E5 & E6 & _). unfold bound_attempt, bound_task.
  by rewrite E2, E3, E4, E5, E6.
Qed.

Lemma proto_dispatches release d d' :
  proto release d d' -> keys_unique d -> dispatch_bindings d -> dispatch_bindings d'.
Proof.
  intros H K X. pose proof (proto_history _ _ _ H) as Hh.
  assert (forall o, In o (dispatch_operations d) -> bound_attempt d' o /\ bound_task d' o /\ confirmed_budget d' o) as X'.
  { intros o Hin. destruct (X o Hin) as (Xa & Xt & Xb).
    split; [by eapply bound_attempt_later|]. split; [by eapply bound_task_later|].
    by eapply confirmed_budget_later. }
  proto_cases H; try exact X'; unfold dispatch_bindings; cbn.
  - intros o1. rewrite in_app_iff. intros [Hin|[<-|[]]]; [by apply X'|].
    destruct (bind_started _ _ _ _ _ _ _ K Hbind) as (t0 & I0 & _ & E0 & P0 & _).
    destruct Hbind as [_ _ _ _ _ _ Ha Ho]. destruct Ha as (Ea & _ & _ & Es & Eg & _).
    destruct Ho as (Oa & Ot & Op & Os & Og & Ost & _).
    split; [|split; [|by rewrite Ost]].
    + exists a. rewrite in_app_iff. repeat split; [right; by left|congruence..].
    + destruct (upd_some (fun y => (t_TaskID y == t_TaskID t) && (t_State y == StateReady))
        (fun y => y <| t_State := StateDispatched |>
           <| t_CurrentAttempt := wrap64 (t_CurrentAttempt y + 1) |>
           <| t_UpdatedAt := a_StartedAt a |>) _ _ I0) as (t1 & I1 & Ht1).
      exists t1. split; [exact I1|]. rewrite Ot, Op.
      by destruct Ht1 as [->|[_ ->]].
  - intros o1 Hin. apply in_upd in Hin as (o0 & Hin & ->).
    destruct (X' o0 Hin) as (Xa & Xt & Xb). destruct (p o0) eqn:E; [|done].
    destruct (H0 o0 Hin E) as (Hid & _). split; [|split]; [by eapply dispatch_identity_bindings..|].
    intros Hc. cbn in Hc. pose proof (H o0 Hin E) as Ht. unfold dispatch_trigger in Ht.
    rewrite Hc, eqb_refl in Ht. cbn in Ht. apply orb_false_iff in Ht as [Ht _].
    destruct (d_ConfirmedAt (f o0)) as [at_|]; [|done]. apply negb_false_iff in Ht.
    apply existsb_exists in Ht as (b & Hb & Hp). breflect. exists b. cbn. repeat split; congruence.
  - intros o1 Hin. apply in_upd in Hin as (o0 & Hin & ->).
    destruct (X' o0 Hin) as (Xa & Xt & Xb). by destruct (p o0).
Qed.

Lemma budget_lineage_dispatch d b :
  budget_lineage d b = true -> exists o, In o (dispatch_operations d) /\
    d_OperationID o = b_DispatchOperationID b /\ d_AttemptID o = b_AttemptID b.
Proof.
  unfold budget_lineage. intros (o & Hin & Hp)%existsb_exists. breflect. by exists o.
Qed.

Lemma proto_budgets release d d' : proto release d d' -> budgets_sound d -> budgets_sound d'.
Proof.
  intros H X. pose proof (proto_history _ _ _ H) as Hh.
  assert (forall b, In b (attempt_execution_budgets d) ->
    (0 < b_Duration b)%Z /\ b_DeadlineAt b = (b_OriginAt b + b_Duration b)%Z /\
    exists o, In o (dispatch_operations d') /\ d_OperationID o = b_DispatchOperationID b /\
      d_AttemptID o = b_AttemptID b) as X'.
  { intros b Hin. destruct (X b Hin) as (Hd & He & (o & Ho & E1 & E2)). repeat (split; [done|]).
    destruct (h_dispatches _ _ Hh o Ho) as (o' & Ho' & Hl). exists o'. split; [done|].
    unfold dispatch_later in Hl. destruct_and?. split; congruence. }
  proto_cases H; try exact X'. unfold budgets_sound. cbn.
  intros c. rewrite in_app_iff. intros [Hin|[<-|[]]]; [by apply X'|].
  match goal with E : budget_check _ = true |- _ => unfold budget_check in E end. breflect.
  split; [done|]. split; [done|]. by apply budget_lineage_dispatch.
Qed.

(** ** Restores and stops *)
Lemma restore_step_unresolved o o' :
  restore_trigger o o' = false -> restore_unresolved o' = true -> restore_unresolved o = true.
Proof.
  unfold restore_trigger. intros Ht _. breflect. unfold restore_unresolved.
  apply negb_true_iff. by apply eqb_false.
Qed.

Lemma proto_restores release d d' : proto release d d' -> restores_sound d -> restores_sound d'.
Proof.
  intros H [Xc Xu]. proto_cases H; try (by split); split; cbn.
  - intros o1. rewrite in_app_iff. intros [Hin|[<-|[]]]; auto.
  - intros o1 o2. rewrite !in_app_iff. cbn. intros I1 I2 He U1 U2.
    destruct I1 as [I1|[<-|[]]], I2 as [I2|[<-|[]]]; try done; [by apply Xu| |].
    + destruct (H3 o1 I1) as (_ & _ & Hn). by destruct (Hn U2 U1).
    + destruct (H3 o2 I2) as (_ & _ & Hn). by destruct (Hn U1 U2).
  - intros o1 Hin. apply in_upd in Hin as (o0 & Hin & ->). destruct (p o0) eqn:E; [|auto].
    by apply H.
  - intros o1 o2 I1 I2. apply in_upd in I1 as (x1 & I1 & ->), I2 as (x2 & I2 & ->).
    assert (forall x, In x (pair_restore_operations d) ->
      ro_OperationID (if p x then f x else x) = ro_OperationID x /\
      ro_PairID (if p x then f x else x) = ro_PairID x /\
      (restore_unresolved (if p x then f x else x) = true -> restore_unresolved x = true)) as Hk.
    { intros x Hin. destruct (p x) eqn:E; [|done]. destruct (H x Hin E) as [Ht _].
      pose proof (restore_later_step _ _ Ht) as (-> & _ & -> & _).
      repeat split. by apply restore_step_unresolved. }
    destruct (Hk x1 I1) as (-> & -> & U1), (Hk x2 I2) as (-> & -> & U2).
    intros He V1 V2. by apply Xu; auto.
Qed.

Lemma proto_stops release d d' :
  proto release d d' -> keys_unique d -> stops_sound d -> stops_sound d'.
Proof.
  intros H K X. proto_cases H; try exact X; unfold stops_sound; cbn.
  - intros o1. rewrite in_app_iff. intros [Hin|[<-|[]]]; [by apply X|].
    unfold stop_terminated. by repeat match goal with E : so_Stage _ = _ |- _ => rewrite E; clear E
      | E : so_ResolutionState _ = _ |- _ => rewrite E; clear E end.
  - intros o1 Hin. apply in_upd in Hin as (o0 & Hin & ->). destruct (p o0) eqn:E; [|by apply X].
    destruct (H0 o0 Hin E) as [->|(_ & _ & Hr & _ & Hm)]; [by apply X|]. intros Ht.
    destruct (stop_terminated o0) eqn:Et.
    + destruct (X o0 Hin Et) as (_ & Hc & _). done.
    + destruct Hm as (_ & H1 & H2 & H3); auto using find_stop_in.
Qed.

(** ** All of them *)
Record store_inv (d : DB) : Prop := mkstore_inv {
  inv_keys : keys_unique d;
  inv_lane : lane_exclusive d;
  inv_contracts : contract_lineage d;
  inv_numbers : attempt_numbers d;
  inv_attempts : attempt_contracts d;
  inv_dispatches : dispatch_bindings d;
  inv_budgets : budgets_sound d;
  inv_restores : restores_sound d;
  inv_stops : stops_sound d }.

Lemma store_inv_empty : store_inv empty_db.
Proof. constructor; try apply empty_keys; try (by intros ?). by split. Qed.

Lemma proto_inv release d d' : proto release d d' -> store_inv d -> store_inv d'.
Proof.
  intros H []. constructor; eauto using proto_keys, proto_lane, proto_contracts,
    proto_attempt_numbers, proto_attempt_contracts, proto_dispatches, proto_budgets,
    proto_restores, proto_stops.
Qed.
Lemma protos_inv release d d' : protos release d d' -> store_inv d -> store_inv d'.
Proof. induction 1; eauto using proto_inv. Qed.

(** The audit log grows by appends. *)
Lemma proto_log release d d' : proto release d d' -> log_step d d'.
Proof.
  intros H. destruct H; try (by eapply appends_log_step);
    try (ok_inv; by apply log_step_same).
Qed.
Lemma protos_log release d d' : protos release d d' -> log_step d d'.
Proof. induction 1; [reflexivity|]. etransitivity; [by eapply proto_log|done]. Qed.

(** Outside the releases a quarantine stays. *)
Definition attempt_kept (a a' : TaskAttempt) : Prop :=
  a_AttemptID a' = a_AttemptID a /\
  (a_QuarantineState a = QuarantineQuarantined -> a_QuarantineState a' = QuarantineQuarantined).
Definition session_kept (w w' : WorkerSession) : Prop :=
  ws_PairID w' = ws_PairID w /\ ws_SessionID w' = ws_SessionID w /\
  (ws_QuarantineState w = QuarantineQuarantined -> ws_QuarantineState w' = QuarantineQuarantined).
#[export] Instance attempt_kept_preorder : PreOrder attempt_kept.
Proof. split; [by intros a|]. intros a b c [] []. split; [congruence|auto]. Qed.
#[export] Instance session_kept_preorder : PreOrder session_kept.
Proof.
  split; [by intros w|]. intros a b c (?&?&?) (?&?&?). repeat split; [congruence..|auto].
Qed.
Definition quarantine_kept (d d' : DB) : Prop :=
  forward attempt_kept (task_attempts d) (task_attempts d') /\
  forward session_kept (worker_sessions d) (worker_sessions d').

Lemma proto_quarantine d d' : proto false d d' -> quarantine_kept d d'.
Proof.
  intros H. proto_cases H; split; cbn; try reflexivity; try apply forward_app; try apply _.
  - apply forward_upd; [apply _|]. intros a Hin Hp. destruct (H0 a Hin Hp) as (E & H). split; [done|].
    destruct_and?. auto.
  - apply forward_upd; [apply _|]. intros w Hin Hp.
    destruct (H0 w Hin Hp) as (E1 & E2 & _ & _ & _ & Hq). repeat split; auto.
Qed.
Lemma protos_quarantine d d' : protos false d d' -> quarantine_kept d d'.
Proof.
  induction 1 as [d|d1 d2 d3 H _ [IH1 IH2]]; [split; reflexivity|].
  apply proto_quarantine in H as [H1 H2]. split; etransitivity; eassumption.
Qed.
End Preservation.
