(* ===== verification/Refinement.v ===== *)
(** * Refinement: every operation of the store follows the protocol

    One lemma per operation of the store: between the databases before and
    after a run, whatever its environment and its outcome, there are only
    changes that [proto] allows. *)

From stdpp Require Import relations.
From S2P Require Import Prelude.
From S2P Require Import Domain.
From S2P Require Import Workflow.
From S2P Require Import GoLib.
From S2P Require Import Db.
From S2P Require Import Tx.
From S2P Require Import AuditLog.
From S2P Require Import TaskStore.
From S2P Require Import Lifecycle.
From S2P Require Import DispatchStore.
From S2P Require Import StopStore.
From S2P Require Import RestoreStore.
From S2P Require Import RecoveryStore.
From S2P Require Import Clearance.
From S2P Require Import Protocol.

(** ** Following a program with its guards *)
Section Walk.
Context (R : DB -> DB -> Prop) `{!PreOrder R}.

Lemma steps_guard {A} c e (k : M A) :
  (c = false -> Steps R k) -> Steps R (reject_if c e;; k).
Proof.
  intros Hk. unfold reject_if. destruct c.
  - intros env s a s' H. minv H.
  - by apply Hk.
Qed.
Lemma opsteps_guard {A} c e (k : M A) :
  (c = false -> OpSteps R k) -> OpSteps R (reject_if c e;; k).
Proof.
  intros Hk. unfold reject_if. destruct c.
  - intros env s a s' [= _ <-]. reflexivity.
  - by apply Hk.
Qed.
Lemma steps_cas m : Steps R m -> Steps R (operationCASResult m).
Proof.
  intros Hm. unfold operationCASResult, mapLifecycleWriteError.
  apply steps_bind; [done|by apply steps_map_err|]. intros. by apply steps_reject.
Qed.
Lemma steps_affects_one e m : Steps R m -> Steps R (affects_one e m).
Proof. intros Hm. unfold affects_one. apply steps_bind; [done..|]. intros. by apply steps_reject. Qed.
Lemma opsteps_autocommit f :
  (forall d d', f d = Ok d' -> R d d') -> OpSteps R (autocommit f).
Proof.
  intros Hf. unfold autocommit. apply opsteps_with_tx; [done|].
  apply steps_bind; [done|by apply steps_exec|]. intros. by apply steps_ret.
Qed.
End Walk.

(** The move of a row, from the guards in the context. *)
Ltac row_move :=
  intros; unfold attempt_move, session_move, provisioning_move, dispatch_move, dispatch_identity,
    session_tuple, attempt_snapshot in *; cbn in *; breflect; subst;
  repeat match goal with
  | H : is_null ?x = true |- _ => destruct x; [discriminate H|clear H]
  | H : is_some ?x = true |- _ => destruct x; [clear H|discriminate H]
  end; cbn in *;
  repeat match goal with E : ?f ?x = _ |- context [?f ?x] => rewrite E end;
  repeat match goal with |- context [match ?c with _ => _ end] => destruct c eqn:? end;
  repeat match goal with |- _ /\ _ => split end;
  intros; try solve [done | congruence | firstorder congruence].

(** A task moved out of the lane states, or within them. *)
Ltac task_moves :=
  intros ? ? ?; unfold task_move, task_identity; cbn in *; breflect;
  repeat match goal with H : (_ && _)%bool = false |- _ => apply andb_false_iff in H as [H|H] end;
  breflect; subst;
  repeat match goal with E : t_State ?x = _ |- context [t_State ?x] => rewrite E end;
  repeat match goal with |- _ /\ _ => split end; intros;
  repeat match goal with |- _ /\ _ => split end; intros;
  try solve [eassumption | done | by left].

(** One statement: the constructor of [proto] it is. *)
Ltac write_step :=
  lazymatch goal with
  | |- Steps _ (exec_n _) =>
      let Hx := fresh "Hx" in
      apply steps_exec_n; intros ? ? ? Hx; apply protos_once;
      first [ eapply P_restores; exact Hx
            | eapply P_attempts; [exact Hx | try solve [row_move]]
            | eapply P_sessions; [exact Hx | try solve [row_move]]
            | eapply P_provisionings; [exact Hx | try solve [row_move]]
            | eapply P_dispatches; [exact Hx | try solve [row_move]]
            | eapply P_unknown; [exact Hx | try solve [row_move]]
            | eapply P_stops; [exact Hx | intros ? ? Hp; cbn beta in Hp |- *; breflect ]
            | match type of Hx with context [eqb (t_TaskID _) ?id] =>
                eapply (P_tasks _ id); [exact Hx | try solve [task_moves]] end ]
  | |- Steps _ (exec _) =>
      let Hx := fresh "Hx" in
      apply steps_exec; intros ? ? Hx; apply protos_once;
      first [ eapply P_authorization; exact Hx
            | eapply P_session; exact Hx
            | eapply P_provisioning; [exact Hx | try done]
            | eapply P_stop; [exact Hx | try done | try done]
            | eapply P_restore; [exact Hx | try done | try done]
            | eapply P_budget; [exact Hx | try done]
            | eapply P_contract; [exact Hx | ] ]
  end.

Ltac walk_step extra :=
  first
    [ progress intros
    | match goal with |- PreOrder _ => apply _ end
    | match goal with
      | |- Steps _ (mbind _ (reject_if _ _)) => apply steps_guard; intros
      | |- OpSteps _ (mbind _ (reject_if _ _)) => apply opsteps_guard; [apply _|intros]
      end
    | extra
    | match goal with
      | |- Steps _ (mbind _ _) => apply steps_bind
      | |- Steps _ (commit _) => apply steps_ret
      | |- Steps _ (rollback _) => apply steps_ret
      | |- Steps _ (operationCASResult _) => apply steps_cas
      | |- Steps _ (affects_one _ _) => apply steps_affects_one
      | |- Steps _ (mapLifecycleWriteError _) => apply steps_map_err
      | |- OpSteps _ (with_tx _) => apply opsteps_with_tx
      | |- OpSteps _ (autocommit _) => apply opsteps_autocommit
      | |- OpSteps _ (mbind _ _) => apply opsteps_bind
      | |- OpSteps _ (no_rows _ _) => apply opsteps_map_err
      end
    | apply steps_ret | apply steps_throw | apply steps_reject
    | apply steps_query | apply steps_query_row | apply steps_query_res
    | apply steps_timeNow | apply steps_eventID | apply steps_now
    | apply steps_no_rows | apply steps_map_err
    | apply opsteps_ret | apply opsteps_throw | apply opsteps_reject
    | apply opsteps_query | apply opsteps_query_row | apply opsteps_query_res
    | apply opsteps_timeNow | apply opsteps_eventID | apply opsteps_now | apply opsteps_map_err
    | write_step
    | match goal with
      | |- Steps _ (if ?c then _ else _) => destruct c eqn:?
      | |- Steps _ (match ?c with _ => _ end) => destruct c eqn:?
      | |- OpSteps _ (if ?c then _ else _) => destruct c eqn:?
      | |- OpSteps _ (match ?c with _ => _ end) => destruct c eqn:?
      | |- Steps _ (let _ := _ in _) => cbv zeta
      | |- OpSteps _ (let _ := _ in _) => cbv zeta
      end
    | solve [eauto with tbl] ].
Ltac walk := repeat walk_step fail.

Lemma validStopTransition_refl s : validStopTransition s s = true.
Proof. unfold validStopTransition. by rewrite eqb_refl. Qed.

(** A stop whose stage stays and that does not become terminated. *)
Lemma stop_move_resolution d o r at_ :
  so_ResolutionState o <> StopResolutionTerminationConfirmed ->
  r <> StopResolutionTerminationConfirmed ->
  stop_move d o (o <| so_ResolutionState := r |> <| so_ResolvedAt := at_ |>).
Proof.
  intros Ho Hr. unfold stop_move, stop_identity, stop_terminated. cbn.
  rewrite validStopTransition_refl. repeat split; try done; intros; exfalso; breflect;
    repeat match goal with H : (_ || _)%bool = true |- _ => apply orb_true_iff in H as [H|H] end;
    by breflect.
Qed.

Section Ops.
Context {L : GoLib}.
Implicit Types (release : bool).

Lemma steps_audit release ev : Steps (protos release) (appendAuditEventTx ev).
Proof. apply steps_appendAuditEventTx. intros r d d' H. apply protos_once. by eapply P_audit. Qed.
Hint Resolve steps_audit : tbl.

(** ** Projects, pairs, tasks *)
Lemma ref_CreateProject p : OpSteps (protos false) (CreateProject p).
Proof. unfold CreateProject. walk. apply protos_once. by eapply P_project. Qed.
Lemma ref_CreatePair p : OpSteps (protos false) (CreatePair p).
Proof. unfold CreatePair. walk. apply protos_once. by eapply P_pair. Qed.
Lemma ref_CreateTask t : OpSteps (protos false) (CreateTask t).
Proof. unfold CreateTask. walk. breflect. apply protos_once. by eapply P_task. Qed.

(** ** Lifecycle *)
Lemma ref_UpdateWorkerSession pairID u :
  OpSteps (protos false) (UpdateWorkerSessionStatusAndQuarantine pairID u).
Proof.
  unfold UpdateWorkerSessionStatusAndQuarantine, rejectUnresolvedRestore, rejectUnresolvedProvisioning.
  walk.
Qed.
Lemma ref_ReservePairProvisioning o actor :
  OpSteps (protos false) (ReservePairProvisioning o actor).
Proof. unfold ReservePairProvisioning. walk. Qed.
Lemma ref_ConfirmPairProvisioning id w actor at_ :
  OpSteps (protos false) (ConfirmPairProvisioning id w actor at_).
Proof. unfold ConfirmPairProvisioning. walk. Qed.
Lemma ref_FailPairProvisioning id actor reason at_ :
  OpSteps (protos false) (FailPairProvisioning id actor reason at_).
Proof. unfold FailPairProvisioning. walk. Qed.

(** ** Dispatch *)
Lemma ref_RecordPreSendHold id disposition actor at_ :
  OpSteps (protos false) (RecordPreSendHold id disposition actor at_).
Proof. unfold RecordPreSendHold. walk. Qed.
Lemma ref_RecordPreSendAdmissibilityRejected id activity actor at_ :
  OpSteps (protos false) (RecordPreSendAdmissibilityRejected id activity actor at_).
Proof. unfold RecordPreSendAdmissibilityRejected. walk. Qed.
Lemma ref_ResolvePreSendHold id attempt disposition session generation activity principal actor at_ :
  OpSteps (protos false)
    (ResolvePreSendHold id attempt disposition session generation activity principal actor at_).
Proof. unfold ResolvePreSendHold. walk. Qed.
Lemma ref_RecordSendRequested id session generation activity terminated actor at_ :
  OpSteps (protos false)
    (RecordSendRequested id session generation activity terminated actor at_).
Proof. unfold RecordSendRequested. walk. Qed.
Lemma ref_RecordSendConfirmed id actor ok at_ policies :
  OpSteps (protos false) (RecordSendConfirmed id actor ok at_ policies).
Proof. unfold RecordSendConfirmed. walk. Qed.
Lemma ref_BindLegacyExecutionBudget attempt principal scope evidence policy at_ :
  OpSteps (protos false) (BindLegacyExecutionBudget attempt principal scope evidence policy at_).
Proof. unfold BindLegacyExecutionBudget. walk. Qed.
Lemma ref_RecordUnknownDelivery id actor at_ :
  OpSteps (protos false) (RecordUnknownDelivery id actor at_).
Proof. unfold RecordUnknownDelivery, transition_ok. walk. Qed.
Lemma ref_AtomicTerminalTransition taskID expected new reason attemptID disposition :
  OpSteps (protos false)
    (AtomicTerminalTransition taskID expected new reason attemptID disposition).
Proof. unfold AtomicTerminalTransition, currentOpenAttemptLineage, transition_ok. walk. Qed.
Lemma ref_AtomicAttemptClosureTransition taskID attemptID disposition :
  OpSteps (protos false) (AtomicAttemptClosureTransition taskID attemptID disposition).
Proof. unfold AtomicAttemptClosureTransition, currentOpenAttemptLineage. walk. Qed.

(** ** Stop *)
Lemma steps_appendStopAudit release stop kind at_ extra :
  Steps (protos release) (appendStopAudit stop kind at_ extra).
Proof. unfold appendStopAudit. walk. Qed.
Hint Resolve steps_appendStopAudit : tbl.
Lemma steps_guardStopRestoreOwner release stop : Steps (protos release) (guardStopRestoreOwner stop).
Proof. unfold guardStopRestoreOwner. walk. Qed.
Hint Resolve steps_guardStopRestoreOwner : tbl.
Lemma steps_getStopOperationTx release id : Steps (protos release) (getStopOperationTx id).
Proof. unfold getStopOperationTx. walk. Qed.
Hint Resolve steps_getStopOperationTx : tbl.
Lemma steps_createStopOperationTx release o observation :
  so_Stage o = StopRequested -> so_ResolutionState o = StopResolutionInFlight ->
  Steps (protos release) (createStopOperationTx o observation).
Proof.
  intros Hs Hr.
  unfold createStopOperationTx, check_stop_lineage, check_stop_restore, rejectUnresolvedProvisioning.
  walk.
Qed.
Lemma steps_check_stop_purpose release o : Steps (protos release) (check_stop_purpose o).
Proof. unfold check_stop_purpose, check_timeout_stop. walk. Qed.
Hint Resolve steps_check_stop_purpose : tbl.
(** The request after its defaults, under a name. *)
Ltac name_stop :=
  match goal with |- context [reject_if ((so_Stage ?s != StopRequested) || _) _] =>
    tryif is_var s then fail else generalize s; intros ?stop end.
Lemma ref_ReserveStopOperation o : OpSteps (protos false) (ReserveStopOperation o).
Proof.
  unfold ReserveStopOperation. cbv zeta. name_stop. walk.
  all: apply steps_createStopOperationTx; breflect; assumption.
Qed.

(** ** Restore *)
Lemma ref_ReservePairRestore request : OpSteps (protos false) (ReservePairRestore request).
Proof. unfold ReservePairRestore. walk. Qed.
Lemma ref_RecordPairRestoreUnknown id actor :
  OpSteps (protos false) (RecordPairRestoreUnknown id actor).
Proof. unfold RecordPairRestoreUnknown, transitionRestore. walk. Qed.
Lemma ref_ConfirmPairRestore id session old new mode status actor at_ :
  OpSteps (protos false) (ConfirmPairRestore id session old new mode status actor at_).
Proof. unfold ConfirmPairRestore. walk. Qed.
Lemma ref_ResolveConfirmedRestore id session observed activity principal actor at_ :
  OpSteps (protos false) (ResolveConfirmedRestore id session observed activity principal actor at_).
Proof. unfold ResolveConfirmedRestore. walk. Qed.
Lemma steps_each_lineage release ok l : Steps (protos release) (each_lineage ok l).
Proof. induction l as [|[[id session] generation] l IH]; cbn [each_lineage]; walk. Qed.
Hint Resolve steps_each_lineage : tbl.
Lemma ref_ResolveAmbiguousRestore id pair session generation basis evidence principal actor at_ :
  OpSteps (protos false)
    (ResolveAmbiguousRestore id pair session generation basis evidence principal actor at_).
Proof.
  unfold ResolveAmbiguousRestore, physical_coverage, restoreAdministrativeCoverageTx. walk.
Qed.
Lemma ref_ClaimRestoreRecovery id pair session generation principal actor at_ :
  OpSteps (protos false) (ClaimRestoreRecovery id pair session generation principal actor at_).
Proof. unfold ClaimRestoreRecovery. walk. Qed.
Lemma ref_ClaimRestoreCleanupWithStop stop principal actor at_ observations :
  OpSteps (protos false) (ClaimRestoreCleanupWithStop stop principal actor at_ observations).
Proof.
  unfold ClaimRestoreCleanupWithStop. cbv zeta. repeat walk_step ltac:(idtac; name_stop).
  all: apply steps_createStopOperationTx; breflect; assumption.
Qed.

(** ** Recovery *)
Lemma ref_RecordRecoverySweepEvent invocation actor event at_ :
  OpSteps (protos false) (RecordRecoverySweepEvent invocation actor event at_).
Proof. unfold RecordRecoverySweepEvent. walk. Qed.
Lemma ref_RecordPostSendOutage expected actor classification invocation at_ :
  OpSteps (protos false) (RecordPostSendOutage expected actor classification invocation at_).
Proof. unfold RecordPostSendOutage, guardStopOwnedExecutionTx. walk. Qed.
Lemma ref_ClassifyInterruptedRestore id actor at_ :
  OpSteps (protos false) (ClassifyInterruptedRestore id actor at_).
Proof. unfold ClassifyInterruptedRestore. walk. Qed.
Lemma ref_FailProvisioningAtStartup id actor at_ :
  OpSteps (protos false) (FailProvisioningAtStartup id actor at_).
Proof. unfold FailProvisioningAtStartup. walk. Qed.

(** ** Clearance *)
Lemma steps_check_decision_lineages release a stop l : forall seen,
  Steps (protos release) (check_decision_lineages a stop seen l).
Proof.
  induction l as [|x l IH]; intros seen; cbn [check_decision_lineages];
    unfold check_lineage_row; walk.
Qed.
Lemma steps_attempt_links release id : Steps (protos release) (attempt_links id).
Proof. unfold attempt_links. walk. Qed.
Hint Resolve steps_check_decision_lineages steps_attempt_links : tbl.
Lemma steps_accept_lineages release a r l : Steps (protos release) (accept_lineages a r l).
Proof. induction l as [|x l IH]; cbn [accept_lineages]; walk. Qed.
Hint Resolve steps_accept_lineages : tbl.
Lemma ref_AcceptStopAdministrativeRisk a : OpSteps (protos false) (AcceptStopAdministrativeRisk a).
Proof.
  unfold AcceptStopAdministrativeRisk, stopAcceptanceEventsTx, check_restore_principal. walk.
  right. apply stop_move_resolution; [|done].
  cbn beta in *. intros Heq. assert (as_ExpectedResolution a = StopResolutionTerminationConfirmed) as Hx' by congruence.
  match goal with E : context [in_list] |- _ => by rewrite Hx' in E end.
Qed.
End Ops.
