(* ===== verification/SagaRefinement.v ===== *)
(** * SagaRefinement: the operations whose changes depend on what they read

    The transition of a task, the insertion of a contract revision, the
    binding of a dispatch, the outcome of a stop, the observation of an
    execution and the clearance of a quarantine.  [StepsAt d] is [Steps] from
    a database known to be [d], so a change can be justified by the rows read
    before it. *)

From stdpp Require Import relations.
From S2P Require Import Prelude.
From S2P Require Import Domain.
From S2P Require Import Workflow.
From S2P Require Import ReportPath.
From S2P Require Import GoLib.
From S2P Require Import Db.
From S2P Require Import Tx.
From S2P Require Import AuditLog.
From S2P Require Import TaskStore.
From S2P Require Import DbFacts.
From S2P Require Import Lifecycle.
From S2P Require Import DispatchStore.
From S2P Require Import StopStore.
From S2P Require Import RestoreStore.
From S2P Require Import RecoveryStore.
From S2P Require Import Clearance.
From S2P Require Import Protocol.
From S2P Require Import Refinement.

Section At.
Context (R : DB -> DB -> Prop) `{!PreOrder R}.

Definition StepsAt {A} (d : DB) (m : M A) : Prop :=
  forall env s a s', st_db s = d -> m env s = (Ok a, s') -> R d (st_db s').

(** [m] changes nothing and returns what [Post] says of the database. *)
Definition reads {A} (m : M A) (Post : DB -> A -> Prop) : Prop :=
  forall env s a s', m env s = (Ok a, s') -> st_db s' = st_db s /\ Post (st_db s) a.

Lemma at_steps {A} d (m : M A) : Steps R m -> StepsAt d m.
Proof. intros H env s a s' <- Hr. by eapply H. Qed.
Lemma steps_at {A} (m : M A) : (forall d, StepsAt d m) -> Steps R m.
Proof. intros H env s a s' Hr. by eapply H. Qed.
Lemma at_read {A B} d (m : M A) (k : A -> M B) Post :
  reads m Post -> (forall a, Post d a -> StepsAt d (k a)) -> StepsAt d (m ≫= k).
Proof.
  intros Hm Hk env s b s' Hd (a & s1 & H1 & H2)%bind_ok.
  destruct (Hm _ _ _ _ H1) as [Hs Hp]. subst d.
  exact (Hk a Hp env s1 b s' Hs H2).
Qed.
Lemma at_guard {A} d c e (k : M A) :
  (c = false -> StepsAt d k) -> StepsAt d (reject_if c e;; k).
Proof.
  intros Hk env s a s' Hd (u & s1 & H1 & H2)%bind_ok.
  apply reject_if_ok in H1 as [Hc ->]. by eapply Hk.
Qed.
(** A write that must affect a row, then the rest. *)
Lemma at_cas {A} d f (k : unit -> M A) :
  (forall d' n, f d = Ok (d', S n) -> R d d' /\ Steps R (k tt)) ->
  StepsAt d (operationCASResult (exec_n f) ≫= k).
Proof.
  intros Hk env s a s' Hd (u & s1 & H1 & H2)%bind_ok.
  unfold operationCASResult, mapLifecycleWriteError in H1. minv_step H1. breflect.
  destruct x as [|n]; [done|]. destruct u.
  destruct (Hk _ _ ltac:(eassumption)) as [Hr Hs]. etransitivity; [exact Hr|by eapply Hs].
Qed.

Lemma at_exec_n {A} d f (k : nat -> M A) :
  (forall d' n, f d = Ok (d', n) -> R d d' /\ Steps R (k n)) -> StepsAt d (exec_n f ≫= k).
Proof.
  intros Hk env s a s' Hd (n & s1 & H1 & H2)%bind_ok. apply exec_n_ok in H1. subst d.
  destruct (Hk _ _ H1) as [Hr Hs]. etransitivity; [exact Hr|by eapply Hs].
Qed.
Lemma at_exec {A} d f (k : unit -> M A) :
  (forall d', f d = Ok d' -> R d d' /\ Steps R (k tt)) ->
  StepsAt d (map_err map_constraint (exec f) ≫= k).
Proof.
  intros Hk env s a s' Hd (u & s1 & H1%map_err_ok & H2)%bind_ok. apply exec_ok in H1. subst d.
  destruct u. destruct (Hk _ H1) as [Hr Hs]. etransitivity; [exact Hr|by eapply Hs].
Qed.

Lemma reads_when {A} c (m : M A) a0 (Post : DB -> Prop) :
  (c = true -> reads m (fun d _ => Post d)) ->
  reads (if c then m else mret a0) (fun d _ => c = true -> Post d).
Proof.
  intros Hm env s a s' H. destruct c.
  - destruct (Hm eq_refl _ _ _ _ H). done.
  - by apply ret_ok in H as [-> ->].
Qed.
Lemma reads_timeNow : reads timeNow (fun _ _ => True).
Proof. intros env s a s' H%timeNow_ok. done. Qed.

Lemma reads_query_row {A} (f : DB -> option A) : reads (query_row f) (fun d a => f d = Some a).
Proof. intros env s a s' [? ?]%query_row_ok. done. Qed.
Lemma reads_query {A} (f : DB -> A) : reads (query f) (fun d a => a = f d).
Proof. intros env s a s' [? ?]%query_ok. done. Qed.
Lemma reads_map_err {A} g (m : M A) Post : reads m Post -> reads (map_err g m) Post.
Proof. intros Hm env s a s' H%map_err_ok. by eapply Hm. Qed.
Lemma reads_no_rows {A} e (m : M A) Post : reads m Post -> reads (no_rows e m) Post.
Proof. apply reads_map_err. Qed.
Lemma reads_steps {A} (m : M A) : Steps eq m -> reads m (fun _ _ => True).
Proof. intros H env s a s' Hr. by rewrite <- (H _ _ _ _ Hr). Qed.
End At.

Section Ops.
Context {L : GoLib}.
Implicit Types (release : bool).
#[local] Hint Resolve steps_audit steps_appendStopAudit steps_guardStopRestoreOwner
  steps_attempt_links : tbl.

(** ** Stop *)
Lemma reads_getStop id :
  reads (getStopOperationTx id) (fun d o => exists o0, find_stop id d = Some o0 /\ o = stop_view o0).
Proof.
  intros env s o s' H. unfold getStopOperationTx in H. minv_step H.
  destruct (find_stop id (st_db s)) as [o0|]; simplify_eq/=. eauto.
Qed.
Lemma reads_guardStopRestoreOwner stop : reads (guardStopRestoreOwner stop) (fun _ _ => True).
Proof. apply reads_steps. unfold guardStopRestoreOwner. repeat walk_step fail. Qed.

Ltac at_step :=
  lazymatch goal with
  | |- StepsAt _ _ (mbind _ (getStopOperationTx _)) =>
      eapply at_read; [apply reads_getStop|]; intros
  | |- StepsAt _ _ (mbind _ (guardStopRestoreOwner _)) =>
      eapply at_read; [apply reads_guardStopRestoreOwner|]; intros
  | |- StepsAt _ _ (mbind _ (reject_if _ _)) => apply at_guard; intros
  | |- StepsAt _ _ (mbind _ (query _)) => eapply at_read; [apply reads_query|]; intros
  | |- StepsAt _ _ (mbind _ (query_row _)) => eapply at_read; [apply reads_query_row|]; intros
  | |- StepsAt _ _ (mbind _ (no_rows _ (query_row _))) =>
      eapply at_read; [apply reads_no_rows, reads_query_row|]; intros
  | |- StepsAt _ _ (let _ := _ in _) => cbv zeta
  end.

Lemma ref_CommitStopCallAccepted id call deadline :
  OpSteps (protos false) (CommitStopCallAccepted id call deadline).
Proof.
  unfold CommitStopCallAccepted. walk. right.
  split; [done|]. unfold stop_terminated. cbn.
  repeat match goal with E : ?f o = _ |- context [?f o] => rewrite E end.
  repeat split; try done; by destruct (so_ConfirmationDeadlineAt o).
Qed.

Definition physical_outcome (outcome : StopTerminalOutcome) : bool :=
  (st_Stage outcome == StopTerminationConfirmed)
  && (st_Resolution outcome == StopResolutionTerminationConfirmed).

Lemma steps_closeLiveStopTx release stop outcome physical :
  (physical = true -> release = true) ->
  Steps (protos release) (closeLiveStopTx stop outcome physical).
Proof.
  intros Hp. destruct physical.
  - rewrite Hp by done. unfold closeLiveStopTx, currentOpenAttemptLineage. walk.
  - unfold closeLiveStopTx, currentOpenAttemptLineage. walk.
Qed.
Lemma steps_settle_cleanup_runtime release stop outcome physical :
  Steps (protos release) (settle_cleanup_runtime stop outcome physical).
Proof. unfold settle_cleanup_runtime. walk. Qed.

(** The row an outcome writes, under the guards of [CommitStopOutcome]. *)
Lemma stop_move_outcome d o o0 outcome :
  find_stop (so_OperationID o) d = Some o0 ->
  so_Stage o = st_ExpectedStage outcome -> so_ResolutionState o = StopResolutionInFlight ->
  validStopTransition (st_ExpectedStage outcome) (st_Stage outcome) = true ->
  (if physical_outcome outcome then negb (positive_proof (stop_view o0) outcome)
   else (st_Stage outcome == StopTerminationConfirmed)
        || (st_Resolution outcome == StopResolutionTerminationConfirmed)) = false ->
  stop_move d o
    (o <| so_Stage := st_Stage outcome |> <| so_ResolutionState := st_Resolution outcome |>
       <| so_ResolvedAt := Some (st_At outcome) |>
       <| so_TerminationConfirmedAt :=
            if physical_outcome outcome then Some (st_At outcome) else None |>).
Proof.
  intros Hf Hs Hr Hv Hp. unfold stop_move, stop_identity, stop_terminated, confirmed_in_time. cbn.
  rewrite Hs. split; [done|]. split; [done|]. split; [congruence|]. split; [done|].
  intros Hfo _ Ht. simplify_eq/=.
  assert (physical_outcome outcome = true) as E.
  { destruct (physical_outcome outcome); [done|]. congruence. }
  rewrite E in *. unfold physical_outcome in E. unfold positive_proof in Hp. cbn in Hp. breflect.
  split; [congruence|]. repeat split; try done. repeat case_match; try done; breflect.
  simplify_eq/=. eexists _, _, _. repeat split; try done; lia.
Qed.

Lemma ref_CommitStopOutcome id outcome :
  OpSteps (protos (physical_outcome outcome)) (CommitStopOutcome id outcome).
Proof.
  unfold CommitStopOutcome. apply opsteps_guard; [apply _|intros _].
  apply opsteps_with_tx; [apply _|]. apply steps_at. intros d.
  repeat at_step. fold (physical_outcome outcome) in *. apply at_cas; [apply _|]. intros d' n Hx.
  split.
  - apply protos_once. eapply P_stops; [exact Hx|]. intros o Hin Hp. cbn beta in *. right.
    breflect. destruct_and?. match goal with E : exists _, _ |- _ => destruct E as (o0 & Hf & ->) end.
    eapply stop_move_outcome; eauto. by simplify_eq.
  - repeat walk_step fail.
    all: first [apply steps_closeLiveStopTx; auto | apply steps_settle_cleanup_runtime].
Qed.

(** The outcome the compatibility entry point may commit. *)
Definition stage_releases (next : StopStage) (update : StopStageUpdate) : bool :=
  (next == StopTerminationConfirmed)
  && (su_ResolutionState update == Some StopResolutionTerminationConfirmed).

Lemma opsteps_release {A} release (m : M A) : OpSteps (protos false) m -> OpSteps (protos release) m.
Proof. intros H env s r s' Hr. apply protos_release. by eapply H. Qed.

Lemma ref_UpdateStopOperationStage id expected next update :
  OpSteps (protos (stage_releases next update)) (UpdateStopOperationStage id expected next update).
Proof.
  unfold UpdateStopOperationStage, GetStopOperation. repeat walk_step fail.
  - apply opsteps_release, ref_CommitStopCallAccepted.
  - match goal with |- OpSteps _ (CommitStopOutcome id ?o) =>
      pose proof (ref_CommitStopOutcome id o) as Ho;
      replace (stage_releases next update) with (physical_outcome o); [exact Ho|] end.
    unfold stage_releases, physical_outcome. cbn. f_equal.
    match goal with E : su_ResolutionState update = Some _ |- _ => rewrite E end.
    unfold eqb. apply bool_decide_ext. split; congruence.
Qed.
Lemma ref_ClassifyAbandonedStopAlive id session generation actor invocation at_ :
  OpSteps (protos false) (ClassifyAbandonedStopAlive id session generation actor invocation at_).
Proof.
  unfold ClassifyAbandonedStopAlive. walk.
  right. apply stop_move_resolution; congruence.
Qed.

(** ** Clearance *)
Lemma steps_check_risks release request session generation attempts l :
  Steps (protos release) (check_risks request session generation attempts l).
Proof. induction l as [|r l IH]; cbn [check_risks]; unfold check_risk; walk. Qed.
Lemma steps_verifyClearanceBasis release request item :
  Steps (protos release) (verifyClearanceBasis request item).
Proof.
  unfold verifyClearanceBasis, check_accepted, clearanceStopRestoreLink. walk.
Qed.
#[local] Hint Resolve steps_check_risks steps_verifyClearanceBasis : tbl.
Lemma steps_check_items release request expected l : forall seen,
  Steps (protos release) (check_items request expected seen l).
Proof. induction l as [|x l IH]; intros seen; cbn [check_items]; walk. Qed.
Lemma steps_appendClearanceAudit release request at_ item :
  Steps (protos release) (appendClearanceAudit request at_ item).
Proof. unfold appendClearanceAudit. walk. Qed.
#[local] Hint Resolve steps_check_items steps_appendClearanceAudit : tbl.
Lemma steps_clear_items request at_ l : Steps (protos true) (clear_items request at_ l).
Proof. induction l as [|x l IH]; cbn [clear_items]; walk. Qed.
#[local] Hint Resolve steps_clear_items : tbl.
Lemma ref_ClearQuarantineWithEvidence request :
  OpSteps (protos true) (ClearQuarantineWithEvidence request).
Proof.
  unfold ClearQuarantineWithEvidence, rejectUnresolvedRestore, check_restore_resolved,
    guardPairStopsForClearance. walk.
Qed.

(** ** Tasks and contracts *)
Lemma reads_ready_precondition taskID from :
  reads (ready_precondition taskID from) (fun d _ =>
    exists k, latest_contract taskID d = Some k /\ k_is_immutable k = (from == StateFailed)).
Proof.
  intros env s u s' H. unfold ready_precondition in H. minv H; breflect; split; try done.
  all: eexists; split; [eassumption|assumption].
Qed.

Lemma ref_TransitionTask taskID from to : OpSteps (protos false) (TransitionTask taskID from to).
Proof.
  unfold TransitionTask. apply opsteps_guard; [apply _|intros Hd].
  destruct (Transition from to) eqn:Ht; [by apply opsteps_throw, _|].
  assert (CanTransition from to = true) as Hc.
  { unfold Transition in Ht. by destruct (CanTransition from to). }
  apply opsteps_with_tx; [apply _|]. apply steps_at. intros d. at_step. at_step. breflect. subst from.
  eapply at_read; [apply reads_when; intros _; apply reads_ready_precondition|]. intros ? Hready.
  eapply at_read.
  { apply (reads_when _ _ _ (fun d => lane_holder (t_PairID a) taskID d = None)). intros _ env s u s' Hrun.
    minv Hrun. breflect. by destruct (lane_holder _ _ _). }
  intros ? Hlane. eapply at_read; [apply reads_timeNow|]. intros now _.
  apply at_exec_n; [apply _|]. intros d' n Hx. split; [|walk].
  apply protos_once. eapply (P_tasks _ taskID); [exact Hx|]. intros t Hin Hp. cbn beta in *. breflect.
  split; [done|]. unfold task_move, task_identity. cbn. subst taskID.
  repeat split; try congruence.
  - intros ->. revert Hc Hd. by destruct (t_State a).
  - intros Hl. simplify_eq. destruct to; try done; try (by right; apply Hlane).
    exfalso. revert Hc Hd. by destruct (t_State a).
  - intros ->. destruct (Hready eq_refl) as (k & Hk & Hi). exists k. simplify_eq. split; [done|].
    congruence.
Qed.

Lemma reads_check_superseded c :
  reads (check_superseded c) (fun d _ => exists sup prev,
    c_SupersedesContractID c = Some sup /\ find_contract (TrimSpace sup) d = Some prev /\
    k_task_id prev = c_TaskID c /\ k_revision_number prev = wrap64 (c_RevisionNumber c - 1) /\
    k_base_sha prev = c_BaseSHA c /\ k_is_immutable prev = true).
Proof.
  intros env s u s' H. unfold check_superseded in H. minv H. breflect. split; [done|].
  by eexists _, _.
Qed.

(** The lineage checks of a contract, whichever its revision. *)
Lemma reads_contract_checks c (t : Task) :
  is_int64 (c_RevisionNumber c) ->
  reads
    (if (c_RevisionNumber c =? 1)%Z then
       reject_if (t_State t != StateDraft) ErrContractInsertState;;
       reject_if (match c_SupersedesContractID c with Some s => negb (blank s) | None => false end)
         ErrInvalidContractLineage
     else
       reject_if ((t_State t != StateRevisionRequired) && (t_State t != StateDraft))
         ErrContractInsertState;;
       check_superseded c)
    (fun d _ => forall payload, contract_successor d
      {| k_contract_id := c_ContractID c; k_task_id := c_TaskID c;
         k_revision_number := c_RevisionNumber c;
         k_supersedes_contract_id := c_SupersedesContractID c;
         k_base_sha := c_BaseSHA c; k_payload_json := payload; k_is_immutable := false |}).
Proof.
  intros Hi env s u s' H. unfold contract_successor. cbn.
  destruct (c_RevisionNumber c =? 1)%Z eqn:E; breflect.
  - minv H. auto.
  - apply bind_ok in H as (? & s1 & [_ ->]%reject_if_ok & H).
    destruct (reads_check_superseded _ _ _ _ _ H) as [-> (sup & prev & Hp)].
    split; [done|]. intros _. split; [done|]. split; [done|]. right. by exists sup, prev.
Qed.

Lemma ref_InsertTaskContract c :
  is_int64 (c_RevisionNumber c) -> OpSteps (protos false) (InsertTaskContract c).
Proof.
  intros Hi. unfold InsertTaskContract. do 5 (apply opsteps_guard; [apply _|intros ?]).
  destruct (json_Marshal_contract c) as [payload|]; [|by apply opsteps_throw, _].
  apply opsteps_with_tx; [apply _|]. apply steps_at. intros d. at_step.
  eapply at_read; [by apply reads_contract_checks|]. intros ? Hs. apply at_exec; [apply _|].
  intros d' Hx. split; [|walk]. apply protos_once. by eapply P_contract.
Qed.

(** ** Observation *)
Lemma steps_apply_observation current observed runtime actor invocation at_ :
  (x_TaskState current = "DISPATCHED" \/ x_TaskState current = "RUNNING")%string ->
  Steps (protos false) (apply_observation current observed runtime actor invocation at_).
Proof.
  intros Hst. unfold apply_observation, close_observed. walk.
  cbn beta in *. breflect. split; [done|].
  unfold task_move, task_identity, observed_state in *. cbn.
  match goal with E : t_State _ = task_state_of _ |- _ => rewrite E end.
  destruct Hst as [Hst|Hst]; rewrite Hst in *; cbn [eqb]; repeat case_match; try done.
  all: repeat split; intros; try done; try (by left); cbn in *; congruence.
Qed.
Lemma ref_ObservePostSend expected observed actor invocation at_ :
  OpSteps (protos false) (ObservePostSend expected observed actor invocation at_).
Proof.
  unfold ObservePostSend, guardStopOwnedExecutionTx. walk. all: apply steps_apply_observation; breflect.
  all: match goal with E : ((x_TaskState _ != _) && _)%bool = false |- _ =>
    apply andb_false_iff in E as [E|E]; breflect end; auto.
Qed.
Lemma ref_RecordRecoveryAbsent expected actor at_ :
  OpSteps (protos false) (RecordRecoveryAbsent expected actor at_).
Proof. unfold RecordRecoveryAbsent. walk. apply ref_ObservePostSend. Qed.

(** ** Binding *)
Lemma lane_holder_start taskID now d d' n pairID :
  start_task taskID now d = Ok (d', n) -> lane_holder pairID taskID d' = lane_holder pairID taskID d.
Proof.
  intros (-> & _)%update_tasks_ok. unfold lane_holder. cbn. apply find_upd_skip. intros t Hp.
  breflect. subst taskID. cbn. by rewrite eqb_refl, andb_false_r.
Qed.

Lemma check_binding_ok taskID pairID b env s u s' :
  check_binding taskID pairID b env s = (Ok u, s') ->
  st_db s' = st_db s /\ exists w, find_session pairID (st_db s) = Some w /\
    ws_QuarantineState w = QuarantineClean /\ db_SessionID b = ws_SessionID w /\
    db_TerminalGeneration b = ws_TerminalGeneration w /\
    forall x, In x (task_attempts (st_db s)) -> a_TaskID x = taskID ->
      a_QuarantineState x = QuarantineClean.
Proof.
  unfold check_binding, rejectUnresolvedProvisioning. intros H. minv H. breflect. split; [done|].
  eexists. split; [eassumption|]. repeat split; try congruence. intros y Hin Ht.
  destruct (decide (a_QuarantineState y = QuarantineClean)) as [|Hq]; [done|].
  exfalso. eapply in_affected; [exact Hin| |eassumption]. cbn.
  rewrite Ht, eqb_refl. cbn. apply negb_true_iff. by apply eqb_false.
Qed.

Lemma freeze_ok taskID contractID env s u s' :
  freeze_latest_contract taskID contractID env s = (Ok u, s') ->
  exists k l, find_contract contractID (st_db s) = Some k /\ k_task_id k = taskID /\
    latest_contract taskID (st_db s) = Some l /\ k_revision_number k = k_revision_number l /\
    (st_db s' = st_db s /\ k_is_immutable k = true \/
     exists m, freeze contractID (st_db s) = Ok (st_db s', m) /\ k_is_immutable k = false).
Proof.
  unfold freeze_latest_contract. intros H. minv H; breflect.
  all: match goal with E : max_revision _ _ = Some _ |- _ => unfold max_revision in E;
    destruct (latest_contract _ _) as [l|] eqn:El; [|discriminate E] end.
  all: simplify_eq/=; eexists _, l; split; [eassumption|]; repeat split; try done.
  - right. eexists. split; [unfold freeze; eassumption|done].
  - by left.
Qed.

(** Starting the task and freezing the contract leave the other tables. *)
Lemma start_task_frame taskID now d d' n :
  start_task taskID now d = Ok (d', n) -> exists ts, d' = d <| tasks := ts |>.
Proof. intros (-> & _)%update_tasks_ok. by eexists. Qed.
Lemma freeze_frame (k : ContractRow) d d' :
  (d' = d /\ k_is_immutable k = true \/
   exists m, freeze (k_contract_id k) d = Ok (d', m) /\ k_is_immutable k = false) ->
  exists ks, d' = d <| task_contracts := ks |>.
Proof.
  intros [[-> _]|(m & (-> & _)%update_contracts_ok & _)]; [|by eexists].
  exists (task_contracts d). by destruct d.
Qed.

Lemma dispatch_tx_ok taskID contractID attemptID path now b env s v s' :
  dispatch_tx taskID contractID attemptID path now (Some b) env s = (Ok v, s') ->
  exists a t k w o d1 ev, v = Commit a /\ binds (st_db s) d1 t k w a o /\ logged ev d1 (st_db s') /\
    t_TaskID t = taskID /\ k_contract_id k = contractID /\ a_AttemptID a = attemptID /\
    d_OperationID o = db_OperationID b /\ a_ExpectedReportPath a = path /\ a_StartedAt a = now.
Proof.
  unfold dispatch_tx, mapLifecycleWriteError. intros Hb. minv Hb.
  match goal with E : freeze_latest_contract _ _ _ _ = _ |- _ =>
    apply freeze_ok in E as (k & l & Hk & Hkt & Hl & Hrev & Hfz) end.
  match goal with E : check_binding _ _ _ _ _ = _ |- _ =>
    apply check_binding_ok in E as (Hs8 & w & Hw & Hwc & Hws & Hwg & Hcl) end.
  match goal with E : update_tasks _ _ _ = Ok (?d, ?n) |- _ =>
    change (start_task taskID now (st_db s) = Ok (d, n)) in E; rename E into Hst end.
  match goal with E : find_task _ _ = Some ?y |- _ => rename E into Ht; rename y into t end.
  breflect. match goal with E : start_task _ _ _ = Ok (_, ?c) |- _ => destruct c as [|n]; [done|] end.
  destruct (find_spec _ _ _ Ht) as [_ Htid]. destruct (find_spec _ _ _ Hk) as [_ Hkid].
  apply eqb_eq in Htid, Hkid. destruct Htid, Hkid. breflect.
  match goal with E : is_some (lane_holder _ _ _) = false |- _ =>
    rewrite (lane_holder_start _ _ _ _ _ _ Hst) in E; rename E into Hlane end.
  match goal with E : st_db ?x = _, F : find_contract _ (st_db ?x) = _ |- _ => rewrite E in *; clear E end.
  pose proof Hst as [ts Hd1]%start_task_frame. pose proof Hfz as [ks Hd2]%freeze_frame.
  rewrite Hs8 in *. clear Hs8.
  match goal with E : insert_dispatch ?o _ = Ok ?d1 |- _ => eexists _, t, k, w, o, d1, _ end.
  split; [done|].
  split; [|by repeat split; try eassumption].
  constructor; cbn.
  - eexists n, _, _, _. repeat split; try eassumption.
  - unfold lane_free. by destruct (lane_holder _ _ _).
  - by rewrite Hd1 in *.
  - rewrite Hd1 in Hk, Hl. repeat split; [exact Hk|done|]. by exists l.
  - by rewrite Hd2, Hd1 in Hw.
  - rewrite Hd2, Hd1 in Hcl. exact Hcl.
  - by repeat split; try congruence.
  - by repeat split; try congruence.
Qed.

Lemma ref_PrepareBoundDispatch taskID contractID attemptID path startedAt b :
  OpSteps (protos false) (PrepareBoundDispatch taskID contractID attemptID path startedAt b).
Proof.
  unfold PrepareBoundDispatch, prepareDispatch. walk.
  intros env st v st' (att & t & k & w & o & d1 & ev & _ & Hb & (r & Hr & _) & _)%dispatch_tx_ok.
  eapply rtc_l; [by eapply P_bind|]. apply rtc_once. by eapply P_audit.
Qed.

Lemma ref_AppendAuditEvent ev : OpSteps (protos false) (AppendAuditEvent ev).
Proof. apply opsteps_AppendAuditEvent; [apply _|]. intros r d d' H. apply protos_once. by eapply P_audit. Qed.
End Ops.
