(* ===== verification/System.v ===== *)
(** * System: the store as a state machine

    [op] is the write interface of the store, one constructor per exported
    operation of internal/store; [run_op] runs one operation in an
    environment (clock, randomness, driver outcomes).  [reachable] is what a
    sequence of operations, failed ones included, makes of an empty database.
    The theorems are the guarantees of the store as a whole. *)

From stdpp Require Import relations.
From S2P Require Import Prelude.
From S2P Require Import Domain.
From S2P Require Import Workflow.
From S2P Require Import GoLib.
From S2P Require Import Db.
From S2P Require Import Tx.
From S2P Require Import Scrub.
From S2P Require Import AuditLog.
From S2P Require Import TaskStore.
From S2P Require Import DbFacts.
From S2P Require Import Lifecycle.
From S2P Require Import DispatchStore.
From S2P Require Import StopStore.
From S2P Require Import RestoreStore.
From S2P Require Import RecoveryStore.
From S2P Require Import Clearance.
From S2P Require Import Protocol.
From S2P Require Import History.
From S2P Require Import Invariants.
From S2P Require Import Refinement.
From S2P Require Import SagaRefinement.

Inductive op : Type :=
| OpCreateProject (p : Project)
| OpCreatePair (p : Pair)
| OpCreateTask (t : Task)
| OpTransitionTask (taskID : string) (from to : TaskState)
| OpInsertTaskContract (c : TaskContract)
| OpAppendAuditEvent (ev : AuditEvent)
| OpUpdateWorkerSession (pairID : string) (update : WorkerSessionCASUpdate)
| OpReservePairProvisioning (operation : PairProvisioningOperation) (actor : string)
| OpConfirmPairProvisioning (id : string) (session : WorkerSession) (actor : string) (at_ : Z)
| OpFailPairProvisioning (id actor reason : string) (at_ : Z)
| OpPrepareBoundDispatch (taskID contractID attemptID path : string) (startedAt : Z)
    (binding : DispatchBinding)
| OpRecordPreSendHold (id disposition actor : string) (at_ : Z)
| OpRecordPreSendAdmissibilityRejected (id activity actor : string) (at_ : Z)
| OpResolvePreSendHold (id attemptID disposition session generation activity principal actor : string)
    (at_ : Z)
| OpRecordSendRequested (id session generation activity : string) (terminated : bool) (actor : string)
    (at_ : Z)
| OpRecordSendConfirmed (id actor : string) (ok : bool) (at_ : Z) (policies : list ExecutionBudgetPolicy)
| OpBindLegacyExecutionBudget (attemptID principal scope evidence : string)
    (policy : ExecutionBudgetPolicy) (at_ : Z)
| OpRecordUnknownDelivery (id actor : string) (at_ : Z)
| OpAtomicTerminalTransition (taskID : string) (expected new : TaskState)
    (reason attemptID disposition : string)
| OpAtomicAttemptClosureTransition (taskID attemptID disposition : string)
| OpReserveStopOperation (stop : StopOperation)
| OpValidateTimeoutEffectOwner (id : string)
| OpCommitStopCallAccepted (id : string) (callAt deadline : Z)
| OpCommitStopOutcome (id : string) (outcome : StopTerminalOutcome)
| OpUpdateStopOperationStage (id : string) (expected next : StopStage) (update : StopStageUpdate)
| OpClassifyAbandonedStopAlive (id session generation actor invocation : string) (at_ : Z)
| OpAcceptStopAdministrativeRisk (decision : AdministrativeStopDecision)
| OpReservePairRestore (request : RestoreReservation)
| OpRecordPairRestoreUnknown (id actor : string)
| OpConfirmPairRestore (id session old new mode : string) (status : WorkerSessionStatus) (actor : string)
    (at_ : Z)
| OpResolveConfirmedRestore (id session observed activity principal actor : string) (at_ : Z)
| OpResolveAmbiguousRestore (id pair session generation : string) (basis : RestoreResolutionBasis)
    (evidence principal actor : string) (at_ : Z)
| OpClaimRestoreRecovery (id pair session generation principal actor : string) (at_ : Z)
| OpClaimRestoreCleanupWithStop (stop : StopOperation) (principal actor : string) (at_ : Z)
    (observations : list RestoreCleanupObservation)
| OpRecordRecoverySweepEvent (invocation actor event : string) (at_ : Z)
| OpRecordPostSendOutage (expected : RecoveryExecution) (actor classification invocation : string)
    (at_ : Z)
| OpObservePostSend (expected : RecoveryExecution) (observed : PostSendObservation)
    (actor invocation : string) (at_ : Z)
| OpRecordRecoveryAbsent (expected : RecoveryExecution) (actor : string) (at_ : Z)
| OpClassifyInterruptedRestore (id actor : string) (at_ : Z)
| OpFailProvisioningAtStartup (id actor : string) (at_ : Z)
| OpClearQuarantineWithEvidence (request : QuarantineClearance).

Definition void {A} (m : M A) : M unit := m;; mret tt.

Section System.
Context {L : GoLib}.

Definition run_op (o : op) : M unit :=
  match o with
  | OpCreateProject p => CreateProject p
  | OpCreatePair p => CreatePair p
  | OpCreateTask t => CreateTask t
  | OpTransitionTask taskID from to => TransitionTask taskID from to
  | OpInsertTaskContract c => InsertTaskContract c
  | OpAppendAuditEvent ev => void (AppendAuditEvent ev)
  | OpUpdateWorkerSession pairID u => UpdateWorkerSessionStatusAndQuarantine pairID u
  | OpReservePairProvisioning o actor => ReservePairProvisioning o actor
  | OpConfirmPairProvisioning id w actor at_ => ConfirmPairProvisioning id w actor at_
  | OpFailPairProvisioning id actor reason at_ => FailPairProvisioning id actor reason at_
  | OpPrepareBoundDispatch taskID contractID attemptID path startedAt b =>
      void (PrepareBoundDispatch taskID contractID attemptID path startedAt b)
  | OpRecordPreSendHold id disposition actor at_ => RecordPreSendHold id disposition actor at_
  | OpRecordPreSendAdmissibilityRejected id activity actor at_ =>
      RecordPreSendAdmissibilityRejected id activity actor at_
  | OpResolvePreSendHold id attemptID disposition session generation activity principal actor at_ =>
      ResolvePreSendHold id attemptID disposition session generation activity principal actor at_
  | OpRecordSendRequested id session generation activity terminated actor at_ =>
      RecordSendRequested id session generation activity terminated actor at_
  | OpRecordSendConfirmed id actor ok at_ policies => RecordSendConfirmed id actor ok at_ policies
  | OpBindLegacyExecutionBudget attemptID principal scope evidence policy at_ =>
      BindLegacyExecutionBudget attemptID principal scope evidence policy at_
  | OpRecordUnknownDelivery id actor at_ => RecordUnknownDelivery id actor at_
  | OpAtomicTerminalTransition taskID expected new reason attemptID disposition =>
      AtomicTerminalTransition taskID expected new reason attemptID disposition
  | OpAtomicAttemptClosureTransition taskID attemptID disposition =>
      AtomicAttemptClosureTransition taskID attemptID disposition
  | OpReserveStopOperation stop => ReserveStopOperation stop
  | OpValidateTimeoutEffectOwner id => ValidateTimeoutEffectOwner id
  | OpCommitStopCallAccepted id callAt deadline => CommitStopCallAccepted id callAt deadline
  | OpCommitStopOutcome id outcome => CommitStopOutcome id outcome
  | OpUpdateStopOperationStage id expected next u => UpdateStopOperationStage id expected next u
  | OpClassifyAbandonedStopAlive id session generation actor invocation at_ =>
      ClassifyAbandonedStopAlive id session generation actor invocation at_
  | OpAcceptStopAdministrativeRisk a => AcceptStopAdministrativeRisk a
  | OpReservePairRestore request => ReservePairRestore request
  | OpRecordPairRestoreUnknown id actor => RecordPairRestoreUnknown id actor
  | OpConfirmPairRestore id session old new mode status actor at_ =>
      ConfirmPairRestore id session old new mode status actor at_
  | OpResolveConfirmedRestore id session observed activity principal actor at_ =>
      ResolveConfirmedRestore id session observed activity principal actor at_
  | OpResolveAmbiguousRestore id pairID session generation basis evidence principal actor at_ =>
      ResolveAmbiguousRestore id pairID session generation basis evidence principal actor at_
  | OpClaimRestoreRecovery id pairID session generation principal actor at_ =>
      ClaimRestoreRecovery id pairID session generation principal actor at_
  | OpClaimRestoreCleanupWithStop stop principal actor at_ observations =>
      ClaimRestoreCleanupWithStop stop principal actor at_ observations
  | OpRecordRecoverySweepEvent invocation actor event at_ =>
      RecordRecoverySweepEvent invocation actor event at_
  | OpRecordPostSendOutage expected actor classification invocation at_ =>
      RecordPostSendOutage expected actor classification invocation at_
  | OpObservePostSend expected observed actor invocation at_ =>
      ObservePostSend expected observed actor invocation at_
  | OpRecordRecoveryAbsent expected actor at_ => RecordRecoveryAbsent expected actor at_
  | OpClassifyInterruptedRestore id actor at_ => ClassifyInterruptedRestore id actor at_
  | OpFailProvisioningAtStartup id actor at_ => FailProvisioningAtStartup id actor at_
  | OpClearQuarantineWithEvidence request => ClearQuarantineWithEvidence request
  end.

(** The operations that may lift a quarantine: a positive stop outcome and
    the clearance. *)
Definition releases (o : op) : bool :=
  match o with
  | OpCommitStopOutcome _ outcome => physical_outcome outcome
  | OpUpdateStopOperationStage _ _ next u => stage_releases next u
  | OpClearQuarantineWithEvidence _ => true
  | _ => false
  end.

(** A Go [int] is a 64-bit integer. *)
Definition op_int64 (o : op) : Prop :=
  match o with OpInsertTaskContract c => is_int64 (c_RevisionNumber c) | _ => True end.

Lemma opsteps_void {A} R `{!PreOrder R} (m : M A) : OpSteps R m -> OpSteps R (void m).
Proof. intros H. apply opsteps_bind; [done|done|]. intros. by apply opsteps_ret. Qed.

Lemma ref_ValidateTimeoutEffectOwner id : OpSteps (protos false) (ValidateTimeoutEffectOwner id).
Proof. unfold ValidateTimeoutEffectOwner, getStopOperationTx. walk. Qed.

#[local] Hint Resolve opsteps_void ref_CreateProject ref_CreatePair ref_CreateTask
  ref_TransitionTask ref_InsertTaskContract ref_AppendAuditEvent ref_UpdateWorkerSession
  ref_ReservePairProvisioning ref_ConfirmPairProvisioning ref_FailPairProvisioning
  ref_PrepareBoundDispatch ref_RecordPreSendHold ref_RecordPreSendAdmissibilityRejected
  ref_ResolvePreSendHold ref_RecordSendRequested ref_RecordSendConfirmed
  ref_BindLegacyExecutionBudget ref_RecordUnknownDelivery ref_AtomicTerminalTransition
  ref_AtomicAttemptClosureTransition ref_ReserveStopOperation ref_ValidateTimeoutEffectOwner
  ref_CommitStopCallAccepted ref_CommitStopOutcome ref_UpdateStopOperationStage
  ref_ClassifyAbandonedStopAlive ref_AcceptStopAdministrativeRisk ref_ReservePairRestore
  ref_RecordPairRestoreUnknown ref_ConfirmPairRestore ref_ResolveConfirmedRestore
  ref_ResolveAmbiguousRestore ref_ClaimRestoreRecovery ref_ClaimRestoreCleanupWithStop
  ref_RecordRecoverySweepEvent ref_RecordPostSendOutage ref_ObservePostSend
  ref_RecordRecoveryAbsent ref_ClassifyInterruptedRestore ref_FailProvisioningAtStartup
  ref_ClearQuarantineWithEvidence : store.

Lemma op_refines o : op_int64 o -> OpSteps (protos (releases o)) (run_op o).
Proof. intros Hw. destruct o; cbn in *; auto with store typeclass_instances. Qed.

(** ** Reachable databases *)
Definition step (d d' : DB) : Prop :=
  exists o env n, op_int64 o /\ d' = st_db (snd (run_op o env (mkSt d n))).
Definition evolves : DB -> DB -> Prop := rtc step.
Definition reachable (d : DB) : Prop := evolves empty_db d.

Lemma step_protos d d' : step d d' -> protos true d d'.
Proof.
  intros (o & env & n & Hw & ->). destruct (run_op o env (mkSt d n)) as [r s'] eqn:E.
  pose proof (op_refines o Hw _ _ _ _ E) as H. cbn in H.
  destruct (releases o); [done|]. by apply protos_release.
Qed.
Lemma evolves_protos d d' : evolves d d' -> protos true d d'.
Proof.
  induction 1 as [|d1 d2 d3 H _ IH]; [reflexivity|].
  etransitivity; [by apply step_protos|done].
Qed.
Lemma reachable_inv d : reachable d -> store_inv d.
Proof. intros H. eapply protos_inv; [by apply evolves_protos|apply store_inv_empty]. Qed.
Lemma evolves_history d d' : evolves d d' -> history d d'.
Proof. intros H. eapply protos_history. by apply evolves_protos. Qed.
End System.
