(* ===== verification/Atomicity.v ===== *)
(** * Atomicity: an operation that fails has changed nothing

    Under drivers that may fail or be busy at any statement, but do not lose
    the answer of a commit that took effect, every operation either succeeds
    or leaves the database as it was. *)

From stdpp Require Import relations.
From S2P Require Import Prelude.
From S2P Require Import Domain.
From S2P Require Import Workflow.
From S2P Require Import ReportPath.
From S2P Require Import GoLib.
From S2P Require Import Db.
From S2P Require Import Tx.
From S2P Require Import Scrub.
From S2P Require Import AuditLog.
From S2P Require Import TaskStore.
From S2P Require Import Lifecycle.
From S2P Require Import DispatchStore.
From S2P Require Import StopStore.
From S2P Require Import RestoreStore.
From S2P Require Import RecoveryStore.
From S2P Require Import Clearance.
From S2P Require Import Refinement.
From S2P Require Import System.

(** No commit takes effect and reports an error. *)
Definition no_lost (env : Env) : Prop := forall n, env_io env n <> IoLost.

Definition Atomic {A} (m : M A) : Prop :=
  forall env s e s', no_lost env -> m env s = (Err e, s') -> st_db s' = st_db s.

Lemma atomic_with_tx {A} (body : M (verdict A)) : Atomic (with_tx body).
Proof.
  intros env s e s' Hn. unfold with_tx. destruct (env_io env (st_tick s)); try (by intros [= _ <-]).
  destruct (body env _) as [[[a|a]|e'] s1]; [|by intros [=]|by intros [= _ <-]].
  destruct (env_io env (st_tick s1)) eqn:E; try (by intros [= _ <-]). by destruct (Hn (st_tick s1)).
Qed.
Lemma atomic_pure {A} (m : M A) : OpSteps eq m -> Atomic m.
Proof. intros H env s e s' _ Hr. symmetry. by eapply H. Qed.
Lemma atomic_bind {A B} (m : M A) (k : A -> M B) :
  OpSteps eq m -> (forall a, Atomic (k a)) -> Atomic (m ≫= k).
Proof.
  intros Hm Hk env s e s' Hn. unfold mbind, M_bind. destruct (m env s) as [[a|e'] s1] eqn:E.
  - intros H. apply Hm in E. rewrite E. by eapply Hk.
  - intros [= _ <-]. by apply Hm in E.
Qed.
Lemma atomic_then_ret {A B} (m : M A) (f : A -> B) : Atomic m -> Atomic (a ← m; mret (f a)).
Proof.
  intros Hm env s e s' Hn. unfold mbind, M_bind. destruct (m env s) as [[a|e'] s1] eqn:E; [done|].
  intros [= _ <-]. by eapply Hm.
Qed.
Lemma atomic_map_err {A} g (m : M A) : Atomic m -> Atomic (map_err g m).
Proof.
  intros Hm env s e s' Hn. unfold map_err. destruct (m env s) as [[a|e'] s1] eqn:E; [done|].
  intros [= _ <-]. by eapply Hm.
Qed.
Lemma atomic_throw {A} e : Atomic (A:=A) (throw e).
Proof. apply atomic_pure, opsteps_throw, _. Qed.
Lemma atomic_ret {A} (a : A) : Atomic (mret a).
Proof. apply atomic_pure, opsteps_ret, _. Qed.
Lemma atomic_reject c e : Atomic (reject_if c e).
Proof. apply atomic_pure, opsteps_reject, _. Qed.

Ltac atomic_walk :=
  repeat first
    [ progress intros
    | apply atomic_with_tx | apply atomic_throw | apply atomic_ret | apply atomic_reject
    | match goal with
      | |- Atomic (mbind _ (reject_if _ _)) => apply atomic_bind; [apply opsteps_reject, _|]
      | |- Atomic (mbind _ (now_if_zero _)) => apply atomic_bind; [apply opsteps_now, _|]
      | |- Atomic (mbind _ newAuditEventID) => apply atomic_bind; [apply opsteps_eventID, _|]
      | |- Atomic (mbind _ timeNow) => apply atomic_bind; [apply opsteps_timeNow, _|]
      | |- Atomic (let _ := _ in _) => cbv zeta
      | |- Atomic (map_err _ _) => apply atomic_map_err
      | |- Atomic (autocommit _) => apply atomic_with_tx
      | |- Atomic (if ?c then _ else _) => destruct c
      | |- Atomic (match ?c with _ => _ end) => destruct c
      end
    | solve [eauto with tbl] ].

Section Ops.
Context {L : GoLib}.

(** *** The retried append *)
Definition probed (m : M (verdict (AuditRecord + logical_error))) : Prop :=
  forall env s a s', m env s = (Ok (Commit a), s') -> exists r, a = inl r.
Lemma probed_probe c f text k : probed k -> probed (probe c f text k).
Proof.
  intros Hk. unfold probe. destruct c; [|done]. intros env s a s' H.
  apply bind_ok in H as (b & s1 & _ & H). destruct b; [by eapply Hk|].
  unfold rollback in H. by apply ret_ok in H as [? _].
Qed.

Lemma append_attempt_unchanged ev json env s r s' :
  no_lost env -> append_attempt ev json env s = (r, s') -> (forall a, r <> Ok (inl a)) ->
  st_db s' = st_db s.
Proof.
  intros Hn (r1 & H & Hd)%duplicate_as_text_cases Hr.
  destruct r1 as [v|e]; [|by eapply atomic_with_tx in H]. destruct Hd as [<-|[[=] _]].
  match type of H with with_tx ?b _ _ = _ => assert (probed b) as Hp end.
  { repeat apply probed_probe. intros env1 s1 a s2 H1. apply bind_ok in H1 as (x & s3 & _ & H1).
    unfold commit in H1. apply ret_ok in H1 as [[= ->] _]. by eexists. }
  apply with_tx_ok in H as (s1 & [[Hb _]|[_ ->]]); [|done].
  destruct (Hp _ _ _ _ Hb) as [x ->]. by destruct (Hr x).
Qed.

Lemma atomic_withRetry ev json n : Atomic (withRetry n (append_attempt ev json)).
Proof.
  induction n as [|n IH]; [apply atomic_throw|]. cbn [withRetry]. intros env s e s' Hn.
  assert (Atomic (backoff;; withRetry n (append_attempt ev json))) as Hb.
  { apply atomic_bind; [|done]. apply opsteps_query, _. }
  destruct (append_attempt ev json env s) as [[[a|[e' text]]|e'] s1] eqn:E; [done| |].
  all: pose proof (append_attempt_unchanged _ _ _ _ _ _ Hn E ltac:(done)) as Hs.
  - destruct (mentions_busy text); [|by intros [= _ <-]]. intros H. rewrite <- Hs. by eapply Hb.
  - destruct (driver_busy _ _ _); [|by intros [= _ <-]]. intros H. rewrite <- Hs. by eapply Hb.
Qed.
#[local] Hint Resolve atomic_withRetry : tbl.

Lemma atomic_CommitStopOutcome id outcome : Atomic (CommitStopOutcome id outcome).
Proof. unfold CommitStopOutcome. atomic_walk. Qed.
Lemma atomic_CommitStopCallAccepted id call deadline : Atomic (CommitStopCallAccepted id call deadline).
Proof. unfold CommitStopCallAccepted. atomic_walk. Qed.
Lemma atomic_GetStop id : OpSteps eq (GetStopOperation id).
Proof. unfold GetStopOperation. opsteps_walk. Qed.
#[local] Hint Resolve atomic_CommitStopOutcome atomic_CommitStopCallAccepted : tbl.

Lemma op_atomic o : Atomic (run_op o).
Proof.
  destruct o; cbn [run_op]; unfold void; try (apply atomic_then_ret).
  all: try (unfold CreateProject, CreatePair, CreateTask, TransitionTask, InsertTaskContract,
    AppendAuditEvent, UpdateWorkerSessionStatusAndQuarantine, ReservePairProvisioning,
    ConfirmPairProvisioning, FailPairProvisioning, PrepareBoundDispatch, prepareDispatch,
    RecordPreSendHold, RecordPreSendAdmissibilityRejected, ResolvePreSendHold, RecordSendRequested,
    RecordSendConfirmed, BindLegacyExecutionBudget, RecordUnknownDelivery, AtomicTerminalTransition,
    AtomicAttemptClosureTransition, ReserveStopOperation, ValidateTimeoutEffectOwner,
    ClassifyAbandonedStopAlive, AcceptStopAdministrativeRisk, ReservePairRestore,
    RecordPairRestoreUnknown, transitionRestore, ConfirmPairRestore, ResolveConfirmedRestore,
    ResolveAmbiguousRestore, ClaimRestoreRecovery, ClaimRestoreCleanupWithStop,
    RecordRecoverySweepEvent, RecordPostSendOutage, RecordRecoveryAbsent, ObservePostSend,
    ClassifyInterruptedRestore, FailProvisioningAtStartup, ClearQuarantineWithEvidence, transition_ok;
    atomic_walk; fail).
  unfold UpdateStopOperationStage. repeat (atomic_walk; try (apply atomic_bind; [apply atomic_GetStop|])).
Qed.
End Ops.
