(* ===== verification/Sample.v ===== *)
(** * Sample: a concrete library and scenarios the theorems apply to

    A small instance of [GoLib] (length-prefixed encoding for JSON, a checksum
    for SHA-256, no redaction) and histories of the store computed with it. *)

From stdpp Require Import relations.
From S2P Require Import Prelude.
From S2P Require Import Domain.
From S2P Require Import Workflow.
From S2P Require Import GoLib.
From S2P Require Import Db.
From S2P Require Import Tx.
From S2P Require Import Scrub.
From S2P Require Import AuditLog.
From S2P Require Import TaskStore.
From S2P Require Import Lifecycle.
From S2P Require Import DispatchStore.
From S2P Require Import StopStore.
From S2P Require Import RestoreStore.
From S2P Require Import RecoveryStore.
From S2P Require Import Clearance.
From S2P Require Import System.

(** ** A text encoding of values *)
Definition number (n : nat) (z : Z) : string := digits n z.
Definition enc_text (s : string) : string := number 6 (Z.of_nat (String.length s)) ++ s.
Fixpoint enc_value (v : value) : string :=
  match v with
  | VNull => "n"
  | VBool b => if b then "t" else "f"
  | VInt z => "i" ++ (if (z <? 0)%Z then "-" else "+") ++ number 20 (Z.abs z)
  | VNum t => "d" ++ enc_text t
  | VStr s => "s" ++ enc_text s
  | VList l => "l" ++ number 6 (Z.of_nat (length l)) ++ fold_right String.append "" (map enc_value l)
  | VMap m => "m" ++ number 6 (Z.of_nat (length m))
              ++ fold_right String.append "" (map (fun kv => enc_text (fst kv) ++ enc_value (snd kv)) m)
  end%string.

Fixpoint take_text (n : nat) (s : string) : option (string * string) :=
  match n, s with
  | O, _ => Some (""%string, s)
  | S n', String a t => option_map (fun r => (String a (fst r), snd r)) (take_text n' t)
  | S _, EmptyString => None
  end.
Fixpoint read_number (n : nat) (acc : Z) (s : string) : option (Z * string) :=
  match n, s with
  | O, _ => Some (acc, s)
  | S n', String a t => read_number n' (acc * 10 + (Z.of_N (byte_of a) - 48))%Z t
  | S _, EmptyString => None
  end.
Definition dec_text (s : string) : option (string * string) :=
  nr ← read_number 6 0 s; take_text (Z.to_nat (fst nr)) (snd nr).
Fixpoint dec_value (fuel : nat) (s : string) : option (value * string) :=
  match fuel, s with
  | S fuel', String c t =>
      if (c =? "n")%char then Some (VNull, t)
      else if (c =? "t")%char then Some (VBool true, t)
      else if (c =? "f")%char then Some (VBool false, t)
      else if (c =? "s")%char then r ← dec_text t; Some (VStr (fst r), snd r)
      else if (c =? "d")%char then r ← dec_text t; Some (VNum (fst r), snd r)
      else if (c =? "i")%char then
        match t with
        | String sign u => r ← read_number 20 0 u;
                           Some (VInt (if (sign =? "-")%char then - fst r else fst r)%Z, snd r)
        | _ => None
        end
      else
        nr ← read_number 6 0 t;
        if (c =? "l")%char then
          (fix go (n : nat) (acc : list value) (u : string) :=
             match n with
             | O => Some (VList (rev acc), u)
             | S n' => r ← dec_value fuel' u; go n' (fst r :: acc) (snd r)
             end) (Z.to_nat (fst nr)) [] (snd nr)
        else if (c =? "m")%char then
          (fix go (n : nat) (acc : list (string * value)) (u : string) :=
             match n with
             | O => Some (VMap (rev acc), u)
             | S n' => k ← dec_text u; r ← dec_value fuel' (snd k); go n' ((fst k, fst r) :: acc) (snd r)
             end) (Z.to_nat (fst nr)) [] (snd nr)
        else None
  | _, _ => None
  end.

Definition checksum (s : string) : Z :=
  (fix go (acc : Z) (s : string) : Z :=
     match s with
     | EmptyString => acc
     | String a t => go ((acc * 257 + Z.of_N (byte_of a) + 1) mod 2305843009213693951)%Z t
     end) 7%Z s.

#[export] Instance sample_lib : GoLib := {|
  regexp_ReplaceAllString := fun pattern src repl => src;
  json_Marshal := fun m => Some (enc_value (VMap m));
  json_Unmarshal := fun s => match dec_value 8 s with Some (VMap m, _) => Some m | _ => None end;
  json_Marshal_contract := fun c =>
    Some (enc_text (c_ContractID c) ++ enc_text (c_TaskID c) ++ number 20 (c_RevisionNumber c)
          ++ enc_text (c_BaseSHA c))%string;
  json_Unmarshal_contract := fun s => None;
  sha256_hex := fun s => number 20 (checksum s) |}.

(** ** An environment and the histories of the store in it *)
Definition T0 : Z := (63838800000 * 1000000000)%Z.
Definition calm : Env := {|
  env_clock := fun n => (T0 + Z.of_nat n)%Z;
  env_entropy := fun n => Some (number 8 (Z.of_nat n));
  env_io := fun _ => IoOk;
  env_text := fun _ => "disk I/O error" |}.

Lemma calm_healthy : healthy calm.
Proof. done. Qed.

Fixpoint play (ops : list op) (s : St) : St :=
  match ops with
  | [] => s
  | o :: rest => play rest (snd (run_op o calm s))
  end.
(** The results of the operations, in order. *)
Fixpoint results (ops : list op) (s : St) : list (option err) :=
  match ops with
  | [] => []
  | o :: rest =>
      let rs := run_op o calm s in
      (match fst rs with Ok _ => None | Err e => Some e end) :: results rest (snd rs)
  end.
Definition start : St := mkSt empty_db 0.
Definition after (ops : list op) : DB := st_db (play ops start).

Lemma play_evolves ops : Forall op_int64 ops -> forall s, evolves (st_db s) (st_db (play ops s)).
Proof.
  induction 1 as [|o ops Ho _ IH]; intros s; cbn; [apply rtc_refl|].
  eapply rtc_l; [|apply IH]. exists o, calm, (st_tick s). split; [done|]. by destruct s.
Qed.
Lemma after_reachable ops : Forall op_int64 ops -> reachable (after ops).
Proof. intros H. apply (play_evolves ops H start). Qed.

(** ** A task dispatched, confirmed, run and stopped *)
Definition base_project := mkProject "proj" "Project" "/work" "" T0.
Definition base_pair := mkPair "pair" "proj" "phase-1" "" "ACTIVE" T0.
Definition base_task (id : string) := mkTask id "phase-1" "pair" StateDraft 0 T0 T0.
Definition base_contract (id task : string) (rev : Z) (sup : option string) : TaskContract :=
  mkTaskContract id task rev sup "phase-1" "objective" None None "abc" None None None None None None
    "worker" "report" None false.
Definition base_session := mkWorkerSession "pair" "sess" "ao" None "agent" WorkerSessionIdle "gen-1"
  QuarantineClean T0 T0.
Definition base_binding (id : string) := mkDispatchBinding id "sess" "gen-1".

Definition setup : list op :=
  [OpCreateProject base_project; OpCreatePair base_pair;
   OpCreateTask (base_task "t1"); OpCreateTask (base_task "t2");
   OpInsertTaskContract (base_contract "c1" "t1" 1 None);
   OpInsertTaskContract (base_contract "c2" "t2" 1 None);
   OpTransitionTask "t1" StateDraft StateReady; OpTransitionTask "t2" StateDraft StateReady;
   OpReservePairProvisioning (mkPairProvisioningOperation "prov" "pair" ProvisionRequested "token" None
     T0 None None None None) "actor";
   OpConfirmPairProvisioning "prov" base_session "actor" (T0 + 10)].
Definition dispatch1 : op :=
  OpPrepareBoundDispatch "t1" "c1" "a1" ".supervisor/reports/t1/a1.json" (T0 + 20)
    (base_binding "disp").
Definition dispatched : list op := setup ++ [dispatch1].
Definition sent : list op :=
  dispatched ++ [OpRecordSendRequested "disp" "sess" "gen-1" "idle" false "actor" (T0 + 30)].
Definition policy := mkExecutionBudgetPolicy 1000 "policy-v1".
Definition confirmed : list op :=
  sent ++ [OpRecordSendConfirmed "disp" "actor" true (T0 + 40) [policy]].
Definition running_execution : RecoveryExecution :=
  mkRecoveryExecution "disp" "pair" "t1" "c1" "a1" "sess" "gen-1" "DISPATCHED" "SEND_CONFIRMED" None.
Definition running : list op :=
  confirmed ++ [OpObservePostSend running_execution
    (mkPostSendObservation "sess" "gen-1" "active" false false false) "actor" "inv" (T0 + 50)].
Definition stop_request : StopOperation :=
  mkStopOperation "stop" RunningAttemptStop "pair" (Some "t1"%string) (Some "c1"%string)
    (Some "a1"%string) "sess" "gen-1" StopRequested "actor" (T0 + 60) None None None None
    StopResolutionInFlight None None None.
Definition stopping : list op :=
  running ++ [OpReserveStopOperation stop_request;
              OpCommitStopCallAccepted "stop" (T0 + 70) (T0 + 100)].
Definition confirmed_outcome (at_ : Z) : StopTerminalOutcome :=
  mkStopTerminalOutcome StopCallSucceeded StopTerminationConfirmed StopResolutionTerminationConfirmed
    at_ "sess" "gen-1" true.
Definition stopped : list op := stopping ++ [OpCommitStopOutcome "stop" (confirmed_outcome (T0 + 80))].

(** ** The session restored, and the task tried again *)
Definition restore_request : RestoreReservation :=
  mkRestoreReservation "auth" "restore" "pair" "sess" "gen-1" "POSSIBLE_PROMPT_REPLAY" "operator"
    "actor" (T0 + 110).
Definition restoring : list op := stopped ++ [OpReservePairRestore restore_request].
Definition restored : list op :=
  restoring ++ [OpConfirmPairRestore "restore" "sess" "gen-1" "gen-2" "native" WorkerSessionIdle "actor"
                  (T0 + 120);
                OpResolveConfirmedRestore "restore" "sess" "gen-2" "idle" "operator" "actor" (T0 + 130)].

(** ** A delivery without answer, its cleanup and the release of the quarantine *)
Definition unknown : list op := sent ++ [OpRecordUnknownDelivery "disp" "actor" (T0 + 40)].
Definition cleanup_request : StopOperation :=
  mkStopOperation "clean" QuarantineCleanup "pair" (Some "t1"%string) (Some "c1"%string)
    (Some "a1"%string) "sess" "gen-1" StopRequested "actor" (T0 + 60) None None None None
    StopResolutionInFlight None None None.
Definition cleaned : list op :=
  unknown ++ [OpReserveStopOperation cleanup_request;
              OpCommitStopCallAccepted "clean" (T0 + 70) (T0 + 100);
              OpCommitStopOutcome "clean" (confirmed_outcome (T0 + 80))].
Definition cleared_lineage (attempt : string) : LineageClearance :=
  mkLineageClearance attempt "sess" "gen-1" ClearancePhysical "clean" "evidence".
Definition clearance : QuarantineClearance :=
  mkQuarantineClearance "pair" "" "operator" (T0 + 90) (cleared_lineage "") [cleared_lineage "a1"].
Definition cleared : list op := cleaned ++ [OpClearQuarantineWithEvidence clearance].

Example restored_results : results restored start = map (fun _ => None) restored.
Proof. vm_compute. reflexivity. Qed.
Example cleared_results : results cleared start = map (fun _ => None) cleared.
Proof. vm_compute. reflexivity. Qed.

(** ** Histories in the theorems *)
Lemma after_evolves ops1 ops2 :
  Forall op_int64 ops2 -> evolves (after ops1) (after (ops1 ++ ops2)).
Proof.
  intros H. unfold after.
  assert (forall s, play (ops1 ++ ops2) s = play ops2 (play ops1 s)) as ->.
  { induction ops1 as [|o ops IH]; intros s; [done|]. cbn. apply IH. }
  exact (play_evolves ops2 H (play ops1 start)).
Qed.

Lemma later_evolves ops1 ops2 :
  take (length ops1) ops2 = ops1 -> Forall op_int64 ops2 -> evolves (after ops1) (after ops2).
Proof.
  intros Ht H. rewrite <- (take_drop (length ops1) ops2), Ht. apply after_evolves.
  by apply Forall_drop.
Qed.

(** [int64s] checks that the numbers of a history fit a Go int. *)
Ltac int64s := repeat constructor; cbn; try done; unfold is_int64, min_int64, max_int64; lia.


(** [row_in] finds a row in a table of a history. *)
Ltac row_in := vm_compute; repeat (first [left; reflexivity | right]).

(** The first row of a table. *)
Ltac first_row l :=
  let v := eval vm_compute in l in match v with cons ?r _ => exact r end.
Definition running_task : Task := ltac:(first_row (tasks (after running))).
Definition running_attempt : TaskAttempt := ltac:(first_row (task_attempts (after running))).
Definition frozen_contract : ContractRow := ltac:(first_row (task_contracts (after running))).
Definition confirmed_dispatch : DispatchOperation :=
  ltac:(first_row (dispatch_operations (after running))).
Definition bound_budget : ExecutionBudget :=
  ltac:(first_row (attempt_execution_budgets (after running))).
Definition accepted_stop : StopOperation := ltac:(first_row (stop_operations (after stopping))).
Definition confirmed_stop : StopOperation := ltac:(first_row (stop_operations (after stopped))).
Definition closed_attempt : TaskAttempt := ltac:(first_row (task_attempts (after stopped))).
Definition pending_restore : PairRestoreOperation :=
  ltac:(first_row (pair_restore_operations (after restoring))).
Definition resolved_restore : PairRestoreOperation :=
  ltac:(first_row (pair_restore_operations (after restored))).

(** [calm] with one statement failing. *)
Definition failing (at_ : nat) : Env := {|
  env_clock := env_clock calm; env_entropy := env_entropy calm;
  env_io := fun n => if (n =? at_)%nat then IoFail else IoOk;
  env_text := env_text calm |}.

Lemma run_err {A} (m : M A) env s e : fst (m env s) = Err e -> m env s = (Err e, snd (m env s)).
Proof. destruct (m env s); cbn. by intros ->. Qed.
Lemma run_ok {A} (m : M A) env s a : fst (m env s) = Ok a -> m env s = (Ok a, snd (m env s)).
Proof. destruct (m env s); cbn. by intros ->. Qed.

(** A history is reachable. *)
Ltac reach := apply after_reachable; int64s.
(** A later history evolves from an earlier one. *)
Ltac evolve := apply later_evolves; [reflexivity | int64s].
(** The hypotheses of a theorem about histories. *)
Ltac history_hyp :=
  lazymatch goal with
  | |- reachable _ => reach
  | |- evolves _ _ => evolve
  | |- In _ _ => row_in
  | |- _ = _ => vm_compute; reflexivity
  | |- _ => done
  end.
