(* ===== verification/Uniqueness.v ===== *)
(** * Uniqueness: the UNIQUE columns and indexes of the schema

    Beside its primary key (Invariants.v) a table may have UNIQUE columns, and
    partial indexes that bind the rows of one kind only.  A statement compares
    the rows it writes with the others; here it is proved, statement by
    statement, that this keeps every index of the version 5 schema unique. *)

From stdpp Require Import relations.
From S2P Require Import Prelude.
From S2P Require Import Domain.
From S2P Require Import GoLib.
From S2P Require Import Db.
From S2P Require Import AuditLog.
From S2P Require Import TaskStore.
From S2P Require Import DbFacts.
From S2P Require Import Lifecycle.
From S2P Require Import StopStore.
From S2P Require Import Protocol.
From S2P Require Import History.
From S2P Require Import Invariants.

(** ** An index *)
Section Index.
Context {A B : Type}.
Implicit Types (l : list A).

(** A row has an entry in the index or, its key NULL or the row outside the
    index, none. *)
Definition unique (key : A -> option B) l : Prop :=
  forall x y k, In x l -> In y l -> key x = Some k -> key y = Some k -> x = y.

Lemma unique_nil key : unique key [].
Proof. by intros x. Qed.

Lemma unique_snoc key l r :
  unique key l -> (forall x k, In x l -> key x = Some k -> key r = Some k -> False) ->
  unique key (l ++ [r]).
Proof.
  intros Hu Hr x y k [Hx|[<-|[]]]%in_app_or [Hy|[<-|[]]]%in_app_or Ex Ey; try done.
  - by eapply Hu.
  - by destruct (Hr x k).
  - by destruct (Hr y k).
Qed.

(** An update keeps the entries of the rows it writes, or removes them. *)
Lemma unique_upd key p f l :
  unique key l -> (forall x, In x l -> p x = true -> key (f x) = key x \/ key (f x) = None) ->
  unique key (upd p f l).
Proof.
  intros Hu Hf. assert (forall x k, In x l -> key (if p x then f x else x) = Some k -> key x = Some k) as Hk.
  { intros x k Hx. destruct (p x) eqn:E; [|done]. destruct (Hf x Hx E) as [->| ->]; done. }
  intros x y k (a & Ha & ->)%in_upd (b & Hb & ->)%in_upd Ex Ey.
  by rewrite (Hu a b k Ha Hb (Hk a k Ha Ex) (Hk b k Hb Ey)).
Qed.
End Index.

Definition pair_project (p : Pair) : option string := Some (p_ProjectID p).
Definition event_id (r : AuditRow) : option string := Some (e_event_id r).
Definition event_hash (r : AuditRow) : option string := Some (e_event_hash r).
Definition session_id (w : WorkerSession) : option string := Some (ws_SessionID w).
(** idx_pair_provisioning_unresolved *)
Definition provisioning_pair (o : PairProvisioningOperation) : option string :=
  if provisioning_unresolved o then Some (pp_PairID o) else None.
(** idx_one_live_stop_per_attempt *)
Definition live_stop_attempt (o : StopOperation) : option string :=
  if so_Purpose o == RunningAttemptStop then so_AttemptID o else None.
Definition authorized_operation (a : RestoreAuthorization) : option string := Some (ra_OperationID a).
Definition authorization_event (a : RestoreAuthorization) : option string :=
  Some (ra_AuthorizationEventID a).
Definition restore_authorization (o : PairRestoreOperation) : option string := Some (ro_AuthorizationID o).
(** idx_pair_restore_unresolved *)
Definition unresolved_pair (o : PairRestoreOperation) : option string :=
  if restore_unresolved o then Some (ro_PairID o) else None.
Definition budget_dispatch (b : ExecutionBudget) : option string := Some (b_DispatchOperationID b).

Record indexes_unique (d : DB) : Prop := mkindexes {
  ix_pair_project : unique pair_project (pairs d);
  ix_superseded : unique k_supersedes_contract_id (task_contracts d);
  ix_event_id : unique event_id (audit_events d);
  ix_event_hash : unique event_hash (audit_events d);
  ix_session_id : unique session_id (worker_sessions d);
  ix_provisioning : unique provisioning_pair (pair_provisioning_operations d);
  ix_stop_restore : unique so_RestoreOperationID (stop_operations d);
  ix_live_stop : unique live_stop_attempt (stop_operations d);
  ix_authorized : unique authorized_operation (restore_authorizations d);
  ix_authorization_event : unique authorization_event (restore_authorizations d);
  ix_consumed : unique ra_ConsumedByOperationID (restore_authorizations d);
  ix_restore_authorization : unique restore_authorization (pair_restore_operations d);
  ix_resolution_event : unique ro_ResolutionEventID (pair_restore_operations d);
  ix_unresolved : unique unresolved_pair (pair_restore_operations d);
  ix_budget_dispatch : unique budget_dispatch (attempt_execution_budgets d) }.

Lemma empty_indexes : indexes_unique empty_db.
Proof. constructor; apply unique_nil. Qed.

(** ** The statements *)
(** [guards H]: the constraints a successful statement has passed. *)
Ltac guards H :=
  repeat match type of H with
  | guard_sql _ _ _ = Ok _ => let G := fresh "G" in apply guard_sql_ok in H as [G H]
  end;
  first [injection H as <- _ | injection H as <-].

Ltac key_unfold :=
  unfold pair_project, event_id, event_hash, session_id, provisioning_pair, live_stop_attempt,
    authorized_operation, authorization_event, restore_authorization, unresolved_pair,
    budget_dispatch in *.

(** The new row has no entry of another row: its key is one of those the
    UNIQUE clause has compared. *)
Ltac fresh_entry :=
  let x := fresh "x" in let k := fresh "k" in let Hx := fresh "Hx" in
  let Ex := fresh "Ex" in let Er := fresh "Er" in
  intros x k Hx Ex Er;
  repeat match goal with G : existsb _ _ = false |- _ =>
    first [let F := fresh "F" in pose proof (existsb_false_in _ _ x G Hx) as F; cbn in F; clear G | clear G] end;
  key_unfold; repeat case_match; try done; simplify_eq; breflect;
  repeat match goal with E : _ = Some _ |- _ => rewrite E in * end; cbn in *; breflect; congruence.

Ltac indexed H :=
  intros H X; guards H; destruct X; constructor; cbn; try assumption;
  (apply unique_snoc; [assumption|]; fresh_entry).

Section Statements.
Implicit Types (d : DB).

Lemma indexed_project p d d' : insert_project p d = Ok d' -> indexes_unique d -> indexes_unique d'.
Proof. unfold insert_project. indexed H. Qed.
Lemma indexed_pair p d d' : insert_pair p d = Ok d' -> indexes_unique d -> indexes_unique d'.
Proof. unfold insert_pair. indexed H. Qed.
Lemma indexed_task t d d' : insert_task t d = Ok d' -> indexes_unique d -> indexes_unique d'.
Proof. unfold insert_task. indexed H. Qed.
Lemma indexed_contract k d d' : insert_contract k d = Ok d' -> indexes_unique d -> indexes_unique d'.
Proof. unfold insert_contract. indexed H. Qed.
Lemma indexed_attempt a d d' : insert_attempt a d = Ok d' -> indexes_unique d -> indexes_unique d'.
Proof. unfold insert_attempt. indexed H. Qed.
Lemma indexed_session w d d' : insert_session w d = Ok d' -> indexes_unique d -> indexes_unique d'.
Proof. unfold insert_session. indexed H. Qed.
Lemma indexed_insert_provisioning o d d' :
  insert_provisioning o d = Ok d' -> indexes_unique d -> indexes_unique d'.
Proof. unfold insert_provisioning. indexed H. Qed.
Lemma indexed_dispatch o d d' : insert_dispatch o d = Ok d' -> indexes_unique d -> indexes_unique d'.
Proof. unfold insert_dispatch. indexed H. Qed.
Lemma indexed_stop o d d' : insert_stop o d = Ok d' -> indexes_unique d -> indexes_unique d'.
Proof. unfold insert_stop. indexed H. Qed.
Lemma indexed_authorization a d d' :
  insert_authorization a d = Ok d' -> indexes_unique d -> indexes_unique d'.
Proof. unfold insert_authorization. indexed H. Qed.
Lemma indexed_restore o d d' : insert_restore o d = Ok d' -> indexes_unique d -> indexes_unique d'.
Proof. unfold insert_restore. indexed H. Qed.
Lemma indexed_budget b d d' : insert_budget b d = Ok d' -> indexes_unique d -> indexes_unique d'.
Proof. unfold insert_budget. indexed H. Qed.
Lemma indexed_appends `{L : GoLib} r d d' : appends r d d' -> indexes_unique d -> indexes_unique d'.
Proof.
  intros (-> & _ & _ & _ & Hi & _ & Hh) X. unfold has_event in Hi. destruct X; constructor; cbn;
    try assumption; (apply unique_snoc; [assumption|]; fresh_entry).
Qed.

Ltac updated_index H Hid :=
  intros H Hid X; guards H; destruct X; constructor; cbn; try assumption;
  (apply unique_upd; [assumption|]; intros r Hr Hp; specialize (Hid r Hr Hp); key_unfold;
   destruct_and?; left; congruence).

Lemma indexed_update_tasks p f d d' n :
  update_tasks p f d = Ok (d', n) -> indexes_unique d -> indexes_unique d'.
Proof. unfold update_tasks. intros H X. guards H. by destruct X. Qed.
Lemma indexed_update_attempts p f d d' n :
  update_attempts p f d = Ok (d', n) -> indexes_unique d -> indexes_unique d'.
Proof. unfold update_attempts. intros H X. guards H. by destruct X. Qed.
Lemma indexed_update_dispatch p f d d' n :
  update_dispatch p f d = Ok (d', n) -> indexes_unique d -> indexes_unique d'.
Proof. unfold update_dispatch. intros H X. guards H. by destruct X. Qed.
Lemma indexed_update_resolution p x d d' n :
  update_dispatch_resolution p x d = Ok (d', n) -> indexes_unique d -> indexes_unique d'.
Proof. unfold update_dispatch_resolution. intros H X. guards H. by destruct X. Qed.
Lemma indexed_freeze k d d' n : freeze k d = Ok (d', n) -> indexes_unique d -> indexes_unique d'.
Proof.
  unfold freeze, update_contracts. intros H X. guards H. destruct X. constructor; cbn; try assumption.
  apply unique_upd; [assumption|]. by left.
Qed.
Lemma indexed_update_sessions p f d d' n :
  update_sessions p f d = Ok (d', n) ->
  (forall w, In w (worker_sessions d) -> p w = true -> ws_SessionID (f w) = ws_SessionID w) ->
  indexes_unique d -> indexes_unique d'.
Proof. unfold update_sessions. updated_index H Hid. Qed.
Lemma indexed_update_stops p f d d' n :
  update_stops p f d = Ok (d', n) ->
  (forall o, In o (stop_operations d) -> p o = true ->
     so_RestoreOperationID (f o) = so_RestoreOperationID o /\ so_Purpose (f o) = so_Purpose o /\
     so_AttemptID (f o) = so_AttemptID o) ->
  indexes_unique d -> indexes_unique d'.
Proof.
  unfold update_stops. intros H Hid X. guards H. destruct X. constructor; cbn; try assumption;
    (apply unique_upd; [assumption|]; intros r Hr Hp; destruct (Hid r Hr Hp) as (E1 & E2 & E3);
     key_unfold; rewrite ?E1, ?E2, ?E3; by left).
Qed.
(** A resolved provisioning has left the index, and no stage leads back. *)
Lemma indexed_update_provisioning p f d d' n :
  update_provisioning p f d = Ok (d', n) ->
  (forall o, In o (pair_provisioning_operations d) -> p o = true -> provisioning_move o (f o)) ->
  indexes_unique d -> indexes_unique d'.
Proof.
  unfold update_provisioning. intros H Hid X. guards H. destruct X. constructor; cbn; try assumption.
  apply unique_upd; [assumption|]. intros r Hr Hp. destruct (Hid r Hr Hp) as (_ & E & _ & _ & Ht).
  unfold provisioning_pair, provisioning_unresolved. rewrite E.
  destruct (pp_Stage r), (pp_Stage (f r)); try done; by (left + right).
Qed.
Lemma indexed_update_restores p f d d' n :
  update_restores p f d = Ok (d', n) -> keys_unique d -> indexes_unique d -> indexes_unique d'.
Proof.
  unfold update_restores. intros H K X. guards H.
  assert (forall o, In o (pair_restore_operations d) -> p o = true -> restore_trigger o (f o) = false) as Ht.
  { intros o Ho Hp. pose proof (existsb_false_in _ _ o G Ho) as E. cbn in E. by rewrite Hp in E. }
  assert (forall o, In o (pair_restore_operations d) -> p o = true ->
    ro_OperationID (f o) = ro_OperationID o /\ ro_AuthorizationID (f o) = ro_AuthorizationID o /\
    ro_PairID (f o) = ro_PairID o /\
    (restore_unresolved (f o) = true -> restore_unresolved o = true)) as Hid.
  { intros o Ho Hp. pose proof (restore_later_step _ _ (Ht o Ho Hp)) as (-> & -> & -> & _).
    split_and!; [done..|]. apply restore_step_unresolved, (Ht o Ho Hp). }
  assert (forall x y k, In x (pair_restore_operations d) -> In y (pair_restore_operations d) -> p x = true ->
    ro_ResolutionEventID (f x) = Some k -> ro_ResolutionEventID (if p y then f y else y) = Some k -> x = y) as Hc.
  { intros x y k Hx Hy Hp Ex Ey. pose proof (existsb_false_in _ _ x G1 Hx) as E. cbn in E.
    rewrite Hp, Ex in E. cbn in E.
    assert (In (if p y then f y else y) (upd p f (pair_restore_operations d))) as Hi
      by (apply in_upd; by exists y).
    pose proof (existsb_false_in _ _ _ E Hi) as Ei. cbn in Ei. rewrite Ey, eqb_refl, andb_true_r in Ei.
    apply negb_false_iff, eqb_eq in Ei.
    eapply (nodup_key_eq ro_OperationID); [apply (key_restores d K)|done..|].
    rewrite <- Ei. destruct (p y) eqn:Ep; [by apply Hid|done]. }
  destruct X; constructor; cbn; try assumption.
  - apply unique_upd; [assumption|]. intros o Ho Hp. left. unfold restore_authorization.
    by destruct (Hid o Ho Hp) as (_ & -> & _).
  - intros x y k (a & Ha & ->)%in_upd (b & Hb & ->)%in_upd Ex Ey.
    destruct (p a) eqn:Ea; [|destruct (p b) eqn:Eb].
    + pose proof (Hc a b k Ha Hb Ea Ex Ey) as <-. by rewrite Ea.
    + pose proof (Hc b a k Hb Ha Eb Ey) as Hba. rewrite Ea in Hba. specialize (Hba Ex). congruence.
    + by eapply ix_resolution_event0.
  - apply unique_upd; [assumption|]. intros o Ho Hp. destruct (Hid o Ho Hp) as (_ & _ & E & Hu).
    unfold unresolved_pair. rewrite E. destruct (restore_unresolved (f o)); [|by right].
    rewrite Hu by done. by left.
Qed.
End Statements.

(** ** The protocol *)
Section Indexed.
Context {L : GoLib}.

Lemma indexed_binds d d' t k w a o :
  binds d d' t k w a o -> indexes_unique d -> indexes_unique d'.
Proof.
  intros [(n & d1 & d2 & d3 & H1 & _ & Hfz & Ha & Ho) _ _ _ _ _ _ _] X.
  eapply indexed_dispatch, (indexed_attempt _ _ _ Ha); [done|].
  apply indexed_update_tasks in H1; [|done].
  destruct Hfz as [[-> _]|(m & Hf & _)]; [done|]. by eapply indexed_freeze.
Qed.

Lemma proto_indexes release d d' :
  proto release d d' -> keys_unique d -> indexes_unique d -> indexes_unique d'.
Proof.
  intros H K. destruct H.
  - by eapply indexed_project.
  - by eapply indexed_pair.
  - by eapply indexed_task.
  - by eapply indexed_contract.
  - by eapply indexed_update_tasks.
  - by eapply indexed_binds.
  - by eapply indexed_update_attempts.
  - by eapply indexed_session.
  - eapply indexed_update_sessions; [done|]. intros w Hw Hp. by destruct (H0 w Hw Hp) as (_ & ? & _).
  - by eapply indexed_insert_provisioning.
  - by eapply indexed_update_provisioning.
  - by eapply indexed_update_dispatch.
  - by eapply indexed_update_resolution.
  - by eapply indexed_stop.
  - eapply indexed_update_stops; [done|]. intros o Ho Hp.
    destruct (H0 o Ho Hp) as [->|[Hid _]]; [done|]. injection Hid. intros. by split_and!.
  - by eapply indexed_authorization.
  - by eapply indexed_restore.
  - by eapply indexed_update_restores.
  - by eapply indexed_budget.
  - by eapply indexed_appends.
Qed.

Lemma protos_indexes release d d' :
  protos release d d' -> store_inv d -> indexes_unique d -> indexes_unique d'.
Proof.
  induction 1 as [|d1 d2 d3 H _ IH]; [done|]. intros I X. apply IH; [by eapply proto_inv|].
  eapply proto_indexes; [exact H|apply I|done].
Qed.
End Indexed.
