(* ===== verification/WellTyped.v ===== *)
(** * WellTyped: every stored row satisfies its schema

    A database is well typed when every row satisfies the CHECK clauses of its
    table and every reference of a row resolves.  Each statement of Db.v checks
    only the rows it writes; that nothing it changes breaks a row it does not
    write is proved here, statement by statement, and then for the changes of
    the protocol and for every reachable database. *)

From stdpp Require Import relations.
From S2P Require Import Prelude.
From S2P Require Import Domain.
From S2P Require Import GoLib.
From S2P Require Import Db.
From S2P Require Import Tx.
From S2P Require Import AuditLog.
From S2P Require Import TaskStore.
From S2P Require Import DbFacts.
From S2P Require Import Lifecycle.
From S2P Require Import StopStore.
From S2P Require Import Protocol.
From S2P Require Import History.
From S2P Require Import Invariants.
From S2P Require Import Uniqueness.
From S2P Require Import System.
From S2P Require Import Sample.

(** ** Tables *)
Section Tables.
Context {A : Type}.
Implicit Types (ok : A -> bool) (l : list A).

Definition all_rows ok l : Prop := forall r, In r l -> ok r = true.

Lemma all_rows_mono ok ok' l :
  (forall r, ok r = true -> ok' r = true) -> all_rows ok l -> all_rows ok' l.
Proof. intros H Hl r Hr. by apply H, Hl. Qed.

Lemma all_rows_snoc ok l r : all_rows ok l -> ok r = true -> all_rows ok (l ++ [r]).
Proof. intros Hl Hr x [Hx|[<-|[]]]%in_app_or; [by apply Hl|done]. Qed.

Lemma all_rows_upd ok p f l :
  all_rows ok l -> (forall r, In r l -> p r = true -> ok r = true -> ok (f r) = true) ->
  all_rows ok (upd p f l).
Proof.
  intros Hl Hf x (r & Hr & ->)%in_upd. destruct (p r) eqn:E; [|by apply Hl]. apply Hf; auto.
Qed.

Lemma existsb_app_left (q : A -> bool) l l2 : existsb q l = true -> existsb q (l ++ l2) = true.
Proof. intros H. rewrite existsb_app, H. done. Qed.

Lemma existsb_upd (q : A -> bool) p f l :
  existsb q l = true -> (forall r, In r l -> p r = true -> q r = true -> q (f r) = true) ->
  existsb q (upd p f l) = true.
Proof.
  intros (r & Hr & Hq)%existsb_exists Hf. apply existsb_exists. exists (if p r then f r else r).
  split; [apply in_upd; by exists r|]. destruct (p r) eqn:E; auto.
Qed.
End Tables.

(** ** What a row must satisfy *)
Section Rows.
Context (d : DB).

Definition has_authorization (o : PairRestoreOperation) : bool :=
  existsb (fun a => (ra_AuthorizationID a == ro_AuthorizationID o)
             && (ra_OperationID a == ro_OperationID o) && (ra_PairID a == ro_PairID o)
             && (ra_SessionID a == ro_SessionID o)
             && (ra_ExpectedGeneration a == ro_ExpectedGeneration o))
    (restore_authorizations d).

Definition pair_ok (p : Pair) : bool := has_project d (p_ProjectID p).
Definition task_ok (t : Task) : bool := task_check t && has_pair d (t_PairID t).
Definition contract_ok (k : ContractRow) : bool :=
  (1 <=? k_revision_number k)%Z && has_task d (k_task_id k)
  && opt_ok (has_contract d) (k_supersedes_contract_id k).
Definition attempt_ok (a : TaskAttempt) : bool :=
  (0 <? a_AttemptNumber a)%Z && quarantine_check (a_QuarantineState a) && has_task d (a_TaskID a)
  && has_contract_task d (a_ContractID a) (a_TaskID a).
Definition session_ok (w : WorkerSession) : bool := session_check w && has_pair d (ws_PairID w).
Definition provisioning_ok (o : PairProvisioningOperation) : bool := has_pair d (pp_PairID o).
Definition dispatch_ok (o : DispatchOperation) : bool :=
  has_attempt d (d_AttemptID o) && has_pair d (d_PairID o) && has_task d (d_TaskID o).
Definition stop_ok (o : StopOperation) : bool :=
  stop_check o && has_pair d (so_PairID o) && opt_ok (has_task d) (so_TaskID o)
  && opt_ok (has_contract d) (so_ContractID o) && opt_ok (has_attempt d) (so_AttemptID o)
  && opt_ok (has_restore d) (so_RestoreOperationID o).
Definition authorization_ok (a : RestoreAuthorization) : bool :=
  authorization_check a && has_pair d (ra_PairID a) && has_event d (ra_AuthorizationEventID a).
Definition restore_ok (o : PairRestoreOperation) : bool :=
  restore_check o && has_pair d (ro_PairID o) && opt_ok (has_event d) (ro_ResolutionEventID o)
  && has_authorization o.
Definition budget_ok (b : ExecutionBudget) : bool :=
  budget_check b && has_attempt d (b_AttemptID b) && has_dispatch d (b_DispatchOperationID b).

(** The rows of [e], their references looked up in [d]. *)
Record typed_in (e : DB) : Prop := mktyped_in {
  wt_pairs : all_rows pair_ok (pairs e);
  wt_tasks : all_rows task_ok (tasks e);
  wt_contracts : all_rows contract_ok (task_contracts e);
  wt_attempts : all_rows attempt_ok (task_attempts e);
  wt_sessions : all_rows session_ok (worker_sessions e);
  wt_provisionings : all_rows provisioning_ok (pair_provisioning_operations e);
  wt_dispatches : all_rows dispatch_ok (dispatch_operations e);
  wt_stops : all_rows stop_ok (stop_operations e);
  wt_authorizations : all_rows authorization_ok (restore_authorizations e);
  wt_restores : all_rows restore_ok (pair_restore_operations e);
  wt_budgets : all_rows budget_ok (attempt_execution_budgets e) }.
End Rows.
Definition well_typed (d : DB) : Prop := typed_in d d.

(** ** References stay resolved *)
Record keeps (d d' : DB) : Prop := mkkeeps {
  kp_project : forall x, has_project d x = true -> has_project d' x = true;
  kp_pair : forall x, has_pair d x = true -> has_pair d' x = true;
  kp_task : forall x, has_task d x = true -> has_task d' x = true;
  kp_contract : forall x, has_contract d x = true -> has_contract d' x = true;
  kp_contract_task : forall x y, has_contract_task d x y = true -> has_contract_task d' x y = true;
  kp_attempt : forall x, has_attempt d x = true -> has_attempt d' x = true;
  kp_dispatch : forall x, has_dispatch d x = true -> has_dispatch d' x = true;
  kp_event : forall x, has_event d x = true -> has_event d' x = true;
  kp_restore : forall x, has_restore d x = true -> has_restore d' x = true;
  kp_authorization : forall o, has_authorization d o = true -> has_authorization d' o = true }.

Lemma opt_ok_mono {A} (f g : A -> bool) o :
  (forall x, f x = true -> g x = true) -> opt_ok f o = true -> opt_ok g o = true.
Proof. destruct o; cbn; auto. Qed.

(** [conjuncts] splits the conjunctions of booleans, and nothing else. *)
Ltac conjuncts :=
  repeat match goal with H : (_ && _)%bool = true |- _ => apply andb_true_iff in H as [? ?] end;
  repeat match goal with |- (_ && _)%bool = true => apply andb_true_iff; split end.

Ltac row_unfold :=
  unfold pair_ok, task_ok, contract_ok, attempt_ok, session_ok, provisioning_ok, dispatch_ok, stop_ok,
    authorization_ok, restore_ok, budget_ok in *.

(** A row typed against some references is typed against more of them. *)
Lemma typed_kept d d' e : keeps d d' -> typed_in d e -> typed_in d' e.
Proof.
  intros [] []. constructor; (eapply all_rows_mono; [|eassumption]);
    row_unfold; intros r H; conjuncts; try assumption; auto;
    (eapply opt_ok_mono; [|eassumption]; assumption).
Qed.

(** ** The statements *)
(** An updated row, given the columns the statement leaves. *)
Ltac same_columns :=
  intros r Hr Hp Hq;
  match goal with Hid : forall x, In x _ -> _ x = true -> _ |- _ =>
    pose proof (Hid r Hr Hp); destruct_and?; congruence end.
Ltac all_kept :=
  constructor; cbn; intros; try assumption;
  unfold has_project, has_pair, has_task, has_contract, has_contract_task, has_attempt, has_dispatch,
    has_event, has_restore, has_authorization in *; cbn in *; try assumption;
  first [by apply existsb_app_left | apply existsb_upd; [assumption|]; same_columns].
(** The tables the statement did not write. *)
Ltac other_tables K W := apply (typed_kept _ _ _ K) in W; destruct W; constructor; cbn; try assumption.

Section Inserts.
Implicit Types (d : DB).

Ltac inserted H :=
  intros H W; guards H;
  match goal with |- well_typed ?d' =>
    match type of W with well_typed ?d =>
      let K := fresh "K" in
      assert (keeps d d') as K by all_kept; other_tables K W;
      apply all_rows_snoc; [assumption|]; destruct K; row_unfold;
      repeat match goal with G : negb _ = false |- _ => apply negb_false_iff in G end;
      conjuncts; try assumption; auto;
      (eapply opt_ok_mono; [|eassumption]; assumption)
    end
  end.

Lemma typed_insert_pair p d d' : insert_pair p d = Ok d' -> well_typed d -> well_typed d'.
Proof. unfold insert_pair. inserted H. Qed.
Lemma typed_insert_project p d d' : insert_project p d = Ok d' -> well_typed d -> well_typed d'.
Proof.
  unfold insert_project. intros H W. guards H.
  assert (keeps d (d <| projects := projects d ++ [p] |>)) as K by all_kept. other_tables K W.
Qed.
Lemma typed_insert_task t d d' : insert_task t d = Ok d' -> well_typed d -> well_typed d'.
Proof. unfold insert_task. inserted H. Qed.
Lemma typed_insert_contract k d d' : insert_contract k d = Ok d' -> well_typed d -> well_typed d'.
Proof. unfold insert_contract. inserted H. Qed.
Lemma typed_insert_attempt a d d' : insert_attempt a d = Ok d' -> well_typed d -> well_typed d'.
Proof. unfold insert_attempt. inserted H. Qed.
Lemma typed_insert_session w d d' : insert_session w d = Ok d' -> well_typed d -> well_typed d'.
Proof. unfold insert_session. inserted H. Qed.
Lemma typed_insert_provisioning o d d' : insert_provisioning o d = Ok d' -> well_typed d -> well_typed d'.
Proof. unfold insert_provisioning. inserted H. Qed.
Lemma typed_insert_dispatch o d d' : insert_dispatch o d = Ok d' -> well_typed d -> well_typed d'.
Proof. unfold insert_dispatch. inserted H. Qed.
Lemma typed_insert_stop o d d' : insert_stop o d = Ok d' -> well_typed d -> well_typed d'.
Proof. unfold insert_stop. inserted H. Qed.
Lemma typed_insert_authorization a d d' : insert_authorization a d = Ok d' -> well_typed d -> well_typed d'.
Proof. unfold insert_authorization. inserted H. Qed.
Lemma typed_insert_restore o d d' : insert_restore o d = Ok d' -> well_typed d -> well_typed d'.
Proof. unfold insert_restore. inserted H. Qed.
Lemma typed_insert_budget b d d' : insert_budget b d = Ok d' -> well_typed d -> well_typed d'.
Proof. unfold insert_budget. inserted H. Qed.
End Inserts.

Lemma checked_rows {A} (p c : A -> bool) l :
  negb (forallb (fun r => negb (p r) || c r) l) = false -> forall r, In r l -> p r = true -> c r = true.
Proof.
  intros H%negb_false_iff r Hr Hp. apply (proj1 (forallb_forall _ _) H) in Hr. by rewrite Hp in Hr.
Qed.

(** Every update leaves the columns other rows refer to, and the references of
    the rows it writes. *)
Section Updates.
Implicit Types (d : DB).

Ltac updated_rows Hid W :=
  match goal with |- well_typed ?d' =>
    match type of W with well_typed ?d =>
      let K := fresh "K" in
      assert (keeps d d') as K by all_kept; other_tables K W;
      apply all_rows_upd; [assumption|]; row_unfold;
      repeat match goal with G : negb (forallb _ _) = false |- _ =>
        let G' := fresh "G" in pose proof (checked_rows _ _ _ G) as G'; clear G end;
      intros r Hr Hp Hok; conjuncts; auto;
      pose proof (Hid r Hr Hp); destruct_and?; first [congruence | auto]
    end
  end.
Ltac updated H := intros H Hid W; guards H; updated_rows Hid W.

Lemma typed_update_tasks p f d d' n :
  update_tasks p f d = Ok (d', n) ->
  (forall t, In t (tasks d) -> p t = true -> t_TaskID (f t) = t_TaskID t /\ t_PairID (f t) = t_PairID t) ->
  well_typed d -> well_typed d'.
Proof. unfold update_tasks. updated H. Qed.

Lemma typed_update_contracts p f d d' n :
  update_contracts p f d = Ok (d', n) ->
  (forall k, In k (task_contracts d) -> p k = true ->
     k_contract_id (f k) = k_contract_id k /\ k_task_id (f k) = k_task_id k /\
     k_revision_number (f k) = k_revision_number k /\
     k_supersedes_contract_id (f k) = k_supersedes_contract_id k) ->
  well_typed d -> well_typed d'.
Proof. unfold update_contracts. updated H. Qed.

Lemma typed_update_attempts p f d d' n :
  update_attempts p f d = Ok (d', n) ->
  (forall a, In a (task_attempts d) -> p a = true ->
     a_AttemptID (f a) = a_AttemptID a /\ a_AttemptNumber (f a) = a_AttemptNumber a /\
     a_TaskID (f a) = a_TaskID a /\ a_ContractID (f a) = a_ContractID a) ->
  well_typed d -> well_typed d'.
Proof. unfold update_attempts. updated H. Qed.

Lemma typed_update_sessions p f d d' n :
  update_sessions p f d = Ok (d', n) ->
  (forall w, In w (worker_sessions d) -> p w = true -> ws_PairID (f w) = ws_PairID w) ->
  well_typed d -> well_typed d'.
Proof. unfold update_sessions. updated H. Qed.

Lemma typed_update_provisioning p f d d' n :
  update_provisioning p f d = Ok (d', n) ->
  (forall o, In o (pair_provisioning_operations d) -> p o = true -> pp_PairID (f o) = pp_PairID o) ->
  well_typed d -> well_typed d'.
Proof. unfold update_provisioning. updated H. Qed.

Lemma typed_update_dispatch p f d d' n :
  update_dispatch p f d = Ok (d', n) ->
  (forall o, In o (dispatch_operations d) -> p o = true ->
     d_OperationID (f o) = d_OperationID o /\ d_AttemptID (f o) = d_AttemptID o /\
     d_PairID (f o) = d_PairID o /\ d_TaskID (f o) = d_TaskID o) ->
  well_typed d -> well_typed d'.
Proof. unfold update_dispatch. updated H. Qed.

Lemma typed_update_resolution p x d d' n :
  update_dispatch_resolution p x d = Ok (d', n) -> well_typed d -> well_typed d'.
Proof.
  unfold update_dispatch_resolution. set (f := fun o : DispatchOperation => _). intros H W.
  assert (forall o, In o (dispatch_operations d) -> p o = true ->
    d_OperationID (f o) = d_OperationID o /\ d_AttemptID (f o) = d_AttemptID o /\
    d_PairID (f o) = d_PairID o /\ d_TaskID (f o) = d_TaskID o) as Hid by done.
  clearbody f. guards H. updated_rows Hid W.
Qed.

Lemma typed_update_stops p f d d' n :
  update_stops p f d = Ok (d', n) ->
  (forall o, In o (stop_operations d) -> p o = true ->
     so_PairID (f o) = so_PairID o /\ so_TaskID (f o) = so_TaskID o /\
     so_ContractID (f o) = so_ContractID o /\ so_AttemptID (f o) = so_AttemptID o /\
     so_RestoreOperationID (f o) = so_RestoreOperationID o) ->
  well_typed d -> well_typed d'.
Proof. unfold update_stops. updated H. Qed.

Lemma typed_update_restores p f d d' n :
  update_restores p f d = Ok (d', n) -> well_typed d -> well_typed d'.
Proof.
  unfold update_restores. intros H W. guards H.
  assert (forall o, In o (pair_restore_operations d) -> p o = true ->
    ro_OperationID (f o) = ro_OperationID o /\ ro_PairID (f o) = ro_PairID o /\
    opt_ok (has_event d) (ro_ResolutionEventID (f o)) = true /\
    (forall e, has_authorization e o = true -> has_authorization e (f o) = true)) as Hid.
  { intros o Ho Hp. apply (existsb_false_in _ _ _ G) in Ho as Ht. apply (existsb_false_in _ _ _ G2) in Ho.
    rewrite Hp in Ho, Ht. apply negb_false_iff in Ho. apply restore_later_step in Ht as (E1&E2&E3&E4&E5&_).
    split_and!; [done|done|done|]. unfold has_authorization. by rewrite E1, E2, E3, E4, E5. }
  clear G G1 G2. updated_rows Hid W.
Qed.
End Updates.

(** ** The protocol *)
Section Typed.
Context {L : GoLib}.

Lemma typed_binds d d' t k w a o : binds d d' t k w a o -> well_typed d -> well_typed d'.
Proof.
  intros [(n & d1 & d2 & d3 & H1 & _ & Hfz & Ha & Ho) _ _ _ _ _ _ _] W.
  eapply typed_insert_dispatch, (typed_insert_attempt _ _ _ Ha); [done|].
  apply typed_update_tasks in H1; [|done|done].
  destruct Hfz as [[-> _]|(m & Hf & _)]; [done|]. by eapply typed_update_contracts in Hf.
Qed.

Lemma typed_appends r d d' : appends r d d' -> well_typed d -> well_typed d'.
Proof.
  intros [-> _] W. unfold with_log.
  assert (keeps d (with_log d (audit_events d ++ [r]) (e_sequence r) (e_event_hash r))) as K by all_kept.
  other_tables K W.
Qed.

Lemma proto_typed release d d' : proto release d d' -> well_typed d -> well_typed d'.
Proof.
  intros H. destruct H.
  - by eapply typed_insert_project.
  - by eapply typed_insert_pair.
  - by eapply typed_insert_task.
  - by eapply typed_insert_contract.
  - eapply typed_update_tasks; [done|]. intros t Ht Hp. destruct (H0 t Ht Hp) as (_ & (?&_&?&_) & _). done.
  - by eapply typed_binds.
  - eapply typed_update_attempts; [done|]. intros a Ha Hp. destruct (H0 a Ha Hp) as (?&?&?&?&_). done.
  - by eapply typed_insert_session.
  - eapply typed_update_sessions; [done|]. intros w Hw Hp. by destruct (H0 w Hw Hp).
  - by eapply typed_insert_provisioning.
  - eapply typed_update_provisioning; [done|]. intros o Ho Hp. by destruct (H0 o Ho Hp) as (_ & ? & _).
  - eapply typed_update_dispatch; [done|]. intros o Ho Hp.
    destruct (H0 o Ho Hp) as ((?&?&?&?&_)&_). done.
  - by eapply typed_update_resolution.
  - by eapply typed_insert_stop.
  - eapply typed_update_stops; [done|]. intros o Ho Hp.
    destruct (H0 o Ho Hp) as [->|[Hid _]]; [done|]. injection Hid. intros. by split_and!.
  - by eapply typed_insert_authorization.
  - by eapply typed_insert_restore.
  - by eapply typed_update_restores.
  - by eapply typed_insert_budget.
  - by eapply typed_appends.
Qed.

Lemma empty_typed : well_typed empty_db.
Proof. constructor; intros r []. Qed.

(** C5: Every database the store can reach satisfies its schema: whatever the
    operations do, fail at or leave half done, each row of each table satisfies
    the CHECK clauses of version 5 and refers only to rows that exist; each row
    of each of the thirteen tables has its primary key to itself; and every other
    UNIQUE column and every partial unique index holds at most one row for an
    entry, although a statement is checked against the rows it writes alone. *)
Theorem reachable_well_typed (d : DB) :
  reachable d -> well_typed d /\ keys_unique d /\ indexes_unique d.
Proof.
  intros H. assert (protos true empty_db d) as Hp by by apply evolves_protos.
  split_and!; [|apply (reachable_inv d H)|by eapply protos_indexes, empty_indexes; [|apply store_inv_empty]].
  assert (forall e, protos true e d -> well_typed e -> well_typed d) as Hw.
  { intros e. induction 1; [done|]. intros We. by eauto using proto_typed. }
  eapply Hw, empty_typed. exact Hp.
Qed.
End Typed.

(** The history of Sample.v in which a task is bound, sent, confirmed, run,
    stopped and its pair restored: rows in all eleven tables. *)
Lemma reachable_well_typed_witness :
  reachable (after restored) /\
  forallb (restore_ok (after restored)) (pair_restore_operations (after restored)) = true.
Proof.
  split; [reach|].
  apply forallb_forall. exact (wt_restores _ _ (proj1 (reachable_well_typed (after restored) ltac:(reach)))).
Defined.
