(* ===== verification/Guarantees.v ===== *)
(** * Guarantees: the properties of the store as a whole

    Each theorem speaks of every run, or of every database the operations can
    reach from an empty one, under any clock, randomness and driver failures;
    each witness is a history of [Sample]. *)

From stdpp Require Import relations.
From S2P Require Import Prelude.
From S2P Require Import Domain.
From S2P Require Import Workflow.
From S2P Require Import GoLib.
From S2P Require Import Db.
From S2P Require Import Tx.
From S2P Require Import Scrub.
From S2P Require Import AuditLog.
From S2P Require Import TaskStore.
From S2P Require Import DbFacts.
From S2P Require Import Lifecycle.
From S2P Require Import DispatchStore.
From S2P Require Import StopStore.
From S2P Require Import RestoreStore.
From S2P Require Import RecoveryStore.
From S2P Require Import Clearance.
From S2P Require Import Protocol.
From S2P Require Import History.
From S2P Require Import Invariants.
From S2P Require Import Refinement.
From S2P Require Import SagaRefinement.
From S2P Require Import System.
From S2P Require Import Atomicity.
From S2P Require Import Sample.

(** ** Lemmas *)
Lemma follows_terminal st st' : follows st st' -> IsTerminal st = true -> st' = st.
Proof.
  induction 1 as [|x y z Hm _ IH]; [done|]. intros Ht. exfalso. revert Hm. unfold moves.
  destruct x; try done; by destruct y.
Qed.

Section Lemmas.
Context {L : GoLib}.

(** Walking a contract back to an earlier revision. *)
Lemma revision_below d k (n : nat) :
  contract_lineage d -> In k (task_contracts d) ->
  (1 <= k_revision_number k - Z.of_nat n)%Z ->
  exists p, In p (task_contracts d) /\ k_task_id p = k_task_id k /\ k_base_sha p = k_base_sha k /\
    k_revision_number p = (k_revision_number k - Z.of_nat n)%Z /\ (n <> 0 -> k_is_immutable p = true).
Proof.
  intros X Hin. induction n as [|n IH]; intros Hr.
  - exists k. repeat split; try done. lia.
  - destruct IH as (p & Hp & Ht & Hb & Hn & _); [lia|].
    destruct (X p Hp) as [_ [H1|(q & Hq & Hqt & Hqr & Hqb & Hqi)]]; [lia|].
    exists q. repeat split; try done; [congruence|congruence|lia].
Qed.

Lemma verify_accepts env d n :
  healthy env -> chain_valid d = true -> fst (VerifyAuditChain env (mkSt d n)) = Ok tt.
Proof.
  intros Hh Hc. rewrite VerifyAuditChain_verdict by done. cbn. by rewrite Hc.
Qed.

Lemma reachable_chain d : reachable d -> log_small d -> Chain d.
Proof.
  intros Hr Hs. destruct (protos_log _ _ _ (evolves_protos _ _ Hr)) as [_ Hc].
  apply Hc; [done|apply chain_empty].
Qed.
End Lemmas.

Section Guarantees.
Context {L : GoLib}.

(** C1: Refinement: whatever the clock, the randomness and the driver do, a call
  of any operation of the store moves the database by a sequence of the
  changes the protocol allows (a row inserted in its initial state, a row
  moved along its state machine, a record appended, a task bound to an
  attempt), and lifts a quarantine only in the three releasing operations. *)
Theorem store_refines_protocol (o : op) (env : Env) (s : St) :
op_int64 o -> protos (releases o) (st_db s) (st_db (snd (run_op o env s))).
Proof.
intros Hw. destruct (run_op o env s) as [r s'] eqn:E. by apply (op_refines o Hw _ _ _ _ E).
Qed.

(** C3: Atomicity: an operation that reports an error left the database exactly
  as it found it, whichever statement failed, as long as no commit that took
  effect was reported as failed. *)
Theorem operation_atomic (o : op) (env : Env) (s s' : St) (e : err) :
no_lost env -> run_op o env s = (Err e, s') -> st_db s' = st_db s.
Proof. apply op_atomic. Qed.

(** ** The lane of a pair *)

(** C4: Single active task: in every reachable database at most one task of a
  pair is DISPATCHED, RUNNING or REVIEWING. *)
Theorem lane_is_exclusive (d : DB) (t1 t2 : Task) :
reachable d -> In t1 (tasks d) -> In t2 (tasks d) -> t_PairID t1 = t_PairID t2 ->
lane_state (t_State t1) = true -> lane_state (t_State t2) = true -> t1 = t2.
Proof. intros Hr. apply (inv_lane _ (reachable_inv _ Hr)). Qed.

(** C7: Tasks only move along the canonical graph: a task is never lost, keeps its
  identity, and its later state is reached from the earlier one by
  transitions of [CanTransition]; a terminal state is never left. *)
Theorem tasks_follow_the_graph (d d' : DB) (t : Task) :
evolves d d' -> In t (tasks d) ->
exists t', In t' (tasks d') /\ t_TaskID t' = t_TaskID t /\ t_PairID t' = t_PairID t /\
  t_PhaseID t' = t_PhaseID t /\
  rtc (fun a b => CanTransition a b = true) (t_State t) (t_State t') /\
  (IsTerminal (t_State t) = true -> t_State t' = t_State t).
Proof.
intros He Hin. destruct (h_tasks _ _ (evolves_history _ _ He) t Hin) as (t' & Hin' & ?&?&?&?&Hf).
exists t'. repeat split; try done. by apply follows_terminal.
Qed.

(** ** Contracts and attempts *)

(** C30: The lineage of a contract revision is complete: every lower revision from
  1 on exists for the same task with the same base commit, and is frozen. *)
Theorem contract_revisions_contiguous (d : DB) (k : ContractRow) (n : Z) :
reachable d -> In k (task_contracts d) -> (1 <= n < k_revision_number k)%Z ->
exists p, In p (task_contracts d) /\ k_task_id p = k_task_id k /\ k_revision_number p = n /\
  k_base_sha p = k_base_sha k /\ k_is_immutable p = true.
Proof.
intros Hr Hin Hn.
destruct (revision_below d k (Z.to_nat (k_revision_number k - n))
  (inv_contracts _ (reachable_inv _ Hr)) Hin) as (p & Hp & Ht & Hb & Hq & Hi); [lia|].
exists p. repeat split; try done; [lia|]. apply Hi. lia.
Qed.

(** A frozen contract is never changed or removed, and a mutable one changes
  only by being frozen: no stored field of a contract is ever rewritten. *)
Theorem contracts_are_write_once (d d' : DB) (k : ContractRow) :
evolves d d' -> In k (task_contracts d) ->
exists k', In k' (task_contracts d') /\
  (k' = k \/ k_is_immutable k = false /\ k' = k <| k_is_immutable := true |>).
Proof. intros He. apply (h_contracts _ _ (evolves_history _ _ He)). Qed.

(** C31: The attempts of a task are numbered 1, 2, ... up to its current attempt,
  each number used once; a task past READY has at least one. *)
Theorem attempts_numbered (d : DB) (t : Task) :
reachable d -> In t (tasks d) ->
(forall n, (1 <= n <= t_CurrentAttempt t)%Z <->
   exists a, In a (task_attempts d) /\ a_TaskID a = t_TaskID t /\ a_AttemptNumber a = n) /\
(forall a b, In a (task_attempts d) -> In b (task_attempts d) -> a_TaskID a = a_TaskID b ->
   a_AttemptNumber a = a_AttemptNumber b -> a = b) /\
(t_State t <> StateDraft -> t_State t <> StateReady -> t_State t <> StateCancelled ->
   (0 < t_CurrentAttempt t)%Z).
Proof.
intros Hr Hin. pose proof (reachable_inv _ Hr) as I.
destruct (inv_numbers _ I t Hin) as (_ & _ & Hs & Hn). repeat split; try apply Hn; try done.
intros a b Ha Hb E1 E2. eapply (nodup_key_eq attempt_key); [apply (key_numbers _ (inv_keys _ I))|done|done|].
unfold attempt_key. congruence.
Qed.

(** An attempt executes a contract of its own task, and that contract is
  frozen: what was dispatched cannot be edited any more. *)
Theorem attempts_execute_frozen_contracts (d : DB) (a : TaskAttempt) :
reachable d -> In a (task_attempts d) ->
(exists t, In t (tasks d) /\ t_TaskID t = a_TaskID a) /\
exists k, In k (task_contracts d) /\ k_contract_id k = a_ContractID a /\
  k_task_id k = a_TaskID a /\ k_is_immutable k = true.
Proof. intros Hr. apply (inv_attempts _ (reachable_inv _ Hr)). Qed.

(** C32: An attempt keeps its contract, report path, session and start, and once
  closed it keeps its end and its disposition. *)
Theorem closed_attempts_are_final (d d' : DB) (a : TaskAttempt) :
evolves d d' -> In a (task_attempts d) ->
exists a', In a' (task_attempts d') /\ a_AttemptID a' = a_AttemptID a /\
  a_TaskID a' = a_TaskID a /\ a_ContractID a' = a_ContractID a /\
  a_ExpectedReportPath a' = a_ExpectedReportPath a /\ a_SessionID a' = a_SessionID a /\
  a_TerminalGeneration a' = a_TerminalGeneration a /\ a_StartedAt a' = a_StartedAt a /\
  (a_EndedAt a <> None ->
     a_EndedAt a' = a_EndedAt a /\ a_RecoveryDisposition a' = a_RecoveryDisposition a).
Proof.
intros He Hin. destruct (h_attempts _ _ (evolves_history _ _ He) a Hin) as (a' & Hin' & H).
unfold attempt_later in H. destruct_and?. exists a'. by split_and!.
Qed.

(** ** Dispatch and execution budgets *)

(** C9: A dispatch is bound for good to an attempt of its task, to the task's pair
  and to the session snapshot the attempt was started with; once
  SEND_CONFIRMED it has exactly one execution budget, whose origin is the
  confirmation and whose deadline is origin plus a positive duration. *)
Theorem confirmed_dispatch_has_budget (d : DB) (o : DispatchOperation) :
reachable d -> In o (dispatch_operations d) ->
(exists a, In a (task_attempts d) /\ a_AttemptID a = d_AttemptID o /\ a_TaskID a = d_TaskID o /\
   a_SessionID a = Some (d_SessionID o) /\ a_TerminalGeneration a = Some (d_TerminalGeneration o)) /\
(exists t, In t (tasks d) /\ t_TaskID t = d_TaskID o /\ t_PairID t = d_PairID o) /\
(d_Stage o = SendConfirmed -> exists b,
   In b (attempt_execution_budgets d) /\ b_DispatchOperationID b = d_OperationID o /\
   b_AttemptID b = d_AttemptID o /\ d_ConfirmedAt o = Some (b_OriginAt b) /\
   b_DeadlineAt b = (b_OriginAt b + b_Duration b)%Z /\ (0 < b_Duration b)%Z /\
   forall c, In c (attempt_execution_budgets d) -> b_AttemptID c = b_AttemptID b -> c = b).
Proof.
intros Hr Hin. pose proof (reachable_inv _ Hr) as I.
destruct (inv_dispatches _ I o Hin) as (Ha & Ht & Hb). split_and!; [done|done|].
intros Hs. destruct (Hb Hs) as (b & Hbin & ? & ? & ?).
destruct (inv_budgets _ I b Hbin) as (? & ? & _). exists b. split_and!; try done.
intros c Hc E. by eapply (nodup_key_eq b_AttemptID); [apply (key_budgets _ (inv_keys _ I))| | |].
Qed.

(** C33: A dispatch only moves DISPATCH_BOUND, SEND_REQUESTED, SEND_CONFIRMED, in
  this order; its attempt, task, pair and session snapshot and, once
  confirmed, the time of confirmation never change. *)
Theorem dispatch_is_forward_only (d d' : DB) (o : DispatchOperation) :
evolves d d' -> In o (dispatch_operations d) ->
exists o', In o' (dispatch_operations d') /\ d_OperationID o' = d_OperationID o /\
  d_AttemptID o' = d_AttemptID o /\ d_PairID o' = d_PairID o /\ d_TaskID o' = d_TaskID o /\
  d_SessionID o' = d_SessionID o /\ d_TerminalGeneration o' = d_TerminalGeneration o /\
  stage_rank (d_Stage o) <= stage_rank (d_Stage o') /\
  (d_Stage o = SendConfirmed -> d_Stage o' = SendConfirmed /\ d_ConfirmedAt o' = d_ConfirmedAt o).
Proof.
intros He Hin. destruct (h_dispatches _ _ (evolves_history _ _ He) o Hin)
  as (o' & Hin' & ?&?&?&?&?&?&Hrk&Hc).
exists o'. split_and!; try done. intros Hs. split; [|auto]. rewrite Hs in Hrk. cbn in Hrk.
destruct (d_Stage o'); cbn in Hrk; (done || lia).
Qed.

(** A budget, once bound, is never changed or removed. *)
Theorem budgets_are_immutable (d d' : DB) (b : ExecutionBudget) :
evolves d d' -> In b (attempt_execution_budgets d) -> In b (attempt_execution_budgets d').
Proof.
intros He Hin. destruct (h_budgets _ _ (evolves_history _ _ He) b Hin) as (b' & Hin' & <-). done.
Qed.

(** ** Restores *)

(** C14: A pair has at most one unresolved restore. *)
Theorem one_unresolved_restore (d : DB) (o1 o2 : PairRestoreOperation) :
reachable d -> In o1 (pair_restore_operations d) -> In o2 (pair_restore_operations d) ->
ro_PairID o1 = ro_PairID o2 ->
ro_ResolutionState o1 <> RestoreResolved -> ro_ResolutionState o2 <> RestoreResolved -> o1 = o2.
Proof.
intros Hr H1 H2 Hp U1 U2. pose proof (reachable_inv _ Hr) as I.
eapply (nodup_key_eq ro_OperationID); [apply (key_restores _ (inv_keys _ I))|done|done|].
apply (proj2 (inv_restores _ I)); try done; unfold restore_unresolved; by apply negb_true_iff, eqb_false.
Qed.

(** C34: A restore keeps its authorization, pair, session and expected generation,
  its version never decreases, a RESTORE_CONFIRMED stage keeps its
  response, the resolution follows the forward edges and RESOLVED is final. *)
Theorem restore_is_forward_only (d d' : DB) (o : PairRestoreOperation) :
evolves d d' -> In o (pair_restore_operations d) ->
exists o', In o' (pair_restore_operations d') /\ ro_OperationID o' = ro_OperationID o /\
  ro_AuthorizationID o' = ro_AuthorizationID o /\ ro_PairID o' = ro_PairID o /\
  ro_SessionID o' = ro_SessionID o /\ ro_ExpectedGeneration o' = ro_ExpectedGeneration o /\
  (ro_Version o <= ro_Version o')%Z /\
  (ro_Stage o = RestoreConfirmedStage ->
     ro_Stage o' = RestoreConfirmedStage /\ ro_HTTP200At o' = ro_HTTP200At o /\
     ro_ObservedGeneration o' = ro_ObservedGeneration o /\ ro_RestoreMode o' = ro_RestoreMode o) /\
  rtc (fun x y => restore_step x y = true) (ro_ResolutionState o) (ro_ResolutionState o') /\
  (ro_ResolutionState o = RestoreResolved -> o' = o).
Proof.
intros He Hin. destruct (h_restores _ _ (evolves_history _ _ He) o Hin) as (o' & Hin' & H).
unfold restore_later in H. destruct_and?. exists o'. by split_and!.
Qed.

(** ** Stops *)

(** C10: D11: a stop that reads TERMINATION_CONFIRMED was confirmed after the call
  was accepted and strictly before the confirmation deadline; its stage and
  its resolution agree. *)
Theorem termination_confirmed_in_time (d : DB) (o : StopOperation) :
reachable d -> In o (stop_operations d) ->
so_Stage o = StopTerminationConfirmed \/
  so_ResolutionState o = StopResolutionTerminationConfirmed ->
so_Stage o = StopTerminationConfirmed /\
so_ResolutionState o = StopResolutionTerminationConfirmed /\
exists call deadline confirmed,
  so_CallCompletedAt o = Some call /\ so_ConfirmationDeadlineAt o = Some deadline /\
  so_TerminationConfirmedAt o = Some confirmed /\ (call <= confirmed < deadline)%Z.
Proof.
intros Hr Hin Ht. apply (inv_stops _ (reachable_inv _ Hr) o Hin).
unfold stop_terminated. apply orb_true_iff. by rewrite !eqb_true.
Qed.

(** C35: A stop keeps its purpose, target, session and generation; the acceptance
  of its call and the deadline are written once; a confirmed termination is
  never changed. *)
Theorem stop_is_final (d d' : DB) (o : StopOperation) :
evolves d d' -> In o (stop_operations d) ->
exists o', In o' (stop_operations d') /\ stop_tuple o' = stop_tuple o /\
  (so_ConfirmationDeadlineAt o <> None ->
     so_ConfirmationDeadlineAt o' = so_ConfirmationDeadlineAt o /\
     so_CallCompletedAt o' = so_CallCompletedAt o) /\
  (so_ResolutionState o = StopResolutionTerminationConfirmed -> o' = o).
Proof.
intros He Hin. destruct (h_stops _ _ (evolves_history _ _ He) o Hin) as (o' & Hin' & H1 & H2 & H3).
by exists o'.
Qed.

(** ** The audit log and the quarantine *)

(** C15: The log of a reachable database always passes [VerifyAuditChain]: no
  operation, retried or failed, leaves a gap or a broken link. *)
Theorem reachable_log_verifies (d : DB) (env : Env) (n : nat) :
reachable d -> log_small d -> healthy env -> fst (VerifyAuditChain env (mkSt d n)) = Ok tt.
Proof. intros Hr Hs Hh. apply verify_accepts; [done|]. apply chain_chain_valid; [by apply reachable_chain|done]. Qed.

(** The audit log is append-only: later logs extend earlier ones. *)
Theorem audit_log_is_append_only (d d' : DB) :
evolves d d' -> exists suffix, audit_events d' = audit_events d ++ suffix.
Proof. intros He. apply log_prefix. eapply protos_log. by apply evolves_protos. Qed.

(** C6: A quarantine is lifted only by a confirmed stop outcome or by the
  evidence-based clearance: under every other operation the quarantined
  attempts and sessions stay quarantined. *)
Theorem quarantine_is_sticky (o : op) (env : Env) (s : St) :
op_int64 o -> releases o = false ->
let d' := st_db (snd (run_op o env s)) in
(forall a, In a (task_attempts (st_db s)) -> a_QuarantineState a = QuarantineQuarantined ->
   exists a', In a' (task_attempts d') /\ a_AttemptID a' = a_AttemptID a /\
     a_QuarantineState a' = QuarantineQuarantined) /\
(forall w, In w (worker_sessions (st_db s)) -> ws_QuarantineState w = QuarantineQuarantined ->
   exists w', In w' (worker_sessions d') /\ ws_PairID w' = ws_PairID w /\
     ws_SessionID w' = ws_SessionID w /\ ws_QuarantineState w' = QuarantineQuarantined).
Proof.
intros Hw Hrel. destruct (run_op o env s) as [r s'] eqn:E. cbn.
pose proof (op_refines o Hw _ _ _ _ E) as H. rewrite Hrel in H. apply protos_quarantine in H as [Ha Hs].
split.
- intros a Hin Hq. destruct (Ha a Hin) as (a' & ? & ? & ?). exists a'. auto.
- intros w Hin Hq. destruct (Hs w Hin) as (w' & ? & ? & ? & ?). exists w'. auto.
Qed.
End Guarantees.

(** ** Witnesses *)
Lemma store_refines_protocol_witness :
  let o := OpInsertTaskContract (base_contract "c3" "t1" 1 None) in
  op_int64 o /\ protos false (after setup) (st_db (snd (run_op o calm (play setup start)))).
Proof.
  split; [int64s|]. apply (store_refines_protocol (OpInsertTaskContract (base_contract "c3" "t1" 1 None))).
  int64s.
Defined.

Lemma failing_no_lost k : no_lost (failing k).
Proof. intros n. cbn. destruct (n =? k)%nat; discriminate. Qed.

Lemma operation_atomic_witness :
  let s := play setup start in let env := failing (st_tick s + 14) in
  fst (run_op dispatch1 env s) = Err SqlFailure /\ st_db (snd (run_op dispatch1 env s)) = st_db s.
Proof.
  split; [vm_compute; reflexivity|]. eapply (operation_atomic dispatch1).
  - apply failing_no_lost.
  - apply run_err. vm_compute. reflexivity.
Defined.

Lemma lane_is_exclusive_witness :
  reachable (after running) /\ In running_task (tasks (after running)) /\
  lane_state (t_State running_task) = true /\ running_task = running_task.
Proof.
  split; [reach|]. split; [row_in|]. split; [reflexivity|].
  apply (lane_is_exclusive (after running)); history_hyp.
Defined.

Lemma tasks_follow_the_graph_witness :
  exists t', In t' (tasks (after stopped)) /\ t_TaskID t' = "t1"%string /\ t_PairID t' = "pair"%string /\
    t_PhaseID t' = "phase-1"%string /\
    rtc (fun a b => CanTransition a b = true) StateRunning (t_State t') /\
    (IsTerminal StateRunning = true -> t_State t' = StateRunning).
Proof. apply (tasks_follow_the_graph (after running) _ running_task); [evolve | row_in]. Defined.

(** A second revision, on the frozen first one. *)
Definition revised : list op :=
  running ++ [OpTransitionTask "t1" StateRunning StateReportReady;
              OpTransitionTask "t1" StateReportReady StateEvidenceReady;
              OpTransitionTask "t1" StateEvidenceReady StateReviewing;
              OpTransitionTask "t1" StateReviewing StateRevisionRequired;
              OpInsertTaskContract (base_contract "c3" "t1" 2 (Some "c1"%string))].
Definition second_revision : ContractRow :=
  ltac:(first_row (rev (task_contracts (after revised)))).

Lemma contract_revisions_contiguous_witness :
  exists p, In p (task_contracts (after revised)) /\ k_task_id p = "t1"%string /\
    k_revision_number p = 1%Z /\ k_base_sha p = "abc"%string /\ k_is_immutable p = true.
Proof.
  apply (contract_revisions_contiguous (after revised) second_revision 1); [reach | row_in | cbn; lia].
Defined.

Lemma contracts_are_write_once_witness :
  exists k', In k' (task_contracts (after revised)) /\
    (k' = frozen_contract \/ k_is_immutable frozen_contract = false /\
                             k' = frozen_contract <| k_is_immutable := true |>).
Proof. apply (contracts_are_write_once (after running)); [evolve | row_in]. Defined.

Lemma attempts_numbered_witness :
  (forall n, (1 <= n <= 1)%Z <->
     exists a, In a (task_attempts (after running)) /\ a_TaskID a = "t1"%string /\
               a_AttemptNumber a = n) /\
  (forall a b, In a (task_attempts (after running)) -> In b (task_attempts (after running)) ->
     a_TaskID a = a_TaskID b -> a_AttemptNumber a = a_AttemptNumber b -> a = b) /\
  (StateRunning <> StateDraft -> StateRunning <> StateReady -> StateRunning <> StateCancelled ->
     (0 < 1)%Z).
Proof. apply (attempts_numbered (after running) running_task); [reach | row_in]. Defined.

Lemma attempts_execute_frozen_contracts_witness :
  (exists t, In t (tasks (after running)) /\ t_TaskID t = "t1"%string) /\
  exists k, In k (task_contracts (after running)) /\ k_contract_id k = "c1"%string /\
    k_task_id k = "t1"%string /\ k_is_immutable k = true.
Proof. apply (attempts_execute_frozen_contracts _ running_attempt); [reach | row_in]. Defined.

Lemma closed_attempts_are_final_witness :
  exists a', In a' (task_attempts (after restored)) /\ a_AttemptID a' = "a1"%string /\
    a_TaskID a' = "t1"%string /\ a_ContractID a' = "c1"%string /\
    a_ExpectedReportPath a' = ".supervisor/reports/t1/a1.json"%string /\
    a_SessionID a' = Some "sess"%string /\ a_TerminalGeneration a' = Some "gen-1"%string /\
    a_StartedAt a' = (T0 + 20)%Z /\
    (Some (T0 + 80)%Z <> None ->
       a_EndedAt a' = Some (T0 + 80)%Z /\ a_RecoveryDisposition a' = Some "WORKER_STOPPED"%string).
Proof. apply (closed_attempts_are_final (after stopped) _ closed_attempt); [evolve | row_in]. Defined.

Lemma confirmed_dispatch_has_budget_witness :
  let d := after running in
  (exists a, In a (task_attempts d) /\ a_AttemptID a = "a1"%string /\ a_TaskID a = "t1"%string /\
     a_SessionID a = Some "sess"%string /\ a_TerminalGeneration a = Some "gen-1"%string) /\
  (exists t, In t (tasks d) /\ t_TaskID t = "t1"%string /\ t_PairID t = "pair"%string) /\
  (SendConfirmed = SendConfirmed -> exists b,
     In b (attempt_execution_budgets d) /\ b_DispatchOperationID b = "disp"%string /\
     b_AttemptID b = "a1"%string /\ Some (T0 + 40)%Z = Some (b_OriginAt b) /\
     b_DeadlineAt b = (b_OriginAt b + b_Duration b)%Z /\ (0 < b_Duration b)%Z /\
     forall c, In c (attempt_execution_budgets d) -> b_AttemptID c = b_AttemptID b -> c = b).
Proof. apply (confirmed_dispatch_has_budget _ confirmed_dispatch); [reach | row_in]. Defined.

Lemma dispatch_is_forward_only_witness :
  exists o', In o' (dispatch_operations (after stopped)) /\ d_OperationID o' = "disp"%string /\
    d_AttemptID o' = "a1"%string /\ d_PairID o' = "pair"%string /\ d_TaskID o' = "t1"%string /\
    d_SessionID o' = "sess"%string /\ d_TerminalGeneration o' = "gen-1"%string /\
    2 <= stage_rank (d_Stage o') /\
    (SendConfirmed = SendConfirmed ->
       d_Stage o' = SendConfirmed /\ d_ConfirmedAt o' = Some (T0 + 40)%Z).
Proof. apply (dispatch_is_forward_only (after running) _ confirmed_dispatch); [evolve | row_in]. Defined.

Lemma budgets_are_immutable_witness : In bound_budget (attempt_execution_budgets (after restored)).
Proof. apply (budgets_are_immutable (after running)); [evolve | row_in]. Defined.

Lemma one_unresolved_restore_witness :
  In pending_restore (pair_restore_operations (after restoring)) /\
  ro_ResolutionState pending_restore <> RestoreResolved /\ pending_restore = pending_restore.
Proof.
  split; [row_in|]. split; [done|].
  apply (one_unresolved_restore (after restoring)); history_hyp.
Defined.

Lemma restore_is_forward_only_witness :
  exists o', In o' (pair_restore_operations (after restored)) /\ ro_OperationID o' = "restore"%string /\
    ro_AuthorizationID o' = "auth"%string /\ ro_PairID o' = "pair"%string /\
    ro_SessionID o' = "sess"%string /\ ro_ExpectedGeneration o' = "gen-1"%string /\
    (0 <= ro_Version o')%Z /\
    (RestoreRequestedStage = RestoreConfirmedStage ->
       ro_Stage o' = RestoreConfirmedStage /\ ro_HTTP200At o' = None /\
       ro_ObservedGeneration o' = None /\ ro_RestoreMode o' = None) /\
    rtc (fun x y => restore_step x y = true) RestoreInFlight (ro_ResolutionState o') /\
    (RestoreInFlight = RestoreResolved -> o' = pending_restore).
Proof. apply (restore_is_forward_only (after restoring) _ pending_restore); [evolve | row_in]. Defined.

Lemma termination_confirmed_in_time_witness :
  StopTerminationConfirmed = StopTerminationConfirmed /\
  StopResolutionTerminationConfirmed = StopResolutionTerminationConfirmed /\
  exists call deadline confirmed,
    Some (T0 + 70)%Z = Some call /\ Some (T0 + 100)%Z = Some deadline /\
    Some (T0 + 80)%Z = Some confirmed /\ (call <= confirmed < deadline)%Z.
Proof.
  apply (termination_confirmed_in_time (after stopped) confirmed_stop); [reach | row_in | by left].
Defined.

Lemma stop_is_final_witness :
  exists o', In o' (stop_operations (after stopped)) /\ stop_tuple o' = stop_tuple accepted_stop /\
    (Some (T0 + 100)%Z <> None ->
       so_ConfirmationDeadlineAt o' = Some (T0 + 100)%Z /\ so_CallCompletedAt o' = Some (T0 + 70)%Z) /\
    (StopResolutionInFlight = StopResolutionTerminationConfirmed -> o' = accepted_stop).
Proof. apply (stop_is_final (after stopping) _ accepted_stop); [evolve | row_in]. Defined.

Lemma reachable_log_verifies_witness :
  log_small (after restored) /\ fst (VerifyAuditChain calm (mkSt (after restored) 0)) = Ok tt.
Proof.
  split; [vm_compute; reflexivity|].
  apply reachable_log_verifies; [reach | vm_compute; reflexivity | exact calm_healthy].
Defined.

Lemma audit_log_is_append_only_witness :
  exists suffix, audit_events (after restored) = audit_events (after running) ++ suffix.
Proof. apply audit_log_is_append_only. evolve. Defined.

Lemma quarantine_is_sticky_witness :
  let o := OpTransitionTask "t1" StateHumanRequired StateCancelled in
  let d := after unknown in let d' := st_db (snd (run_op o calm (play unknown start))) in
  releases o = false /\
  existsb (fun a => a_QuarantineState a == QuarantineQuarantined) (task_attempts d) = true /\
  (forall a, In a (task_attempts d) -> a_QuarantineState a = QuarantineQuarantined ->
     exists a', In a' (task_attempts d') /\ a_AttemptID a' = a_AttemptID a /\
       a_QuarantineState a' = QuarantineQuarantined) /\
  (forall w, In w (worker_sessions d) -> ws_QuarantineState w = QuarantineQuarantined ->
     exists w', In w' (worker_sessions d') /\ ws_PairID w' = ws_PairID w /\
       ws_SessionID w' = ws_SessionID w /\ ws_QuarantineState w' = QuarantineQuarantined).
Proof.
  split; [reflexivity|]. split; [vm_compute; reflexivity|].
  apply (quarantine_is_sticky (OpTransitionTask "t1" StateHumanRequired StateCancelled)); done.
Defined.

(** ** Witnesses of the audit log *)
Lemma VerifyAuditChain_spec_witness :
  let s := play restored start in
  log_small (st_db s) /\
  (healthy calm ->
     (fst (VerifyAuditChain calm s) = Ok tt <-> valid_log (st_db s)) /\
     (fst (VerifyAuditChain calm s) = Err ErrAuditChainInvalid <-> ~ valid_log (st_db s))) /\
  st_db (snd (VerifyAuditChain calm s)) = st_db s.
Proof.
  assert (log_small (st_db (play restored start))) as Hs by (vm_compute; reflexivity).
  split; [exact Hs|]. exact (VerifyAuditChain_spec calm (play restored start) Hs).
Defined.

Definition framableb (s : string) : bool := (Z.of_nat (String.length s) <? 2 ^ 32)%Z.
Definition framedb (r : AuditRow) : bool :=
  (min_int64 <=? e_sequence r)%Z && (e_sequence r <=? max_int64)%Z && forallb framableb (row_fields r).
Lemma framedb_framed l : forallb framedb l = true -> Forall framed l.
Proof.
  intros H. apply List.Forall_forall. intros r Hr. apply (proj1 (forallb_forall _ _) H) in Hr.
  unfold framedb in Hr. breflect. split; [unfold is_int64; lia|]. apply List.Forall_forall. intros s Hs.
  match goal with E : forallb _ _ = true |- _ => apply (proj1 (forallb_forall _ _) E) in Hs end.
  unfold framableb in Hs. unfold framable. breflect. lia.
Qed.

Lemma audit_head_determines_log_witness :
  let d := after restored in
  log_small d /\ Forall framed (audit_events d) /\ chain_valid d = true /\
  (map row_view (sort_by by_sequence (audit_events d))
     = map row_view (sort_by by_sequence (audit_events d)) \/ collision (audit_events d) (audit_events d)).
Proof.
  assert (log_small (after restored)) as Hs by (vm_compute; reflexivity).
  assert (Forall framed (audit_events (after restored))) as Hf
    by (apply framedb_framed; vm_compute; reflexivity).
  assert (chain_valid (after restored) = true) as Hc by (vm_compute; reflexivity).
  split; [exact Hs|]. split; [exact Hf|]. split; [exact Hc|].
  exact (audit_head_determines_log _ _ Hs Hs Hf Hf Hc Hc eq_refl eq_refl).
Defined.

(** An event about a contract named "busy-1" that task t1 does not own. *)
Definition foreign_event : AuditEvent :=
  mkAuditEvent "ev" "NOTE" T0 "t1" "busy-1" "" "" "actor" [].
Lemma AppendAuditEvent_missing_contract_witness :
  fst (AppendAuditEvent foreign_event calm (play running start)) = Err ErrInput /\
  mentions_busy (missing_contract_text foreign_event) = true.
Proof.
  assert (fst (AppendAuditEvent foreign_event calm (play running start)) =
    if mentions_busy (missing_contract_text foreign_event) then Err ErrInput
    else Err ErrInvalidAuditLineage) as H.
  { eapply (AppendAuditEvent_missing_contract calm (play running start) foreign_event);
      first [exact calm_healthy | vm_compute; reflexivity | discriminate]. }
  rewrite H. split; vm_compute; reflexivity.
Defined.
