(* ===== verification/GoErr.v ===== *)
(** * GoErr: Go error values

    The errors that cross the packages above the store: the store's own, the
    sentinels of internal/ao, internal/stop and internal/host, the three
    structured errors of the AO client, and what [fmt.Errorf] with %w and
    [errors.Join] build from them.  [errors_Is], [as_protocol] and [as_api] are
    [errors.Is] and [errors.As].  In a message, the values a format quotes with
    %q, %v or %t are left as the verb: they decide nothing in the program. *)

From stdpp Require Import pretty.
From S2P Require Import Prelude.
From S2P Require Import Domain.
From S2P Require Import Db.

(** ** Sentinels *)
Inductive sentinel : Type :=
| aoErrNilHTTPClient | aoErrNonLoopbackURL | aoErrDaemonUnavailable | aoErrNotFound
| aoErrSessionNotFound | aoErrProjectNotFound | aoErrAgentNotFound | aoErrBadRequest
| aoErrUnexpectedStatus | aoErrProtocolViolation | aoErrRedirectAttempted
| aoErrPayloadTooLarge | aoErrWorkspaceFileDeleted
| ErrTimeoutPreflightUnavailable | ErrTimeoutPreflightInadmissible
| hostErrMissingPolicy | hostErrDrainTimeout
| ctxCanceled | ctxDeadlineExceeded.
#[export] Instance sentinel_eq_dec : EqDecision sentinel.
Proof. solve_decision. Defined.

Record api_error := mkAPIError {
  ae_StatusCode : Z; ae_ErrorType : string; ae_Code : string; ae_Message : string;
  ae_RequestID : string; ae_Details : list (string * value); ae_ReportingOwner : string }.

Record protocol_error := mkProtocolError {
  pe_StatusCode : Z; pe_Method : string; pe_Path : string; pe_Reason : string }.

Inductive goerr : Type :=
| NewError (text : string)                              (* errors.New *)
| StoreError (e : err)                                  (* an error of internal/store *)
| SentinelError (s : sentinel)
| APIError (e : api_error)
| ProtocolError (e : protocol_error)
| TransportError (op url : string) (inner : goerr)
| Wrapped (before : string) (inner : goerr) (after : string)  (* fmt.Errorf with one %w *)
| Joined (e1 e2 : goerr).                               (* errors.Join, or two %w *)

(** The target of an [errors.Is]. *)
Inductive target : Type := TStore (e : err) | TSentinel (s : sentinel).
#[export] Instance target_eq_dec : EqDecision target.
Proof. solve_decision. Defined.

(** [(e *APIError).Is] *)
Definition APIError_Is (e : api_error) (t : target) : bool :=
  match t with
  | TSentinel aoErrNotFound => (ae_StatusCode e =? 404)%Z
  | TSentinel aoErrSessionNotFound =>
      (ae_StatusCode e =? 404)%Z && (ae_Code e == "SESSION_NOT_FOUND")
  | TSentinel aoErrProjectNotFound =>
      (ae_StatusCode e =? 404)%Z
      && ((ae_Code e == "PROJECT_NOT_FOUND") || (ae_Code e == "PROJECT_FOLDER_MISSING"))
  | TSentinel aoErrBadRequest => (ae_StatusCode e =? 400)%Z
  | TSentinel aoErrDaemonUnavailable =>
      (ae_StatusCode e =? 503)%Z || (ae_StatusCode e =? 502)%Z || (ae_StatusCode e =? 504)%Z
  | _ => false
  end.

(** [(e *ProtocolError).Is] *)
Definition ProtocolError_Is (t : target) : bool := t == TSentinel aoErrProtocolViolation.

Fixpoint errors_Is (e : goerr) (t : target) : bool :=
  match e with
  | NewError _ => false
  | StoreError x => t == TStore x
  | SentinelError s => t == TSentinel s
  | APIError x => APIError_Is x t
  | ProtocolError _ => ProtocolError_Is t
  | TransportError _ _ inner => (t == TSentinel aoErrDaemonUnavailable) || errors_Is inner t
  | Wrapped _ inner _ => errors_Is inner t
  | Joined e1 e2 => errors_Is e1 t || errors_Is e2 t
  end.

(** [errors.As(err, &protocolError)] and [errors.As(err, &apiErr)] *)
Fixpoint as_protocol (e : goerr) : option protocol_error :=
  match e with
  | ProtocolError x => Some x
  | TransportError _ _ inner | Wrapped _ inner _ => as_protocol inner
  | Joined e1 e2 => match as_protocol e1 with Some x => Some x | None => as_protocol e2 end
  | _ => None
  end.
Fixpoint as_api (e : goerr) : option api_error :=
  match e with
  | APIError x => Some x
  | TransportError _ _ inner | Wrapped _ inner _ => as_api inner
  | Joined e1 e2 => match as_api e1 with Some x => Some x | None => as_api e2 end
  | _ => None
  end.

(** ** Messages *)

(** [(e *APIError).Error] *)
Definition APIError_Error (e : api_error) : string :=
  if ae_Code e != "" then
    "ao api error (status " +:+ pretty (ae_StatusCode e) +:+ ", code " +:+ ae_Code e +:+ "): "
    +:+ ae_Message e
  else if ae_Message e != "" then
    "ao api error (status " +:+ pretty (ae_StatusCode e) +:+ "): " +:+ ae_Message e
  else "ao api error (status " +:+ pretty (ae_StatusCode e) +:+ ")".

(** [(e *ProtocolError).Error] *)
Definition ProtocolError_Error (e : protocol_error) : string :=
  if (0 <? pe_StatusCode e)%Z then
    "ao protocol error on " +:+ pe_Method e +:+ " " +:+ pe_Path e +:+ " (status "
    +:+ pretty (pe_StatusCode e) +:+ "): " +:+ pe_Reason e
  else "ao protocol error on " +:+ pe_Method e +:+ " " +:+ pe_Path e +:+ ": " +:+ pe_Reason e.

(** [(e *TransportError).Error] *)
Definition TransportError_Error (op url inner : string) : string :=
  "ao transport error on " +:+ op +:+ " " +:+ url +:+ ": " +:+ inner.

Definition sentinel_text (s : sentinel) : string :=
  match s with
  | aoErrNilHTTPClient => "httpClient must not be nil"
  | aoErrNonLoopbackURL => "ao base URL must be an explicit loopback IP literal with port (e.g. http://127.0.0.1:3001 or http://[::1]:3001)"
  | aoErrDaemonUnavailable => "ao daemon is unavailable"
  | aoErrNotFound => "resource not found"
  | aoErrSessionNotFound => "session not found"
  | aoErrProjectNotFound => "project not found"
  | aoErrAgentNotFound => "agent not found in readiness inventory"
  | aoErrBadRequest => "bad request"
  | aoErrUnexpectedStatus => "unexpected HTTP status code"
  | aoErrProtocolViolation => "ao protocol violation or incompatible payload"
  | aoErrRedirectAttempted => "redirects from loopback base URL are forbidden"
  | aoErrPayloadTooLarge => "ao: payload exceeds maximum allowed size"
  | aoErrWorkspaceFileDeleted => "ao: workspace file is marked deleted"
  | ErrTimeoutPreflightUnavailable => "stop: timeout preflight unavailable"
  | ErrTimeoutPreflightInadmissible => "stop: timeout preflight not admissible"
  | hostErrMissingPolicy => "host: missing required operational policy (UNSET policies fail closed)"
  | hostErrDrainTimeout => "host: shutdown drain timeout exceeded"
  | ctxCanceled => "context canceled"
  | ctxDeadlineExceeded => "context deadline exceeded"
  end.

(** The messages of the store's errors quote identifiers the model does not
    keep: they are the parameter. *)
Class StoreText := store_text : err -> string.

Fixpoint Error `{StoreText} (e : goerr) : string :=
  match e with
  | NewError text => text
  | StoreError x => store_text x
  | SentinelError s => sentinel_text s
  | APIError x => APIError_Error x
  | ProtocolError x => ProtocolError_Error x
  | TransportError op url inner => TransportError_Error op url (Error inner)
  | Wrapped before inner after => before +:+ Error inner +:+ after
  | Joined e1 e2 => Error e1 +:+ String "010" (Error e2)
  end.

(** [errors.Join(err, other)] of two errors that may be nil. *)
Definition errors_Join (e1 e2 : option goerr) : option goerr :=
  match e1, e2 with
  | None, e | e, None => e
  | Some a, Some b => Some (Joined a b)
  end.

(** ** Functions that return a value or an error *)
Abbreviation gres := (sum goerr) (only parsing).
#[export] Instance gres_ret : MRet gres := fun A a => inr a.
#[export] Instance gres_bind : MBind gres := fun A B k r =>
  match r with inl e => inl e | inr a => k a end.
Definition fail {A} (e : goerr) : gres A := inl e.
Definition fail_if (c : bool) (e : goerr) : gres unit := if c then inl e else inr tt.

Lemma gres_bind_ok {A B} (r : gres A) (k : A -> gres B) b :
  r ≫= k = inr b -> exists a, r = inr a /\ k a = inr b.
Proof. destruct r as [e|a]; [done|]. intros H. by exists a. Qed.
Lemma fail_if_ok c e u : fail_if c e = inr u -> c = false.
Proof. by destruct c. Qed.
