(* ===== verification/AoClient.v ===== *)
(** * AoClient: internal/ao, the client of the agent-orchestrator daemon

    A method of [Client] is a function of the transport, which maps a request
    to a transport error or to a response: it validates its arguments, sends
    at most one request, and checks the answer before it returns it.  The HTTP
    client, the URL parser and the JSON decoder are the class [NetLib]; path
    and query escaping ([net/url]) are defined here. *)

From stdpp Require Import pretty.
From S2P Require Import Prelude.
From S2P Require Import Domain.
From S2P Require Import Db.
From S2P Require Import GoErr.

(** ** types.go *)
Definition DaemonServiceAO : string := "agent-orchestrator-daemon".

Record DaemonProbeResponse := mkDaemonProbeResponse {
  dp_Status : string; dp_Service : string; dp_PID : Z; dp_ExecutablePath : string;
  dp_WorkingDirectory : string; dp_StartupWorkingDirectory : string; dp_AppImagePath : string }.

Record AgentInfo := mkAgentInfo {
  ai_ID : string; ai_Label : string; ai_AuthStatus : string; ai_UsageCount : Z;
  ai_LastUsedAt : option Z }.
Record AgentInventory := mkAgentInventory {
  Supported : list AgentInfo; Installed : list AgentInfo; Authorized : list AgentInfo }.

(** Installation and authentication observations have the same fields. *)
Record AgentObservation := mkAgentObservation {
  ag_State : string; ag_Freshness : string; ag_CheckedAt : option Z; ag_AttemptedAt : option Z;
  ag_ReasonCode : string; ag_Reason : string }.
Record AgentReadinessSnapshot := mkAgentReadinessSnapshot {
  ar_ID : string; ar_Label : string; ar_Installation : AgentObservation;
  ar_Authentication : AgentObservation; ar_EffectiveReadiness : string; ar_UsageCount : Z;
  ar_LastUsedAt : option Z }.

Record AOProject := mkAOProject {
  ap_ID : string; ap_Name : string; ap_Kind : string; ap_Path : string; ap_Repo : string;
  ap_DefaultBranch : string; ap_Agent : string; ap_FolderMissing : bool; ap_Status : string;
  ap_IsDegraded : bool; ap_ResolveError : string }.

(** [ActivityState] is a Go string; these are its constants. *)
Definition ActivityStateActive : string := "active".
Definition ActivityStateIdle : string := "idle".
Definition ActivityStateWaitingInput : string := "waiting_input".
Definition ActivityStateBlocked : string := "blocked".
Definition ActivityStateExited : string := "exited".

Record WorkerStatus := mkWorkerStatus {
  w_ID : string; w_ProjectID : string; w_Status : string; w_DisplayStatus : string;
  w_IsTerminated : bool; w_State : string; w_LastActivityAt : Z; w_Harness : string;
  w_Branch : string; w_Model : string; w_TerminalGeneration : string; w_PreviewURL : string }.

Record CreateWorkerSessionResult := mkCreateWorkerSessionResult {
  cr_Session : WorkerStatus; cr_PromptBytes : Z; cr_SystemPromptBytes : Z }.
Record DispatchTaskResult := mkDispatchTaskResult { dt_SessionID : string; dt_Message : string }.
Record StopWorkerResult := mkStopWorkerResult { sw_SessionID : string; sw_Freed : bool }.
Record ResumeWorkerResult := mkResumeWorkerResult {
  rw_SessionID : string; rw_RestoreMode : string; rw_Session : WorkerStatus }.

Definition RestoreModeNative : string := "native".
Definition RestoreModeSavedPrompt : string := "saved_prompt".
Definition RestoreModeFresh : string := "fresh".

(** ** wire_types.go: the decoded bodies *)
Record wireSessionView := mkwireSessionView {
  v_ID : string; v_ProjectID : string; v_Kind : string; v_Harness : string; v_Status : string;
  v_DisplayStatus : string; v_IsTerminated : bool; v_State : string; v_LastActivityAt : Z;
  v_Branch : string; v_Model : string; v_TerminalGeneration : string; v_PreviewURL : string }.

Record wireSpawnSessionResponse := mkwireSpawnSessionResponse {
  sp_Session : option wireSessionView; sp_PromptBytes : option Z; sp_SystemPromptBytes : option Z }.
Record wireSendSessionMessageResponse := mkwireSend {
  sm_OK : bool; sm_SessionID : string; sm_Message : string }.
Record wireKillSessionResponse := mkwireKill {
  kl_OK : bool; kl_SessionID : string; kl_Freed : bool }.
Record wireRestoreSessionResponse := mkwireRestore {
  rs_OK : bool; rs_SessionID : string; rs_RestoreMode : string; rs_Session : option wireSessionView }.
Record wireAPIError := mkwireAPIError {
  we_Error : string; we_Code : string; we_Message : string; we_RequestID : string;
  we_Details : list (string * value); we_ReportingOwner : string }.
(** [wireRegisterProjectResponse], [wireProjectOK] *)
Record wireProjectDetails := mkwireProjectDetails {
  wp_ID : string; wp_Name : string; wp_Kind : string; wp_Path : string; wp_Repo : string;
  wp_DefaultBranch : string; wp_Agent : string; wp_FolderMissing : bool }.
Record wireProjectDegraded := mkwireProjectDegraded {
  wd_ID : string; wd_Name : string; wd_Kind : string; wd_Path : string; wd_ResolveError : string }.
(** The raw project object is kept undecoded. *)
Record wireGetProjectResponse := mkwireGetProjectResponse {
  wg_Status : string; wg_Project : string }.
Record rawWorkspaceEnvelope := mkrawWorkspaceEnvelope {
  raw_SessionID : option string; raw_Path : option string; raw_Content : option string;
  raw_Binary : option bool; raw_Deleted : option bool; raw_ContentTruncated : option bool;
  raw_Size : option Z; raw_Status : option string; raw_WorkspaceVersion : option string;
  raw_Diff : option string; raw_DiffTruncated : option bool; raw_Editable : option bool;
  raw_FileFingerprint : option string; raw_Additions : option Z; raw_Deletions : option Z }.

(** ** Normalisation *)
Definition toNormalizedWorkerStatusFromView (s : wireSessionView) (state : string) : WorkerStatus :=
  {| w_ID := v_ID s; w_ProjectID := v_ProjectID s; w_Status := v_Status s;
     w_DisplayStatus := v_DisplayStatus s; w_IsTerminated := v_IsTerminated s; w_State := state;
     w_LastActivityAt := v_LastActivityAt s; w_Harness := v_Harness s; w_Branch := v_Branch s;
     w_Model := v_Model s; w_TerminalGeneration := v_TerminalGeneration s;
     w_PreviewURL := v_PreviewURL s |}.

Definition toNormalizedProjectFromRegister (w : wireProjectDetails) : AOProject :=
  {| ap_ID := wp_ID w; ap_Name := wp_Name w; ap_Kind := wp_Kind w; ap_Path := wp_Path w;
     ap_Repo := wp_Repo w; ap_DefaultBranch := wp_DefaultBranch w; ap_Agent := wp_Agent w;
     ap_FolderMissing := wp_FolderMissing w; ap_Status := "ok"; ap_IsDegraded := false;
     ap_ResolveError := "" |}.
Definition toNormalizedProjectOK (w : wireProjectDetails) : AOProject :=
  {| ap_ID := wp_ID w; ap_Name := wp_Name w; ap_Kind := wp_Kind w; ap_Path := wp_Path w;
     ap_Repo := wp_Repo w; ap_DefaultBranch := wp_DefaultBranch w; ap_Agent := wp_Agent w;
     ap_FolderMissing := wp_FolderMissing w; ap_Status := "ok"; ap_IsDegraded := false;
     ap_ResolveError := "" |}.
Definition toNormalizedProjectDegraded (w : wireProjectDegraded) : AOProject :=
  {| ap_ID := wd_ID w; ap_Name := wd_Name w; ap_Kind := wd_Kind w; ap_Path := wd_Path w;
     ap_Repo := ""; ap_DefaultBranch := ""; ap_Agent := ""; ap_FolderMissing := false;
     ap_Status := "degraded"; ap_IsDegraded := true; ap_ResolveError := wd_ResolveError w |}.

(** ** net/url: escaping *)
Definition unreserved (c : ascii) : bool :=
  let n := N_of_ascii c in
  ((97 <=? n) && (n <=? 122) || (65 <=? n) && (n <=? 90) || (48 <=? n) && (n <=? 57)
   || (n =? 45) || (n =? 95) || (n =? 46) || (n =? 126))%N.
(** [shouldEscape(c, encodePathSegment)] is false on these as well: $ & + : = @ *)
Definition path_segment_plain (c : ascii) : bool :=
  let n := N_of_ascii c in
  unreserved c || ((n =? 36) || (n =? 38) || (n =? 43) || (n =? 58) || (n =? 61) || (n =? 64))%N.
Definition upperhex (n : N) : ascii := ascii_of_N (if (n <? 10)%N then 48 + n else 55 + n)%N.
Definition percent (c : ascii) (rest : string) : string :=
  let n := N_of_ascii c in
  String "%" (String (upperhex (n / 16)) (String (upperhex (n mod 16)) rest)).

Fixpoint PathEscape (s : string) : string :=
  match s with
  | EmptyString => EmptyString
  | String c t => if path_segment_plain c then String c (PathEscape t) else percent c (PathEscape t)
  end.
Fixpoint QueryEscape (s : string) : string :=
  match s with
  | EmptyString => EmptyString
  | String c t =>
      if unreserved c then String c (QueryEscape t)
      else if (c =? " ")%char then String "+" (QueryEscape t)
      else percent c (QueryEscape t)
  end.

(** [ishex], [unhex] and [url.PathUnescape] *)
Definition unhex (c : ascii) : option N :=
  let n := N_of_ascii c in
  (if (48 <=? n) && (n <=? 57) then Some (n - 48)
   else if (97 <=? n) && (n <=? 102) then Some (n - 87)
   else if (65 <=? n) && (n <=? 70) then Some (n - 55) else None)%N.
Fixpoint PathUnescape (s : string) : option string :=
  match s with
  | EmptyString => Some EmptyString
  | String c t =>
      if (c =? "%")%char then
        match t with
        | String a (String b t') =>
            match unhex a, unhex b, PathUnescape t' with
            | Some x, Some y, Some u => Some (String (ascii_of_N (16 * x + y)) u)
            | _, _, _ => None
            end
        | _ => None
        end
      else option_map (String c) (PathUnescape t)
  end.

(** [*p] of a pointer known to be set; [d] is never reached. *)
Definition value_or {A} (d : A) (o : option A) : A := match o with Some a => a | None => d end.

(** ** The transport *)
Record parsedURL := mkparsedURL {
  u_Scheme : string; u_HasUser : bool; u_RawQuery : string; u_Fragment : string;
  u_Path : string; u_Host : string }.

(** The body of a request before [json.Marshal], which cannot fail on them. *)
Inductive wire_request : Type :=
| wireSpawnWorkerRequest (projectId kind harness : string)
| wireSendSessionMessageRequest (message : string)
| wireRegisterProjectRequest (path projectId : string).

Record http_request := mkhttp_request {
  rq_Method : string; rq_URL : string; rq_Accept : string; rq_Body : option wire_request }.
(** The bytes that arrive, and whether reading then fails. *)
Record http_body := mkhttp_body { bd_text : string; bd_broken : bool }.
Record http_response := mkhttp_response { rp_StatusCode : Z; rp_Body : http_body }.

Class NetLib := {
  url_Parse : string -> option parsedURL;
  net_SplitHostPort : string -> option (string * string);
  net_JoinHostPort : string -> string -> string;
  (** [url.Parse] then [String] *)
  url_normal : string -> string;
  (** [net.ParseIP] and [IsLoopback]: [None] is a nil IP *)
  net_loopback : string -> option bool;
  strconv_Atoi : string -> option Z;
  (** [http.NewRequestWithContext]: [req.URL.Path], or its error *)
  request_path : string -> option string;
  (** [json.NewDecoder(body).Decode] *)
  decode_probe : http_body -> option DaemonProbeResponse;
  decode_inventory : http_body -> option AgentInventory;
  decode_readiness : http_body -> option (list AgentReadinessSnapshot);
  decode_register : http_body -> option (option wireProjectDetails);
  decode_project : http_body -> option wireGetProjectResponse;
  decode_session : http_body -> option (option wireSessionView);
  decode_spawn : http_body -> option wireSpawnSessionResponse;
  decode_send : http_body -> option wireSendSessionMessageResponse;
  decode_kill : http_body -> option wireKillSessionResponse;
  decode_restore : http_body -> option wireRestoreSessionResponse;
  (** [json.Unmarshal] *)
  unmarshal_error : string -> option wireAPIError;
  unmarshal_project : string -> option wireProjectDetails;
  unmarshal_degraded : string -> option wireProjectDegraded;
  (** the first [Decode] of the envelope, and whether a second one reports io.EOF *)
  decode_envelope : string -> option (rawWorkspaceEnvelope * bool) }.

(** [io.ReadAll(io.LimitReader(body, limit))] *)
Definition read_limited (limit : Z) (b : http_body) : option string :=
  if (limit <=? Z.of_nat (String.length (bd_text b)))%Z
  then Some (String.substring 0 (Z.to_nat limit) (bd_text b))
  else if bd_broken b then None else Some (bd_text b).
Definition read_all (b : http_body) : option string :=
  if bd_broken b then None else Some (bd_text b).

Definition bad_request (after : string) : goerr := Wrapped "" (SentinelError aoErrBadRequest) after.
Definition non_loopback (after : string) : goerr :=
  Wrapped "" (SentinelError aoErrNonLoopbackURL) after.

Section New.
Context {NL : NetLib}.

(** [NewClient]: the normalized base URL of the client.  The HTTP client is
    given; a redirect is an error of the transport. *)
Definition NewClient (rawBaseURL : string) (httpClient : bool) : gres string :=
  if negb httpClient
  then fail (Joined (SentinelError aoErrBadRequest) (SentinelError aoErrNilHTTPClient))
  else
    let trimmed := TrimSpace rawBaseURL in
    fail_if (trimmed == "") (bad_request ": base URL cannot be empty");;
    match url_Parse trimmed with
    | None => fail (non_loopback ": invalid URL format: %v")
    | Some u =>
        fail_if (u_Scheme u != "http")
          (non_loopback ": scheme %q forbidden (must be http only)");;
        fail_if (u_HasUser u) (non_loopback ": userinfo in base URL is forbidden");;
        fail_if (u_RawQuery u != "") (non_loopback ": query string in base URL is forbidden");;
        fail_if (u_Fragment u != "") (non_loopback ": fragment in base URL is forbidden");;
        fail_if ((u_Path u != "") && (u_Path u != "/"))
          (non_loopback ": non-root base path %q is forbidden");;
        match net_SplitHostPort (u_Host u) with
        | None => fail (non_loopback ": explicit port required in host %q: %v")
        | Some (host, portStr) =>
            fail_if (match strconv_Atoi portStr with
                     | Some port => (port <=? 0)%Z || (65535 <? port)%Z
                     | None => true
                     end) (non_loopback ": invalid port %q (must be between 1 and 65535)");;
            match net_loopback host with
            | None => fail (non_loopback ": host %q is not an IP literal (hostnames forbidden)")
            | Some loopback =>
                fail_if (negb loopback) (non_loopback ": IP %q is not a loopback address");;
                mret (url_normal ("http://" +:+ net_JoinHostPort host portStr))
            end
        end
    end.
End New.

(** [strings.TrimRight(s, "/")] and [strings.TrimLeft(s, "/")] *)
Fixpoint trim_right_slash (s : string) : string :=
  match s with
  | EmptyString => EmptyString
  | String c t =>
      match trim_right_slash t with
      | EmptyString => if (c =? "/")%char then EmptyString else String c EmptyString
      | t' => String c t'
      end
  end.
Fixpoint trim_left_slash (s : string) : string :=
  match s with
  | String c t => if (c =? "/")%char then trim_left_slash t else s
  | EmptyString => EmptyString
  end.

Section Client.
Context {NL : NetLib} (baseURL : string) (http_Do : http_request -> gres http_response).

Definition buildURL (relPath : string) : string :=
  trim_right_slash baseURL +:+ "/" +:+ trim_left_slash relPath.

Definition protocol (status : Z) (method path reason : string) : goerr :=
  ProtocolError (mkProtocolError status method path reason).

Definition maxErrorBodyBytes : Z := 64 * 1024.

Definition decodeError (method path : string) (resp : http_response) : goerr :=
  let status := rp_StatusCode resp in
  match read_limited maxErrorBodyBytes (rp_Body resp) with
  | None => protocol status method path "failed to read error response"
  | Some body =>
      match unmarshal_error body with
      | Some w =>
          if (we_Error w != "") && (we_Code w != "") && (we_Message w != "") then
            APIError {| ae_StatusCode := status; ae_ErrorType := we_Error w; ae_Code := we_Code w;
                        ae_Message := we_Message w; ae_RequestID := we_RequestID w;
                        ae_Details := we_Details w; ae_ReportingOwner := we_ReportingOwner w |}
          else protocol status method path "malformed or non-conforming AO error envelope"
      | None => protocol status method path "malformed or non-conforming AO error envelope"
      end
  end.

(** The response of a request, or its error, when its status is not [expected]. *)
Definition checked_response (req : http_request) (path : string) (expectedStatus : Z)
    : gres http_response :=
  match http_Do req with
  | inl e => fail (TransportError (rq_Method req) (rq_URL req) e)
  | inr resp =>
      let status := rp_StatusCode resp in
      if negb (status =? expectedStatus)%Z then
        if (status <? 200)%Z || (300 <=? status)%Z then fail (decodeError (rq_Method req) path resp)
        else fail (protocol status (rq_Method req) path "expected HTTP %d, got %d")
      else mret resp
  end.

(** [do] *)
Definition do_request {A} (decode : http_body -> option A) (req : http_request) (path : string)
    (expectedStatus : Z) : gres A :=
  resp ← checked_response req path expectedStatus;
  match decode (rp_Body resp) with
  | None =>
      fail (protocol (rp_StatusCode resp) (rq_Method req) path "malformed JSON response payload")
  | Some a => mret a
  end.

Definition get {A} (decode : http_body -> option A) (relPath : string) (expectedStatus : Z)
    : gres A :=
  let reqURL := buildURL relPath in
  match request_path reqURL with
  | None => fail (Wrapped "create GET request failed: " (NewError "%v") "")
  | Some path =>
      do_request decode (mkhttp_request "GET" reqURL "application/json" None) path expectedStatus
  end.

Definition getRaw (relPath : string) (expectedStatus : Z) (acceptHeader : string) : gres string :=
  let reqURL := buildURL relPath in
  match request_path reqURL with
  | None => fail (Wrapped "create raw GET request failed: " (NewError "%v") "")
  | Some path =>
      resp ← checked_response (mkhttp_request "GET" reqURL acceptHeader None) path expectedStatus;
      match read_all (rp_Body resp) with
      | None => fail (Wrapped "read raw body failed: " (NewError "%v") "")
      | Some body => mret body
      end
  end.

Definition post {A} (decode : http_body -> option A) (relPath : string) (expectedStatus : Z)
    (body : option wire_request) : gres A :=
  let reqURL := buildURL relPath in
  match request_path reqURL with
  | None => fail (Wrapped "create POST request failed: " (NewError "%v") "")
  | Some path =>
      do_request decode (mkhttp_request "POST" reqURL "application/json" body) path expectedStatus
  end.

(** ** probes.go *)
Definition probe_checked (path kind word : string) (w : DaemonProbeResponse)
    : gres DaemonProbeResponse :=
  let bad := protocol 200 "GET" path in
  fail_if (dp_Status w != word) (bad (kind +:+ " probe status %q is not " +:+ word));;
  fail_if (dp_Service w != DaemonServiceAO)
    (bad (kind +:+ " probe service %q does not match expected %q"));;
  fail_if (dp_PID w <=? 0)%Z (bad (kind +:+ " probe pid %d is not a positive process ID"));;
  mret w.

Definition CheckHealth : gres DaemonProbeResponse :=
  wire ← get decode_probe "/healthz" 200; probe_checked "/healthz" "health" "ok" wire.
Definition CheckReadiness : gres DaemonProbeResponse :=
  wire ← get decode_probe "/readyz" 200; probe_checked "/readyz" "readiness" "ready" wire.
Definition ListAgents : gres AgentInventory := get decode_inventory "/api/v1/agents" 200.

Definition GetAgentReadiness (agentID : string) : gres AgentReadinessSnapshot :=
  fail_if (TrimSpace agentID == "") (bad_request ": agentID cannot be empty or whitespace");;
  agents ← get decode_readiness "/api/v1/agents/readiness" 200;
  match find (fun a => ar_ID a == agentID) agents with
  | Some a => mret a
  | None => fail (Wrapped "" (SentinelError aoErrAgentNotFound) ": agent %q")
  end.

Definition GetAPIContract : gres string :=
  getRaw "/api/v1/openapi.yaml" 200 "application/yaml, text/yaml, text/plain".

(** ** projects.go *)
Definition RegisterProject (projectID rootPath : string) : gres AOProject :=
  fail_if (TrimSpace projectID == "") (bad_request ": projectID cannot be empty or whitespace");;
  fail_if (TrimSpace rootPath == "") (bad_request ": rootPath cannot be empty or whitespace");;
  resp ← post decode_register "/api/v1/projects" 201
           (Some (wireRegisterProjectRequest rootPath projectID));
  let bad := protocol 201 "POST" "/api/v1/projects" in
  match resp with
  | None => fail (bad "registered project response is null or missing project object")
  | Some p =>
      fail_if (wp_ID p == "") (bad "registered project response contains empty project ID");;
      fail_if (wp_ID p != projectID)
        (bad "registered project ID %q does not match requested projectID %q");;
      mret (toNormalizedProjectFromRegister p)
  end.

Definition GetProject (projectID : string) : gres AOProject :=
  fail_if (TrimSpace projectID == "") (bad_request ": projectID cannot be empty or whitespace");;
  let path := "/api/v1/projects/" +:+ PathEscape projectID in
  let bad := protocol 200 "GET" path in
  wire ← get decode_project path 200;
  fail_if ((wg_Project wire == "") || (wg_Project wire == "null") || (wg_Project wire == "{}"))
    (bad "project object is null, empty, or missing in response");;
  if wg_Status wire == "ok" then
    match unmarshal_project (wg_Project wire) with
    | None => fail (bad "failed to decode healthy project JSON")
    | Some p =>
        fail_if (wp_ID p == "") (bad "healthy project object contains empty project ID");;
        fail_if (wp_ID p != projectID)
          (bad "healthy project ID %q does not match requested projectID %q");;
        mret (toNormalizedProjectOK p)
    end
  else if wg_Status wire == "degraded" then
    match unmarshal_degraded (wg_Project wire) with
    | None => fail (bad "failed to decode degraded project JSON")
    | Some p =>
        fail_if (wd_ID p == "") (bad "degraded project object contains empty project ID");;
        fail_if (wd_ID p != projectID)
          (bad "degraded project ID %q does not match requested projectID %q");;
        fail_if (wd_ResolveError p == "")
          (bad "degraded project object is missing required resolveError");;
        mret (toNormalizedProjectDegraded p)
    end
  else fail (bad "unknown project status discriminator %q").

(** ** sessions.go *)
Definition validateCanonicalActivityState (rawState : string) (statusCode : Z) (method path : string)
    : gres string :=
  if in_list rawState [ActivityStateActive; ActivityStateIdle; ActivityStateWaitingInput;
                       ActivityStateBlocked; ActivityStateExited] then mret rawState
  else fail (protocol statusCode method path
    "unknown activity state %q (must be active, idle, waiting_input, blocked, or exited)").

Definition session_path (sessionID : string) : string :=
  "/api/v1/sessions/" +:+ PathEscape sessionID.
Definition empty_session (sessionID : string) : gres unit :=
  fail_if (TrimSpace sessionID == "") (bad_request ": sessionID cannot be empty or whitespace").

Definition GetWorkerStatus (sessionID : string) : gres WorkerStatus :=
  empty_session sessionID;;
  let path := session_path sessionID in
  let bad := protocol 200 "GET" path in
  wire ← get decode_session path 200;
  match wire with
  | None => fail (bad "session response is null or missing session object")
  | Some v =>
      fail_if (v_ID v == "") (bad "session response contains empty session ID");;
      fail_if (v_ID v != sessionID)
        (bad "returned session ID %q does not match requested sessionID %q");;
      state ← validateCanonicalActivityState (v_State v) 200 "GET" path;
      mret (toNormalizedWorkerStatusFromView v state)
  end.

(** ** session_commands.go *)
Definition CreateWorkerSession (projectID harness : string) : gres CreateWorkerSessionResult :=
  fail_if (TrimSpace projectID == "") (bad_request ": projectID cannot be empty or whitespace");;
  fail_if (TrimSpace harness == "") (bad_request ": harness cannot be empty or whitespace");;
  let path := "/api/v1/sessions" in
  let bad := protocol 201 "POST" path in
  resp ← post decode_spawn path 201 (Some (wireSpawnWorkerRequest projectID "worker" harness));
  match sp_Session resp with
  | None => fail (bad "spawn response is null or missing session object")
  | Some v =>
      fail_if (v_ID v == "") (bad "spawn response contains empty session ID");;
      fail_if (v_ProjectID v != projectID)
        (bad "spawn response project ID %q does not match requested projectID %q");;
      fail_if (v_Kind v != "worker") (bad "spawn response session kind %q is not worker");;
      fail_if (v_Harness v != harness)
        (bad "spawn response harness %q does not match requested harness %q");;
      match sp_PromptBytes resp with
      | None => fail (bad "spawn response missing promptBytes field")
      | Some promptBytes =>
          fail_if (promptBytes <? 0)%Z (bad "spawn response promptBytes %d must not be negative");;
          match sp_SystemPromptBytes resp with
          | None => fail (bad "spawn response missing systemPromptBytes field")
          | Some systemPromptBytes =>
              fail_if (systemPromptBytes <? 0)%Z
                (bad "spawn response systemPromptBytes %d must not be negative");;
              state ← validateCanonicalActivityState (v_State v) 201 "POST" path;
              mret {| cr_Session := toNormalizedWorkerStatusFromView v state;
                      cr_PromptBytes := promptBytes; cr_SystemPromptBytes := systemPromptBytes |}
          end
      end
  end.

Definition DispatchTaskContract (sessionID message : string) : gres DispatchTaskResult :=
  empty_session sessionID;;
  fail_if (message == "") (bad_request ": message cannot be empty");;
  let path := session_path sessionID +:+ "/send" in
  let bad := protocol 200 "POST" path in
  resp ← post decode_send path 200 (Some (wireSendSessionMessageRequest message));
  fail_if (negb (sm_OK resp)) (bad "send response ok is false");;
  fail_if (sm_SessionID resp == "") (bad "send response contains empty session ID");;
  fail_if (sm_SessionID resp != sessionID)
    (bad "send response session ID %q does not match requested sessionID %q");;
  mret {| dt_SessionID := sm_SessionID resp; dt_Message := sm_Message resp |}.

Definition StopWorker (sessionID : string) : gres StopWorkerResult :=
  empty_session sessionID;;
  let path := session_path sessionID +:+ "/kill" in
  let bad := protocol 200 "POST" path in
  resp ← post decode_kill path 200 None;
  fail_if (negb (kl_OK resp)) (bad "kill response ok is false");;
  fail_if (kl_SessionID resp == "") (bad "kill response contains empty session ID");;
  fail_if (kl_SessionID resp != sessionID)
    (bad "kill response session ID %q does not match requested sessionID %q");;
  mret {| sw_SessionID := kl_SessionID resp; sw_Freed := kl_Freed resp |}.

Definition ResumeWorker (sessionID : string) : gres ResumeWorkerResult :=
  empty_session sessionID;;
  let path := session_path sessionID +:+ "/restore" in
  let bad := protocol 200 "POST" path in
  resp ← post decode_restore path 200 None;
  fail_if (negb (rs_OK resp)) (bad "restore response ok is false");;
  fail_if (rs_SessionID resp == "") (bad "restore response contains empty session ID");;
  fail_if (rs_SessionID resp != sessionID)
    (bad "restore response top-level session ID %q does not match requested sessionID %q");;
  fail_if (negb (in_list (rs_RestoreMode resp)
                   [RestoreModeNative; RestoreModeSavedPrompt; RestoreModeFresh]))
    (bad "unknown restoreMode %q (must be native, saved_prompt, or fresh)");;
  match rs_Session resp with
  | None => fail (bad "restore response is null or missing nested session object")
  | Some v =>
      fail_if (v_ID v == "") (bad "restore response contains empty nested session ID");;
      fail_if (v_ID v != sessionID)
        (bad "restore response nested session ID %q does not match requested sessionID %q");;
      state ← validateCanonicalActivityState (v_State v) 200 "POST" path;
      mret {| rw_SessionID := rs_SessionID resp; rw_RestoreMode := rs_RestoreMode resp;
              rw_Session := toNormalizedWorkerStatusFromView v state |}
  end.

(** ** Workspace files *)
Definition max_int64_bytes : Z := 2 ^ 63 - 1.
Definition all_present (raw : rawWorkspaceEnvelope) : bool :=
  match raw_SessionID raw, raw_Path raw, raw_Content raw, raw_Binary raw, raw_Deleted raw,
        raw_ContentTruncated raw, raw_Size raw, raw_Status raw with
  | Some _, Some _, Some _, Some _, Some _, Some _, Some _, Some _ =>
      match raw_WorkspaceVersion raw, raw_Diff raw, raw_DiffTruncated raw, raw_Editable raw,
            raw_FileFingerprint raw, raw_Additions raw, raw_Deletions raw with
      | Some _, Some _, Some _, Some _, Some _, Some _, Some _ => true
      | _, _, _, _, _, _, _ => false
      end
  | _, _, _, _, _, _, _, _ => false
  end.

Definition GetWorkspaceFile (sessionID filePath : string) (MaxWireBytes MaxBytes : Z) : gres string :=
  fail_if (TrimSpace sessionID == "") (bad_request ": sessionID cannot be empty");;
  fail_if (TrimSpace filePath == "") (bad_request ": filePath cannot be empty");;
  fail_if ((MaxWireBytes <=? 0)%Z || (MaxBytes <=? 0)%Z)
    (bad_request ": MaxWireBytes and MaxBytes must both be strictly positive (> 0)");;
  fail_if (max_int64_bytes <=? MaxWireBytes)%Z (bad_request ": MaxWireBytes causes integer overflow");;
  fail_if (max_int64_bytes <=? MaxBytes)%Z (bad_request ": MaxBytes causes integer overflow");;
  let reqURL := baseURL +:+ "/api/v1/sessions/" +:+ PathEscape sessionID
                +:+ "/workspace/file?path=" +:+ QueryEscape filePath in
  match request_path reqURL with
  | None => fail (Wrapped "create GET request failed: " (NewError "%v") "")
  | Some path =>
      let req := mkhttp_request "GET" reqURL "application/json" None in
      resp ← checked_response req path 200;
      let bad := protocol (rp_StatusCode resp) "GET" path in
      match read_limited (MaxWireBytes + 1) (rp_Body resp) with
      | None => fail (TransportError "GET" reqURL (NewError "%v"))
      | Some wireBytes =>
          fail_if (MaxWireBytes <? Z.of_nat (String.length wireBytes))%Z
            (SentinelError aoErrPayloadTooLarge);;
          match decode_envelope wireBytes with
          | None => fail (bad "malformed JSON response payload")
          | Some (raw, eof) =>
              fail_if (negb eof) (bad "unexpected trailing data after JSON envelope");;
              fail_if (negb (all_present raw))
                (bad "missing required field in WorkspaceFileResponse envelope");;
              fail_if (raw_SessionID raw != Some sessionID)
                (bad "envelope sessionId %q does not match requested %q");;
              fail_if (raw_Path raw != Some filePath)
                (bad "envelope path %q does not match requested %q");;
              let status := value_or "" (raw_Status raw) in
              fail_if (negb (in_list status ["unmodified"; "modified"; "added"; "deleted"]))
                (bad "invalid status value %q in workspace file envelope");;
              fail_if (value_or false (raw_Binary raw))
                (bad "binary workspace file is unsupported in text reader");;
              fail_if (value_or false (raw_ContentTruncated raw))
                (bad "workspace file content truncated by upstream");;
              fail_if (value_or false (raw_Deleted raw) || (status == "deleted"))
                (SentinelError aoErrWorkspaceFileDeleted);;
              let content := value_or "" (raw_Content raw) in
              fail_if (MaxBytes <? Z.of_nat (String.length content))%Z
                (SentinelError aoErrPayloadTooLarge);;
              mret content
          end
      end
  end.
End Client.

(** ** Escaping *)
Lemma ascii_cases (P : ascii -> Prop) :
  (forall n, (n < 256)%N -> P (ascii_of_N n)) -> forall c, P c.
Proof. intros H c. rewrite <- (ascii_N_embedding c). apply H. apply N_ascii_bounded. Qed.

(** A statement about one character, by trying the 256 of them. *)
Lemma ascii_forall (p : ascii -> bool) :
  forallb (fun n => p (ascii_of_nat n)) (seq 0 256) = true -> forall c, p c = true.
Proof.
  intros H c. rewrite forallb_forall in H. rewrite <- (ascii_nat_embedding c). apply H.
  apply in_seq. pose proof (nat_ascii_bounded c). lia.
Qed.

Definition percent_ok (c : ascii) : bool :=
  let n := N_of_ascii c in
  match unhex (upperhex (n / 16)), unhex (upperhex (n mod 16)) with
  | Some x, Some y => (ascii_of_N (16 * x + y) =? c)%char
  | _, _ => false
  end.
Lemma percent_ok_all c : percent_ok c = true.
Proof. revert c. apply ascii_forall. vm_compute. reflexivity. Qed.
Lemma plain_not_percent c : path_segment_plain c = true -> (c =? "%")%char = false.
Proof.
  enough (negb (path_segment_plain c) || negb (c =? "%")%char = true) as H.
  { intros E. rewrite E in H. by apply negb_true_iff in H. }
  revert c. apply ascii_forall. vm_compute. reflexivity.
Qed.

Lemma PathUnescape_percent c s :
  PathUnescape (percent c s) = option_map (String c) (PathUnescape s).
Proof.
  pose proof (percent_ok_all c) as H. unfold percent_ok in H. unfold percent. cbn zeta in *.
  cbn [PathUnescape]. change (("%" =? "%")%char) with true. cbn match.
  destruct (unhex (upperhex (N_of_ascii c / 16))) as [x|]; [|done].
  destruct (unhex (upperhex (N_of_ascii c mod 16))) as [y|]; [|done].
  apply Ascii.eqb_eq in H. rewrite H. by destruct (PathUnescape s).
Qed.

Lemma PathEscape_unescape s : PathUnescape (PathEscape s) = Some s.
Proof.
  induction s as [|c s IH]; [done|]. cbn [PathEscape].
  destruct (path_segment_plain c) eqn:E.
  - cbn [PathUnescape]. rewrite (plain_not_percent _ E), IH. done.
  - by rewrite PathUnescape_percent, IH.
Qed.

Definition all_chars (p : ascii -> bool) (s : string) : bool := forallb p (list_ascii_of_string s).
Definition segment_char (c : ascii) : bool := path_segment_plain c || (c =? "%")%char.
Lemma percent_chars c :
  segment_char "%" && segment_char (upperhex (N_of_ascii c / 16))
  && segment_char (upperhex (N_of_ascii c mod 16)) = true.
Proof. revert c. apply ascii_forall. vm_compute. reflexivity. Qed.
Lemma PathEscape_chars s : all_chars segment_char (PathEscape s) = true.
Proof.
  unfold all_chars. induction s as [|c s IH]; [done|]. cbn [PathEscape].
  destruct (path_segment_plain c) eqn:E; cbn [percent list_ascii_of_string forallb].
  - unfold segment_char at 1. by rewrite E, IH.
  - pose proof (percent_chars c) as Hp. breflect. rewrite IH. by rewrite H, H0, H1.
Qed.

(** Invert a successful client call check by check. *)
Ltac ginv H :=
  let x := fresh "x" in let H1 := fresh "G" in let H2 := fresh "G" in
  lazymatch type of H with
  | inr _ = inr _ => injection H as H; subst
  | inl _ = inr _ => discriminate H
  | fail _ = inr _ => discriminate H
  | mret _ = inr _ => injection H as H; subst
  | fail_if _ _ = inr _ => apply fail_if_ok in H
  | mbind _ _ = inr _ => apply gres_bind_ok in H as (x & H1 & H2); cbn beta in H2; ginv H1; ginv H2
  | (match ?c with _ => _ end) = inr _ => destruct c eqn:?; ginv H
  | (let _ := _ in _) = inr _ => cbv zeta in H; ginv H
  | _ => idtac
  end.

Definition canonical_states : list string :=
  [ActivityStateActive; ActivityStateIdle; ActivityStateWaitingInput; ActivityStateBlocked;
   ActivityStateExited].

Section Answers.
Context {NL : NetLib} (base : string) (http : http_request -> gres http_response).

Lemma canonical_state_ok raw status method path state :
  validateCanonicalActivityState raw status method path = inr state ->
  state = raw /\ In state canonical_states.
Proof.
  unfold validateCanonicalActivityState. destruct (in_list _ _) eqn:E; intros H; ginv H.
  split; [done|]. by apply in_list_true in E.
Qed.

Ltac answer H :=
  ginv H; breflect;
  repeat match goal with
  | E : validateCanonicalActivityState _ _ _ _ = inr _ |- _ => apply canonical_state_ok in E as [-> ?]
  | E : in_list _ _ = true |- _ => apply in_list_true in E
  end; cbn; split_and?; first [done | congruence | lia | idtac].

(** C37: An answer the client returns is about what was asked: the session (and
  project and harness) of a result are those of the request, an activity is one
  of the five canonical states, a restore mode one of the three, and the
  session identifiers are not blank. *)
Theorem client_answers_match_request :
(forall s w, GetWorkerStatus base http s = inr w ->
   w_ID w = s /\ s <> "" /\ In (w_State w) canonical_states) /\
(forall p h r, CreateWorkerSession base http p h = inr r ->
   w_ID (cr_Session r) <> "" /\ w_ProjectID (cr_Session r) = p /\ w_Harness (cr_Session r) = h /\
   In (w_State (cr_Session r)) canonical_states /\
   (0 <= cr_PromptBytes r)%Z /\ (0 <= cr_SystemPromptBytes r)%Z) /\
(forall s m r, DispatchTaskContract base http s m = inr r ->
   dt_SessionID r = s /\ s <> "" /\ m <> "") /\
(forall s r, StopWorker base http s = inr r -> sw_SessionID r = s /\ s <> "") /\
(forall s r, ResumeWorker base http s = inr r ->
   rw_SessionID r = s /\ s <> "" /\ w_ID (rw_Session r) = s /\
   In (w_State (rw_Session r)) canonical_states /\
   In (rw_RestoreMode r) [RestoreModeNative; RestoreModeSavedPrompt; RestoreModeFresh]).
Proof.
  split_and!.
  - intros s w Hw. unfold GetWorkerStatus, empty_session in Hw. answer Hw.
  - intros p h r Hr. unfold CreateWorkerSession in Hr. answer Hr.
  - intros s m r Hr. unfold DispatchTaskContract, empty_session in Hr. answer Hr.
  - intros s r Hr. unfold StopWorker, empty_session in Hr. answer Hr.
  - intros s r Hr. unfold ResumeWorker, empty_session in Hr. answer Hr.
Qed.

(** The canonical error envelope of AO. *)
Definition error_envelope (resp : http_response) : bool :=
  match read_limited maxErrorBodyBytes (rp_Body resp) with
  | None => false
  | Some body =>
      match unmarshal_error body with
      | Some w => (we_Error w != "") && (we_Code w != "") && (we_Message w != "")
      | None => false
      end
  end.

(** How a failed request is classified.  Only an HTTP 404 that carries the
  canonical error envelope is [ErrNotFound]; the same status with a malformed
  body is a protocol error with status 404 and is not [ErrNotFound]. *)
Theorem failed_request_classification (A : Type) (decode : http_body -> option A) (req : http_request)
  (path : string) (expected : Z) (resp : http_response) :
http req = inr resp -> rp_StatusCode resp <> expected ->
exists e, do_request http decode req path expected = inl e /\
  let code := rp_StatusCode resp in
  let failure := ((code <? 200)%Z || (300 <=? code)%Z)%bool in
  errors_Is e (TSentinel aoErrNotFound) = (failure && error_envelope resp && (code =? 404)%Z)%bool /\
  option_map pe_StatusCode (as_protocol e) =
    (if (failure && error_envelope resp)%bool then None else Some code) /\
  option_map ae_StatusCode (as_api e) =
    (if (failure && error_envelope resp)%bool then Some code else None).
Proof.
intros Hr Hs. apply Z.eqb_neq in Hs. unfold do_request, checked_response. rewrite Hr. cbn zeta.
rewrite Hs. cbn [negb]. unfold error_envelope.
destruct ((rp_StatusCode resp <? 200)%Z || (300 <=? rp_StatusCode resp)%Z) eqn:Hf;
  [|eexists; split; [reflexivity|]; by split_and!].
eexists. split; [reflexivity|]. cbn [andb]. unfold decodeError, protocol.
destruct (read_limited _ _) as [body|]; [|by split_and!].
destruct (unmarshal_error body) as [w|]; [|by split_and!].
destruct ((we_Error w != "") && (we_Code w != "") && (we_Message w != "")); by split_and!.
Qed.
End Answers.

(** ** A daemon with one session *)
Definition sample_view : wireSessionView :=
  {| v_ID := "s1"; v_ProjectID := "p1"; v_Kind := "worker"; v_Harness := "codex"; v_Status := "live";
     v_DisplayStatus := ""; v_IsTerminated := false; v_State := "idle"; v_LastActivityAt := 7;
     v_Branch := ""; v_Model := ""; v_TerminalGeneration := "g1"; v_PreviewURL := "" |}.
Definition sample_status : WorkerStatus := toNormalizedWorkerStatusFromView sample_view "idle".

(** A decoder that knows the bodies "ok" and "missing". *)
Definition on_ok {A} (a : A) (b : http_body) : option A :=
  if bd_text b == "ok" then Some a else None.
Definition sample_net : NetLib := {|
  url_Parse := fun s => Some (mkparsedURL "http" false "" "" "" "127.0.0.1:3001");
  net_SplitHostPort := fun s => Some ("127.0.0.1", "3001");
  net_JoinHostPort := fun h p => h +:+ ":" +:+ p; url_normal := fun s => s;
  net_loopback := fun s => Some true; strconv_Atoi := fun s => Some 3001%Z;
  request_path := fun s => Some s;
  decode_probe := on_ok (mkDaemonProbeResponse "ok" DaemonServiceAO 10 "" "" "" "");
  decode_inventory := on_ok (mkAgentInventory [] [] []); decode_readiness := on_ok [];
  decode_register := on_ok None; decode_project := on_ok (mkwireGetProjectResponse "ok" "{}");
  decode_session := on_ok (Some sample_view);
  decode_spawn := on_ok (mkwireSpawnSessionResponse (Some sample_view) (Some 1%Z) (Some 1%Z));
  decode_send := on_ok (mkwireSend true "s1" "m"); decode_kill := on_ok (mkwireKill true "s1" true);
  decode_restore := on_ok (mkwireRestore true "s1" "native" (Some sample_view));
  unmarshal_error := fun s =>
    if s == "missing" then Some (mkwireAPIError "not_found" "SESSION_NOT_FOUND" "no" "" [] "") else None;
  unmarshal_project := fun _ => None; unmarshal_degraded := fun _ => None;
  decode_envelope := fun _ => None |}.
Definition answers (code : Z) (text : string) : http_request -> gres http_response :=
  fun _ => inr (mkhttp_response code (mkhttp_body text false)).

Lemma client_answers_match_request_witness :
  exists w, @GetWorkerStatus sample_net "http://127.0.0.1:3001" (answers 200 "ok") "s1" = inr w /\
    w_ID w = "s1" /\ In (w_State w) canonical_states.
Proof.
  exists sample_status. assert (@GetWorkerStatus sample_net "http://127.0.0.1:3001" (answers 200 "ok") "s1"
    = inr sample_status) as H by (vm_compute; reflexivity).
  split; [exact H|].
  destruct (proj1 (@client_answers_match_request sample_net "http://127.0.0.1:3001" (answers 200 "ok"))
    _ _ H) as (E & _ & Hs). by split.
Defined.

(** A missing session, with the canonical envelope and without it. *)
Lemma failed_request_classification_witness :
  let req := mkhttp_request "GET" "u" "application/json" None in
  (exists e, @do_request sample_net (answers 404 "missing") unit (fun _ => None) req "p" 200 = inl e /\
     errors_Is e (TSentinel aoErrNotFound) = true /\ as_protocol e = None) /\
  (exists e, @do_request sample_net (answers 404 "<html>") unit (fun _ => None) req "p" 200 = inl e /\
     errors_Is e (TSentinel aoErrNotFound) = false /\ option_map pe_StatusCode (as_protocol e) = Some 404%Z).
Proof.
  cbn zeta. split.
  - destruct (@failed_request_classification sample_net (answers 404 "missing") unit (fun _ => None)
      (mkhttp_request "GET" "u" "application/json" None) "p" 200 _ eq_refl ltac:(done))
      as (e & He & Hn & Hp & _). exists e. split; [exact He|].
    split; [etransitivity; [exact Hn|vm_compute; reflexivity]|].
    assert (option_map pe_StatusCode (as_protocol e) = None) as E
      by (etransitivity; [exact Hp|vm_compute; reflexivity]).
    by destruct (as_protocol e).
  - destruct (@failed_request_classification sample_net (answers 404 "<html>") unit (fun _ => None)
      (mkhttp_request "GET" "u" "application/json" None) "p" 200 _ eq_refl ltac:(done))
      as (e & He & Hn & Hp & _). exists e. split; [exact He|].
    split; (etransitivity; [first [exact Hn|exact Hp]|vm_compute; reflexivity]).
Defined.
