(* ===== verification/AoRoutes.v ===== *)
(** * AoRoutes: where the requests of the AO client go

    An identifier is escaped into a path, the path joined to the base URL and
    the request sent; the daemon takes the URL apart again.  [route] is that
    other side: the path of the URL below the base, up to a query or fragment,
    split at its slashes, each segment unescaped. *)

From S2P Require Import Prelude.
From S2P Require Import GoErr.
From S2P Require Import ReportPath.
From S2P Require Import Filepath.
From S2P Require Import AoClient.

(** ** Taking a URL apart *)
Fixpoint strip (p s : string) : option string :=
  match p, s with
  | EmptyString, _ => Some s
  | String a p, String b s => if (a =? b)%char then strip p s else None
  | String _ _, EmptyString => None
  end.
(** The path ends at a query or a fragment. *)
Fixpoint until_query (s : string) : string :=
  match s with
  | EmptyString => EmptyString
  | String c t => if ((c =? "?") || (c =? "#"))%char then EmptyString else String c (until_query t)
  end.
Fixpoint unescape_all (l : list string) : option (list string) :=
  match l with
  | [] => Some []
  | s :: l =>
      match PathUnescape s, unescape_all l with
      | Some s, Some l => Some (s :: l)
      | _, _ => None
      end
  end.
Definition route (base url : string) : option (list string) :=
  match strip (trim_right_slash base +:+ "/") url with
  | Some path => unescape_all (SplitByte "/" (until_query path))
  | None => None
  end.

Lemma strip_append p s : strip p (p +:+ s) = Some s.
Proof. induction p as [|a p IH]; [done|]. rewrite append_cons. cbn. by rewrite Ascii.eqb_refl. Qed.
Lemma append_nil_r s : s +:+ "" = s.
Proof. induction s as [|c s IH]; [done|]. by rewrite append_cons, IH. Qed.

(** The characters of an escaped segment split no path and end none. *)
Lemma escaped_no_slash s : all_chars segment_char s = true -> no_slash s = true.
Proof.
  unfold all_chars. induction s as [|c s IH]; [done|]. cbn. intros [Hc Hs]%andb_true_iff.
  rewrite IH by done. rewrite andb_true_r. destruct (c =? "/")%char eqn:E; [|done].
  by apply Ascii.eqb_eq in E as ->.
Qed.
Lemma until_query_segment s t :
  all_chars segment_char s = true -> until_query (s +:+ t) = s +:+ until_query t.
Proof.
  unfold all_chars. induction s as [|c s IH]; [done|]. rewrite append_cons. cbn.
  intros [Hc Hs]%andb_true_iff. destruct ((c =? "?") || (c =? "#"))%char eqn:E; [|by rewrite IH].
  apply orb_true_iff in E as [E|E]; apply Ascii.eqb_eq in E as ->; done.
Qed.

(** A path of escaped segments comes apart into the segments. *)
Fixpoint joined (l : list string) : string :=
  match l with
  | [] => ""
  | [s] => PathEscape s
  | s :: l => PathEscape s +:+ "/" +:+ joined l
  end.
Lemma until_query_joined l : until_query (joined l) = joined l.
Proof.
  induction l as [|s l IH]; [done|]. destruct l as [|s' l].
  - pose proof (until_query_segment (PathEscape s) "" (PathEscape_chars s)) as H.
    change (until_query "") with ""%string in H. by rewrite append_nil_r in H.
  - change (joined (s :: s' :: l)) with (PathEscape s +:+ "/" +:+ joined (s' :: l)).
    rewrite until_query_segment by apply PathEscape_chars. f_equal.
    rewrite append_cons, append_nil. cbn [until_query]. by rewrite IH.
Qed.
Lemma unescape_joined l : l <> [] -> unescape_all (SplitByte "/" (joined l)) = Some l.
Proof.
  induction l as [|s l IH]; [done|]. intros _.
  pose proof (escaped_no_slash _ (PathEscape_chars s)) as Hs. destruct l as [|s' l].
  - cbn [joined]. rewrite SplitByte_self by done. cbn. by rewrite PathEscape_unescape.
  - change (joined (s :: s' :: l)) with (PathEscape s +:+ String "/" (joined (s' :: l))).
    rewrite SplitByte_cons by done. cbn [unescape_all]. by rewrite PathEscape_unescape, IH.
Qed.
Lemma route_joined base l :
  l <> [] -> route base (trim_right_slash base +:+ "/" +:+ joined l) = Some l.
Proof.
  intros Hl. unfold route. rewrite <- append_assoc, strip_append, until_query_joined.
  by apply unescape_joined.
Qed.

(** ** Where each operation goes *)
Section Routes.
Context {NL : NetLib} (base : string).

Lemma session_url id : buildURL base (session_path id)
  = trim_right_slash base +:+ "/" +:+ joined ["api"; "v1"; "sessions"; id].
Proof. done. Qed.
Lemma session_command_url id c : joined [c] = c -> buildURL base (session_path id +:+ "/" +:+ c)
  = trim_right_slash base +:+ "/" +:+ joined ["api"; "v1"; "sessions"; id; c].
Proof. intros E. unfold buildURL, session_path. rewrite append_assoc. by rewrite <- E at 1. Qed.

(** The requests of [method] with [body] that the daemon routes to [segments]. *)
Definition addressed (method : string) (segments : list string) (body : option wire_request)
    (req : http_request) : Prop :=
  rq_Method req = method /\ route base (rq_URL req) = Some segments /\ rq_Body req = body.
(** Two transports that answer the requests [P] alike. *)
Definition agree_on (P : http_request -> Prop) (http http' : http_request -> gres http_response) : Prop :=
  forall req, P req -> http req = http' req.

Section Transports.
Context (http http' : http_request -> gres http_response).

Lemma get_agrees {A} (decode : http_body -> option A) path expected segments :
  agree_on (addressed "GET" segments None) http http' -> route base (buildURL base path) = Some segments ->
  get base http decode path expected = get base http' decode path expected.
Proof.
  intros Ha Hu. unfold get, do_request, checked_response. destruct (request_path _); [|done].
  by rewrite Ha.
Qed.
Lemma post_agrees {A} (decode : http_body -> option A) path expected segments body :
  agree_on (addressed "POST" segments body) http http' ->
  route base (buildURL base path) = Some segments ->
  post base http decode path expected body = post base http' decode path expected body.
Proof.
  intros Ha Hu. unfold post, do_request, checked_response. destruct (request_path _); [|done].
  by rewrite Ha.
Qed.
End Transports.
End Routes.

(** The route of a session, or of one of its commands, gives back the identifier. *)
Lemma session_route base id : route base (buildURL base (session_path id)) = Some ["api"; "v1"; "sessions"; id].
Proof. rewrite session_url. by apply route_joined. Qed.
Lemma session_command_route base id c : joined [c] = c ->
  route base (buildURL base (session_path id +:+ "/" +:+ c)) = Some ["api"; "v1"; "sessions"; id; c].
Proof. intros Hc. rewrite session_command_url by done. by apply route_joined. Qed.
Lemma project_route base id :
  route base (buildURL base ("/api/v1/projects/" +:+ PathEscape id)) = Some ["api"; "v1"; "projects"; id].
Proof.
  change (buildURL base ("/api/v1/projects/" +:+ PathEscape id))
    with (trim_right_slash base +:+ "/" +:+ joined ["api"; "v1"; "projects"; id]).
  by apply route_joined.
Qed.

Lemma sessions_route base : route base (buildURL base "/api/v1/sessions") = Some ["api"; "v1"; "sessions"].
Proof. by apply (route_joined base ["api"; "v1"; "sessions"]). Qed.
Lemma projects_route base : route base (buildURL base "/api/v1/projects") = Some ["api"; "v1"; "projects"].
Proof. by apply (route_joined base ["api"; "v1"; "projects"]). Qed.

Section Requests.
Context {NL : NetLib} (base : string).

(** C38: every request of a session or project operation is made of the daemon's
    route for exactly that identifier: taking the URL apart below the base, at
    its slashes and before a query or fragment, and unescaping the segments
    gives the route's fixed words and the identifier the caller named, whatever
    characters it holds, so that what the operation returns depends on nothing
    but how the transport answers the requests of that method, route and body.
    (The dot segments "." and ".." are not escaped, and are left to the server.) *)
Theorem requests_are_addressed (http http' : http_request -> gres http_response) :
  let agree method segments body := agree_on (addressed base method segments body) http http' in
  (forall id, agree "GET" ["api"; "v1"; "sessions"; id] None ->
     GetWorkerStatus base http id = GetWorkerStatus base http' id) /\
  (forall id m, agree "POST" ["api"; "v1"; "sessions"; id; "send"] (Some (wireSendSessionMessageRequest m)) ->
     DispatchTaskContract base http id m = DispatchTaskContract base http' id m) /\
  (forall id, agree "POST" ["api"; "v1"; "sessions"; id; "kill"] None ->
     StopWorker base http id = StopWorker base http' id) /\
  (forall id, agree "POST" ["api"; "v1"; "sessions"; id; "restore"] None ->
     ResumeWorker base http id = ResumeWorker base http' id) /\
  (forall project harness, agree "POST" ["api"; "v1"; "sessions"]
                             (Some (wireSpawnWorkerRequest project "worker" harness)) ->
     CreateWorkerSession base http project harness = CreateWorkerSession base http' project harness) /\
  (forall id root, agree "POST" ["api"; "v1"; "projects"] (Some (wireRegisterProjectRequest root id)) ->
     RegisterProject base http id root = RegisterProject base http' id root) /\
  (forall id, agree "GET" ["api"; "v1"; "projects"; id] None ->
     GetProject base http id = GetProject base http' id).
Proof.
  cbv zeta. split_and!; intros *; intros Ha.
  - unfold GetWorkerStatus. by rewrite (get_agrees _ _ _ _ _ _ _ Ha (session_route base id)).
  - unfold DispatchTaskContract.
    by rewrite (post_agrees _ _ _ _ _ _ _ _ Ha (session_command_route base id "send" eq_refl)).
  - unfold StopWorker.
    by rewrite (post_agrees _ _ _ _ _ _ _ _ Ha (session_command_route base id "kill" eq_refl)).
  - unfold ResumeWorker.
    by rewrite (post_agrees _ _ _ _ _ _ _ _ Ha (session_command_route base id "restore" eq_refl)).
  - unfold CreateWorkerSession.
    by rewrite (post_agrees _ _ _ _ _ _ _ _ Ha (sessions_route base)).
  - unfold RegisterProject.
    by rewrite (post_agrees _ _ _ _ _ _ _ _ Ha (projects_route base)).
  - unfold GetProject. by rewrite (get_agrees _ _ _ _ _ _ _ Ha (project_route base id)).
Qed.
End Requests.

(** The URL of an identifier with separators, and a transport that answers one route. *)
Definition sample_base : string := "http://127.0.0.1:3001/".
Definition odd_session : string := "s/1?x#y z".
Definition only (segments : list string) (http : http_request -> gres http_response)
    (req : http_request) : gres http_response :=
  if decide (route sample_base (rq_URL req) = Some segments) then http req else inl (NewError "no such route").
Example odd_session_url :
  buildURL sample_base (session_path odd_session) = "http://127.0.0.1:3001/api/v1/sessions/s%2F1%3Fx%23y%20z".
Proof. vm_compute. reflexivity. Qed.
Lemma requests_are_addressed_witness :
  @GetWorkerStatus sample_net sample_base
    (only ["api"; "v1"; "sessions"; "s1"] (answers 200 "ok")) "s1" = inr sample_status.
Proof.
  refine (eq_trans (eq_sym (proj1 (@requests_are_addressed sample_net sample_base
                                     (answers 200 "ok") _) "s1" _)) _).
  - intros req (_ & Hr & _). unfold only. by rewrite decide_True.
  - vm_compute. reflexivity.
Defined.
