(* ===== verification/Agent.v ===== *)
(** * Agent: programs above the store

    The coordinators and the recovery code call the store, the daemon, the
    host and the clock, and hold no lock on the store between two calls.
    [Prog] is the type of such programs: a tree whose nodes are the calls.
    A [world] is a store shared by any number of running programs; its steps
    interleave their calls, in which the daemon, the host and the driver may
    answer anything, with writes of other clients of the store and with
    crashes.  The calls that act on the outside (create, restore, send, kill)
    are named by the durable operation they are made for ([issues]), and
    [guarded] is the discipline under which each is made at most once. *)

From stdpp Require Import relations.
From S2P Require Import Prelude.
From S2P Require Import Domain.
From S2P Require Import GoLib.
From S2P Require Import Db.
From S2P Require Import Tx.
From S2P Require Import DbFacts.
From S2P Require Import RecoveryStore.
From S2P Require Import Protocol.
From S2P Require Import History.
From S2P Require Import Invariants.
From S2P Require Import System.
From S2P Require Import GoErr.
From S2P Require Import AoClient.

(** ** Calls *)

(** The first argument of the four acting calls is not sent: it is the durable
    operation on whose behalf the program makes the call.  A [None] answer is
    a nil pointer returned with a nil error. *)
Inductive eff : Type -> Type :=
| EStore {A} (m : M A) : eff (res A)
| ECreateWorkerSession (operation projectID harness : string)
    : eff (gres (option CreateWorkerSessionResult))
| EResumeWorker (operation sessionID : string) : eff (gres (option ResumeWorkerResult))
| EDispatchTaskContract (operation sessionID message : string)
    : eff (gres (option DispatchTaskResult))
| EStopWorker (operation sessionID : string) : eff (gres (option StopWorkerResult))
| EGetWorkerStatus (sessionID : string) : eff (gres (option WorkerStatus))
| EVerifiedRestorePrincipal (pairID sessionID generation scope : string)
    : eff (gres (string * bool))
| EHandoffAvailable (x : RecoveryExecution) : eff (gres bool)
| EAcquireEffect (pairID caller : string) : eff (gres bool)   (* a permit that is not nil *)
| EAcquireMaintenance (pairID purpose : string) : eff (gres bool)
| EAcquire : eff (gres bool)
| ERelease : eff (option goerr)
| EStopPoller : eff (option goerr)                            (* Stop of the active poller, if any *)
| EInvocationID : eff string
| ECtxErr : eff (option goerr)
| ENow : eff Z
| ERandom : eff (gres string).                                (* 16 bytes of crypto/rand, in hexadecimal *)

(** [Spin] is a loop that has not ended yet. *)
Inductive Prog (A : Type) : Type :=
| Ret (a : A)
| Fail (e : goerr)
| Spin
| Do {X} (e : eff X) (k : X -> Prog A).
Arguments Ret {A} a.
Arguments Fail {A} e.
Arguments Spin {A}.
Arguments Do {A X} e k.

#[export] Instance Prog_ret : MRet Prog := fun A a => Ret a.
Fixpoint prog_bind {A B} (p : Prog A) (k : A -> Prog B) : Prog B :=
  match p with
  | Ret a => k a
  | Fail e => Fail e
  | Spin => Spin
  | Do e f => Do e (fun x => prog_bind (f x) k)
  end.
#[export] Instance Prog_bind : MBind Prog := fun A B k p => prog_bind p k.

(** [x, err := p]: the error is handled by the caller. *)
Fixpoint attempt {A} (p : Prog A) : Prog (gres A) :=
  match p with
  | Ret a => Ret (inr a)
  | Fail e => Ret (inl e)
  | Spin => Spin
  | Do e f => Do e (fun x => attempt (f x))
  end.
Definition demand {A} (r : gres A) : Prog A := match r with inr a => Ret a | inl e => Fail e end.
Definition from_res {A} (r : res A) : gres A :=
  match r with Ok a => inr a | Err e => inl (StoreError e) end.

Definition ask {X} (e : eff X) : Prog X := Do e Ret.
(** A store call whose error is returned, and one whose error is handled. *)
Definition call {A} (m : M A) : Prog A := Do (EStore m) (fun r => demand (from_res r)).
Definition try_call {A} (m : M A) : Prog (gres A) := Do (EStore m) (fun r => Ret (from_res r)).
Definition ask_ok {A} (e : eff (gres A)) : Prog A := Do e demand.
Definition when_ (c : bool) (e : goerr) : Prog unit := if c then Fail e else Ret tt.
Definition ctx_check : Prog unit := e ← ask ECtxErr; match e with Some e => Fail e | None => Ret tt end.

(** ** Running a call *)

(** The answer and the database after it: a store call runs as the store
    does, with any clock, randomness and driver; every other call may answer
    anything. *)
Definition runs {X} (e : eff X) (d : DB) : X -> DB -> Prop :=
  match e in eff X return X -> DB -> Prop with
  | EStore m => fun r d' => exists env n s', m env (mkSt d n) = (r, s') /\ d' = st_db s'
  | _ => fun _ d' => d' = d
  end.

(** ** The calls that act, and the record that must precede them *)
Inductive effect_key : Type :=
| KCreate (operation : string) | KRestore (operation : string)
| KSend (operation : string) | KStop (operation : string).
#[export] Instance effect_key_eq_dec : EqDecision effect_key.
Proof. solve_decision. Defined.

Definition issues {X} (e : eff X) : option effect_key :=
  match e with
  | ECreateWorkerSession operation _ _ => Some (KCreate operation)
  | EResumeWorker operation _ => Some (KRestore operation)
  | EDispatchTaskContract operation _ _ => Some (KSend operation)
  | EStopWorker operation _ => Some (KStop operation)
  | _ => None
  end.

(** The durable intent of a call has been recorded. *)
Definition spent (key : effect_key) (d : DB) : bool :=
  match key with
  | KCreate id => existsb (fun o => pp_OperationID o == id) (pair_provisioning_operations d)
  | KRestore id => existsb (fun o => ro_OperationID o == id) (pair_restore_operations d)
  | KSend id => existsb (fun o => (d_OperationID o == id) && (d_Stage o != DispatchBound))
                  (dispatch_operations d)
  | KStop id => existsb (fun o => so_OperationID o == id) (stop_operations d)
  end.

Section Agent.
Context {L : GoLib}.

Lemma forward_existsb {A} (R : A -> A -> Prop) (p : A -> bool) (l l' : list A) :
  (forall x y, R x y -> p x = true -> p y = true) -> forward R l l' ->
  existsb p l = true -> existsb p l' = true.
Proof.
  intros Hp Hf (x & Hin & Hx)%existsb_exists. destruct (Hf x Hin) as (y & Hy & Hr).
  apply existsb_exists. eauto.
Qed.

Lemma spent_mono key release d d' : protos release d d' -> spent key d = true -> spent key d' = true.
Proof.
  intros [_ _ _ Hd Hs Hr Hp _ _]%protos_history. destruct key; cbn.
  - eapply forward_existsb; [|exact Hp]. by intros x y (-> & _) H.
  - eapply forward_existsb; [|exact Hr]. by intros x y (-> & _) H.
  - eapply forward_existsb; [|exact Hd]. intros x y (E&_&_&_&_&_&Hk&_) H. breflect.
    apply andb_true_iff. split; [apply eqb_true; congruence|].
    apply negb_true_iff, eqb_false. intros Hb.
    rewrite Hb in Hk. cbn in Hk. destruct (d_Stage x); cbn in *; (done || lia).
  - eapply forward_existsb; [|exact Hs]. intros x y [E _] H. unfold stop_identity, stop_tuple in E.
    congruence.
Qed.

(** ** At most once: the discipline *)

(** After a call the program holds the permit for [key] if it held it and the
    call did not use it, or if the call recorded the intent. *)
Definition next (key : effect_key) {X} (e : eff X) (permit : bool) (d d' : DB) : bool :=
  if issues e == Some key then false
  else permit || (negb (spent key d) && spent key d').

Fixpoint guarded (key : effect_key) (permit : bool) {A} (p : Prog A) : Prop :=
  match p with
  | Do e k =>
      (issues e = Some key -> permit = true) /\
      forall d x d', store_inv d -> runs e d x d' ->
        protos true d d' /\ guarded key (next key e permit d d') (k x)
  | _ => True
  end.

(** A program that never acts. *)
Fixpoint quiet {A} (p : Prog A) : Prop :=
  match p with
  | Do e k => issues e = None /\ forall d x d', store_inv d -> runs e d x d' -> protos true d d' /\ quiet (k x)
  | _ => True
  end.

Lemma next_mono key {X} (e : eff X) d d' : next key e false d d' = true -> next key e true d d' = true.
Proof. unfold next. by destruct (issues e == Some key). Qed.
Lemma guarded_mono key {A} (p : Prog A) permit : guarded key false p -> guarded key permit p.
Proof.
  destruct permit; [|done]. induction p as [a|e| |X e k IH]; try done. intros [Hi Hk]. split; [done|].
  intros d x d' Hinv Hr. destruct (Hk d x d' Hinv Hr) as [Hp Hg]. split; [done|].
  pose proof (next_mono key e d d') as Hn. destruct (next key e false d d').
  - by rewrite Hn.
  - destruct (next key e true d d'); [by apply IH|done].
Qed.

Lemma guarded_quiet_bind key {A B} (p : Prog A) (k : A -> Prog B) permit :
  quiet p -> (forall a, guarded key permit (k a)) -> guarded key permit (p ≫= k).
Proof.
  revert permit. induction p as [a|e| |X e f IH]; intros permit Hq Hk; try done; [by apply Hk|].
  destruct Hq as [Hi Hq]. split; [congruence|]. intros d x d' Hinv Hr. destruct (Hq d x d' Hinv Hr) as [Hp Hx].
  split; [done|]. apply IH; [done|]. intros a. specialize (Hk a).
  unfold next. rewrite Hi. cbn. destruct permit; [done|]. by apply guarded_mono.
Qed.
Lemma quiet_guarded key permit {A} (p : Prog A) : quiet p -> guarded key permit p.
Proof.
  revert permit. induction p as [a|e| |X e f IH]; intros permit Hq; try done.
  destruct Hq as [Hi Hq]. split; [congruence|]. intros d x d' Hinv Hr. destruct (Hq d x d' Hinv Hr).
  split; [done|]. by apply IH.
Qed.
Lemma quiet_bind {A B} (p : Prog A) (k : A -> Prog B) :
  quiet p -> (forall a, quiet (k a)) -> quiet (p ≫= k).
Proof.
  induction p as [a|e| |X e f IH]; intros Hq Hk; try done; [by apply Hk|].
  destruct Hq as [Hi Hq]. split; [done|]. intros d x d' Hinv Hr. destruct (Hq d x d' Hinv Hr).
  split; [done|]. by apply IH.
Qed.
Lemma quiet_attempt {A} (p : Prog A) : quiet p -> quiet (attempt p).
Proof.
  induction p as [a|e| |X e f IH]; intros Hq; try done.
  destruct Hq as [Hi Hq]. split; [done|]. intros d x d' Hinv Hr. destruct (Hq d x d' Hinv Hr).
  split; [done|]. by apply IH.
Qed.
Lemma guarded_attempt key permit {A} (p : Prog A) : guarded key permit p -> guarded key permit (attempt p).
Proof.
  revert permit. induction p as [a|e| |X e f IH]; intros permit Hq; try done.
  destruct Hq as [Hi Hq]. split; [done|]. intros d x d' Hinv Hr. destruct (Hq d x d' Hinv Hr).
  split; [done|]. by apply IH.
Qed.

(** *** Calls *)
Lemma quiet_store {A B} (m : M A) (k : res A -> Prog B) :
  OpSteps (protos true) m -> (forall r, quiet (k r)) -> quiet (Do (EStore m) k).
Proof. intros Hm Hk. split; [done|]. intros d x d' Hinv (env & n & s' & Hr & ->). split; [by apply Hm in Hr|done]. Qed.
Lemma quiet_call {A} (m : M A) : OpSteps (protos true) m -> quiet (call m).
Proof. intros Hm. apply quiet_store; [done|]. by intros [a|e]. Qed.
Lemma quiet_try_call {A} (m : M A) : OpSteps (protos true) m -> quiet (try_call m).
Proof. intros Hm. by apply quiet_store. Qed.

(** Every call but those of the store leaves it alone. *)
Definition external {X} (e : eff X) : bool := match e with EStore _ => false | _ => true end.
Lemma runs_external {X} (e : eff X) d x d' : external e = true -> runs e d x d' -> d' = d.
Proof. by destruct e. Qed.
Lemma quiet_do {X B} (e : eff X) (k : X -> Prog B) :
  external e = true -> issues e = None -> (forall x, quiet (k x)) -> quiet (Do e k).
Proof.
  intros He Hi Hk. split; [done|]. intros d x d' _ ->%runs_external; [|done]. split; [reflexivity|done].
Qed.
Lemma quiet_ask_ok {A} (e : eff (gres A)) : external e = true -> issues e = None -> quiet (ask_ok e).
Proof. intros. apply quiet_do; [done..|]. by intros [|]. Qed.
Lemma quiet_ask {A} (e : eff A) : external e = true -> issues e = None -> quiet (ask e).
Proof. intros. by apply quiet_do. Qed.
Lemma quiet_when c e : quiet (when_ c e).
Proof. by destruct c. Qed.
Lemma quiet_ctx : quiet ctx_check.
Proof. split; [done|]. intros d x d' _ ->. split; [reflexivity|]. by destruct x. Qed.

(** An acting call, with the permit or for another key. *)
Lemma guarded_do key permit {X B} (e : eff X) (k : X -> Prog B) :
  external e = true -> (issues e = Some key -> permit = true) -> (forall x, guarded key false (k x)) ->
  guarded key permit (Do e k).
Proof.
  intros He Hi Hk. split; [done|]. intros d x d' _ ->%runs_external; [|done]. split; [reflexivity|].
  by apply guarded_mono.
Qed.

(** [m] records the intent of [key]: when it succeeds, the record was not there
    before and is there after. *)
Definition records (key : effect_key) {A} (m : M A) : Prop :=
  forall env s a s', store_inv (st_db s) -> m env s = (Ok a, s') ->
    spent key (st_db s) = false /\ spent key (st_db s') = true.

Lemma guarded_records key {A B} (m : M A) (k : res A -> Prog B) :
  OpSteps (protos true) m -> records key m ->
  (forall a, guarded key true (k (Ok a))) -> (forall e, guarded key false (k (Err e))) ->
  guarded key false (Do (EStore m) k).
Proof.
  intros Hm Hrec Hok Herr. split; [done|]. intros d x d' Hinv (env & n & s' & Hr & ->).
  split; [by apply Hm in Hr|]. destruct x as [a|e]; [|by apply guarded_mono].
  destruct (Hrec _ (mkSt _ _) _ _ Hinv Hr) as [E1 E2]. cbn in E1. unfold next. cbn. rewrite E1, E2. apply Hok.
Qed.
End Agent.
