(* ===== verification/Intents.v ===== *)
(** * Intents: the store operations that record an intent

    [RecordSendRequested], [ReserveStopOperation], [ClaimRestoreCleanupWithStop],
    [ReservePairRestore] and [ReservePairProvisioning] succeed only for the
    caller that wrote the record: it was not there before. *)

From S2P Require Import Prelude.
From S2P Require Import Domain.
From S2P Require Import GoLib.
From S2P Require Import Db.
From S2P Require Import Tx.
From S2P Require Import AuditLog.
From S2P Require Import DbFacts.
From S2P Require Import Lifecycle.
From S2P Require Import DispatchStore.
From S2P Require Import StopStore.
From S2P Require Import RestoreStore.
From S2P Require Import RecoveryStore.
From S2P Require Import Protocol.
From S2P Require Import Invariants.
From S2P Require Import Refinement.
From S2P Require Import Agent.

Section Rules.
Context {L : GoLib} (key : effect_key).
Local Abbreviation Keeps := (Steps (protos true)).

(** The body of a transaction that only ends by committing. *)
Definition committed {A} (m : M (verdict A)) : Prop :=
  forall env s v s', m env s = (Ok v, s') -> exists a, v = Commit a.

Lemma committed_commit {A} (a : A) : committed (commit a).
Proof. intros env s v s' H. unfold commit in H. apply ret_ok in H as [-> _]. by exists a. Qed.
Lemma committed_throw {A} e : committed (A:=A) (throw e).
Proof. intros env s v s' H. by apply throw_ok in H. Qed.
Lemma committed_bind {A B} (m : M B) (k : B -> M (verdict A)) :
  (forall b, committed (k b)) -> committed (m ≫= k).
Proof. intros Hk env s v s' (b & s1 & _ & H)%bind_ok. by eapply Hk. Qed.

Lemma records_before {A B} (m : M A) (k : A -> M B) :
  Keeps m -> (forall a, records key (k a)) -> records key (m ≫= k).
Proof.
  intros Hm Hk env s b s' Hi (a & s1 & H1 & H2)%bind_ok. apply Hm in H1.
  destruct (Hk _ _ _ _ _ (protos_inv _ _ _ H1 Hi) H2) as [E1 E2].
  split; [|done]. destruct (spent key (st_db s)) eqn:E; [|done].
  apply (spent_mono key _ _ _ H1) in E. congruence.
Qed.
Lemma records_after {A B} (m : M A) (k : A -> M B) :
  records key m -> (forall a, Keeps (k a)) -> records key (m ≫= k).
Proof.
  intros Hm Hk env s b s' Hi (a & s1 & H1 & H2)%bind_ok. destruct (Hm _ _ _ _ Hi H1) as [E1 E2]. split; [done|].
  apply Hk in H2. by apply (spent_mono key _ _ _ H2).
Qed.
Lemma records_guard {A} c e (k : M A) :
  (c = false -> records key k) -> records key (reject_if c e;; k).
Proof.
  intros Hk env s a s' Hi (u & s1 & H1 & H2)%bind_ok. apply reject_if_ok in H1 as [Hc ->]. by eapply Hk.
Qed.
Lemma records_map_err {A} g (m : M A) : records key m -> records key (map_err g m).
Proof. intros Hm env s a s' Hi H%map_err_ok. by eapply Hm. Qed.
Lemma records_throw {A} e : records key (A:=A) (throw e).
Proof. intros env s a s' _ H. by apply throw_ok in H. Qed.
Lemma records_with_tx {A} (body : M (verdict A)) :
  committed body -> records key body -> records key (with_tx body).
Proof.
  intros Hc Hr env s a s' Hi (s1 & [[Hb ->]|[Hb _]])%with_tx_ok.
  - by apply Hr in Hb.
  - destruct (Hc _ _ _ _ Hb). done.
Qed.
Lemma records_affects {e} m : (forall env s n s', store_inv (st_db s) -> m env s = (Ok (S n), s') ->
    spent key (st_db s) = false /\ spent key (st_db s') = true) ->
  records key (affects_one e m).
Proof.
  intros Hm env s a s' Hi H. unfold affects_one in H. apply bind_ok in H as (n & s1 & H1 & H2).
  apply reject_if_ok in H2 as [Hn ->]. destruct n as [|n]; [done|]. by eapply Hm.
Qed.
End Rules.

Ltac committed_walk :=
  repeat first
    [ progress intros
    | apply committed_commit | apply committed_throw | apply committed_bind
    | match goal with
      | |- committed (let _ := _ in _) => cbv zeta
      | |- committed (if ?c then _ else _) => destruct c
      | |- committed (match ?c with _ => _ end) => destruct c
      end ].

(** Follow the operation up to the statement that writes the record. *)
Ltac records_step :=
  lazymatch goal with
  | |- records _ (mbind _ (reject_if _ _)) => apply records_guard; intros
  | |- records _ (with_tx _) => apply records_with_tx; [committed_walk|]
  | |- records _ (throw _) => apply records_throw
  | |- records _ (let _ := _ in _) => cbv zeta
  | |- records _ (match ?c with _ => _ end) => destruct c eqn:?
  end.

Section Intents.
Context {L : GoLib}.
#[local] Hint Resolve steps_audit steps_appendStopAudit steps_guardStopRestoreOwner
  steps_check_stop_purpose : tbl.
Local Abbreviation Keeps := (Steps (protos true)).

(** *** The statement that writes the record *)
Lemma records_exec key f :
  (forall d d', f d = Ok d' -> spent key d = false /\ spent key d' = true) -> records key (exec f).
Proof. intros Hf env s a s' _ H%exec_ok. eauto. Qed.

Lemma existsb_snoc {A} (p : A -> bool) l x : p x = true -> existsb p (l ++ [x]) = true.
Proof. intros Hx. rewrite existsb_app. cbn. rewrite Hx. by rewrite orb_true_r. Qed.
Lemma existsb_none {A} (p : A -> bool) l : (forall x, In x l -> p x = false) -> existsb p l = false.
Proof.
  intros H. destruct (existsb p l) eqn:E; [|done]. apply existsb_exists in E as (x & Hin & Hx).
  rewrite H in Hx; done.
Qed.

Lemma records_insert_stop o :
  records (KStop (so_OperationID o)) (mapLifecycleWriteError (exec (insert_stop o))).
Proof.
  apply records_map_err, records_exec. intros d d' (-> & _ & _ & Hn)%insert_stop_ok. cbn. split.
  - apply existsb_none. intros x Hx. apply eqb_false, Hn, Hx.
  - apply existsb_snoc, eqb_refl.
Qed.
Lemma records_insert_restore o :
  records (KRestore (ro_OperationID o)) (mapLifecycleWriteError (exec (insert_restore o))).
Proof.
  apply records_map_err, records_exec. intros d d' (-> & _ & _ & Hn)%insert_restore_ok. cbn. split.
  - apply existsb_none. intros x Hx. apply eqb_false, Hn, Hx.
  - apply existsb_snoc, eqb_refl.
Qed.
Lemma records_insert_provisioning o :
  records (KCreate (pp_OperationID o)) (mapLifecycleWriteError (exec (insert_provisioning o))).
Proof.
  apply records_map_err, records_exec. intros d d' (-> & _ & Hn)%insert_provisioning_ok. cbn. split.
  - apply existsb_none. intros x Hx. apply eqb_false, Hn, Hx.
  - apply existsb_snoc, eqb_refl.
Qed.

(** *** The operations *)
Ltac before := apply records_before; [solve [walk]|]; intros.
Ltac records_walk final :=
  repeat first [ records_step | (apply records_after; [solve [final]|]) | before ].

Lemma records_createStopOperationTx o observation :
  so_Stage o = StopRequested -> so_ResolutionState o = StopResolutionInFlight ->
  records (KStop (so_OperationID o)) (createStopOperationTx o observation).
Proof.
  intros Hs Hr. unfold createStopOperationTx.
  apply records_before; [unfold check_stop_lineage; walk|]. intros _.
  apply records_before; [unfold check_stop_restore, rejectUnresolvedProvisioning; walk|]. intros _.
  apply records_after; [apply (records_insert_stop (stop_row o))|]. intros. walk.
Qed.

Lemma records_ReservePairProvisioning o actor :
  records (KCreate (pp_OperationID o)) (ReservePairProvisioning o actor).
Proof.
  unfold ReservePairProvisioning.
  repeat first [ records_step
               | apply records_after; [match goal with |- records _ (mapLifecycleWriteError
                   (exec (insert_provisioning ?x))) => apply (records_insert_provisioning x) end|]
               | before ].
  intros. walk.
Qed.
Lemma records_ReservePairRestore request :
  records (KRestore (rr_OperationID request)) (ReservePairRestore request).
Proof.
  unfold ReservePairRestore.
  repeat first [ records_step
               | apply records_after; [match goal with |- records _ (mapLifecycleWriteError
                   (exec (insert_restore ?x))) => apply (records_insert_restore x) end|]
               | before ].
  intros. walk.
Qed.

(** A request with its defaults keeps its identifier. *)
Ltac name_request o :=
  match goal with |- context [reject_if ((so_Stage ?s != StopRequested) || _) _] =>
    tryif is_var s then fail else
    (assert (so_OperationID s = so_OperationID o) as Hid by (cbn; by repeat case_match);
     rewrite <- Hid; generalize dependent s; intros stop Hid) end.
Ltac to_stop o :=
  repeat first [ name_request o | records_step
    | apply records_after; [match goal with |- records _ (createStopOperationTx ?x _) =>
        apply (records_createStopOperationTx x); breflect; assumption end|]
    | before ].
Lemma records_ReserveStopOperation o :
  records (KStop (so_OperationID o)) (ReserveStopOperation o).
Proof. unfold ReserveStopOperation. cbv zeta. to_stop o. intros. walk. Qed.
Lemma records_ClaimRestoreCleanupWithStop o principal actor at_ observations :
  records (KStop (so_OperationID o)) (ClaimRestoreCleanupWithStop o principal actor at_ observations).
Proof. unfold ClaimRestoreCleanupWithStop. cbv zeta. to_stop o. intros. walk. Qed.

(** A dispatch id names one row, so an update of its DISPATCH_BOUND row finds no
    other stage. *)
Lemma records_RecordSendRequested id session generation activity terminated actor at_ :
  records (KSend id) (RecordSendRequested id session generation activity terminated actor at_).
Proof.
  unfold RecordSendRequested.
  repeat first [ records_step | apply records_after; [apply records_affects|] | before ].
  2: intros; walk.
  intros env s n s' Hi Hrun%exec_n_ok. apply update_dispatch_ok in Hrun as (E & Hn & _). rewrite E. cbn.
  pose proof (key_dispatches _ (inv_keys _ Hi)) as Hk.
  destruct (affected_pos _ _ ltac:(by rewrite <- Hn)) as (x & Hin & Hx). breflect. split.
  - apply existsb_none. intros y Hy. destruct (d_OperationID y == id) eqn:Ey; [|done]. breflect.
    assert (y = x) as -> by (eapply (nodup_key_eq d_OperationID); eauto; congruence).
    cbn. apply negb_false_iff. by apply eqb_true.
  - apply existsb_exists. exists (x <| d_Stage := SendRequested |>). split.
    + apply in_upd. exists x. split; [done|]. cbn.
      repeat (rewrite (proj2 (eqb_true _ _)); [|done]). cbn. by destruct (d_ResolutionState x).
    + cbn. by rewrite (proj2 (eqb_true _ _)).
Qed.
End Intents.
