(* ===== verification/DispatchCoordinator.v ===== *)
(** * DispatchCoordinator: internal/dispatch/coordinator.go

    Provisioning, restore, dispatch and pre-send recovery over the store, the
    daemon and the operator boundary.  A context that was cancelled shows as
    errors of the calls made with it. *)

From S2P Require Import Prelude.
From S2P Require Import Domain.
From S2P Require Import GoLib.
From S2P Require Import Db.
From S2P Require Import Tx.
From S2P Require Import Scrub.
From S2P Require Import AuditLog.
From S2P Require Import TaskStore.
From S2P Require Import Lifecycle.
From S2P Require Import DispatchStore.
From S2P Require Import RestoreStore.
From S2P Require Import StopStore.
From S2P Require Import GoErr.
From S2P Require Import AoClient.
From S2P Require Import Agent.

Record Coordinator := mkCoordinator {
  co_Store : bool; co_AO : bool; co_Operator : bool;  (* not nil *)
  co_RestoreEnabled : bool; co_ExecutionPolicy : ExecutionBudgetPolicy }.

Definition now : Prog Z := ask ENow.
(** [VerifiedRestorePrincipal] and the refusal of an unverified or empty one. *)
Definition verified_principal (pairID sessionID generation scope message : string) : Prog string :=
  pv ← ask_ok (EVerifiedRestorePrincipal pairID sessionID generation scope);
  when_ (negb (snd pv) || (fst pv == "")) (NewError message);;
  mret (fst pv).
Definition operator_required : string := "dispatch: verified operator principal required".

Definition ao_idle_or_waiting (state : string) : bool :=
  (state == ActivityStateIdle) || (state == ActivityStateWaitingInput).

(** [details[key].(string)], "" when it is not a string. *)
Definition detail_text (key : string) (details : list (string * value)) : string :=
  match map_lookup key details with Some (VStr s) => s | _ => "" end.

Section Dispatch.
Context {L : GoLib} {ST : StoreText} (c : Coordinator).

Definition Provision (operation : PairProvisioningOperation) (projectID harness actor : string)
    : Prog unit :=
  let id := pp_OperationID operation in
  when_ (negb (co_Store c) || negb (co_AO c))
    (NewError "dispatch: coordinator dependencies are not configured");;
  call (ReservePairProvisioning operation actor);;
  r ← ask (ECreateWorkerSession id projectID harness);
  match r with
  | inl err =>
      at_ ← now;
      try_call (FailPairProvisioning id actor ("upstream create result unresolved: " +:+ Error err) at_);;
      Fail (Wrapped "dispatch: AO create failed; Pair remains reserved: " err "")
  | inr None =>
      at_ ← now;
      try_call (FailPairProvisioning id actor
        "create response missing; provisioning cannot be replayed" at_);;
      Fail (NewError "dispatch: AO create returned empty result; provisioning intent remains reserved")
  | inr (Some result) =>
      let session := cr_Session result in
      if (w_ID session == "") || (w_TerminalGeneration session == "") || w_IsTerminated session then
        at_ ← now;
        try_call (FailPairProvisioning id actor
          "create response failed session identity/state validation" at_);;
        Fail (NewError "dispatch: invalid or terminated create response; Pair remains reserved")
      else
        at_ ← now;
        confirm ← try_call (ConfirmPairProvisioning id
          {| ws_PairID := pp_PairID operation; ws_SessionID := w_ID session;
             ws_RuntimeType := harness; ws_WorktreePath := None; ws_WorkerAgentID := harness;
             ws_Status := WorkerSessionIdle; ws_TerminalGeneration := w_TerminalGeneration session;
             ws_QuarantineState := QuarantineClean; ws_CreatedAt := 0; ws_UpdatedAt := 0 |}
          actor at_);
        match confirm with
        | inr _ => mret tt
        | inl confirmErr =>
            durable ← try_call (GetPairProvisioningOperation id);
            match durable with
            | inr o =>
                if (pp_Stage o == ProvisionConfirmed) && (pp_SessionID o == Some (w_ID session))
                then mret tt
                else Fail (Wrapped "dispatch: AO create succeeded but confirmation was not proven; durable reread=%+v read_error=%v; never spawn replacement: " confirmErr "")
            | inl _ =>
                Fail (Wrapped "dispatch: AO create succeeded but confirmation was not proven; durable reread=%+v read_error=%v; never spawn replacement: " confirmErr "")
            end
        end
  end.

(** [RecordPairRestoreUnknown], then the reread quoted by the message. *)
Definition restore_unknown (request : RestoreReservation) (reread : bool) : Prog unit :=
  try_call (RecordPairRestoreUnknown (rr_OperationID request) (rr_Actor request));;
  (if reread then try_call (GetPairRestoreOperation (rr_OperationID request));; mret tt else mret tt).

Definition restore_status (state : string) : WorkerSessionStatus :=
  if ao_idle_or_waiting state then WorkerSessionIdle
  else if (state == ActivityStateActive) || (state == ActivityStateBlocked) then WorkerSessionActive
  else if state == ActivityStateExited then WorkerSessionTerminated
  else WorkerSessionActive.

(** After HTTP 200 and a confirming observation. *)
Definition confirm_restore (request : RestoreReservation) (result : ResumeWorkerResult)
    (observed : WorkerStatus) : Prog unit :=
  let id := rr_OperationID request in
  let generation := w_TerminalGeneration (rw_Session result) in
  let unproven e := Wrapped "dispatch: restore HTTP 200 confirmation did not persist; durable reread=%+v read_error=%v; do not retry restore: " e "" in
  at_ ← now;
  confirm ← try_call (ConfirmPairRestore id (rr_SessionID request) (rr_ExpectedGeneration request)
    generation (rw_RestoreMode result) (restore_status (w_State observed)) (rr_Actor request) at_);
  match confirm with
  | inr _ => mret tt
  | inl confirmErr =>
      durable ← try_call (GetPairRestoreOperation id);
      match durable with
      | inr o =>
          if (ro_Stage o == RestoreConfirmedStage) && is_some (ro_HTTP200At o)
             && (ro_ObservedGeneration o == Some generation)
             && (ro_RestoreMode o == Some (rw_RestoreMode result)) then mret tt
          else
            (if ro_ResolutionState o == RestoreInFlight then restore_unknown request true else mret tt);;
            Fail (unproven confirmErr)
      | inl _ => Fail (unproven confirmErr)
      end
  end.

Definition Restore (request : RestoreReservation) : Prog unit :=
  when_ (negb (co_RestoreEnabled c) || negb (co_Operator c) || negb (co_Store c) || negb (co_AO c))
    (NewError "dispatch: operator restore is disabled; verified host principal boundary unavailable");;
  pv ← ask (EVerifiedRestorePrincipal (rr_PairID request) (rr_SessionID request)
              (rr_ExpectedGeneration request) (rr_RiskScope request));
  match pv with
  | inl err => Fail (Wrapped "dispatch: verify operator principal: " err "")
  | inr (principal, verified) =>
      when_ (negb verified || (principal == ""))
        (NewError "dispatch: restore requires verified operator principal");;
      let request := {| rr_AuthorizationID := rr_AuthorizationID request;
        rr_OperationID := rr_OperationID request; rr_PairID := rr_PairID request;
        rr_SessionID := rr_SessionID request; rr_ExpectedGeneration := rr_ExpectedGeneration request;
        rr_RiskScope := rr_RiskScope request; rr_AuthorizedPrincipal := principal;
        rr_Actor := principal; rr_At := rr_At request |} in
      call (ReservePairRestore request);;
      r ← ask (EResumeWorker (rr_OperationID request) (rr_SessionID request));
      match r with
      | inl err =>
          restore_unknown request true;;
          Fail (Wrapped "dispatch: restore outcome unresolved; CAS=%v durable=%+v read_error=%v; no retry permitted: " err "")
      | inr None =>
          restore_unknown request true;;
          Fail (NewError "dispatch: restore response invalid; CAS=%v durable=%+v read_error=%v; no retry permitted")
      | inr (Some result) =>
          if rw_SessionID result != rr_SessionID request then
            restore_unknown request true;;
            Fail (NewError "dispatch: restore response invalid; CAS=%v durable=%+v read_error=%v; no retry permitted")
          else if (w_ID (rw_Session result) != rr_SessionID request)
                  || (w_TerminalGeneration (rw_Session result) == "") then
            restore_unknown request false;;
            Fail (NewError "dispatch: restore HTTP 200 body lacks exact session/generation provenance; CAS=%v; no retry permitted")
          else
            s ← ask (EGetWorkerStatus (rr_SessionID request));
            match s with
            | inr (Some observed) =>
                if (w_ID observed != rr_SessionID request)
                   || (w_TerminalGeneration observed != w_TerminalGeneration (rw_Session result)) then
                  restore_unknown request false;;
                  Fail (NewError "dispatch: post-restore GetWorkerStatus did not confirm same identity/generation; observation=%+v error=%v CAS=%v; no retry permitted")
                else confirm_restore request result observed
            | _ =>
                restore_unknown request false;;
                Fail (NewError "dispatch: post-restore GetWorkerStatus did not confirm same identity/generation; observation=%+v error=%v CAS=%v; no retry permitted")
            end
      end
  end.

(** A status read that must succeed and match the session, the generation and
    liveness asked for. *)
Definition live_status (sessionID generation message inadmissible : string) : Prog WorkerStatus :=
  s ← ask (EGetWorkerStatus sessionID);
  match s with
  | inl err => Fail (Wrapped message err "")
  | inr (Some status) =>
      when_ ((w_ID status != sessionID) || (w_TerminalGeneration status != generation)
             || w_IsTerminated status) (NewError inadmissible);;
      mret status
  | inr None => Fail (NewError inadmissible)
  end.

Definition ResolveRestore (operationID pairID sessionID generation actor : string) : Prog unit :=
  when_ (negb (co_Operator c) || negb (co_Store c) || negb (co_AO c))
    (NewError "dispatch: restore resolution requires verified host boundary");;
  status ← live_status sessionID generation "dispatch: restore resolution observation failed: "
    "dispatch: restore resolution observation is not admissible";
  principal ← verified_principal pairID sessionID generation "RESTORE_RESOLUTION" operator_required;
  at_ ← now;
  call (ResolveConfirmedRestore operationID sessionID generation (w_State status) principal principal at_).

Definition CoordinatorResolveAmbiguousRestore (operationID pairID sessionID generation : string)
    (basis : RestoreResolutionBasis) (evidence actor : string) : Prog unit :=
  when_ (negb (co_Operator c) || negb (co_Store c))
    (NewError "dispatch: restore risk resolution requires host operator boundary");;
  let scope := if basis == AdministrativeRiskResolution then "RESTORE_ADMINISTRATIVE_RISK_RESOLUTION"
               else "RESTORE_PHYSICAL_EXECUTION_RESOLUTION" in
  principal ← verified_principal pairID sessionID generation scope operator_required;
  at_ ← now;
  call (ResolveAmbiguousRestore operationID pairID sessionID generation basis evidence principal
          principal at_).

Definition ClaimRestoreCleanup (stop : StopOperation) (actor : string) : Prog unit :=
  when_ (negb (co_Operator c) || negb (co_Store c))
    (NewError "dispatch: cleanup claim requires host operator boundary");;
  when_ (is_null (so_RestoreOperationID stop))
    (NewError "dispatch: linked cleanup requires restore operation ID");;
  principal ← verified_principal (so_PairID stop) (so_SessionID stop) (so_TerminalGeneration stop)
    "RESTORE_CLEANUP_CLAIM" operator_required;
  let stop := stop <| so_RestorePrincipal := Some principal |> <| so_Actor := principal |> in
  if so_Purpose stop == PairMaintenance then
    when_ (negb (co_AO c)) (NewError "dispatch: cleanup runtime observation requires AO status reader");;
    status ← live_status (so_SessionID stop) (so_TerminalGeneration stop)
      "dispatch: cleanup runtime observation failed: "
      "dispatch: cleanup runtime observation differs from target";
    at_ ← now;
    call (ClaimRestoreCleanupWithStop stop principal principal at_
      [mkRestoreCleanupObservation (w_ID status) (w_TerminalGeneration status) (w_IsTerminated status)])
  else
    at_ ← now;
    call (ClaimRestoreCleanupWithStop stop principal principal at_ []).

Definition CoordinatorClaimRestoreRecovery (operationID pairID sessionID generation actor : string)
    : Prog unit :=
  when_ (negb (co_Operator c) || negb (co_Store c))
    (NewError "dispatch: restore recovery claim requires host operator boundary");;
  principal ← verified_principal pairID sessionID generation "RESTORE_RECOVERY_CLAIM" operator_required;
  at_ ← now;
  call (ClaimRestoreRecovery operationID pairID sessionID generation principal principal at_).

(** ** Dispatch *)

(** What the reread of [containAmbiguousSend] collects: the durable tuple and
    the types of the audit events about it. *)
Record durable_tuple := mkdurable_tuple {
  dt_op : DispatchOperation; dt_task : Task; dt_attempt : TaskAttempt; dt_found : list string }.

Definition transition_key (from to : string) : string :=
  AuditTaskStateTransition +:+ ":" +:+ from +:+ "->" +:+ to.

(** One event of the page: the keys it adds to [found]. *)
Definition event_keys (operationID : string) (op : DispatchOperation)
    (event : AuditRow * list (string * value)) : list string :=
  let '(r, details) := event in
  if (detail_text "dispatch_operation_id" details != operationID)
     || (valueOrEmpty (e_pair_id r) != d_PairID op) || (valueOrEmpty (e_task_id r) != d_TaskID op)
     || (valueOrEmpty (e_attempt_id r) != d_AttemptID op) then []
  else if ((e_event_type r == AuditDispatchSendRequested)
           || (e_event_type r == AuditUncertainDeliveryQuarantine))
          && ((detail_text "session_id" details != d_SessionID op)
              || (detail_text "terminal_generation" details != d_TerminalGeneration op)) then []
  else
    e_event_type r ::
      (if e_event_type r == AuditTaskStateTransition then
         let from := detail_text "from_state" details in
         let to := detail_text "to_state" details in
         if (from != "") && (to != "") then [transition_key from to] else []
       else []).

(** The pages of the audit log from [after] on; [Spin] while pages keep coming
    for more than [fuel] of them. *)
Fixpoint scan_audit (fuel : nat) (operationID : string) (op : DispatchOperation) (after : Z)
    (found : list string) : Prog (list string) :=
  match fuel with
  | O => Spin
  | S fuel =>
      events ← call (ListAuditEvents after MaxAuditLimit);
      let found := found ++ concat (map (event_keys operationID op) events) in
      let after := fold_left (fun _ event => e_sequence (fst event)) events after in
      if (Z.of_nat (length events) <? MaxAuditLimit)%Z then mret found
      else scan_audit fuel operationID op after found
  end.

Definition read_durable (fuel : nat) (operationID attemptID : string) : Prog durable_tuple :=
  op ← call (GetDispatchOperation operationID);
  task ← call (GetTask (d_TaskID op));
  attempt ← call (GetTaskAttempt attemptID);
  call VerifyAuditChain;;
  found ← scan_audit fuel operationID op 0 [];
  mret (mkdurable_tuple op task attempt found).

(** The D5 record is durable: the resolution of the operation and its events. *)
Definition contained (t : durable_tuple) : bool :=
  (d_ResolutionState (dt_op t) == Some RecoveryDeliveryOutcomeUnknown)
  && in_list AuditUncertainDeliveryQuarantine (dt_found t)
  && in_list (transition_key "DISPATCHED" "FAILED") (dt_found t)
  && in_list (transition_key "FAILED" "HUMAN_REQUIRED") (dt_found t).

Definition containAmbiguousSend (fuel : nat) (operationID attemptID actor : string) (cause : goerr)
    : Prog unit :=
  tuple ← attempt (read_durable fuel operationID attemptID);
  match tuple with
  | inl readErr =>
      Fail (Wrapped "dispatch: ambiguous delivery; durable tuple/audit reread failed, no resend: cause=%v reread=" readErr "")
  | inr t =>
      let op := dt_op t in let task := dt_task t in let att := dt_attempt t in
      if (d_OperationID op != operationID) || (d_AttemptID op != attemptID)
         || (a_AttemptID att != attemptID) || (a_TaskID att != d_TaskID op) || (a_ContractID att == "")
         || (t_TaskID task != d_TaskID op) || (t_PairID task != d_PairID op)
         || negb (t_CurrentAttempt task =? a_AttemptNumber att)%Z then
        Fail (NewError "dispatch: ambiguous delivery tuple is stale or inconsistent, no resend: cause=%v")
      else if (d_Stage op == SendConfirmed) && in_list AuditDispatchSendConfirmed (dt_found t) then
        mret tt
      else if contained t then
        Fail (Wrapped "dispatch: D5 winner is durable; late caller cannot overwrite unknown delivery, no resend: " cause "")
      else if (d_Stage op != SendRequested) || is_some (d_ResolutionState op)
              || is_some (a_EndedAt att) || (t_State task != StateDispatched)
              || negb (in_list AuditDispatchSendRequested (dt_found t))
              || (a_SessionID att != Some (d_SessionID op))
              || (a_TerminalGeneration att != Some (d_TerminalGeneration op)) then
        Fail (NewError "dispatch: ambiguous delivery durable tuple is not the exact SEND_REQUESTED intent, no resend: cause=%v")
      else
        at_ ← now;
        try_call (RecordUnknownDelivery operationID actor at_);;
        again ← attempt (read_durable fuel operationID attemptID);
        match again with
        | inl _ =>
            Fail (Wrapped "dispatch: D5 containment failed (%v), exact reread failed (%v); intent requires recovery; no resend: " cause "")
        | inr t' =>
            if contained t' && (t_State (dt_task t') == StateHumanRequired)
               && is_some (a_EndedAt (dt_attempt t')) then
              Fail (Wrapped "dispatch: delivery outcome unknown; D5 containment is durable, no retry permitted: " cause "")
            else
              Fail (Wrapped "dispatch: D5 containment failed (%v); durable state remains operation=%+v task=%s attempt_ended=%t; recovery required and no resend: " cause "")
        end
  end.

Definition policy_required : goerr :=
  NewError "dispatch: injected execution budget policy required before send".

(** The attempt to send: allocated here, or the one of an earlier call that
    stopped before the send. *)
Definition bound_attempt (taskID contractID attemptID operationID sessionID generation reportPath : string)
    : Prog TaskAttempt :=
  task ← call (GetTask taskID);
  if t_State task == StateReady then
    at_ ← now;
    call (PrepareBoundDispatch taskID contractID attemptID reportPath at_
            (mkDispatchBinding operationID sessionID generation))
  else if t_State task == StateDispatched then
    att ← call (GetTaskAttempt attemptID);
    durable ← call (GetDispatchOperation operationID);
    when_ (negb (t_CurrentAttempt task =? a_AttemptNumber att)%Z || is_some (a_EndedAt att)
           || (a_TaskID att != taskID) || (a_ContractID att != contractID)
           || (a_SessionID att != Some sessionID) || (a_TerminalGeneration att != Some generation)
           || (d_AttemptID durable != attemptID) || (d_Stage durable != DispatchBound))
      (NewError "dispatch: current open attempt/operation does not match retry request");;
    mret att
  else Fail (NewError "dispatch: Task %s is %s; only READY allocation or its existing DISPATCHED attempt is admissible").

(** D12 before the send: the attempt is failed, and the call reports it. *)
Definition fail_before_send (taskID attemptID reason disposition : string) (failed : goerr -> goerr)
    (done : goerr) : Prog unit :=
  r ← try_call (AtomicTerminalTransition taskID StateDispatched StateFailed reason attemptID disposition);
  match r with inl e => Fail (failed e) | inr _ => Fail done end.

(** The status read before the send failed with [err]. *)
Definition pre_send_unavailable (taskID attemptID operationID actor : string) (err : goerr) : Prog unit :=
  let hold disposition :=
    at_ ← now;
    r ← try_call (RecordPreSendHold operationID disposition actor at_);
    match r with
    | inl e => Fail (Wrapped "dispatch: pre-send observation unavailable and hold/audit failed; no send: %v; " e "")
    | inr _ => Fail (Wrapped "dispatch: pre-send observation unavailable; SEND was not requested: " err "")
    end in
  match as_protocol err with
  | Some e =>
      if (pe_StatusCode e =? 404)%Z then
        fail_before_send taskID attemptID "AO session absent before send" "SESSION_ABSENT"
          (fun e => Wrapped "dispatch: HTTP 404 terminal CAS failed; do not send: " e "")
          (Wrapped "dispatch: AO returned HTTP 404; D12 failure recorded; no send issued: " err "")
      else hold "PRE_SEND_PROTOCOL_UNVERIFIED"
  | None => hold "RECOVERY_PENDING"
  end.

(** The intent, the single send, and the confirmation. *)
Definition send_once (fuel : nat) (operationID attemptID sessionID message actor : string)
    (status : WorkerStatus) : Prog unit :=
  at_ ← now;
  call (RecordSendRequested operationID (w_ID status) (w_TerminalGeneration status) (w_State status)
          (w_IsTerminated status) actor at_);;
  r ← ask (EDispatchTaskContract operationID sessionID message);
  match r with
  | inl err => containAmbiguousSend fuel operationID attemptID actor err
  | inr None => containAmbiguousSend fuel operationID attemptID actor (NewError "invalid send response")
  | inr (Some result) =>
      if dt_SessionID result != sessionID then
        containAmbiguousSend fuel operationID attemptID actor (NewError "invalid send response")
      else
        at_ ← now;
        confirm ← try_call (RecordSendConfirmed operationID actor true at_ [co_ExecutionPolicy c]);
        match confirm with
        | inr _ => mret tt
        | inl err =>
            containAmbiguousSend fuel operationID attemptID actor
              (Wrapped "HTTP 200 confirmation transaction failed: " err "")
        end
  end.

Definition Dispatch (fuel : nat) (taskID contractID attemptID operationID sessionID generation reportPath
    message actor : string) : Prog unit :=
  when_ (negb (co_Store c) || negb (co_AO c))
    (NewError "dispatch: coordinator dependencies are not configured");;
  let policy := co_ExecutionPolicy c in
  when_ ((ebp_Duration policy <=? 0)%Z || blank (ebp_PolicyRef policy)) policy_required;;
  start ← now;
  let deadline := (start + ebp_Duration policy)%Z in
  when_ (negb (start <? deadline)%Z || (start <? 0)%Z || (year_10000 <=? deadline)%Z) policy_required;;
  att ← bound_attempt taskID contractID attemptID operationID sessionID generation reportPath;
  s ← ask (EGetWorkerStatus sessionID);
  match s with
  | inl err => pre_send_unavailable taskID (a_AttemptID att) operationID actor err
  | inr None =>
      at_ ← now;
      r ← try_call (RecordPreSendHold operationID "PRE_SEND_PROTOCOL_UNVERIFIED" actor at_);
      match r with
      | inl e => Fail (Wrapped "dispatch: missing status and protocol hold/audit failed: " e "")
      | inr _ => Fail (NewError "dispatch: pre-send protocol response missing; no send issued")
      end
  | inr (Some status) =>
      if w_ID status != sessionID then
        fail_before_send taskID (a_AttemptID att) "pre-send AO session identity mismatch"
          "PRE_SEND_IDENTITY_MISMATCH"
          (fun e => Wrapped "dispatch: identity mismatch D12 transaction failed: " e "")
          (NewError "dispatch: pre-send identity/generation mismatch; no send issued")
      else if w_TerminalGeneration status != generation then
        fail_before_send taskID (a_AttemptID att) "stale execution generation"
          "STALE_EXECUTION_GENERATION"
          (fun e => Wrapped "dispatch: stale-generation D12 transaction failed: " e "")
          (NewError "dispatch: stale execution generation; attempt failed closed")
      else if w_IsTerminated status then
        fail_before_send taskID (a_AttemptID att) "worker termination is unverified"
          "WORKER_TERMINATION_UNKNOWN"
          (fun e => Wrapped "dispatch: termination D12 transaction failed: " e "")
          (NewError "dispatch: pre-send termination observed; no send issued")
      else if negb (ao_idle_or_waiting (w_State status)) then
        (if in_list (w_State status) ["active"; "blocked"; "exited"]%string then
           at_ ← now;
           r ← try_call (RecordPreSendAdmissibilityRejected operationID (w_State status) actor at_);
           match r with
           | inl e => Fail (Wrapped "dispatch: inadmissible state audit failed: " e "")
           | inr _ => mret tt
           end
         else mret tt);;
        Fail (NewError "dispatch: pre-send activity %q is not admissible; attempt remains DISPATCHED")
      else send_once fuel operationID (a_AttemptID att) sessionID message actor status
  end.

Definition RecoverPreSend (attemptID operationID expectedDisposition pairID sessionID generation
    actor : string) : Prog unit :=
  when_ (negb (co_Store c) || negb (co_AO c))
    (NewError "dispatch: pre-send recovery requires Store and AO");;
  status ← live_status sessionID generation "dispatch: fresh recovery observation failed: "
    "dispatch: fresh observation does not match held attempt";
  principal ←
    (if expectedDisposition == "PRE_SEND_PROTOCOL_UNVERIFIED" then
       when_ (negb (co_Operator c))
         (NewError "dispatch: protocol hold recovery requires host operator boundary");;
       verified_principal pairID sessionID generation "PRE_SEND_PROTOCOL_COMPATIBILITY_ACK"
         "dispatch: verified operator principal required to clear protocol hold"
     else mret "");
  let actor := if principal != "" then principal else actor in
  at_ ← now;
  call (ResolvePreSendHold operationID attemptID expectedDisposition sessionID generation
          (w_State status) principal actor at_).
End Dispatch.
