(* ===== verification/StopCoordinator.v ===== *)
(** * StopCoordinator: internal/stop/coordinator.go

    The stop of a session: reservation of the intent, one pre-effect
    observation, at most one /kill, its acceptance, and the observation of the
    outcome; D6 clearance and the acceptance of risk behind the operator
    boundary. *)

From S2P Require Import Prelude.
From S2P Require Import Domain.
From S2P Require Import GoLib.
From S2P Require Import Db.
From S2P Require Import Tx.
From S2P Require Import Lifecycle.
From S2P Require Import StopStore.
From S2P Require Import RestoreStore.
From S2P Require Import Clearance.
From S2P Require Import GoErr.
From S2P Require Import AoClient.
From S2P Require Import Agent.
From S2P Require Import DispatchCoordinator.

(** A [*store.Store]: nil, or a handle on the database. *)
Definition store_ptr : Type := option nat.

Record StopCoordinator := mkStopCoordinator {
  sc_Store : store_ptr; sc_AO : bool; sc_Operator : bool; sc_TimeoutHost : bool;  (* not nil *)
  sc_KillTimeout : Z }.
#[export] Instance StopCoordinator_settable : Settable StopCoordinator := fun c =>
  mkStopCoordinator (sc_Store c) (sc_AO c) (sc_Operator c) (sc_TimeoutHost c) (sc_KillTimeout c).

(** [defer func() { err = errors.Join(err, permit.Release()) }()] around [p]. *)
Definition with_release (p : Prog unit) : Prog unit :=
  r ← attempt p;
  e ← ask ERelease;
  match errors_Join (match r with inl e => Some e | inr _ => None end) e with
  | Some e => Fail e
  | None => mret tt
  end.

Section Stop.
Context {L : GoLib} (c : StopCoordinator).

Definition commitOutcome (id : string) (expected next : StopStage) (resolution : StopResolutionState)
    (status : option WorkerStatus) : Prog unit :=
  at_ ← now;
  call (CommitStopOutcome id
    match status with
    | Some w => mkStopTerminalOutcome expected next resolution at_ (w_ID w) (w_TerminalGeneration w)
                  (w_IsTerminated w)
    | None => mkStopTerminalOutcome expected next resolution at_ "" "" false
    end).

Definition Observe (operationID : string) : Prog unit :=
  when_ (is_null (sc_Store c) || negb (sc_AO c)) (NewError "stop: dependencies unavailable");;
  stop ← call (GetStopOperation operationID);
  let commit := commitOutcome operationID StopCallSucceeded in
  match so_ConfirmationDeadlineAt stop with
  | None => Fail (StoreError ErrStateConflict)
  | Some deadline =>
      when_ ((so_Stage stop != StopCallSucceeded) || (so_ResolutionState stop != StopResolutionInFlight))
        (StoreError ErrStateConflict);;
      s ← ask (EGetWorkerStatus (so_SessionID stop));
      match s with
      | inl getErr =>
          if errors_Is getErr (TSentinel aoErrNotFound) then
            commit StopTargetAbsent StopResolutionTargetAbsent None
          else
            at_ ← now;
            if negb (at_ <? deadline)%Z then commit StopCallSucceeded StopResolutionConfirmationTimeout None
            else Fail getErr
      | inr st =>
          at_ ← now;
          match st with
          | None => Fail (NewError "stop: observation identity invalid; quarantine retained")
          | Some status =>
              if w_ID status != so_SessionID stop then
                Fail (NewError "stop: observation identity invalid; quarantine retained")
              else if w_TerminalGeneration status != so_TerminalGeneration stop then
                commit StopCallSucceeded StopResolutionGenerationMismatch st
              else if negb (at_ <? deadline)%Z then
                commit StopCallSucceeded StopResolutionConfirmationTimeout st
              else if w_IsTerminated status then
                commit StopTerminationConfirmed StopResolutionTerminationConfirmed st
              else mret tt
          end
      end
  end.

(** The operator principal a session-scoped cleanup needs. *)
Definition authorize_cleanup (stop : StopOperation) : Prog StopOperation :=
  if so_Purpose stop == RunningAttemptStop then mret stop
  else
    when_ (negb (sc_Operator c))
      (NewError "stop: verified operator boundary required for session-scoped cleanup");;
    let scope := if is_some (so_RestoreOperationID stop) then "RESTORE_CLEANUP_CLAIM"
                 else "STOP_UNLINKED_CLEANUP" in
    principal ← verified_principal (so_PairID stop) (so_SessionID stop) (so_TerminalGeneration stop) scope
      "stop: verified operator principal required";
    let stop := stop <| so_Actor := principal |> in
    mret (if is_some (so_RestoreOperationID stop) then stop <| so_RestorePrincipal := Some principal |>
          else stop).

(** A linked maintenance claim observes the new runtime first. *)
Definition claim_observation (stop : StopOperation) : Prog (list RestoreCleanupObservation) :=
  if is_some (so_RestoreOperationID stop) && (so_Purpose stop == PairMaintenance) then
    s ← ask_ok (EGetWorkerStatus (so_SessionID stop));
    match s with
    | Some w =>
        when_ ((w_ID w != so_SessionID stop) || (w_TerminalGeneration w != so_TerminalGeneration stop)
               || w_IsTerminated w)
          (NewError "stop: linked maintenance observation differs from target");;
        mret [mkRestoreCleanupObservation (w_ID w) (w_TerminalGeneration w) (w_IsTerminated w)]
    | None => Fail (NewError "stop: linked maintenance observation differs from target")
    end
  else mret [].

(** [*stop.RestorePrincipal]: dereferencing nil panics, which ends the program;
    it is only reached with a linked restore under [RunningAttemptStop]. *)
Definition reserve (stop : StopOperation) (observations : list RestoreCleanupObservation) : Prog unit :=
  if is_some (so_RestoreOperationID stop) then
    match so_RestorePrincipal stop with
    | Some principal =>
        call (ClaimRestoreCleanupWithStop stop principal (so_Actor stop) (so_RequestedAt stop) observations)
    | None => Fail (NewError "panic: nil pointer dereference")
    end
  else call (ReserveStopOperation stop).

(** The /kill call and what is recorded of its answer. *)
Definition kill_once (stop : StopOperation) : Prog unit :=
  let id := so_OperationID stop in
  r ← ask (EStopWorker id (so_SessionID stop));
  match r with
  | inl callErr =>
      let '(stage, resolution) :=
        if errors_Is callErr (TSentinel aoErrNotFound) then (StopTargetAbsent, StopResolutionTargetAbsent)
        else if is_some (as_api callErr) then (StopCallFailed, StopResolutionCallFailed)
        else (StopRequested, StopResolutionCallOutcomeUnknown) in
      o ← attempt (commitOutcome id StopRequested stage resolution None);
      match o with
      | inl e => Fail (Wrapped "stop: call error %v; containment failed: " e "")
      | inr _ => Fail callErr
      end
  | inr result =>
      if match result with Some x => sw_SessionID x != so_SessionID stop | None => true end then
        o ← attempt (commitOutcome id StopRequested StopRequested StopResolutionCallOutcomeUnknown None);
        match o with
        | inl e => Fail (Wrapped "stop: invalid HTTP 200 response; containment failed: " e "")
        | inr _ => Fail (NewError "stop: invalid HTTP 200 response; delivery outcome unknown")
        end
      else
        callAt ← now;
        accepted ← try_call (CommitStopCallAccepted id callAt (callAt + sc_KillTimeout c)%Z);
        match accepted with
        | inr _ => Observe id
        | inl err =>
            current ← try_call (GetStopOperation id);
            match current with
            | inl readErr =>
                Fail (Wrapped "stop: HTTP 200 confirmation failed (%v), reread failed: " readErr "")
            | inr cur =>
                (if (so_Stage cur == StopRequested) && (so_ResolutionState cur == StopResolutionInFlight) then
                   o ← attempt (commitOutcome id StopRequested StopRequested
                                  StopResolutionCallOutcomeUnknown None);
                   match o with
                   | inl e => Fail (Wrapped "stop: HTTP 200 confirmation failed (%v), containment failed: " e "")
                   | inr _ => mret tt
                   end
                 else mret tt);;
                Fail (Wrapped "stop: HTTP 200 confirmation failed or writer won: " err "")
            end
        end
  end.

(** The observation between the reservation and the /kill. *)
Definition observe_and_kill (stop : StopOperation) (timeout : bool) : Prog unit :=
  let id := so_OperationID stop in
  s ← ask (EGetWorkerStatus (so_SessionID stop));
  match s with
  | inl getErr =>
      if errors_Is getErr (TSentinel aoErrNotFound) then
        commitOutcome id StopRequested StopTargetAbsent StopResolutionTargetAbsent None
      else Fail (Wrapped "stop: pre-effect observation unavailable; intent remains locked: " getErr "")
  | inr None => Fail (NewError "stop: pre-effect identity invalid; intent remains locked")
  | inr (Some status) =>
      if w_ID status != so_SessionID stop then
        Fail (NewError "stop: pre-effect identity invalid; intent remains locked")
      else if w_TerminalGeneration status != so_TerminalGeneration stop then
        commitOutcome id StopRequested StopRequested StopResolutionGenerationMismatch (Some status)
      else if w_IsTerminated status then
        commitOutcome id StopRequested StopRequested StopResolutionEffectUnprovenAlreadyTerminated
          (Some status)
      else
        (if timeout then
           when_ ((w_State status != ActivityStateActive) && (w_State status != ActivityStateWaitingInput))
             (NewError "stop: timeout pre-effect activity changed; intent retained for exclusive recovery");;
           r ← try_call (ValidateTimeoutEffectOwner id);
           match r with
           | inl e => Fail (Wrapped "stop: timeout pre-effect ownership changed; intent retained: " e "")
           | inr _ => mret tt
           end
         else mret tt);;
        kill_once stop
  end.

Definition start (stop : StopOperation) (timeout : bool) : Prog unit :=
  when_ (is_null (sc_Store c) || negb (sc_AO c) || (sc_KillTimeout c <=? 0)%Z)
    (NewError "stop: store, AO and injected kill timeout are required");;
  when_ ((so_OperationID stop == "") || (so_PairID stop == "") || (so_SessionID stop == "")
         || (so_TerminalGeneration stop == ""))
    (NewError "stop: exact operation/Pair/session/generation required");;
  at_ ← (if (so_RequestedAt stop =? 0)%Z then now else mret (so_RequestedAt stop));
  let stop := stop <| so_RequestedAt := at_ |> in
  let stop := if so_Actor stop == "" then stop <| so_Actor := "supervisor" |> else stop in
  stop ← authorize_cleanup stop;
  observations ← claim_observation stop;
  reserve stop observations;;
  observe_and_kill stop timeout.

Definition Start (stop : StopOperation) : Prog unit :=
  when_ (is_some (so_InitiatingFailureReason stop))
    (NewError "stop: timeout cause requires guarded StartTimeout");;
  start stop false.

(** The body of [StartTimeout] under its permit. *)
Definition timeout_effect (stop : StopOperation) : Prog unit :=
  ctx_check;;
  s ← ask (EGetWorkerStatus (so_SessionID stop));
  match s with
  | inl err =>
      Fail (Joined (Wrapped "" (SentinelError ErrTimeoutPreflightUnavailable) "; no intent: ") err)
  | inr None => Fail (SentinelError ErrTimeoutPreflightInadmissible)
  | inr (Some pre) =>
      when_ ((w_ID pre != so_SessionID stop) || (w_TerminalGeneration pre != so_TerminalGeneration stop)
             || w_IsTerminated pre
             || ((w_State pre != ActivityStateActive) && (w_State pre != ActivityStateWaitingInput)))
        (SentinelError ErrTimeoutPreflightInadmissible);;
      at_ ← now;  (* the injected clock, or the wall clock *)
      start (stop <| so_InitiatingFailureReason := Some "TIMEOUT" |> <| so_RequestedAt := at_ |>) true
  end.

Definition StartTimeout (stop : StopOperation) : Prog unit :=
  when_ (negb (sc_TimeoutHost c) || negb (sc_AO c) || is_null (sc_Store c)
         || (so_Purpose stop != RunningAttemptStop) || is_null (so_AttemptID stop))
    (NewError "stop: trusted timeout admission and exact live attempt required");;
  permit ← ask_ok (EAcquireEffect (so_PairID stop) "TIMEOUT_MONITOR");
  when_ (negb permit) (NewError "stop: timeout permit missing");;
  with_release (timeout_effect stop).

Definition CoordinatorClearQuarantine (request : QuarantineClearance) : Prog unit :=
  when_ (is_null (sc_Store c) || negb (sc_Operator c))
    (NewError "stop: trusted operator boundary required for D6 clearance");;
  let scope :=
    if existsb (fun l => lc_Basis l != ClearancePhysical) (qc_Session request :: qc_Attempts request)
    then "STOP_ADMINISTRATIVE_CLEARANCE" else "STOP_PHYSICAL_CLEARANCE" in
  pv ← ask_ok (EVerifiedRestorePrincipal (qc_PairID request) (lc_SessionID (qc_Session request))
                 (lc_TerminalGeneration (qc_Session request)) scope);
  let '(principal, verified) := pv in
  when_ (negb verified || (principal == "")
         || ((qc_Principal request != "") && (qc_Principal request != principal)))
    (NewError "stop: verified operator principal required for D6");;
  call (ClearQuarantineWithEvidence
    (mkQuarantineClearance (qc_PairID request) (qc_RestoreOperationID request) principal (qc_At request)
       (qc_Session request) (qc_Attempts request))).

Definition AcceptAdministrativeRisk (decision : AdministrativeStopDecision) : Prog unit :=
  when_ (is_null (sc_Store c) || negb (sc_Operator c))
    (NewError "stop: trusted operator boundary required for risk acceptance");;
  let scope := "STOP_ADMINISTRATIVE_RECONCILIATION"%string in
  pv ← ask_ok (EVerifiedRestorePrincipal (as_PairID decision) (as_SessionID decision)
                 (as_TerminalGeneration decision) scope);
  let '(principal, verified) := pv in
  when_ (negb verified || (principal == "")
         || ((as_Principal decision != "") && (as_Principal decision != principal)))
    (NewError "stop: verified operator principal required for risk acceptance");;
  call (AcceptStopAdministrativeRisk
    (mkAdministrativeStopDecision (as_StopOperationID decision) (as_PairID decision)
       (as_SessionID decision) (as_TerminalGeneration decision) (as_Purpose decision)
       (as_AttemptID decision) (as_RestoreOperationID decision) (as_ExpectedStage decision)
       (as_ExpectedResolution decision) principal scope (as_Reason decision)
       (as_EvidenceReferences decision) (as_Lineages decision) (as_At decision))).
End Stop.
