(* ===== verification/Recovery.v ===== *)
(** * Recovery: internal/recovery, the startup scan, the poller and the timeout monitor

    [Run] classifies every persisted intent once, under the host's exclusive
    scope; [PollOnce] and [Tick] observe executions afterwards.  They act on
    nothing but the store, except that [Tick] and [StopLegacyWithoutBudget]
    start stops through the stop coordinator.  A [Report] is threaded through the classification; the gate
    of the [Runner] (ready, running, the active poller) is in RunnerGate. *)

From S2P Require Import Prelude.
From S2P Require Import Domain.
From S2P Require Import GoLib.
From S2P Require Import Db.
From S2P Require Import Tx.
From S2P Require Import TaskStore.
From S2P Require Import Lifecycle.
From S2P Require Import DispatchStore.
From S2P Require Import StopStore.
From S2P Require Import RestoreStore.
From S2P Require Import RecoveryStore.
From S2P Require Import GoErr.
From S2P Require Import AoClient.
From S2P Require Import Agent.
From S2P Require Import DispatchCoordinator.
From S2P Require Import StopCoordinator.

Record Report := mkReport { r_Complete : bool; r_PendingAO : bool; r_Classified : Z }.
#[export] Instance Report_settable : Settable Report := fun r =>
  mkReport (r_Complete r) (r_PendingAO r) (r_Classified r).
Definition empty_report : Report := mkReport false false 0.

(** A computation with a [*Report] at hand: the report survives an error. *)
Definition RM (A : Type) : Type := Report -> Prog (Report * gres A).
#[export] Instance RM_ret : MRet RM := fun A a r => mret (r, inr a).
#[export] Instance RM_bind : MBind RM := fun A B k m r =>
  p ← m r;
  match p with
  | (r', inr a) => k a r'
  | (r', inl e) => mret (r', inl e)
  end.
Definition lift {A} (p : Prog A) : RM A := fun r => a ← attempt p; mret (r, a).
Definition raise {A} (e : goerr) : RM A := fun r => mret (r, inl e).
Definition catch {A} (m : RM A) : RM (gres A) := fun r => p ← m r; mret (fst p, inr (snd p)).
Definition pendingAO : RM unit := fun r => mret (r <| r_PendingAO := true |>, inr tt).
Definition classified : RM unit := fun r =>
  mret (r <| r_Classified := (r_Classified r + 1)%Z |>, inr tt).
Definition complete : RM unit := fun r => mret (r <| r_Complete := true |>, inr tt).

Fixpoint for_each {A} (l : list A) (body : A -> RM unit) : RM unit :=
  match l with [] => mret tt | x :: l => body x;; for_each l body end.

Record Runner := mkRunner {
  rn_Store : store_ptr; rn_AO : bool; rn_Host : bool; rn_Operator : bool;  (* not nil *)
  rn_Maintenance : bool; rn_TimeoutAdmission : bool;  (* what the [Host] implements *)
  rn_Handoff : bool; rn_ActivityPollInterval : Z; rn_ExecutionDeadline : Z; rn_Actor : string }.

Definition conflict (e : goerr) : bool := errors_Is e (TStore ErrStateConflict).

Section Recovery.
Context {L : GoLib} (r : Runner).

(** Has another writer already settled the execution?  [original] otherwise. *)
Definition executionWinner (x : RecoveryExecution) (original : goerr) : RM unit :=
  op ← lift (attempt (call (GetDispatchOperation (x_OperationID x))));
  match op with
  | inl e => raise (Joined original e)
  | inr op =>
      if (d_PairID op != x_PairID x) || (d_TaskID op != x_TaskID x) || (d_AttemptID op != x_AttemptID x)
         || (d_SessionID op != x_SessionID x) || (d_TerminalGeneration op != x_Generation x)
      then raise original
      else
        task ← lift (attempt (call (GetTask (x_TaskID x))));
        match task with
        | inl e => raise (Joined original e)
        | inr task =>
            att ← lift (attempt (call (GetTaskAttempt (x_AttemptID x))));
            match att with
            | inl e => raise (Joined original e)
            | inr att =>
                if (a_ContractID att != x_ContractID x) || (a_SessionID att != Some (x_SessionID x))
                   || (a_TerminalGeneration att != Some (x_Generation x)) then raise original
                else
                  let changed :=
                    (TaskState_string (t_State task) != x_TaskState x) || is_some (a_EndedAt att)
                    || (DispatchStage_string (d_Stage op) != x_DispatchStage x)
                    || (a_RecoveryDisposition att != x_Disposition x)
                    || (d_ResolutionState op == Some RecoveryDeliveryOutcomeUnknown) in
                  if negb changed then raise original
                  else if a_RecoveryDisposition att == Some "RECOVERY_PENDING"%string then pendingAO
                  else mret tt
            end
        end
  end.

Definition stopWinner (x : RecoveryStop) (original : goerr) : RM unit :=
  op ← lift (attempt (call (GetStopOperation (xs_OperationID x))));
  match op with
  | inl e => raise (Joined original e)
  | inr op =>
      if (so_SessionID op != xs_SessionID x) || (so_TerminalGeneration op != xs_Generation x)
         || (so_Purpose op != xs_Purpose x) then raise original
      else if (so_ResolutionState op == StopResolutionInFlight) && (so_Stage op == xs_Stage x)
      then raise original else mret tt
  end.

Definition classifyPreSend (x : RecoveryExecution) (status : WorkerStatus) : RM unit :=
  let terminal reason disposition :=
    lift (call (AtomicTerminalTransition (x_TaskID x) StateDispatched StateFailed reason (x_AttemptID x)
                  disposition)) in
  if w_ID status != x_SessionID x then
    terminal "pre-send identity mismatch"%string "PRE_SEND_IDENTITY_MISMATCH"%string
  else if w_TerminalGeneration status != x_Generation x then
    terminal "pre-send generation mismatch"%string "STALE_EXECUTION_GENERATION"%string
  else if w_IsTerminated status then
    terminal "pre-send worker terminated"%string "WORKER_TERMINATION_UNKNOWN"%string
  else if negb (ao_idle_or_waiting (w_State status)) then
    at_ ← lift now;
    lift (call (RecordPreSendAdmissibilityRejected (x_OperationID x) (w_State status) (rn_Actor r) at_))
  else if x_Disposition x == Some "RECOVERY_PENDING"%string then
    at_ ← lift now;
    lift (call (ResolvePreSendHold (x_OperationID x) (x_AttemptID x) "RECOVERY_PENDING" (x_SessionID x)
                  (x_Generation x) (w_State status) "" (rn_Actor r) at_))
  else mret tt.

(** The status of an execution could not be read. *)
Definition classify_unobserved (x : RecoveryExecution) (id : string) (err : goerr) : RM unit :=
  let bound := x_DispatchStage x == "DISPATCH_BOUND"%string in
  match as_protocol err with
  | Some _ =>
      if bound then
        if x_Disposition x == Some "PRE_SEND_PROTOCOL_UNVERIFIED"%string then pendingAO
        else
          at_ ← lift now;
          lift (call (RecordPreSendHold (x_OperationID x) "PRE_SEND_PROTOCOL_UNVERIFIED" (rn_Actor r) at_));;
          pendingAO
      else raise err
  | None =>
      if errors_Is err (TSentinel aoErrNotFound) then
        if bound then
          lift (call (AtomicTerminalTransition (x_TaskID x) StateDispatched StateFailed
                        "AO session absent before send" (x_AttemptID x) "SESSION_ABSENT"))
        else
          at_ ← lift now;
          lift (call (RecordRecoveryAbsent x (rn_Actor r) at_))
      else if is_some (x_Disposition x) && (x_Disposition x != Some "RECOVERY_PENDING"%string) then pendingAO
      else
        at_ ← lift now;
        (if bound then
           lift (call (RecordPreSendHold (x_OperationID x) "RECOVERY_PENDING" (rn_Actor r) at_))
         else
           lift (call (RecordPostSendOutage x (rn_Actor r) "AO_UNAVAILABLE" id at_)));;
        pendingAO
  end.

Definition classifyExecution (x : RecoveryExecution) (id : string) : RM unit :=
  if x_DispatchStage x == "SEND_REQUESTED"%string then
    at_ ← lift now;
    lift (call (RecordUnknownDelivery (x_OperationID x) (rn_Actor r) at_))
  else
    s ← lift (ask (EGetWorkerStatus (x_SessionID x)));
    match s with
    | inl err => classify_unobserved x id err
    | inr None => raise (NewError "recovery: nil AO status")
    | inr (Some status) =>
        if x_DispatchStage x == "DISPATCH_BOUND"%string then classifyPreSend x status
        else
          handoff ←
            (if (x_TaskState x == "DISPATCHED"%string) && (w_ID status == x_SessionID x)
                && (w_TerminalGeneration status == x_Generation x) && negb (w_IsTerminated status)
                && (w_State status == ActivityStateIdle) then
               if negb (rn_Handoff r) then
                 raise (NewError "recovery: verified downstream handoff dependency required")
               else lift (ask_ok (EHandoffAvailable x))
             else mret false);
          at_ ← lift now;
          lift (call (ObservePostSend x
            (mkPostSendObservation (w_ID status) (w_TerminalGeneration status) (w_State status)
               (w_IsTerminated status) false handoff) (rn_Actor r) id at_))
    end.

Definition classifyStop (x : RecoveryStop) (id : string) : RM unit :=
  let opID := xs_OperationID x in
  let outcome expected next resolution at_ (observed : option WorkerStatus) :=
    lift (call (CommitStopOutcome opID
      match observed with
      | Some w => mkStopTerminalOutcome expected next resolution at_ (w_ID w) (w_TerminalGeneration w)
                    (w_IsTerminated w)
      | None => mkStopTerminalOutcome expected next resolution at_ "" "" false
      end)) in
  s ← lift (ask (EGetWorkerStatus (xs_SessionID x)));
  match s with
  | inl err =>
      if errors_Is err (TSentinel aoErrNotFound) then
        at_ ← lift now;
        outcome (xs_Stage x) StopTargetAbsent StopResolutionTargetAbsent at_ None
      else if xs_Stage x == StopCallSucceeded then
        stop ← lift (call (GetStopOperation opID));
        match so_ConfirmationDeadlineAt stop with
        | None => raise (NewError "recovery: confirmed call lacks persisted deadline")
        | Some deadline =>
            at_ ← lift now;
            if negb (at_ <? deadline)%Z then
              at_ ← lift now;
              outcome StopCallSucceeded StopCallSucceeded StopResolutionConfirmationTimeout at_ None
            else pendingAO
        end
      else pendingAO
  | inr None => raise (NewError "recovery: stop observation identity invalid")
  | inr (Some status) =>
      if w_ID status != xs_SessionID x then
        raise (NewError "recovery: stop observation identity invalid")
      else if w_TerminalGeneration status != xs_Generation x then
        at_ ← lift now;
        outcome (xs_Stage x) (xs_Stage x) StopResolutionGenerationMismatch at_ (Some status)
      else if xs_Stage x == StopRequested then
        if w_IsTerminated status then
          at_ ← lift now;
          outcome StopRequested StopRequested StopResolutionEffectUnprovenAlreadyTerminated at_ (Some status)
        else
          at_ ← lift now;
          lift (call (ClassifyAbandonedStopAlive opID (w_ID status) (w_TerminalGeneration status)
                        (rn_Actor r) id at_))
      else
        stop ← lift (call (GetStopOperation opID));
        at_ ← lift now;
        let before := match so_ConfirmationDeadlineAt stop with
                      | Some deadline => (at_ <? deadline)%Z | None => false end in
        if w_IsTerminated status && before then
          outcome StopCallSucceeded StopTerminationConfirmed StopResolutionTerminationConfirmed at_
            (Some status)
        else if before then pendingAO
        else outcome StopCallSucceeded StopCallSucceeded StopResolutionConfirmationTimeout at_ (Some status)
  end.

(** [if err = f; err != nil { if conflict { err = winner }; if err != nil return }] *)
Definition or_winner (m : RM unit) (winner : goerr -> RM unit) : RM unit :=
  e ← catch m;
  match e with
  | inr _ => mret tt
  | inl e => if conflict e then winner e else raise e
  end.

Definition observe_execution (id : string) (x : RecoveryExecution) : RM unit :=
  lift ctx_check;;
  or_winner (classifyExecution x id) (executionWinner x).
Definition observe_stop (id : string) (x : RecoveryStop) : RM unit :=
  lift ctx_check;;
  or_winner (classifyStop x id) (stopWinner x).

(** ** Run *)

(** A restore or provisioning that another writer has settled meanwhile. *)
Definition classify_restore (op : string) : RM unit :=
  lift ctx_check;;
  at_ ← lift now;
  e ← catch (lift (call (ClassifyInterruptedRestore op (rn_Actor r) at_)));
  match e with
  | inr _ => classified
  | inl e =>
      if conflict e then
        winner ← lift (attempt (call (GetPairRestoreOperation op)));
        match winner with
        | inr o => if ro_ResolutionState o != RestoreInFlight then classified else raise e
        | inl _ => raise e
        end
      else raise e
  end.
Definition classify_provisioning (op : string) : RM unit :=
  lift ctx_check;;
  at_ ← lift now;
  e ← catch (lift (call (FailProvisioningAtStartup op (rn_Actor r) at_)));
  match e with
  | inr _ => classified
  | inl e =>
      if conflict e then
        winner ← lift (attempt (call (GetPairProvisioningOperation op)));
        match winner with
        | inr o => if pp_Stage o != ProvisionRequested then classified else raise e
        | inl _ => raise e
        end
      else raise e
  end.
Definition classify_blocked (x : RecoveryExecution) : RM unit :=
  lift ctx_check;;
  e ← catch (lift (call (AtomicAttemptClosureTransition (x_TaskID x) (x_AttemptID x)
                           RecoveryAOBlockedEscalated)));
  match e with
  | inr _ => classified
  | inl e =>
      if conflict e then
        task ← lift (attempt (call (GetTask (x_TaskID x))));
        att ← lift (attempt (call (GetTaskAttempt (x_AttemptID x))));
        match task, att with
        | inr task, inr att =>
            if (t_State task == StateHumanRequired) && is_some (a_EndedAt att)
               && (a_RecoveryDisposition att == Some RecoveryAOBlockedEscalated) then classified
            else raise e
        | _, _ => raise e
        end
      else raise e
  end.

Definition sent_confirmed (x : RecoveryExecution) : bool := x_DispatchStage x == "SEND_CONFIRMED"%string.

(** The classification of [Run], under the exclusive scope. *)
Definition sweep : RM unit :=
  lift ctx_check;;
  id ← lift (ask EInvocationID);
  lift (when_ (id == "") (NewError "recovery: empty invocation ID"));;
  at_ ← lift now;
  lift (call (RecordRecoverySweepEvent id (rn_Actor r) "STARTUP_RECOVERY_SWEEP_STARTED" at_));;
  snap ← lift (call ListRecoverySnapshot);
  let owned x := in_list (x_AttemptID x) (StopOwnedAttemptIDs snap) in
  for_each (RestoreIDs snap) classify_restore;;
  for_each (ProvisionIDs snap) classify_provisioning;;
  for_each (Executions snap) (fun x =>
    if owned x || sent_confirmed x then mret tt else observe_execution id x;; classified);;
  for_each (StopOperations snap) (fun x => observe_stop id x;; classified);;
  for_each (Blocked snap) classify_blocked;;
  latest ← lift (call ListRecoverySnapshot);
  for_each (Executions latest) (fun x =>
    if owned x || negb (sent_confirmed x) then mret tt else observe_execution id x;; classified);;
  lift ctx_check;;
  legacy ← lift (call ListOpenConfirmedWithoutBudget);
  lift (when_ (negb (length legacy =? 0)%nat) (NewError "recovery: %d open SEND_CONFIRMED attempts lack immutable execution budget; trusted maintenance required"));;
  at_ ← lift now;
  lift (call (RecordRecoverySweepEvent id (rn_Actor r) "STARTUP_RECOVERY_SWEEP_COMPLETED" at_));;
  complete.

(** [invalidate] also stops the active poller, whose error is dropped; the
    flags are in RunnerGate. *)
Definition invalidate : Prog unit := ask EStopPoller;; mret tt.

(** The report and the error of [Run], given the flag [running] it reads at its
    gate. *)
Definition Run (running : bool) : Prog (Report * option goerr) :=
  let failed e : Prog (Report * option goerr) := Ret (empty_report, Some e) in
  if is_null (rn_Store r) || negb (rn_AO r) || negb (rn_Host r) || (rn_ActivityPollInterval r <=? 0)%Z
     || (rn_ExecutionDeadline r <=? 0)%Z || (rn_Actor r == "")
  then
    invalidate;;
    failed (NewError "recovery: trusted host, Store, AO and injected policies required")
  else
    ctx ← ask ECtxErr;
    match ctx with
    | Some e => invalidate;; failed e
    | None =>
        if running then failed (NewError "recovery: Run already active in this host instance")
        else
          stopped ← ask EStopPoller;
          match stopped with
          | Some e => failed e
          | None =>
              scope ← ask EAcquire;
              match scope with
              | inl e => failed e
              | inr false => failed (NewError "recovery: host returned nil exclusive scope")
              | inr true =>
                  out ← sweep empty_report;
                  released ← ask ERelease;
                  let err := match (snd out : gres unit) with inl e => Some e | inr _ => None end in
                  match released with
                  | None => Ret (fst out, err)
                  | Some e => Ret ((fst out) <| r_Complete := false |>, errors_Join err (Some e))
                  end
              end
          end
    end.

(** ** Maintenance of executions without a budget *)
Definition withLegacyMaintenance (running : bool) (pairID purpose : string) (fn : Prog unit) : Prog unit :=
  when_ (is_null (rn_Store r) || negb (rn_Host r) || negb (rn_Operator r) || (pairID == ""))
    (NewError "recovery: trusted maintenance host and operator boundary required");;
  when_ (negb (rn_Maintenance r)) (NewError "recovery: trusted maintenance scope unavailable");;
  invalidate;;
  when_ running (NewError "recovery: Run owns classification; maintenance excluded");;
  scope ← ask_ok (EAcquireMaintenance pairID purpose);
  when_ (negb scope) (NewError "recovery: maintenance scope missing");;
  with_release (ctx_check;; fn).

Definition BindLegacyBudget (running : bool) (attemptID evidenceRef : string)
    (policy : ExecutionBudgetPolicy) : Prog unit :=
  when_ (is_null (rn_Store r)) (NewError "recovery: Store required");;
  attempt ← call (GetTaskAttempt attemptID);
  task ← call (GetTask (a_TaskID attempt));
  match a_SessionID attempt, a_TerminalGeneration attempt, a_EndedAt attempt with
  | Some session, Some generation, None =>
      withLegacyMaintenance running (t_PairID task) "LEGACY_BUDGET_BINDING" (
        let scope := "LEGACY_EXECUTION_BUDGET_RECONCILIATION"%string in
        principal ← verified_principal (t_PairID task) session generation scope
          "recovery: verified historical-policy principal required";
        at_ ← now;
        call (BindLegacyExecutionBudget attemptID principal scope evidenceRef policy at_))
  | _, _, _ => Fail (StoreError ErrAttemptLineageMismatch)
  end.

(** The attempt is the live one of the stop's task, session and generation. *)
Definition exact_live_attempt (op : StopOperation) (contractID : string) (task : Task)
    (attempt : TaskAttempt) : bool :=
  (t_State task == StateRunning) && (t_PairID task == so_PairID op)
  && (t_CurrentAttempt task =? a_AttemptNumber attempt)%Z && is_null (a_EndedAt attempt)
  && (a_ContractID attempt == contractID) && (a_SessionID attempt == Some (so_SessionID op))
  && (a_TerminalGeneration attempt == Some (so_TerminalGeneration op)).

Definition StopLegacyWithoutBudget (running : bool) (coordinator : StopCoordinator) (op : StopOperation)
    : Prog unit :=
  let required := NewError "recovery: exact manual live stop required" in
  when_ (is_null (rn_Store r) || (sc_Store coordinator != rn_Store r) || (so_Purpose op != RunningAttemptStop)) required;;
  match so_TaskID op, so_AttemptID op, so_ContractID op with
  | Some taskID, Some attemptID, Some contractID =>
      withLegacyMaintenance running (so_PairID op) "MANUAL_STOP_RECONCILIATION" (
        task ← call (GetTask taskID);
        attempt ← call (GetTaskAttempt attemptID);
        when_ (negb (exact_live_attempt op contractID task attempt)) (StoreError ErrAttemptLineageMismatch);;
        budget ← try_call (GetExecutionBudget attemptID);
        match budget with
        | inr _ => Fail (StoreError ErrStateConflict)
        | inl e =>
            when_ (negb (errors_Is e (TStore ErrOperationNotFound))) e;;
            principal ← verified_principal (so_PairID op) (so_SessionID op) (so_TerminalGeneration op)
              "MANUAL_STOP_RECONCILIATION" "recovery: verified manual-stop principal required";
            Start coordinator (op <| so_Actor := principal |>)
        end)
  | _, _, _ => Fail required
  end.

(** ** The poller and the timeout monitor *)

(** The observations of a poller's tick, once its gate let it in. *)
Definition poll (snapshot_id : string) : Prog unit :=
  snap ← call ListRecoverySnapshot;
  out ← for_each (StopOperations snap) (fun x =>
          if xs_Stage x != StopCallSucceeded then mret tt else observe_stop snapshot_id x) empty_report;
  demand (snd out);;
  out ← for_each (Executions snap) (fun x =>
          if in_list (x_AttemptID x) (StopOwnedAttemptIDs snap) then mret tt
          else
            lift ctx_check;;
            if negb (in_list (x_DispatchStage x) ["SEND_CONFIRMED"; "DISPATCH_BOUND"]%string) then mret tt
            else or_winner (classifyExecution x snapshot_id) (executionWinner x)) empty_report;
  demand (snd out).
End Recovery.

(** A [Runner] literal made to observe: everything else is the zero value. *)
Definition observer (store : store_ptr) (handoff : bool) (actor : string) : Runner :=
  mkRunner store true false false false false handoff 0 0 actor.

(** What a tick uses of its [Poller]; the cycles are in Poller.v.  [TestFailHook]
    is nil, or returns the error given. *)
Record PollerConfig := mkPollerConfig {
  pc_Store : store_ptr; pc_AO : bool; pc_Owner : option Runner; pc_Interval : Z; pc_Actor : string;
  pc_TestFailHook : option (option goerr) }.

(** [PollOnce], given the poller's [shutdown] and the runner's [ready && !running]
    it reads at its gate. *)
Definition PollOnce {L : GoLib} (p : PollerConfig) (shutdown ready : bool) : Prog unit :=
  let required := NewError "recovery: poller dependencies and injected cadence required" in
  match pc_Owner p with
  | None => Fail required
  | Some owner =>
      when_ (is_null (pc_Store p) || negb (pc_AO p) || (pc_Interval p <=? 0)%Z || (pc_Actor p == ""))
        required;;
      when_ (rn_Store owner != pc_Store p)
        (NewError "recovery: poller Store differs from completed runner");;
      when_ (shutdown || negb ready) (NewError "recovery: poll tick has no active ownership boundary");;
      ctx_check;;
      match pc_TestFailHook p with
      | Some (Some e) => Fail e
      | _ => poll (observer (pc_Store p) (rn_Handoff owner) (pc_Actor p)) "poller"
      end
  end.

Record TimeoutMonitor := mkTimeoutMonitor {
  tm_Owner : Runner; tm_Stop : StopCoordinator;  (* not nil *)
  tm_Interval : Z; tm_Actor : string }.

Section Monitor.
Context {L : GoLib} (m : TimeoutMonitor).

(** Eligible for a timeout: RUNNING, confirmed, not already being stopped. *)
Definition timeout_eligible (snapshot : RecoverySnapshot) (x : RecoveryExecution) : bool :=
  (x_TaskState x == "RUNNING"%string) && sent_confirmed x
  && negb (in_list (x_AttemptID x) (StopOwnedAttemptIDs snapshot))
  && (is_null (x_Disposition x) || (x_Disposition x == Some "AO_WAITING_INPUT_OBSERVED"%string)).

Definition timeout_stop (id : string) (x : RecoveryExecution) : StopOperation :=
  {| so_OperationID := id; so_Purpose := RunningAttemptStop; so_PairID := x_PairID x;
     so_TaskID := Some (x_TaskID x); so_ContractID := Some (x_ContractID x);
     so_AttemptID := Some (x_AttemptID x); so_SessionID := x_SessionID x;
     so_TerminalGeneration := x_Generation x; so_Stage := StopStageOther ""; so_Actor := tm_Actor m;
     so_RequestedAt := 0; so_CallCompletedAt := None; so_ConfirmationDeadlineAt := None;
     so_TerminationConfirmedAt := None; so_ResolvedAt := None;
     so_ResolutionState := StopResolutionOther ""; so_RestoreOperationID := None;
     so_RestorePrincipal := None; so_InitiatingFailureReason := None |}.

(** The preflight refused: the execution takes the poller's path. *)
Definition timeout_observe (x : RecoveryExecution) (e : goerr) : Prog unit :=
  let observer := observer (rn_Store (tm_Owner m)) (rn_Handoff (tm_Owner m)) (tm_Actor m) in
  out ← or_winner (classifyExecution observer x "timeout-monitor") (executionWinner x) empty_report;
  match snd out with
  | inl observeErr => Fail (Joined e observeErr)
  | inr _ => mret tt
  end.

(** A competing reservation, or a settled attempt, is the winner. *)
Definition timeout_competitor (x : RecoveryExecution) (e : goerr) : Prog unit :=
  fresh ← try_call ListRecoverySnapshot;
  match fresh with
  | inl readErr => Fail (Joined e readErr)
  | inr fresh =>
      if in_list (x_AttemptID x) (StopOwnedAttemptIDs fresh) then mret tt
      else
        att ← try_call (GetTaskAttempt (x_AttemptID x));
        task ← try_call (GetTask (x_TaskID x));
        match att, task with
        | inr att, inr task =>
            if is_some (a_EndedAt att)
               && ((t_State task == StateFailed) || (t_State task == StateHumanRequired)) then mret tt
            else Fail e
        | _, _ => Fail e
        end
  end.

Definition timeout_one (snapshot : RecoverySnapshot) (x : RecoveryExecution) : Prog unit :=
  ctx_check;;
  if negb (timeout_eligible snapshot x) then mret tt
  else
    b ← try_call (GetExecutionBudget (x_AttemptID x));
    match b with
    | inl e => Fail (Wrapped "recovery: budget for %s unavailable: " e "")
    | inr budget =>
        at_ ← now;
        if (at_ <? b_DeadlineAt budget)%Z then mret tt
        else
          hex ← ask_ok ERandom;
          started ← attempt (StartTimeout ((tm_Stop m) <| sc_TimeoutHost := true |>)
                               (timeout_stop ("timeout-" +:+ hex) x));
          match started with
          | inr _ => mret tt
          | inl e =>
              if errors_Is e (TSentinel ErrTimeoutPreflightUnavailable)
                 || errors_Is e (TSentinel ErrTimeoutPreflightInadmissible) then timeout_observe x e
              else if conflict e || errors_Is e (TStore ErrAttemptLineageMismatch)
              then timeout_competitor x e
              else Fail e
          end
    end.

Fixpoint each_execution (snapshot : RecoverySnapshot) (l : list RecoveryExecution) : Prog unit :=
  match l with [] => mret tt | x :: l => timeout_one snapshot x;; each_execution snapshot l end.

Definition Tick (ready : bool) : Prog unit :=
  when_ (is_null (sc_Store (tm_Stop m)) || negb (sc_AO (tm_Stop m))
         || (rn_Store (tm_Owner m) != sc_Store (tm_Stop m)) || negb (rn_Host (tm_Owner m))
         || (tm_Interval m <=? 0)%Z || (tm_Actor m == ""))
    (NewError "recovery: timeout monitor dependencies, trusted host and injected cadence required");;
  when_ (negb (rn_TimeoutAdmission (tm_Owner m)))
    (NewError "recovery: shared host timeout admission unavailable");;
  when_ (negb ready) (NewError "recovery: timeout monitor requires completed startup classification");;
  ctx_check;;
  snapshot ← call ListRecoverySnapshot;
  each_execution snapshot (Executions snapshot).
End Monitor.
