(* ===== verification/Quiet.v ===== *)
(** * Quiet: which programs act on the outside

    Every program of the coordinators and of the recovery code keeps the
    protocol of the store, and the acting calls are made by four of them, each
    under the intent it has just recorded ([guarded]). *)

From S2P Require Import Prelude.
From S2P Require Import Domain.
From S2P Require Import GoLib.
From S2P Require Import Db.
From S2P Require Import Tx.
From S2P Require Import AuditLog.
From S2P Require Import TaskStore.
From S2P Require Import Lifecycle.
From S2P Require Import DispatchStore.
From S2P Require Import StopStore.
From S2P Require Import RestoreStore.
From S2P Require Import RecoveryStore.
From S2P Require Import Clearance.
From S2P Require Import Protocol.
From S2P Require Import Refinement.
From S2P Require Import SagaRefinement.
From S2P Require Import System.
From S2P Require Import GoErr.
From S2P Require Import AoClient.
From S2P Require Import Agent.
From S2P Require Import Intents.
From S2P Require Import DispatchCoordinator.
From S2P Require Import StopCoordinator.
From S2P Require Import Recovery.

Create HintDb keeps.
Create HintDb quiet.
Create HintDb refs.

Section Store.
Context {L : GoLib}.
Local Abbreviation Keeps m := (OpSteps (protos true) m).

Lemma keeps_release {A} b (m : M A) : OpSteps (protos b) m -> Keeps m.
Proof.
  intros H env s r s' E. apply H in E. destruct b; [done|]. by apply protos_release.
Qed.

(** *** Reads *)
Lemma keeps_GetTask id : Keeps (GetTask id).
Proof. unfold GetTask. opsteps_walk. Qed.
Lemma keeps_GetTaskAttempt id : Keeps (GetTaskAttempt id).
Proof. unfold GetTaskAttempt. opsteps_walk. Qed.
Lemma keeps_GetDispatchOperation id : Keeps (GetDispatchOperation id).
Proof. unfold GetDispatchOperation. opsteps_walk. Qed.
Lemma keeps_GetStopOperation id : Keeps (GetStopOperation id).
Proof. unfold GetStopOperation. opsteps_walk. Qed.
Lemma keeps_GetProvisioning id : Keeps (GetPairProvisioningOperation id).
Proof. unfold GetPairProvisioningOperation. opsteps_walk. Qed.
Lemma keeps_GetRestore id : Keeps (GetPairRestoreOperation id).
Proof. unfold GetPairRestoreOperation. opsteps_walk. Qed.
Lemma keeps_GetBudget id : Keeps (GetExecutionBudget id).
Proof. unfold GetExecutionBudget. opsteps_walk. Qed.
Lemma keeps_ListAuditEvents after limit : Keeps (ListAuditEvents after limit).
Proof. unfold ListAuditEvents. opsteps_walk. Qed.
Lemma keeps_Verify : Keeps VerifyAuditChain.
Proof. unfold VerifyAuditChain. apply opsteps_with_snapshot; [apply _|]. walk. Qed.
Lemma keeps_snapshot : Keeps ListRecoverySnapshot.
Proof. unfold ListRecoverySnapshot. walk. Qed.
Lemma keeps_legacy : Keeps ListOpenConfirmedWithoutBudget.
Proof. unfold ListOpenConfirmedWithoutBudget. opsteps_walk. Qed.
Lemma keeps_PrepareBoundDispatch taskID contractID attemptID path at_ binding :
  Keeps (PrepareBoundDispatch taskID contractID attemptID path at_ binding).
Proof. eapply keeps_release, ref_PrepareBoundDispatch. Qed.
End Store.

#[export] Hint Resolve keeps_GetTask keeps_GetTaskAttempt keeps_GetDispatchOperation
  keeps_GetStopOperation keeps_GetProvisioning keeps_GetRestore keeps_GetBudget keeps_ListAuditEvents
  keeps_Verify keeps_snapshot keeps_legacy keeps_PrepareBoundDispatch : keeps.
#[export] Hint Resolve ref_ReservePairProvisioning ref_ConfirmPairProvisioning
  ref_FailPairProvisioning ref_RecordPreSendHold ref_RecordPreSendAdmissibilityRejected
  ref_ResolvePreSendHold ref_RecordSendRequested ref_RecordSendConfirmed
  ref_BindLegacyExecutionBudget ref_RecordUnknownDelivery ref_AtomicTerminalTransition
  ref_AtomicAttemptClosureTransition ref_ReserveStopOperation ref_ValidateTimeoutEffectOwner
  ref_CommitStopCallAccepted ref_CommitStopOutcome ref_ClassifyAbandonedStopAlive
  ref_AcceptStopAdministrativeRisk ref_ReservePairRestore ref_RecordPairRestoreUnknown
  ref_ConfirmPairRestore ref_ResolveConfirmedRestore ref_ResolveAmbiguousRestore
  ref_ClaimRestoreRecovery ref_ClaimRestoreCleanupWithStop ref_RecordRecoverySweepEvent
  ref_RecordPostSendOutage ref_ObservePostSend ref_RecordRecoveryAbsent
  ref_ClassifyInterruptedRestore ref_FailProvisioningAtStartup ref_ClearQuarantineWithEvidence : refs.

Ltac keeps := solve [auto with keeps | eapply keeps_release; eauto with refs].

(** *** The structure of a program *)
Lemma quiet_ret {L : GoLib} {A} (a : A) : quiet (mret a).
Proof. done. Qed.

Ltac quiet_step :=
  lazymatch goal with
  | |- quiet (mbind _ _) => apply quiet_bind
  | |- quiet (call _) => apply quiet_call; keeps
  | |- quiet (try_call _) => apply quiet_try_call; keeps
  | |- quiet (attempt _) => apply quiet_attempt
  | |- quiet (when_ _ _) => apply quiet_when
  | |- quiet ctx_check => apply quiet_ctx
  | |- quiet now => apply quiet_ask; reflexivity
  | |- quiet (ask _) => apply quiet_ask; reflexivity
  | |- quiet (ask_ok _) => apply quiet_ask_ok; reflexivity
  | |- quiet (mret _) => exact I
  | |- quiet (Ret _) => exact I
  | |- quiet (Fail _) => exact I
  | |- quiet Spin => exact I
  | |- quiet (demand ?x) => destruct x; exact I
  | |- quiet (let _ := _ in _) => cbv zeta
  | |- quiet (if ?c then _ else _) => destruct c
  | |- quiet (match ?c with _ => _ end) => destruct c
  | |- quiet (match ?c with _ => _ end _) => destruct c
  | |- forall _, _ => intros ?
  | |- quiet _ => solve [auto with quiet]
  end.
Ltac quiet := repeat quiet_step.

Section Programs.
Context {L : GoLib} {ST : StoreText}.

(** *** The dispatch coordinator *)
Lemma quiet_verified pairID session generation scope message :
  quiet (verified_principal pairID session generation scope message).
Proof. unfold verified_principal. quiet. Qed.
Lemma quiet_live_status session generation m1 m2 : quiet (live_status session generation m1 m2).
Proof. unfold live_status. quiet. Qed.
Lemma quiet_restore_unknown request reread : quiet (restore_unknown request reread).
Proof. unfold restore_unknown. quiet. Qed.
#[local] Hint Resolve quiet_verified quiet_live_status quiet_restore_unknown : quiet.
Lemma quiet_confirm_restore request result observed : quiet (confirm_restore request result observed).
Proof. unfold confirm_restore. quiet. Qed.
Lemma quiet_scan_audit fuel id op : forall after found, quiet (scan_audit fuel id op after found).
Proof. induction fuel as [|fuel IH]; intros after found; [exact I|]. cbn [scan_audit]. quiet. Qed.
#[local] Hint Resolve quiet_confirm_restore quiet_scan_audit : quiet.
Lemma quiet_read_durable fuel id attempt_id : quiet (read_durable fuel id attempt_id).
Proof. unfold read_durable. quiet. Qed.
#[local] Hint Resolve quiet_read_durable : quiet.
Lemma quiet_contain fuel id attempt_id actor cause :
  quiet (containAmbiguousSend fuel id attempt_id actor cause).
Proof. unfold containAmbiguousSend. quiet. Qed.
Lemma quiet_bound_attempt taskID contractID attemptID id session generation path :
  quiet (bound_attempt taskID contractID attemptID id session generation path).
Proof. unfold bound_attempt. quiet. Qed.
Lemma quiet_fail_before_send taskID attemptID reason disposition failed done :
  quiet (fail_before_send taskID attemptID reason disposition failed done).
Proof. unfold fail_before_send. quiet. Qed.
#[local] Hint Resolve quiet_contain quiet_bound_attempt quiet_fail_before_send : quiet.
Lemma quiet_pre_send_unavailable taskID attemptID id actor e :
  quiet (pre_send_unavailable taskID attemptID id actor e).
Proof. unfold pre_send_unavailable. quiet. Qed.
#[local] Hint Resolve quiet_pre_send_unavailable : quiet.

(** *** The permit *)

(** After the store call that records the intent [K], the program holds the
    permit if it is [K] we watch. *)
Lemma guarded_intent key K {A B} (m : M A) (k : A -> Prog B) :
  OpSteps (protos true) m -> records K m ->
  (forall a permit, (key = K -> permit = true) -> guarded key permit (k a)) ->
  guarded key false (call m ≫= k).
Proof.
  intros Hm Hrec Hk. destruct (decide (key = K)) as [->|Hne].
  - apply guarded_records; [done..| |]; [|done]. intros a. by apply Hk.
  - apply guarded_quiet_bind; [by apply quiet_call|]. intros a. by apply Hk.
Qed.
Lemma guarded_ask key permit {X B} (e : eff X) (k : X -> Prog B) :
  external e = true -> (issues e = Some key -> permit = true) -> (forall x, guarded key false (k x)) ->
  guarded key permit (ask e ≫= k).
Proof. intros. by apply guarded_do. Qed.
Lemma guarded_fail key permit {A} (e : goerr) : guarded key permit (Fail (A:=A) e).
Proof. done. Qed.

Lemma guarded_Provision key c operation projectID harness actor :
  guarded key false (Provision c operation projectID harness actor).
Proof.
  unfold Provision. cbv zeta. apply guarded_quiet_bind; [quiet|]. intros _.
  apply (guarded_intent key (KCreate (pp_OperationID operation)));
    [keeps|apply records_ReservePairProvisioning|]. intros _ permit Hp.
  apply guarded_ask; [done|cbn; naive_solver|]. intros x. apply quiet_guarded. quiet.
Qed.

Lemma guarded_Restore key c request : guarded key false (Restore c request).
Proof.
  unfold Restore. apply guarded_quiet_bind; [quiet|]. intros _.
  apply guarded_quiet_bind; [quiet|]. intros [e|[principal verified]]; [done|].
  apply guarded_quiet_bind; [quiet|]. intros _. cbv zeta.
  match goal with |- guarded _ _ (call (ReservePairRestore ?q) ≫= _) =>
    apply (guarded_intent key (KRestore (rr_OperationID q))); [keeps|apply records_ReservePairRestore|] end.
  intros _ permit Hp. apply guarded_ask; [done|cbn in *; naive_solver|]. intros x.
  apply quiet_guarded. quiet.
Qed.

Lemma guarded_send_once key c fuel id attempt_id session message actor status :
  guarded key false (send_once c fuel id attempt_id session message actor status).
Proof.
  unfold send_once. apply guarded_quiet_bind; [quiet|]. intros at_.
  apply (guarded_intent key (KSend id)); [keeps|apply records_RecordSendRequested|].
  intros _ permit Hp. apply guarded_ask; [done|cbn; naive_solver|]. intros x. apply quiet_guarded. quiet.
Qed.

(** Follow the quiet prefix and branches of a program. *)
Ltac guarded_step :=
  lazymatch goal with
  | |- guarded _ _ (mbind _ _) => apply guarded_quiet_bind; [solve [quiet]|]
  | |- guarded _ _ (let _ := _ in _) => cbv zeta
  | |- guarded _ _ (if ?c then _ else _) => destruct c
  | |- guarded _ _ (match ?c with _ => _ end) => destruct c
  | |- forall _, _ => intros ?
  end.

Lemma guarded_Dispatch key c fuel taskID contractID attemptID id session generation path message actor :
  guarded key false
    (Dispatch c fuel taskID contractID attemptID id session generation path message actor).
Proof.
  unfold Dispatch. repeat guarded_step.
  all: first [apply guarded_send_once | apply quiet_guarded; quiet].
Qed.

(** *** The stop coordinator *)
Lemma quiet_commitOutcome id expected next resolution status :
  quiet (commitOutcome id expected next resolution status).
Proof. unfold commitOutcome. quiet. Qed.
#[local] Hint Resolve quiet_commitOutcome : quiet.
Lemma quiet_Observe c id : quiet (Observe c id).
Proof. unfold Observe. quiet. Qed.
Lemma quiet_authorize c stop : quiet (authorize_cleanup c stop).
Proof. unfold authorize_cleanup. quiet. Qed.
Lemma quiet_claim_observation stop : quiet (claim_observation stop).
Proof. unfold claim_observation. quiet. Qed.
#[local] Hint Resolve quiet_Observe quiet_authorize quiet_claim_observation : quiet.

Lemma guarded_kill_once key c stop permit :
  (key = KStop (so_OperationID stop) -> permit = true) -> guarded key permit (kill_once c stop).
Proof.
  intros Hp. unfold kill_once. apply guarded_ask; [done|cbn; naive_solver|].
  intros x. apply quiet_guarded. quiet.
Qed.
Lemma guarded_observe_and_kill key c stop timeout permit :
  (key = KStop (so_OperationID stop) -> permit = true) ->
  guarded key permit (observe_and_kill c stop timeout).
Proof.
  intros Hp. unfold observe_and_kill. repeat guarded_step.
  all: first [by apply guarded_kill_once | apply quiet_guarded; quiet].
Qed.

(** The stop reserved is the one asked for. *)
Lemma guarded_reserve key stop observations (k : unit -> Prog unit) :
  (forall permit, (key = KStop (so_OperationID stop) -> permit = true) -> guarded key permit (k tt)) ->
  guarded key false (reserve stop observations ≫= k).
Proof.
  intros Hk. unfold reserve. destruct (is_some _).
  - destruct (so_RestorePrincipal stop); [|done].
    apply (guarded_intent key (KStop (so_OperationID stop)));
      [keeps|apply records_ClaimRestoreCleanupWithStop|]. by intros [].
  - apply (guarded_intent key (KStop (so_OperationID stop))); [keeps|apply records_ReserveStopOperation|].
    by intros [].
Qed.
Lemma guarded_start key c stop timeout : guarded key false (start c stop timeout).
Proof.
  unfold start. repeat guarded_step.
  match goal with |- guarded _ _ (reserve ?q _ ≫= _) => apply guarded_reserve end.
  intros permit Hp. by apply guarded_observe_and_kill.
Qed.
Lemma guarded_Start key c stop : guarded key false (Start c stop).
Proof. unfold Start. repeat guarded_step. apply guarded_start. Qed.

Lemma guarded_bind_quiet key permit {A B} (p : Prog A) (k : A -> Prog B) :
  guarded key permit p -> (forall a, quiet (k a)) -> guarded key permit (p ≫= k).
Proof.
  revert permit. induction p as [a|e| |X e f IH]; intros permit Hq Hk; try done.
  - apply quiet_guarded. exact (Hk a).
  - destruct Hq as [Hi Hq]. split; [done|]. intros d x d' Hinv Hr. destruct (Hq d x d' Hinv Hr).
    split; [done|]. by apply IH.
Qed.
Lemma guarded_with_release key p : guarded key false p -> guarded key false (with_release p).
Proof.
  intros Hp. unfold with_release. apply guarded_bind_quiet; [by apply guarded_attempt|]. intros r. quiet.
Qed.
Lemma guarded_timeout_effect key c stop : guarded key false (timeout_effect c stop).
Proof.
  unfold timeout_effect. repeat guarded_step.
  all: first [apply guarded_start | apply quiet_guarded; quiet].
Qed.
Lemma guarded_StartTimeout key c stop : guarded key false (StartTimeout c stop).
Proof.
  unfold StartTimeout. repeat guarded_step. apply guarded_with_release, guarded_timeout_effect.
Qed.
Lemma quiet_ClearQuarantine c request : quiet (CoordinatorClearQuarantine c request).
Proof. unfold CoordinatorClearQuarantine. quiet. Qed.
Lemma quiet_AcceptAdministrativeRisk c decision : quiet (AcceptAdministrativeRisk c decision).
Proof. unfold AcceptAdministrativeRisk. quiet. Qed.

(** *** The remaining operator paths of the dispatch coordinator *)
Lemma quiet_ResolveRestore c id pair session generation actor :
  quiet (ResolveRestore c id pair session generation actor).
Proof. unfold ResolveRestore. quiet. Qed.
Lemma quiet_ResolveAmbiguous c id pair session generation basis evidence actor :
  quiet (CoordinatorResolveAmbiguousRestore c id pair session generation basis evidence actor).
Proof. unfold CoordinatorResolveAmbiguousRestore. quiet. Qed.
Lemma quiet_ClaimRestoreCleanup c stop actor : quiet (ClaimRestoreCleanup c stop actor).
Proof. unfold ClaimRestoreCleanup. quiet. Qed.
Lemma quiet_ClaimRestoreRecovery c id pair session generation actor :
  quiet (CoordinatorClaimRestoreRecovery c id pair session generation actor).
Proof. unfold CoordinatorClaimRestoreRecovery. quiet. Qed.
Lemma quiet_RecoverPreSend c attemptID id disposition pair session generation actor :
  quiet (RecoverPreSend c attemptID id disposition pair session generation actor).
Proof. unfold RecoverPreSend. quiet. Qed.

(** *** Recovery *)
Definition rm_quiet {A} (m : RM A) : Prop := forall report, quiet (m report).
Lemma rm_ret {A} (a : A) : rm_quiet (mret a).
Proof. done. Qed.
Lemma rm_raise {A} e : rm_quiet (raise (A:=A) e).
Proof. done. Qed.
Lemma rm_pending : rm_quiet pendingAO.
Proof. done. Qed.
Lemma rm_classified : rm_quiet classified.
Proof. done. Qed.
Lemma rm_complete : rm_quiet complete.
Proof. done. Qed.
Lemma rm_bind {A B} (m : RM A) (k : A -> RM B) :
  rm_quiet m -> (forall a, rm_quiet (k a)) -> rm_quiet (m ≫= k).
Proof.
  intros Hm Hk report. apply quiet_bind; [apply Hm|]. intros [report' [e|a]]; [done|apply Hk].
Qed.
Lemma rm_lift {A} (p : Prog A) : quiet p -> rm_quiet (lift p).
Proof. intros Hp report. apply quiet_bind; [by apply quiet_attempt|]. done. Qed.
Lemma rm_catch {A} (m : RM A) : rm_quiet m -> rm_quiet (catch m).
Proof. intros Hm report. apply quiet_bind; [apply Hm|]. done. Qed.
Lemma rm_for_each {A} (l : list A) body : (forall x, rm_quiet (body x)) -> rm_quiet (for_each l body).
Proof. intros Hb. induction l as [|x l IH]; [done|]. cbn [for_each]. by apply rm_bind. Qed.
Lemma rm_or_winner m winner : rm_quiet m -> (forall e, rm_quiet (winner e)) -> rm_quiet (or_winner m winner).
Proof.
  intros Hm Hw. unfold or_winner. apply rm_bind; [by apply rm_catch|]. intros [e|]; [|done].
  destruct (conflict e); [apply Hw|done].
Qed.

Ltac rm_step :=
  lazymatch goal with
  | |- rm_quiet (mbind _ _) => apply rm_bind
  | |- rm_quiet (mret _) => apply rm_ret
  | |- rm_quiet (raise _) => apply rm_raise
  | |- rm_quiet pendingAO => apply rm_pending
  | |- rm_quiet classified => apply rm_classified
  | |- rm_quiet complete => apply rm_complete
  | |- rm_quiet (lift _) => apply rm_lift; solve [quiet]
  | |- rm_quiet (catch _) => apply rm_catch
  | |- rm_quiet (for_each _ _) => apply rm_for_each
  | |- rm_quiet (or_winner _ _) => apply rm_or_winner
  | |- rm_quiet (let _ := _ in _) => cbv zeta
  | |- rm_quiet (if ?c then _ else _) => destruct c
  | |- rm_quiet (match ?c with _ => _ end) => destruct c
  | |- rm_quiet (match ?c with _ => _ end _) => destruct c
  | |- forall _, _ => intros ?
  | |- rm_quiet _ => solve [auto with quiet]
  end.
Ltac rm_walk := repeat rm_step.

Lemma rm_executionWinner x e : rm_quiet (executionWinner x e).
Proof. unfold executionWinner. rm_walk. Qed.
Lemma rm_stopWinner x e : rm_quiet (stopWinner x e).
Proof. unfold stopWinner. rm_walk. Qed.
Lemma rm_classifyPreSend r x status : rm_quiet (classifyPreSend r x status).
Proof. unfold classifyPreSend. rm_walk. Qed.
Lemma rm_classify_unobserved r x id e : rm_quiet (classify_unobserved r x id e).
Proof. unfold classify_unobserved. rm_walk. Qed.
#[local] Hint Resolve rm_executionWinner rm_stopWinner rm_classifyPreSend rm_classify_unobserved : quiet.
Lemma rm_classifyExecution r x id : rm_quiet (classifyExecution r x id).
Proof. unfold classifyExecution. rm_walk. Qed.
Lemma rm_classifyStop r x id : rm_quiet (classifyStop r x id).
Proof. unfold classifyStop. rm_walk. Qed.
#[local] Hint Resolve rm_classifyExecution rm_classifyStop : quiet.
Lemma rm_observe_execution r id x : rm_quiet (observe_execution r id x).
Proof. unfold observe_execution. rm_walk. Qed.
Lemma rm_observe_stop r id x : rm_quiet (observe_stop r id x).
Proof. unfold observe_stop. rm_walk. Qed.
Lemma rm_classify_restore r op : rm_quiet (classify_restore r op).
Proof. unfold classify_restore. rm_walk. Qed.
Lemma rm_classify_provisioning r op : rm_quiet (classify_provisioning r op).
Proof. unfold classify_provisioning. rm_walk. Qed.
Lemma rm_classify_blocked x : rm_quiet (classify_blocked x).
Proof. unfold classify_blocked. rm_walk. Qed.
#[local] Hint Resolve rm_observe_execution rm_observe_stop rm_classify_restore
  rm_classify_provisioning rm_classify_blocked : quiet.
Lemma rm_sweep r : rm_quiet (sweep r).
Proof. unfold sweep. rm_walk. Qed.

Lemma quiet_Run r running : quiet (Run r running).
Proof.
  unfold Run, invalidate. cbv zeta. repeat first [apply rm_sweep | quiet_step].
Qed.
Lemma quiet_poll r id : quiet (poll r id).
Proof.
  unfold poll. quiet.
  all: match goal with |- quiet (for_each ?l ?b _) =>
         enough (rm_quiet (for_each l b)) as Hrm by apply Hrm end.
  all: rm_walk.
Qed.
Lemma quiet_PollOnce p shutdown ready : quiet (PollOnce p shutdown ready).
Proof. unfold PollOnce. cbv zeta. quiet. all: apply quiet_poll. Qed.

Lemma guarded_maintenance key r running pairID purpose fn :
  guarded key false fn -> guarded key false (withLegacyMaintenance r running pairID purpose fn).
Proof.
  intros Hf. unfold withLegacyMaintenance, invalidate. repeat guarded_step.
  apply guarded_with_release. apply guarded_quiet_bind; [quiet|]. by intros _.
Qed.
Lemma guarded_BindLegacy key r running attemptID evidence policy :
  guarded key false (BindLegacyBudget r running attemptID evidence policy).
Proof.
  unfold BindLegacyBudget. repeat guarded_step. all: try done.
  apply guarded_maintenance, quiet_guarded. quiet.
Qed.
Lemma guarded_StopLegacy key r running coordinator op :
  guarded key false (StopLegacyWithoutBudget r running coordinator op).
Proof.
  unfold StopLegacyWithoutBudget. repeat guarded_step. all: try done.
  apply guarded_maintenance. repeat guarded_step; [|done]. apply guarded_Start.
Qed.

Lemma quiet_timeout_observe m x e : quiet (timeout_observe m x e).
Proof.
  unfold timeout_observe. cbv zeta. apply quiet_bind; [apply rm_or_winner; auto with quiet|]. quiet.
Qed.
Lemma quiet_timeout_competitor x e : quiet (timeout_competitor x e).
Proof. unfold timeout_competitor. quiet. Qed.
#[local] Hint Resolve quiet_timeout_observe quiet_timeout_competitor : quiet.

Lemma guarded_bind key {A B} (p : Prog A) (k : A -> Prog B) permit :
  guarded key permit p -> (forall a, guarded key false (k a)) -> guarded key permit (p ≫= k).
Proof.
  revert permit. induction p as [a|e| |X e f IH]; intros permit Hq Hk; try done.
  - apply guarded_mono. exact (Hk a).
  - destruct Hq as [Hi Hq]. split; [done|]. intros d x d' Hinv Hr. destruct (Hq d x d' Hinv Hr).
    split; [done|]. by apply IH.
Qed.
Lemma guarded_timeout_one key m snapshot x : guarded key false (timeout_one m snapshot x).
Proof.
  unfold timeout_one. repeat guarded_step.
  all: try (apply guarded_bind_quiet; [apply guarded_attempt, guarded_StartTimeout|]; intros ?; quiet).
  all: apply quiet_guarded; quiet.
Qed.
Lemma guarded_Tick key m ready : guarded key false (Tick m ready).
Proof.
  unfold Tick. repeat guarded_step.
  match goal with |- context [each_execution _ ?s ?l] => generalize s at 1; generalize l end.
  intros l s. induction l as [|x l IH]; [done|]. cbn [each_execution].
  apply guarded_bind; [apply guarded_timeout_one|done].
Qed.
End Programs.
