(* ===== verification/Avoids.v ===== *)
(** * Avoids: which call a program may make

    A program [avoids] a call when it makes it on no path, and keeps the
    protocol of the store.  A program that acts avoids every call but the ones
    its request names. *)

From S2P Require Import Prelude.
From S2P Require Import Domain.
From S2P Require Import GoLib.
From S2P Require Import Db.
From S2P Require Import Tx.
From S2P Require Import StopStore.
From S2P Require Import RestoreStore.
From S2P Require Import Lifecycle.
From S2P Require Import Protocol.
From S2P Require Import Invariants.
From S2P Require Import System.
From S2P Require Import GoErr.
From S2P Require Import AoClient.
From S2P Require Import Agent.
From S2P Require Import DispatchCoordinator.
From S2P Require Import StopCoordinator.
From S2P Require Import Recovery.
From S2P Require Import Quiet.

Fixpoint avoids {L : GoLib} (key : effect_key) {A} (p : Prog A) : Prop :=
  match p with
  | Do e k =>
      issues e <> Some key /\
      forall d x d', store_inv d -> runs e d x d' -> protos true d d' /\ avoids key (k x)
  | _ => True
  end.

Section Avoids.
Context {L : GoLib} (key : effect_key).

Lemma quiet_avoids {A} (p : Prog A) : quiet p -> avoids key p.
Proof.
  induction p as [a|e| |X e k IH]; intros Hq; try done. destruct Hq as [Hi Hk].
  split; [by rewrite Hi|]. intros d x d' Hinv Hr. destruct (Hk d x d' Hinv Hr). auto.
Qed.
Lemma avoids_bind {A B} (p : Prog A) (k : A -> Prog B) :
  avoids key p -> (forall a, avoids key (k a)) -> avoids key (p ≫= k).
Proof.
  intros Hp Hk. induction p as [a|e| |X e f IH]; try done; [apply Hk|]. destruct Hp as [Hi Hf].
  split; [done|]. intros d x d' Hinv Hr. destruct (Hf d x d' Hinv Hr). split; [done|]. by apply IH.
Qed.
(** What a program may return. *)
Fixpoint yields {A} (P : A -> Prop) (p : Prog A) : Prop :=
  match p with
  | Ret a => P a
  | Do e k => forall x, yields P (k x)
  | _ => True
  end.
Lemma yields_bind {A B} (P : B -> Prop) (p : Prog A) (k : A -> Prog B) :
  (forall a, yields P (k a)) -> yields P (p ≫= k).
Proof. intros Hk. induction p as [a|e| |X e f IH]; try done. apply Hk. Qed.
Lemma avoids_bind_yields {A B} P (p : Prog A) (k : A -> Prog B) :
  avoids key p -> yields P p -> (forall a, P a -> avoids key (k a)) -> avoids key (p ≫= k).
Proof.
  intros Hp Hy Hk. induction p as [a|e| |X e f IH]; try done; [by apply Hk|]. destruct Hp as [Hi Hf].
  split; [done|]. intros d x d' Hinv Hr. destruct (Hf d x d' Hinv Hr). split; [done|]. by apply IH.
Qed.
Lemma avoids_attempt {A} (p : Prog A) : avoids key p -> avoids key (attempt p).
Proof.
  induction p as [a|e| |X e f IH]; intros Hp; try done. destruct Hp as [Hi Hf].
  split; [done|]. intros d x d' Hinv Hr. destruct (Hf d x d' Hinv Hr). auto.
Qed.
Lemma avoids_ask {X} (e : eff X) : external e = true -> issues e <> Some key -> avoids key (ask e).
Proof.
  intros He Hi. split; [done|]. intros d x d' _ ->%runs_external; [|done]. by split.
Qed.
Lemma avoids_with_release p : avoids key p -> avoids key (with_release p).
Proof.
  intros Hp. unfold with_release. apply avoids_bind; [by apply avoids_attempt|].
  intros r. apply quiet_avoids. quiet.
Qed.
End Avoids.

#[local] Hint Resolve quiet_verified quiet_live_status quiet_restore_unknown quiet_confirm_restore
  quiet_read_durable quiet_contain quiet_bound_attempt quiet_fail_before_send quiet_pre_send_unavailable
  quiet_commitOutcome quiet_Observe quiet_claim_observation quiet_timeout_observe
  quiet_timeout_competitor : quiet.

Create HintDb avoids.
(** Follow a program; what it asks of the store and of the clock is quiet. *)
Ltac avoid_step :=
  lazymatch goal with
  | |- avoids _ (Ret _) => exact I
  | |- avoids _ (Fail _) => exact I
  | |- avoids _ (mret _) => exact I
  | |- avoids _ (ask (EStopWorker _ _)) => apply avoids_ask; [done|cbn; congruence]
  | |- avoids _ (ask (ECreateWorkerSession _ _ _)) => apply avoids_ask; [done|cbn; congruence]
  | |- avoids _ (ask (EResumeWorker _ _)) => apply avoids_ask; [done|cbn; congruence]
  | |- avoids _ (ask (EDispatchTaskContract _ _ _)) => apply avoids_ask; [done|cbn; congruence]
  | |- avoids _ (mbind _ _) => apply avoids_bind
  | |- avoids _ (attempt _) => apply avoids_attempt
  | |- avoids _ (let _ := _ in _) => cbv zeta
  | |- avoids _ (if ?c then _ else _) => destruct c
  | |- avoids _ (match ?c with _ => _ end) => destruct c
  | |- forall _, _ => intros ?
  | |- avoids _ _ => first [solve [auto with avoids] | apply quiet_avoids; solve [quiet]]
  end.
Ltac avoid := repeat avoid_step.

Section Programs.
Context {L : GoLib} {ST : StoreText} (key : effect_key).

Lemma avoids_Provision c operation projectID harness actor :
  key <> KCreate (pp_OperationID operation) -> avoids key (Provision c operation projectID harness actor).
Proof. intros Hk. unfold Provision. avoid. Qed.
Lemma avoids_Restore c request : key <> KRestore (rr_OperationID request) -> avoids key (Restore c request).
Proof. intros Hk. unfold Restore. avoid. Qed.
Lemma avoids_send_once c fuel id attempt_id session message actor status :
  key <> KSend id -> avoids key (send_once c fuel id attempt_id session message actor status).
Proof. intros Hk. unfold send_once. avoid. Qed.
#[local] Hint Resolve avoids_send_once : avoids.
Lemma avoids_Dispatch c fuel taskID contractID attemptID id session generation path message actor :
  key <> KSend id ->
  avoids key (Dispatch c fuel taskID contractID attemptID id session generation path message actor).
Proof. intros Hk. unfold Dispatch. avoid. Qed.

(** The stop keeps its identifier on its way to the /kill. *)
Lemma avoids_observe_and_kill c stop timeout :
  key <> KStop (so_OperationID stop) -> avoids key (observe_and_kill c stop timeout).
Proof. intros Hk. unfold observe_and_kill, kill_once. avoid. Qed.
Lemma yields_authorize c stop :
  yields (fun stop' => so_OperationID stop' = so_OperationID stop) (authorize_cleanup c stop).
Proof.
  unfold authorize_cleanup. destruct (_ == _); [done|]. apply yields_bind. intros _. cbv zeta.
  apply yields_bind. intros principal. by destruct (is_some _).
Qed.
Lemma avoids_start c stop timeout :
  key <> KStop (so_OperationID stop) -> avoids key (StopCoordinator.start c stop timeout).
Proof.
  intros Hk. unfold StopCoordinator.start. do 2 (apply avoids_bind; [avoid|intros _]).
  apply avoids_bind; [avoid|]. intros at_. cbv zeta.
  eapply avoids_bind_yields; [apply quiet_avoids, quiet_authorize|apply yields_authorize|].
  intros stop' Hid. apply avoids_bind; [avoid|]. intros observations.
  apply avoids_bind; [unfold reserve; avoid|]. intros _. apply avoids_observe_and_kill.
  rewrite Hid. by destruct (so_Actor _ == "").
Qed.
#[local] Hint Resolve avoids_start avoids_with_release : avoids.
Lemma avoids_Start c stop : key <> KStop (so_OperationID stop) -> avoids key (Start c stop).
Proof. intros Hk. unfold Start. avoid. Qed.
Lemma avoids_StartTimeout c stop : key <> KStop (so_OperationID stop) -> avoids key (StartTimeout c stop).
Proof.
  intros Hk. unfold StartTimeout. avoid. apply avoids_with_release. unfold timeout_effect. avoid.
Qed.
#[local] Hint Resolve avoids_Start avoids_StartTimeout : avoids.

(** *** Recovery *)
Lemma avoids_maintenance r running pairID purpose fn :
  avoids key fn -> avoids key (withLegacyMaintenance r running pairID purpose fn).
Proof.
  intros Hf. unfold withLegacyMaintenance, invalidate. avoid. apply avoids_with_release. avoid.
Qed.
Lemma avoids_BindLegacyBudget r running attemptID evidence policy :
  avoids key (BindLegacyBudget r running attemptID evidence policy).
Proof. unfold BindLegacyBudget. avoid. all: apply avoids_maintenance; avoid. Qed.
Lemma avoids_StopLegacyWithoutBudget r running coordinator op :
  key <> KStop (so_OperationID op) -> avoids key (StopLegacyWithoutBudget r running coordinator op).
Proof. intros Hk. unfold StopLegacyWithoutBudget. avoid. all: apply avoids_maintenance; avoid. Qed.

Lemma avoids_Tick m ready :
  (forall hex, key <> KStop ("timeout-" +:+ hex)) -> avoids key (Tick m ready).
Proof.
  intros Hk. unfold Tick. avoid.
  match goal with |- context [each_execution _ ?s ?l] => generalize s at 1; generalize l end.
  intros l s. induction l as [|x l IH]; [done|]. cbn [each_execution].
  apply avoids_bind; [|done]. unfold timeout_one. avoid. apply avoids_StartTimeout. apply Hk.
Qed.
End Programs.
