(* ===== verification/Outcomes.v ===== *)
(** * Outcomes: what a coordinator's success means

    [ensures p Q d]: started on [d], with any other client of the store writing
    between two calls of [p], if [p] returns [a] then [Q a] holds of the store
    from then on.  A dispatch that returns nil left SEND_CONFIRMED on record,
    a restore RESTORE_CONFIRMED; and an absent session is told from an
    unreachable one in opposite ways before the send and at recovery. *)

From stdpp Require Import relations.
From S2P Require Import Prelude.
From S2P Require Import Domain.
From S2P Require Import GoLib.
From S2P Require Import Db.
From S2P Require Import Tx.
From S2P Require Import AuditLog.
From S2P Require Import DbFacts.
From S2P Require Import TaskStore.
From S2P Require Import Lifecycle.
From S2P Require Import DispatchStore.
From S2P Require Import StopStore.
From S2P Require Import RestoreStore.
From S2P Require Import RecoveryStore.
From S2P Require Import Protocol.
From S2P Require Import History.
From S2P Require Import Invariants.
From S2P Require Import Refinement.
From S2P Require Import SagaRefinement.
From S2P Require Import GoErr.
From S2P Require Import AoClient.
From S2P Require Import Agent.
From S2P Require Import Intents.
From S2P Require Import DispatchCoordinator.
From S2P Require Import StopCoordinator.
From S2P Require Import Recovery.
From S2P Require Import Quiet.
From S2P Require Import Sample.

Section Ensures.
Context {L : GoLib}.

Fixpoint ensures {A} (p : Prog A) (Q : A -> DB -> Prop) (d : DB) : Prop :=
  match p with
  | Ret a => forall d', protos true d d' -> Q a d'
  | Do e k =>
      forall d1 x d2, protos true d d1 -> store_inv d1 -> runs e d1 x d2 -> ensures (k x) Q d2
  | _ => True
  end.

Lemma ensures_later {A} (p : Prog A) Q d d' : protos true d d' -> ensures p Q d -> ensures p Q d'.
Proof.
  intros Hd. destruct p as [a|e| |X e k]; try done; cbn.
  - intros H d1 H1. apply H. by etransitivity.
  - intros H d1 x d2 H1. apply H. by etransitivity.
Qed.
Lemma ensures_bind {A B} (p : Prog A) (k : A -> Prog B) Q d :
  ensures p (fun a d => ensures (k a) Q d) d -> ensures (p ≫= k) Q d.
Proof.
  revert d. induction p as [a|e| |X e f IH]; intros d; try done; cbn.
  - intros H. apply (H d). reflexivity.
  - intros H d1 x d2 H1 Hi Hr. apply IH. by eapply H.
Qed.
Lemma ensures_any {A} (p : Prog A) Q d : (forall a d, Q a d) -> ensures p Q d.
Proof.
  intros HQ. revert d. induction p as [a|e| |X e f IH]; intros d; try done; cbn.
  - intros d' _. apply HQ.
  - intros d1 x d2 _ _ _. apply IH.
Qed.
Lemma ensures_imp {A} (p : Prog A) (P Q : A -> DB -> Prop) d :
  ensures p P d -> (forall a d, P a d -> Q a d) -> ensures p Q d.
Proof.
  intros Hp HPQ. revert d Hp. induction p as [a|e| |X e f IH]; intros d Hp; try done; cbn in *.
  - intros d' Hd. by apply HPQ, Hp.
  - intros d1 x d2 Hd Hi Hr. apply IH. by eapply Hp.
Qed.
(** Nothing is needed of [p] when the rest ensures [Q] from anywhere. *)
Lemma ensures_skip {A B} (p : Prog A) (k : A -> Prog B) Q d :
  (forall a d, ensures (k a) Q d) -> ensures (p ≫= k) Q d.
Proof. intros H. by apply ensures_bind, ensures_any. Qed.

Definition stable (P : DB -> Prop) : Prop := forall d d', protos true d d' -> P d -> P d'.

(** A fact the store keeps outlives a program that keeps the protocol. *)
Lemma ensures_keep {A B} (p : Prog A) (k : A -> Prog B) (R : DB -> Prop) Q d :
  quiet p -> stable R -> R d -> (forall a d, R d -> ensures (k a) Q d) -> ensures (p ≫= k) Q d.
Proof.
  intros Hq HR HRd Hk. apply ensures_bind. revert d HRd.
  induction p as [a|e| |X e f IH]; intros d HRd; try done; cbn.
  - intros d' Hd. apply Hk. by eapply HR.
  - intros d1 x d2 Hd Hi Hr. destruct Hq as [_ Hq]. destruct (Hq d1 x d2 Hi Hr) as [Hp Hx].
    apply IH; [done|]. eapply HR; [exact Hp|]. by eapply HR.
Qed.

Lemma ensures_ret {A} (a : A) (P : DB -> Prop) d : stable P -> P d -> ensures (mret a) (fun _ => P) d.
Proof. intros Hs HP d' Hd. by eapply Hs. Qed.

(** A store call that succeeds establishes [P]. *)
Definition establishes {A} (m : M A) (P : A -> DB -> Prop) : Prop :=
  forall env s a s', store_inv (st_db s) -> m env s = (Ok a, s') -> P a (st_db s').

Lemma ensures_try {A B} (m : M A) (P : A -> DB -> Prop) (k : gres A -> Prog B) Q d :
  establishes m P -> (forall a d, P a d -> ensures (k (inr a)) Q d) -> (forall e d, ensures (k (inl e)) Q d) ->
  ensures (try_call m ≫= k) Q d.
Proof.
  intros Hm Hok Herr d1 x d2 Hd Hi (env & n & s' & Hr & ->). destruct x as [a|e]; cbn.
  - apply Hok. by apply (Hm _ (mkSt d1 n) _ _ Hi Hr).
  - apply Herr.
Qed.
Lemma ensures_call {A B} (m : M A) (P : A -> DB -> Prop) (k : A -> Prog B) Q d :
  establishes m P -> (forall a d, P a d -> ensures (k a) Q d) -> ensures (call m ≫= k) Q d.
Proof.
  intros Hm Hok d1 x d2 Hd Hi (env & n & s' & Hr & ->). destruct x as [a|e]; [|done].
  apply Hok. by apply (Hm _ (mkSt d1 n) _ _ Hi Hr).
Qed.
Lemma ensures_attempt {A B} (p : Prog A) (k : gres A -> Prog B) Q d :
  ensures p (fun a d => ensures (k (inr a)) Q d) d -> (forall e d, ensures (k (inl e)) Q d) ->
  ensures (attempt p ≫= k) Q d.
Proof.
  intros Hp Herr. apply ensures_bind. revert d Hp.
  induction p as [a|e| |X e f IH]; intros d Hp; cbn in *; try done.
  intros d1 x d2 Hd Hi Hr. apply IH. by eapply Hp.
Qed.

(** ** What is on record *)
Definition confirmed_send (id : string) (d : DB) : Prop :=
  exists o, In o (dispatch_operations d) /\ d_OperationID o = id /\ d_Stage o = SendConfirmed.
Definition confirmed_restore (id : string) (d : DB) : Prop :=
  exists o, In o (pair_restore_operations d) /\ ro_OperationID o = id /\
    ro_Stage o = RestoreConfirmedStage.

Lemma confirmed_send_stable id : stable (confirmed_send id).
Proof.
  intros d d' Hd (o & Hin & E & Hs). destruct (protos_history _ _ _ Hd) as [_ _ _ Hf _ _ _ _ _].
  destruct (Hf o Hin) as (o' & Hin' & E' & _ & _ & _ & _ & _ & Hk & _).
  exists o'. split_and!; [done|congruence|]. rewrite Hs in Hk. cbn in Hk.
  destruct (d_Stage o'); (done || cbn in Hk; lia).
Qed.
Lemma confirmed_restore_stable id : stable (confirmed_restore id).
Proof.
  intros d d' Hd (o & Hin & E & Hs). destruct (protos_history _ _ _ Hd) as [_ _ _ _ _ Hf _ _ _].
  destruct (Hf o Hin) as (o' & Hin' & E' & _ & _ & _ & _ & _ & Hk & _).
  exists o'. split_and!; [done|congruence|]. by apply Hk.
Qed.

(** *** Operations that put it there *)
Section Settles.
Context (P : DB -> Prop) (HP : stable P).
Definition settles {A} (m : M A) : Prop := establishes m (fun _ => P).

Lemma settles_before {A B} (m : M A) (k : A -> M B) :
  Steps (protos true) m -> (forall a, settles (k a)) -> settles (m ≫= k).
Proof.
  intros Hm Hk env s b s' Hi (a & s1 & H1 & H2)%bind_ok. apply Hm in H1.
  by apply (Hk a env s1 b s' (protos_inv _ _ _ H1 Hi)).
Qed.
Lemma settles_after {A B} (m : M A) (k : A -> M B) :
  settles m -> (forall a, Steps (protos true) (k a)) -> settles (m ≫= k).
Proof.
  intros Hm Hk env s b s' Hi (a & s1 & H1 & H2)%bind_ok. apply Hk in H2. eapply HP; [exact H2|]. by eapply Hm.
Qed.
Lemma settles_throw {A} e : settles (A:=A) (throw e).
Proof. intros env s a s' _ H. by apply throw_ok in H. Qed.
Lemma settles_with_tx {A} (body : M (verdict A)) : committed body -> settles body -> settles (with_tx body).
Proof.
  intros Hc Hb env s a s' Hi (s1 & [[H ->]|[H _]])%with_tx_ok.
  - by apply (Hb _ (mkSt (st_db s) _) _ _ Hi H).
  - by destruct (Hc _ _ _ _ H).
Qed.
Lemma settles_affects e f :
  (forall d d' n, store_inv d -> f d = Ok (d', S n) -> P d') -> settles (affects_one e (exec_n f)).
Proof.
  intros Hf env s a s' Hi H. unfold affects_one in H. apply bind_ok in H as (n & s1 & H1 & H2).
  apply reject_if_ok in H2 as [Hn ->]. destruct n as [|n]; [done|]. apply exec_n_ok in H1. by eapply Hf.
Qed.
End Settles.

Lemma updated_row {A} (p : A -> bool) f (l : list A) n (Q : A -> Prop) :
  S n = affected p l -> (forall x, p x = true -> Q (f x)) -> exists y, In y (upd p f l) /\ Q y.
Proof.
  intros Hn HQ. destruct (affected_pos p l ltac:(by rewrite <- Hn)) as (x & Hin & Hx).
  exists (f x). split; [|by apply HQ]. apply in_upd. exists x. by rewrite Hx.
Qed.

#[local] Hint Resolve steps_audit : tbl.
Ltac settles_walk :=
  repeat first
    [ progress cbv zeta
    | lazymatch goal with
      | |- settles _ (with_tx _) => apply settles_with_tx; [committed_walk|]
      | |- settles _ (throw _) => apply settles_throw
      | |- settles _ (match ?c with _ => _ end) => destruct c
      end
    | apply settles_after; [done|apply settles_affects|]
    | apply settles_before; [solve [walk]|]; intros ].

Lemma settles_RecordSendConfirmed id actor ok at_ policies :
  settles (confirmed_send id) (RecordSendConfirmed id actor ok at_ policies).
Proof.
  pose proof (confirmed_send_stable id) as Hst. unfold RecordSendConfirmed. settles_walk; [|intros; walk].
  intros d' d'' n _ (-> & Hn & _)%update_dispatch_ok. apply (updated_row _ _ _ _ _ Hn).
  intros x Hx. by breflect.
Qed.
Lemma settles_ConfirmPairRestore id session old new mode status actor at_ :
  settles (confirmed_restore id) (ConfirmPairRestore id session old new mode status actor at_).
Proof.
  pose proof (confirmed_restore_stable id) as Hst. unfold ConfirmPairRestore. settles_walk; [|intros; walk].
  intros d d' n _ (-> & Hn & _)%update_restores_ok. apply (updated_row _ _ _ _ _ Hn).
  intros x Hx. by breflect.
Qed.

(** *** Reads *)
Lemma establishes_GetDispatchOperation id :
  establishes (GetDispatchOperation id) (fun o d => In o (dispatch_operations d) /\ d_OperationID o = id).
Proof.
  intros env s o s' _ H. unfold GetDispatchOperation in H. apply map_err_ok, query_row_ok in H as [H ->].
  apply find_spec in H as [Hin H]. by breflect.
Qed.
Lemma establishes_GetRestore id :
  establishes (GetPairRestoreOperation id)
    (fun o d => In o (pair_restore_operations d) /\ ro_OperationID o = id).
Proof.
  intros env s o s' _ H. unfold GetPairRestoreOperation in H. apply map_err_ok, query_row_ok in H as [H ->].
  apply find_spec in H as [Hin H]. by breflect.
Qed.
End Ensures.

(** ** The coordinators *)
Section Coordinators.
Context {L : GoLib} {ST : StoreText} (c : Coordinator).

(** Follow a program whose prefix does not matter. *)
Ltac ensures_step :=
  lazymatch goal with
  | |- ensures (Fail _) _ _ => exact I
  | |- ensures (mbind _ _) _ _ => apply ensures_skip; intros
  | |- ensures (let _ := _ in _) _ _ => cbv zeta
  | |- ensures (if ?b then _ else _) _ _ => destruct b eqn:?
  | |- ensures (match ?x with _ => _ end) _ _ => destruct x eqn:?
  end.

(** The durable tuple of [containAmbiguousSend] names a row of the table. *)
Lemma read_durable_row fuel id attempt d :
  ensures (read_durable fuel id attempt)
    (fun t d => d_Stage (dt_op t) = SendConfirmed -> confirmed_send id d) d.
Proof.
  unfold read_durable. eapply ensures_call; [apply establishes_GetDispatchOperation|].
  intros op d1 [Hin Hid]. set (R := fun d => d_Stage op = SendConfirmed -> confirmed_send id d).
  assert (R d1) as HR by (intros Hs; by exists op). clear Hin Hid.
  assert (stable R) as Hst.
  { intros d2 d3 Hp H Hs. eapply confirmed_send_stable; [exact Hp|by apply H]. }
  repeat (eapply (ensures_keep _ _ R); [first [by apply quiet_scan_audit | quiet]|done|eassumption|];
          clear HR d1; intros ? d1 HR).
  intros d' Hd. by eapply Hst.
Qed.
Lemma contain_confirmed fuel id attempt actor cause d :
  ensures (containAmbiguousSend fuel id attempt actor cause) (fun _ => confirmed_send id) d.
Proof.
  unfold containAmbiguousSend. apply ensures_attempt; [|intros; exact I].
  eapply ensures_imp; [apply read_durable_row|]. intros t d1 Ht. cbv beta in *.
  destruct (_ || _) eqn:?; [exact I|].
  destruct ((d_Stage (dt_op t) == SendConfirmed) && _) eqn:Hs.
  - breflect. apply ensures_ret; [apply confirmed_send_stable|by apply Ht].
  - clear Ht. repeat ensures_step.
Qed.
Lemma send_once_confirmed fuel id attempt session message actor status d :
  ensures (send_once c fuel id attempt session message actor status) (fun _ => confirmed_send id) d.
Proof.
  unfold send_once. do 3 (apply ensures_skip; intros).
  match goal with |- context [match ?r with _ => _ end] => destruct r as [e|[result|]] end;
    [apply contain_confirmed| |apply contain_confirmed].
  destruct (_ != _); [apply contain_confirmed|]. apply ensures_skip. intros ? ?.
  eapply ensures_try; [apply settles_RecordSendConfirmed| |].
  - intros ? d' H. by apply ensures_ret; [apply confirmed_send_stable|].
  - intros e d'. apply contain_confirmed.
Qed.

(** A [Dispatch] that returns nil has left its operation SEND_CONFIRMED in
    the store, whatever the daemon answered and whatever other clients wrote
    meanwhile; every other way out is an error. *)
Lemma dispatch_success_is_durable fuel taskID contractID attemptID id session generation path message
    actor d :
  ensures (Dispatch c fuel taskID contractID attemptID id session generation path message actor)
    (fun _ => confirmed_send id) d.
Proof.
  unfold Dispatch, pre_send_unavailable, fail_before_send. cbv zeta.
  repeat first [ ensures_step
               | lazymatch goal with |- ensures (send_once _ _ _ _ _ _ _ _) _ _ => apply send_once_confirmed end ].
Qed.

Lemma confirm_restore_confirmed request result observed d :
  ensures (confirm_restore request result observed)
    (fun _ => confirmed_restore (rr_OperationID request)) d.
Proof.
  unfold confirm_restore. cbv zeta. apply ensures_skip. intros at_ d1.
  eapply ensures_try; [apply settles_ConfirmPairRestore| |].
  - intros ? d2 H. by apply ensures_ret; [apply confirmed_restore_stable|].
  - intros e d2. eapply ensures_try; [apply establishes_GetRestore| |intros; exact I].
    intros o d3 [Hin Hid]. destruct (_ && _) eqn:E; [|by repeat ensures_step].
    breflect. apply ensures_ret; [apply confirmed_restore_stable|]. by exists o.
Qed.
Lemma restore_success_is_durable request d :
  ensures (Restore c request) (fun _ => confirmed_restore (rr_OperationID request)) d.
Proof.
  unfold Restore. cbv zeta.
  repeat first [ ensures_step
               | lazymatch goal with |- ensures (confirm_restore ?q _ _) _ _ => apply (confirm_restore_confirmed q) end ].
Qed.
End Coordinators.

(** ** An absent session, before the send and at recovery *)
Section Absence.
Context {L : GoLib}.

(** The disposition that the first store call of the program would record. *)
Definition fails_attempt (taskID attemptID : string) (m : M unit) : Prop :=
  m = AtomicTerminalTransition taskID StateDispatched StateFailed "AO session absent before send"
        attemptID "SESSION_ABSENT".

(** the daemon reports an unknown session with HTTP 404 and its error
    envelope, which the client returns as an [APIError].  At startup the
    scanner fails the bound attempt with SESSION_ABSENT; the coordinator only
    holds it as RECOVERY_PENDING, as if the daemon were unreachable, and
    reserves SESSION_ABSENT for a 404 without envelope, which the scanner in
    turn holds as PRE_SEND_PROTOCOL_UNVERIFIED. *)
Theorem absence_told_two_ways r x id actor (e : api_error) (p : protocol_error) :
  ae_StatusCode e = 404%Z -> pe_StatusCode p = 404%Z ->
  x_DispatchStage x = "DISPATCH_BOUND"%string -> x_Disposition x = None ->
  (exists m, fails_attempt (x_TaskID x) (x_AttemptID x) m /\
     classify_unobserved r x id (APIError e) = lift (call m)) /\
  (exists k, pre_send_unavailable (x_TaskID x) (x_AttemptID x) (x_OperationID x) actor (APIError e)
     = (at_ ← now; try_call (RecordPreSendHold (x_OperationID x) "RECOVERY_PENDING" actor at_) ≫= k)) /\
  (exists m k, fails_attempt (x_TaskID x) (x_AttemptID x) m /\
     pre_send_unavailable (x_TaskID x) (x_AttemptID x) (x_OperationID x) actor (ProtocolError p)
     = (try_call m ≫= k)) /\
  (exists k, classify_unobserved r x id (ProtocolError p)
     = (at_ ← lift now; lift (call (RecordPreSendHold (x_OperationID x) "PRE_SEND_PROTOCOL_UNVERIFIED"
                                      (rn_Actor r) at_)) ≫= k)).
Proof.
  intros He Hp Hs Hd. split_and!.
  - eexists. split; [reflexivity|]. unfold classify_unobserved. cbn [as_protocol].
    rewrite Hs. cbn -[call lift]. by rewrite He.
  - eexists. unfold pre_send_unavailable. cbn [as_protocol]. reflexivity.
  - eexists _, _. split; [reflexivity|]. unfold pre_send_unavailable. cbn [as_protocol]. rewrite Hp. reflexivity.
  - eexists. unfold classify_unobserved. cbn [as_protocol]. rewrite Hs, Hd. reflexivity.
Qed.
End Absence.

Definition bound_execution : RecoveryExecution :=
  mkRecoveryExecution "disp" "pair" "t1" "c1" "a1" "sess" "gen-1" "DISPATCHED" "DISPATCH_BOUND" None.
Definition absent_session : api_error :=
  mkAPIError 404 "not_found" "SESSION_NOT_FOUND" "session not found" "" [] "".
Definition bare_404 : protocol_error :=
  mkProtocolError 404 "GET" "/api/v1/sessions/sess" "malformed or non-conforming AO error envelope".
Lemma absence_told_two_ways_witness :
  exists m, fails_attempt "t1" "a1" m /\
    classify_unobserved (mkRunner (Some 0) true true true true true false 1 1 "r") bound_execution "i"
      (APIError absent_session) = lift (call m).
Proof.
  destruct (absence_told_two_ways (mkRunner (Some 0) true true true true true false 1 1 "r") bound_execution "i" "a"
              absent_session bare_404 eq_refl eq_refl eq_refl eq_refl) as (H & _). exact H.
Defined.

(** A RUNNING_ATTEMPT_STOP that names a restore skips the operator boundary that
    would set its principal, and then dereferences it. *)
Lemma linked_running_stop_panics {L : GoLib} c stop timeout :
  is_some (sc_Store c) = true -> sc_AO c = true -> (0 < sc_KillTimeout c)%Z ->
  so_OperationID stop <> ""%string -> so_PairID stop <> ""%string -> so_SessionID stop <> ""%string ->
  so_TerminalGeneration stop <> ""%string -> so_RequestedAt stop <> 0%Z ->
  so_Purpose stop = RunningAttemptStop -> is_some (so_RestoreOperationID stop) = true ->
  so_RestorePrincipal stop = None ->
  StopCoordinator.start c stop timeout = Fail (NewError "panic: nil pointer dereference").
Proof.
  intros H1 H2 H3 H4 H5 H6 H7 H8 H9 H10 H11. unfold StopCoordinator.start.
  destruct (sc_Store c); [|done]. rewrite H2.
  apply eqb_false in H4, H5, H6, H7. apply Z.eqb_neq in H8.
  replace (sc_KillTimeout c <=? 0)%Z with false by lia. rewrite H4, H5, H6, H7, H8. cbn -[authorize_cleanup].
  assert (forall s, so_Purpose s = RunningAttemptStop -> is_some (so_RestoreOperationID s) = true ->
            so_RestorePrincipal s = None -> (s0 ← authorize_cleanup c s;
            observations ← claim_observation s0; reserve s0 observations;; observe_and_kill c s0 timeout)
            = Fail (NewError "panic: nil pointer dereference")) as Hgen.
  { intros [] P1 P2 P3. unfold authorize_cleanup, claim_observation, reserve. cbn in *. subst.
    by destruct so_RestoreOperationID. }
  destruct (so_Actor stop == ""); by apply Hgen.
Qed.
