(* ===== verification/Effects.v ===== *)
(** * Effects: the supervisor and its world

    A [world] is a store shared by any number of running programs, each a
    coordinator or recovery entry point of [request].  A step starts a
    program, makes the next call of one, lets another client of the store
    write, or crashes the process, which drops every program and keeps the
    store.  The daemon, the host and the clock may answer anything. *)

From stdpp Require Import relations.
From S2P Require Import Prelude.
From S2P Require Import Domain.
From S2P Require Import GoLib.
From S2P Require Import Db.
From S2P Require Import Tx.
From S2P Require Import StopStore.
From S2P Require Import RestoreStore.
From S2P Require Import Lifecycle.
From S2P Require Import Clearance.
From S2P Require Import Protocol.
From S2P Require Import Invariants.
From S2P Require Import System.
From S2P Require Import GoErr.
From S2P Require Import AoClient.
From S2P Require Import Agent.
From S2P Require Import Intents.
From S2P Require Import DispatchCoordinator.
From S2P Require Import StopCoordinator.
From S2P Require Import Recovery.
From S2P Require Import Quiet.
From S2P Require Import Avoids.
From S2P Require Import Outcomes.
From S2P Require Import Sample.

(** The entry points of internal/dispatch, internal/stop and internal/recovery. *)
Inductive request : Type :=
| RqProvision (c : Coordinator) (operation : PairProvisioningOperation) (projectID harness actor : string)
| RqRestore (c : Coordinator) (reservation : RestoreReservation)
| RqResolveRestore (c : Coordinator) (id pairID session generation actor : string)
| RqResolveAmbiguous (c : Coordinator) (id pairID session generation : string)
    (basis : RestoreResolutionBasis) (evidence actor : string)
| RqClaimRestoreCleanup (c : Coordinator) (stop : StopOperation) (actor : string)
| RqClaimRestoreRecovery (c : Coordinator) (id pairID session generation actor : string)
| RqDispatch (c : Coordinator) (fuel : nat)
    (task contract attemptID id session generation path message actor : string)
| RqRecoverPreSend (c : Coordinator)
    (attemptID id disposition pairID session generation actor : string)
| RqObserve (c : StopCoordinator) (id : string)
| RqStart (c : StopCoordinator) (stop : StopOperation)
| RqStartTimeout (c : StopCoordinator) (stop : StopOperation)
| RqClearQuarantine (c : StopCoordinator) (clearance : QuarantineClearance)
| RqAcceptRisk (c : StopCoordinator) (decision : AdministrativeStopDecision)
| RqRun (r : Runner) (running : bool)
| RqBindLegacyBudget (r : Runner) (running : bool) (attemptID evidence : string)
    (policy : ExecutionBudgetPolicy)
| RqStopLegacy (r : Runner) (running : bool) (coordinator : StopCoordinator) (stop : StopOperation)
| RqPollOnce (p : PollerConfig) (shutdown ready : bool)
| RqTick (m : TimeoutMonitor) (ready : bool).

(** The calls a request asks for: those of the operation it names, and for a
    tick of the timeout monitor kills under the identifiers it makes up.  The
    startup scan, the poller, the operator paths that resolve or claim a
    restore, clear a quarantine or accept a risk, the observation of a stop and
    the binding of a budget ask for none. *)
Definition acts_for (q : request) (key : effect_key) : bool :=
  match q with
  | RqProvision _ operation _ _ _ => key == KCreate (pp_OperationID operation)
  | RqRestore _ reservation => key == KRestore (rr_OperationID reservation)
  | RqDispatch _ _ _ _ _ id _ _ _ _ _ => key == KSend id
  | RqStart _ stop | RqStartTimeout _ stop | RqStopLegacy _ _ _ stop => key == KStop (so_OperationID stop)
  | RqTick _ _ => match key with KStop id => String.prefix "timeout-" id | _ => false end
  | _ => false
  end.

(** A call made, and its answer. *)
Inductive event : Type :=
| Called {X} (e : eff X) (x : X).
Definition acts (key : effect_key) (ev : event) : bool :=
  match ev with Called e _ => issues e == Some key end.
Definition calls (key : effect_key) (trace : list event) : nat := length (List.filter (acts key) trace).

Record world := mkWorld { w_db : DB; w_threads : list (request * Prog unit); w_trace : list event }.

Section Effects.
Context {L : GoLib} {ST : StoreText}.

Definition program (q : request) : Prog unit :=
  match q with
  | RqProvision c operation projectID harness actor => Provision c operation projectID harness actor
  | RqRestore c reservation => Restore c reservation
  | RqResolveRestore c id pairID session generation actor =>
      ResolveRestore c id pairID session generation actor
  | RqResolveAmbiguous c id pairID session generation basis evidence actor =>
      CoordinatorResolveAmbiguousRestore c id pairID session generation basis evidence actor
  | RqClaimRestoreCleanup c stop actor => ClaimRestoreCleanup c stop actor
  | RqClaimRestoreRecovery c id pairID session generation actor =>
      CoordinatorClaimRestoreRecovery c id pairID session generation actor
  | RqDispatch c fuel task contract attemptID id session generation path message actor =>
      Dispatch c fuel task contract attemptID id session generation path message actor
  | RqRecoverPreSend c attemptID id disposition pairID session generation actor =>
      RecoverPreSend c attemptID id disposition pairID session generation actor
  | RqObserve c id => Observe c id
  | RqStart c stop => Start c stop
  | RqStartTimeout c stop => StartTimeout c stop
  | RqClearQuarantine c clearance => CoordinatorClearQuarantine c clearance
  | RqAcceptRisk c decision => AcceptAdministrativeRisk c decision
  | RqRun r running => Run r running;; mret tt
  | RqBindLegacyBudget r running attemptID evidence policy =>
      BindLegacyBudget r running attemptID evidence policy
  | RqStopLegacy r running coordinator stop => StopLegacyWithoutBudget r running coordinator stop
  | RqPollOnce p shutdown ready => PollOnce p shutdown ready
  | RqTick m ready => Tick m ready
  end.

Inductive world_step (admits : request -> bool) : world -> world -> Prop :=
| step_start q d ts tr :
    admits q = true -> world_step admits (mkWorld d ts tr) (mkWorld d (ts ++ [(q, program q)]) tr)
| step_call {X} i q (e : eff X) k x d d' ts tr :
    ts !! i = Some (q, Do e k) -> runs e d x d' ->
    world_step admits (mkWorld d ts tr) (mkWorld d' (<[i := (q, k x)]> ts) (tr ++ [Called e x]))
| step_write d d' ts tr :
    step d d' -> world_step admits (mkWorld d ts tr) (mkWorld d' ts tr)
| step_crash d ts tr : world_step admits (mkWorld d ts tr) (mkWorld d [] tr).

(** A store as reachable, and no program running. *)
Definition boots (w : world) : Prop := store_inv (w_db w) /\ w_threads w = [] /\ w_trace w = [].
Definition world_run (admits : request -> bool) : world -> world -> Prop := rtc (world_step admits).

(** ** Every program is guarded *)
Lemma guarded_program key q : guarded key false (program q).
Proof.
  destruct q; cbn [program]; first
    [ apply guarded_Provision | apply guarded_Restore | apply guarded_Dispatch | apply guarded_Start
    | apply guarded_StartTimeout | apply guarded_Tick | apply guarded_BindLegacy | apply guarded_StopLegacy | apply quiet_guarded ].
  all: first [ apply quiet_ResolveRestore | apply quiet_ResolveAmbiguous | apply quiet_ClaimRestoreCleanup
             | apply quiet_ClaimRestoreRecovery | apply quiet_RecoverPreSend | apply quiet_Observe
             | apply quiet_ClearQuarantine | apply quiet_AcceptAdministrativeRisk
             | apply quiet_PollOnce | apply quiet_bind; [apply quiet_Run|done] ].
Qed.
Lemma prefix_append p s : String.prefix p (p +:+ s) = true.
Proof.
  induction p as [|a p IH]; [by destruct s|]. rewrite append_cons. cbn.
  by destruct (ascii_dec a a).
Qed.
Lemma not_timeout key :
  match key with KStop id => String.prefix "timeout-" id | _ => false end = false ->
  forall hex, key <> KStop ("timeout-" +:+ hex).
Proof.
  intros Hk hex ->. change (String.prefix "timeout-" ("timeout-" +:+ hex) = false) in Hk.
  by rewrite prefix_append in Hk.
Qed.
Lemma avoids_program key q : acts_for q key = false -> avoids key (program q).
Proof.
  intros Hq. destruct q; cbn [acts_for] in Hq; cbn [program]; 
    try (match type of Hq with (_ == _) = _ => apply eqb_false in Hq end); first
    [ by apply avoids_Provision | by apply avoids_Restore | by apply avoids_Dispatch | by apply avoids_Start
    | by apply avoids_StartTimeout | apply avoids_BindLegacyBudget | by apply avoids_StopLegacyWithoutBudget
    | apply avoids_Tick; exact (not_timeout key Hq) | apply quiet_avoids ].
  all: first [ apply quiet_ResolveRestore | apply quiet_ResolveAmbiguous | apply quiet_ClaimRestoreCleanup
             | apply quiet_ClaimRestoreRecovery | apply quiet_RecoverPreSend | apply quiet_Observe
             | apply quiet_ClearQuarantine | apply quiet_AcceptAdministrativeRisk
             | apply quiet_PollOnce | apply quiet_bind; [apply quiet_Run|done] ].
Qed.

(** ** The permits *)

(** At most one running program holds the permit for [key], and only when the
    intent is recorded and the call has not been made. *)
Definition permits (bits : list bool) : nat := length (List.filter (fun b => b) bits).
Definition balanced (key : effect_key) (w : world) : Prop :=
  store_inv (w_db w) /\
  exists bits, Forall2 (fun b qp => guarded key b (snd qp)) bits (w_threads w) /\
    calls key (w_trace w) + permits bits <= (if spent key (w_db w) then 1 else 0).

Lemma calls_snoc key tr ev : calls key (tr ++ [ev]) = calls key tr + (if acts key ev then 1 else 0).
Proof.
  unfold calls. rewrite List.filter_app, length_app. cbn. by destruct (acts key ev).
Qed.
Lemma permits_app l l' : permits (l ++ l') = permits l + permits l'.
Proof. unfold permits. by rewrite List.filter_app, length_app. Qed.
Lemma permits_insert (i : nat) (b c : bool) (bits : list bool) :
  bits !! i = Some b ->
  permits (<[i := c]> bits) + (if b then 1 else 0) = permits bits + (if c then 1 else 0).
Proof.
  revert i. induction bits as [|a bits IH]; intros [|i] Hi; try done.
  - injection Hi as ->. destruct b, c; cbn; lia.
  - specialize (IH i Hi). change (<[S i := c]> (a :: bits)) with (a :: <[i := c]> bits).
    unfold permits in *. cbn [List.filter]. destruct a; cbn [length]; lia.
Qed.

Lemma balanced_step key w w' : world_step (fun _ => true) w w' -> balanced key w -> balanced key w'.
Proof.
  intros [q d ts tr _|X i q e k x d d' ts tr Hi Hr|d d' ts tr Hs|d ts tr] (Hinv & bits & Hg & Hle);
    unfold balanced; cbn [w_db w_threads w_trace] in *.
  - split; [done|]. exists (bits ++ [false]). split.
    + apply Forall2_app; [done|]. constructor; [apply guarded_program|constructor].
    + rewrite permits_app. change (permits [false]) with 0. lia.
  - destruct (Forall2_lookup_r _ _ _ _ _ Hg Hi) as (b & Hb & Hi' & Hk).
    destruct (Hk _ _ _ Hinv Hr) as [Hp Hn]. split; [by eapply protos_inv|].
    exists (<[i := next key e b d d']> bits). split; [by apply Forall2_insert|].
    rewrite calls_snoc. pose proof (permits_insert i b (next key e b d d') bits Hb) as Hc.
    pose proof (spent_mono key _ _ _ Hp) as Hm. unfold acts, next in *.
    destruct (issues e == Some key) eqn:E.
    + apply (proj1 (eqb_true _ _)) in E. rewrite (Hi' E) in *.
      destruct (spent key d) eqn:Es; [rewrite Hm by done; lia|cbn in *; lia].
    + destruct b; cbn in *.
      * destruct (spent key d) eqn:Es; [rewrite Hm by done; lia|lia].
      * destruct (spent key d) eqn:Es; cbn in *; [rewrite Hm by done; lia|].
        destruct (spent key d'); lia.
  - pose proof (step_protos _ _ Hs) as Hp. split; [by eapply protos_inv|]. exists bits. split; [done|].
    pose proof (spent_mono key _ _ _ Hp) as Hm. destruct (spent key d); [by rewrite Hm|lia].
  - split; [done|]. exists []. split; [constructor|]. change (permits []) with 0. lia.
Qed.
Lemma balanced_boots key w : boots w -> balanced key w.
Proof.
  destruct w as [d ts tr]. intros (Hinv & E1 & E2). cbn in *. subst. split; [done|]. exists [].
  split; [constructor|]. cbn. lia.
Qed.

(** C2: however the programs of the supervisor are started, interleaved with
    each other and with other writers, and killed by crashes, and whatever the
    daemon answers, each create, restore, send and kill is made at most once
    for its durable operation, and only after its intent has been committed:
    no call when no intent is on record. *)
Theorem effects_at_most_once key w w' :
  boots w -> world_run (fun _ => true) w w' ->
  calls key (w_trace w') <= (if spent key (w_db w') then 1 else 0).
Proof.
  intros Hb Hrun.
  assert (balanced key w') as (_ & bits & _ & Hle); [|lia].
  revert Hb. intros Hb%(balanced_boots key). clear - Hb Hrun.
  induction Hrun as [|w1 w2 w3 Hs _ IH]; [done|]. apply IH. by eapply balanced_step.
Qed.

(** ** Nil means done *)

(** What a request that returned nil has left in the store. *)
Definition promised (q : request) (d : DB) : Prop :=
  match q with
  | RqDispatch _ _ _ _ _ id _ _ _ _ _ => confirmed_send id d
  | RqRestore _ reservation => confirmed_restore (rr_OperationID reservation) d
  | _ => True
  end.
Lemma ensures_program q d : ensures (program q) (fun _ => promised q) d.
Proof.
  destruct q; cbn [program promised]; try (by apply ensures_any).
  - apply restore_success_is_durable.
  - apply dispatch_success_is_durable.
Qed.

Definition bound_to (d : DB) (qp : request * Prog unit) : Prop :=
  (exists b, guarded (KSend "") b (snd qp)) /\ ensures (snd qp) (fun _ => promised (fst qp)) d.
Definition faithful (w : world) : Prop := store_inv (w_db w) /\ Forall (bound_to (w_db w)) (w_threads w).

Lemma bound_later d d' qp : protos true d d' -> bound_to d qp -> bound_to d' qp.
Proof. intros Hp [Hg He]. split; [done|]. by eapply ensures_later. Qed.
Lemma faithful_step w w' : world_step (fun _ => true) w w' -> faithful w -> faithful w'.
Proof.
  intros [q d ts tr _|X i q e k x d d' ts tr Hi Hr|d d' ts tr Hs|d ts tr] (Hinv & Hf);
    unfold faithful; cbn [w_db w_threads w_trace] in *.
  - split; [done|]. apply Forall_app. split; [done|]. constructor; [|constructor].
    split; [exists false; apply guarded_program|apply ensures_program].
  - destruct (proj1 (Forall_lookup _ _) Hf _ _ Hi) as [(b & _ & Hk) He].
    destruct (Hk _ _ _ Hinv Hr) as [Hp Hn]. split; [by eapply protos_inv|].
    apply Forall_insert.
    + eapply List.Forall_impl; [|exact Hf]. intros qp. by apply bound_later.
    + split; [by eexists|]. eapply He; [reflexivity|done|exact Hr].
  - pose proof (step_protos _ _ Hs) as Hp. split; [by eapply protos_inv|].
    eapply List.Forall_impl; [|exact Hf]. intros qp. by apply bound_later.
  - by split.
Qed.

(** C11: a request that has returned nil has done its work: in every world the
    supervisor can reach, a [Dispatch] that returned nil is SEND_CONFIRMED in
    the store and a [Restore] that returned nil is RESTORE_CONFIRMED, whatever
    the daemon answered and whatever the other clients wrote in between and
    since. *)
Theorem nil_means_done w w' q :
  boots w -> world_run (fun _ => true) w w' -> In (q, Ret tt) (w_threads w') -> promised q (w_db w').
Proof.
  intros (Hinv & E1 & E2) Hrun Hin.
  assert (faithful w) as H0. { destruct w; cbn in *; subst. by split. }
  assert (faithful w') as [_ Hf].
  { clear - Hrun H0. induction Hrun as [|w1 w2 w3 Hs _ IH]; [done|]. apply IH. by eapply faithful_step. }
  rewrite List.Forall_forall in Hf. destruct (Hf _ Hin) as [_ He]. by apply He.
Qed.

(** ** Who acts *)
Definition unasked (key : effect_key) (q : request) : bool := negb (acts_for q key).
Definition spared (key : effect_key) (w : world) : Prop :=
  store_inv (w_db w) /\ Forall (fun qp => avoids key (snd qp)) (w_threads w) /\ calls key (w_trace w) = 0.
Lemma spared_step key w w' : world_step (unasked key) w w' -> spared key w -> spared key w'.
Proof.
  intros [q d ts tr Hq|X i q e k x d d' ts tr Hi Hr|d d' ts tr Hs|d ts tr] (Hinv & Hg & Hc);
    unfold spared in *; cbn [w_db w_threads w_trace] in *.
  - split_and!; [done| |done]. apply Forall_app. split; [done|]. constructor; [|done].
    by apply avoids_program, negb_true_iff.
  - pose proof (proj1 (Forall_lookup _ _) Hg _ _ Hi) as [Hn Hk]. destruct (Hk _ _ _ Hinv Hr) as [Hp Hx].
    split_and!; [by eapply protos_inv|by apply Forall_insert|].
    rewrite calls_snoc, Hc. cbn. by rewrite (proj2 (eqb_false _ _)).
  - split_and!; [|done..]. eapply protos_inv; [by apply step_protos|done].
  - by split_and!.
Qed.

(** C13: nothing is done to a worker unasked: a create, restore, send or kill is
    made for an operation only when a request for that operation was started
    ([acts_for]).  However the others run, beside any other writer of the store
    and across crashes, and whatever they read, the call is not made: so
    startup recovery, the poller, the operator paths and the binding of a
    legacy budget never act on a worker, a manual legacy stop kills for the
    operation it was given only, and the timeout monitor only kills, under
    identifiers of its own. *)
Theorem acts_only_when_asked w w' key :
  boots w -> world_run (fun q => negb (acts_for q key)) w w' -> calls key (w_trace w') = 0.
Proof.
  intros (Hinv & E1 & E2) Hrun.
  assert (spared key w) as H0. { destruct w; cbn in *; subst. by split_and!. }
  enough (spared key w') as (_ & _ & Hc) by apply Hc. clear - Hrun H0.
  induction Hrun as [|w1 w2 w3 Hs _ IH]; [done|]. apply IH. by eapply spared_step.
Qed.
End Effects.

(** ** A world that answers *)

(** The store in the calm environment, and a daemon where everything works: the
    session is idle, and every acting call succeeds. *)
Definition idle_worker (generation : string) : WorkerStatus :=
  mkWorkerStatus "sess" "proj" "running" "Running" false ActivityStateIdle 0 "agent" "" "" generation "".
Definition answer {X} (e : eff X) (generation : string) : St -> X * St :=
  match e in eff X return St -> X * St with
  | EStore m => m calm
  | ECreateWorkerSession _ _ _ =>
      fun s => (inr (Some (mkCreateWorkerSessionResult (idle_worker generation) 0 0)), s)
  | EResumeWorker _ session =>
      fun s => (inr (Some (mkResumeWorkerResult session RestoreModeNative (idle_worker "gen-2"))), s)
  | EDispatchTaskContract _ session message => fun s => (inr (Some (mkDispatchTaskResult session message)), s)
  | EStopWorker _ session => fun s => (inr (Some (mkStopWorkerResult session true)), s)
  | EGetWorkerStatus _ => fun s => (inr (Some (idle_worker generation)), s)
  | EVerifiedRestorePrincipal _ _ _ _ => fun s => (inr ("operator"%string, true), s)
  | EHandoffAvailable _ => fun s => (inr false, s)
  | EAcquireEffect _ _ | EAcquireMaintenance _ _ | EAcquire => fun s => (inr true, s)
  | ERelease | EStopPoller | ECtxErr => fun s => (None, s)
  | EInvocationID => fun s => ("invocation"%string, s)
  | ENow => fun s => (env_clock calm (st_tick s), mkSt (st_db s) (S (st_tick s)))
  | ERandom => fun s => (inr "0123456789abcdef"%string, s)
  end.
Lemma answer_runs {X} (e : eff X) generation s :
  runs e (st_db s) (fst (answer e generation s)) (st_db (snd (answer e generation s))).
Proof. destruct s as [d n], e; try done. cbn. exists calm, n. destruct (m calm (mkSt d n)). eauto. Qed.

(** A program run to its end without interruption. *)
Fixpoint exec {A} (generation : string) (p : Prog A) (s : St) (tr : list event)
    : option (gres A) * St * list event :=
  match p with
  | Ret a => (Some (inr a), s, tr)
  | Fail e => (Some (inl e), s, tr)
  | Spin => (None, s, tr)
  | Do e k =>
      let xs := answer e generation s in exec generation (k (fst xs)) (snd xs) (tr ++ [Called e (fst xs)])
  end.

#[export] Instance sample_text : StoreText := fun _ => "store error"%string.

(** Requests served one after the other. *)
Fixpoint serve (generation : string) (qs : list request) (s : St) (tr : list event)
    : list (option (gres unit)) * St * list event :=
  match qs with
  | [] => ([], s, tr)
  | q :: qs =>
      let '(r, s', tr') := exec generation (program q) s tr in
      let '(rs, s'', tr'') := serve generation qs s' tr' in (r :: rs, s'', tr'')
  end.

Definition finished (r : option (gres unit)) : Prog unit :=
  match r with Some (inr a) => Ret a | Some (inl e) => Fail e | None => Spin end.
Lemma exec_run admits generation (p : Prog unit) (i : nat) :
  forall q s tr (ts : list (request * Prog unit)),
  ts !! i = Some (q, p) ->
  let out := exec generation p s tr in
  exists ts', world_run admits (mkWorld (st_db s) ts tr) (mkWorld (st_db (snd (fst out))) ts' (snd out)) /\
    ts' !! i = Some (q, finished (fst (fst out))).
Proof.
  induction p as [a|e| |X e k IH]; intros q s tr ts Hi; cbn.
  1-3: exists ts; split; [apply rtc_refl|done].
  destruct (IH (fst (answer e generation s)) q (snd (answer e generation s))
              (tr ++ [Called e (fst (answer e generation s))])
              (<[i := (q, k (fst (answer e generation s)))]> ts)) as (ts' & Hr & Hf).
  { apply list_lookup_insert_eq. by eapply lookup_lt_Some. }
  exists ts'. split; [|done]. eapply rtc_l; [|exact Hr]. by eapply step_call; [|apply answer_runs].
Qed.
Lemma serve_run admits generation qs : forallb admits qs = true -> forall s tr ts,
  let out := serve generation qs s tr in
  exists ts', world_run admits (mkWorld (st_db s) ts tr) (mkWorld (st_db (snd (fst out))) ts' (snd out)).
Proof.
  induction qs as [|q qs IH]; cbn; intros Hq s tr ts; [exists ts; apply rtc_refl|].
  apply andb_true_iff in Hq as [Hq Hqs].
  destruct (exec_run admits generation (program q) (length ts) q s tr (ts ++ [(q, program q)])) as (ts1 & H1 & _).
  { by rewrite lookup_app_r, Nat.sub_diag by lia. }
  destruct (exec generation (program q) s tr) as [[r s'] tr']. cbn in H1.
  destruct (IH Hqs s' tr' ts1) as (ts2 & H2). destruct (serve generation qs s' tr') as [[rs s''] tr''].
  exists ts2. eapply rtc_l; [by apply step_start|]. by etransitivity.
Qed.

(** ** Two dispatches of one operation *)
Definition sample_coordinator : Coordinator := mkCoordinator true true true true policy.
Definition dispatch_request : request :=
  RqDispatch sample_coordinator 3 "t1" "c1" "a1" "disp" "sess" "gen-1" ".supervisor/reports/t1/a1.json"
    "do it" "actor".
Definition twice : list (option (gres unit)) * St * list event :=
  serve "gen-1" [dispatch_request; dispatch_request] (play setup Sample.start) [].
Example twice_results :
  fst (fst twice) = [Some (inr tt);
    Some (inl (NewError "dispatch: current open attempt/operation does not match retry request"))].
Proof. vm_compute. reflexivity. Qed.
Lemma boots_after ops : Forall op_int64 ops -> boots (mkWorld (after ops) [] []).
Proof. intros H. split; [|done]. by apply reachable_inv, after_reachable. Qed.

Lemma twice_run : exists ts,
  world_run (fun _ => true) (mkWorld (after setup) [] []) (mkWorld (st_db (snd (fst twice))) ts (snd twice)).
Proof.
  destruct (serve_run (fun _ => true) "gen-1" [dispatch_request; dispatch_request] eq_refl
              (play setup Sample.start) [] []) as (ts & Hr).
  exists ts. exact Hr.
Qed.
Lemma effects_at_most_once_witness :
  calls (KSend "disp") (snd twice) = 1 /\ exists w,
  calls (KSend "disp") (w_trace w) <= (if spent (KSend "disp") (w_db w) then 1 else 0).
Proof.
  split; [vm_compute; reflexivity|]. destruct twice_run as (ts & Hr).
  eexists. refine (effects_at_most_once (KSend "disp") _ _ _ Hr). apply boots_after. int64s.
Defined.

Lemma nil_means_done_witness : exists d, confirmed_send "disp" d.
Proof.
  destruct (exec_run (fun _ => true) "gen-1" (program dispatch_request) 0 dispatch_request
              (play setup Sample.start) [] [(dispatch_request, program dispatch_request)] eq_refl)
    as (ts & Hr & Hf).
  assert (fst (fst (exec "gen-1" (program dispatch_request) (play setup Sample.start) []))
          = Some (inr tt)) as Hn by (vm_compute; reflexivity).
  rewrite Hn in Hf. eexists. refine (nil_means_done (mkWorld (after setup) [] []) _ dispatch_request _ _ _).
  - apply boots_after. int64s.
  - eapply rtc_l; [by apply (step_start _ dispatch_request)|exact Hr].
  - apply list_elem_of_In. eapply list_elem_of_lookup_2. exact Hf.
Defined.

(** ** A restart after a send whose answer was lost *)
Definition sample_runner : Runner :=
  mkRunner (Some 0) true true true true true false 1000 1000 "recovery".
Definition sample_monitor : TimeoutMonitor :=
  mkTimeoutMonitor sample_runner (mkStopCoordinator (Some 0) true true true 1000) 1000 "monitor".
Definition restart_requests : list request :=
  [RqRun sample_runner false; RqStopLegacy sample_runner false (tm_Stop sample_monitor) stop_request;
   RqTick sample_monitor true].
Definition restarted : list (option (gres unit)) * St * list event :=
  serve "gen-1" restart_requests (play sent Sample.start) [].
Example restarted_task :
  map t_State (tasks (st_db (snd (fst restarted)))) = [StateHumanRequired; StateReady].
Proof. vm_compute. reflexivity. Qed.

Lemma restarted_run key : forallb (fun q => negb (acts_for q key)) restart_requests = true -> exists ts,
  world_run (fun q => negb (acts_for q key)) (mkWorld (after sent) [] [])
    (mkWorld (st_db (snd (fst restarted))) ts (snd restarted)).
Proof.
  intros Hq. destruct (serve_run (fun q => negb (acts_for q key)) "gen-1" restart_requests Hq
                         (play sent Sample.start) [] []) as (ts & Hr).
  exists ts. exact Hr.
Qed.
Lemma acts_only_when_asked_witness :
  length (snd restarted) <> 0 /\ exists w,
  calls (KSend "disp") (w_trace w) = 0.
Proof.
  split; [vm_compute; lia|]. destruct (restarted_run (KSend "disp") eq_refl) as (ts & Hr).
  eexists. refine (acts_only_when_asked _ _ (KSend "disp") _ Hr). apply boots_after. int64s.
Defined.
