(* ===== verification/Returns.v ===== *)
(** * Returns: every entry point comes to an end

    The programs of the coordinators and of the recovery code are finite trees
    except for one loop: [containAmbiguousSend] reads the audit log page by page
    until a page is not full, and the log may grow while it reads.  [settles B]
    says that a program returns whatever is answered to its calls, and whatever
    runs between them, as long as every store it meets is reachable and its
    audit log has at most [B] records; fuel for the pages of [B] records is then
    enough. *)

From S2P Require Import Prelude.
From S2P Require Import Domain.
From S2P Require Import GoLib.
From S2P Require Import Db.
From S2P Require Import Tx.
From S2P Require Import AuditLog.
From S2P Require Import TaskStore.
From S2P Require Import Lifecycle.
From S2P Require Import DispatchStore.
From S2P Require Import StopStore.
From S2P Require Import RestoreStore.
From S2P Require Import RecoveryStore.
From S2P Require Import Clearance.
From S2P Require Import Protocol.
From S2P Require Import Invariants.
From S2P Require Import System.
From S2P Require Import Guarantees.
From S2P Require Import Sample.
From S2P Require Import GoErr.
From S2P Require Import AoClient.
From S2P Require Import Agent.
From S2P Require Import DispatchCoordinator.
From S2P Require Import StopCoordinator.
From S2P Require Import Recovery.
From S2P Require Import Effects.

(** ** The pages of a chain *)
Section Pages.
Context {L : GoLib}.

Lemma verify_rows_sequence s p l q h :
  verify_rows s p l = Some (q, h) -> is_int64 s -> (s + Z.of_nat (length l) <= max_int64)%Z ->
  forall i r, l !! i = Some r -> e_sequence r = (s + Z.of_nat i)%Z.
Proof.
  revert s p. induction l as [|x l IH]; intros s p; [done|]. cbn [verify_rows length].
  repeat (case_match; [done|]). breflect. intros Hv Hs Hl i r.
  assert (wrap64 (s + 1) = s + 1)%Z as Hw by (apply wrap64_id; unfold is_int64 in *; lia).
  rewrite Hw in Hv. destruct i as [|i]; cbn; [intros [= <-]; lia|]. intros Hi.
  rewrite (IH _ _ Hv ltac:(unfold is_int64 in *; lia) ltac:(lia) i r Hi). lia.
Qed.

(** The rows after the [n]-th, of a table whose [i]-th row has sequence [i + 1]. *)
Lemma select_after l (k n : nat) :
  (forall i r, l !! i = Some r -> e_sequence r = (Z.of_nat k + 1 + Z.of_nat i)%Z) -> k <= n ->
  select (fun e => (Z.of_nat n <? e_sequence e)%Z) l = drop (n - k) l.
Proof.
  unfold select. revert k. induction l as [|x l IH]; intros k Hl Hk; cbn; [by rewrite drop_nil|].
  pose proof (Hl 0 x eq_refl) as Hx. cbn in Hx.
  assert (forall i r, l !! i = Some r -> e_sequence r = (Z.of_nat (S k) + 1 + Z.of_nat i)%Z) as Hl'.
  { intros i r Hi. rewrite (Hl (S i) r Hi). lia. }
  destruct (decide (n = k)) as [->|Hne].
  - replace (Z.of_nat k <? e_sequence x)%Z with true by lia. rewrite Nat.sub_diag. cbn. f_equal.
    clear -Hl'. revert k Hl'. induction l as [|y l IH]; intros k Hl; cbn; [done|].
    pose proof (Hl 0 y eq_refl) as Hy. cbn in Hy. replace (Z.of_nat k <? e_sequence y)%Z with true by lia.
    f_equal. erewrite List.filter_ext_in; [apply (IH (S k))|].
    + intros i r Hi. rewrite (Hl (S i) r Hi). lia.
    + intros r Hr. apply list_elem_of_In, list_elem_of_lookup in Hr as [i Hi].
      specialize (Hl (S i) r Hi). transitivity true; [|symmetry]; apply Z.ltb_lt; lia.
  - replace (Z.of_nat n <? e_sequence x)%Z with false by lia.
    replace (n - k) with (S (n - S k)) by lia. cbn. apply IH; [done|lia].
Qed.

Lemma last_sequence_of_page (recs : list (AuditRow * list (string * value))) after r :
  map fst recs !! (length (map fst recs) - 1) = Some r ->
  fold_left (fun _ event => e_sequence (fst event)) recs after = e_sequence r.
Proof.
  revert after. induction recs as [|x [|y recs] IH]; intros after; [done|by intros [= <-]|].
  intros H. apply (IH (e_sequence (fst x))). rewrite <- H. cbn [map length].
  replace (S (S (length (map fst recs))) - 1) with (S (S (length (map fst recs)) - 1)) by lia. done.
Qed.

Lemma decode_rows_fst rows recs : decode_rows rows = Some recs -> map fst recs = rows.
Proof.
  revert recs. induction rows as [|r rows IH]; intros recs; cbn; [by intros [= <-]|].
  unfold record_of_row. destruct (decode_details _); [|done].
  destruct (decode_rows rows); [|done]. intros [= <-]. cbn. f_equal. by apply IH.
Qed.

Lemma ordered_drop {A} (le : A -> A -> bool) n l : ordered le l = true -> ordered le (drop n l) = true.
Proof.
  revert l. induction n as [|n IH]; intros [|x l]; try done. cbn. intros [_ Ho]%andb_true_iff. by apply IH.
Qed.

Lemma list_rows_page d (after : Z) :
  Chain d -> log_small d -> (0 <= after)%Z ->
  list_rows after MaxAuditLimit d = take 500 (drop (Z.to_nat after) (audit_events d)).
Proof.
  intros [_ Hv] Hs Ha. unfold log_small in Hs. unfold list_rows.
  replace (after <? 0)%Z with false by lia.
  pose proof (verify_rows_sequence _ _ _ _ _ Hv ltac:(done) ltac:(lia)) as Hseq.
  destruct (verify_rows_seq _ _ _ _ _ Hv ltac:(done) ltac:(lia)) as [_ Ho].
  change (Z.to_nat MaxAuditLimit) with 500. f_equal.
  pose proof (select_after (audit_events d) 0 (Z.to_nat after) Hseq ltac:(lia)) as Hsel.
  rewrite Z2Nat.id, Nat.sub_0_r in Hsel by done. rewrite Hsel. by apply sort_by_ordered, ordered_drop.
Qed.

(** A full page moves on by [MaxAuditLimit] records of the log. *)
Lemma page_advances d (after : Z) recs :
  Chain d -> log_small d -> (0 <= after)%Z ->
  decode_rows (list_rows after MaxAuditLimit d) = Some recs ->
  (MaxAuditLimit <= Z.of_nat (length recs))%Z ->
  let after' := fold_left (fun _ event => e_sequence (fst event)) recs after in
  (after' = after + MaxAuditLimit /\ after' <= Z.of_nat (length (audit_events d)))%Z.
Proof.
  intros Hc Hs Ha Hd Hfull. cbv zeta. apply decode_rows_fst in Hd.
  rewrite <- (length_map fst), Hd in Hfull.
  rewrite (list_rows_page d after Hc Hs Ha) in *. rewrite length_take, length_drop in Hfull.
  change MaxAuditLimit with 500%Z in *. set (l := audit_events d) in *.
  destruct (lookup_lt_is_Some_2 l (Z.to_nat after + 499)) as [r Hr]; [lia|].
  rewrite (last_sequence_of_page recs after r).
  2: { rewrite Hd, length_take, length_drop.
       replace (500 `min` (length l - Z.to_nat after) - 1) with 499 by lia.
       by rewrite lookup_take_lt, lookup_drop by lia. }
  destruct Hc as [_ Hv]. unfold log_small in Hs.
  rewrite (verify_rows_sequence _ _ _ _ _ Hv ltac:(done) ltac:(lia) _ _ Hr). lia.
Qed.
End Pages.

(** ** Programs that return *)
Section Settles.
Context {L : GoLib} {ST : StoreText} (B : Z).

(** The stores the programs meet. *)
Definition met (d : DB) : Prop := reachable d /\ (Z.of_nat (length (audit_events d)) <= B < max_int64)%Z.

Fixpoint settles {A} (p : Prog A) : Prop :=
  match p with
  | Ret _ | Fail _ => True
  | Spin => False
  | Do e k => forall d x d', met d -> runs e d x d' -> settles (k x)
  end.

Lemma settles_bind {A C} (p : Prog A) (k : A -> Prog C) :
  settles p -> (forall a, settles (k a)) -> settles (p ≫= k).
Proof.
  induction p as [a|e| |X e f IH]; intros Hp Hk; try done; [exact (Hk a)|].
  intros d x d' Hd Hr. apply IH; [by eapply Hp|done].
Qed.
Lemma settles_attempt {A} (p : Prog A) : settles p -> settles (attempt p).
Proof.
  induction p as [a|e| |X e f IH]; intros Hp; try done. intros d x d' Hd Hr. apply IH. by eapply Hp.
Qed.
Lemma settles_do {X A} (e : eff X) (k : X -> Prog A) : (forall x, settles (k x)) -> settles (Do e k).
Proof. intros Hk d x d' _ _. apply Hk. Qed.
Lemma settles_demand {A} (r : gres A) : settles (demand r).
Proof. by destruct r. Qed.
Lemma settles_call {A} (m : M A) : settles (call m).
Proof. apply settles_do. intros r. apply settles_demand. Qed.
Lemma settles_ask_ok {A} (e : eff (gres A)) : settles (ask_ok e).
Proof. apply settles_do. intros r. apply settles_demand. Qed.
Lemma settles_when c e : settles (when_ c e).
Proof. by destruct c. Qed.
Lemma settles_ctx : settles ctx_check.
Proof. apply settles_do. by intros [|]. Qed.

(** The loop over the audit log. *)
Lemma listed_page d recs after x d' :
  runs (EStore (ListAuditEvents after MaxAuditLimit)) d x d' -> x = Ok recs ->
  decode_rows (list_rows after MaxAuditLimit d) = Some recs.
Proof.
  intros (env & n & s' & Hr & _) ->. revert Hr. unfold ListAuditEvents, query, query_res, mbind, M_bind. cbn.
  destruct (io_result _ _) as [rows|e] eqn:E; [|done].
  destruct (env_io env n); cbn in E; try done; injection E as <-.
  all: destruct (decode_rows _); [by intros [= <-]|done].
Qed.

Lemma settles_scan_audit fuel operationID op : forall after found,
  (0 <= after <= B)%Z -> (B - after < MaxAuditLimit * Z.of_nat fuel)%Z ->
  settles (scan_audit fuel operationID op after found).
Proof.
  induction fuel as [|fuel IH]; intros after found Ha Hb; [lia|]. cbn [scan_audit].
  intros d x d' [Hd Hl] Hr. destruct x as [recs|e]; [|done]. cbn.
  pose proof (listed_page _ _ _ _ _ Hr eq_refl) as Hrows.
  destruct (Z.of_nat (length recs) <? MaxAuditLimit)%Z eqn:E; [done|]. apply Z.ltb_ge in E.
  assert (log_small d) as Hs by (unfold log_small; lia).
  destruct (page_advances d after recs (reachable_chain d Hd Hs) Hs ltac:(lia) Hrows E) as [Ha' Hle].
  change MaxAuditLimit with 500%Z in *. apply IH; rewrite Ha' in *; lia.
Qed.

(** *** The other programs have no loop of their own *)
Definition rm_settles {A} (m : RM A) : Prop := forall report, settles (m report).
Lemma rm_settles_bind {A C} (m : RM A) (k : A -> RM C) :
  rm_settles m -> (forall a, rm_settles (k a)) -> rm_settles (m ≫= k).
Proof.
  intros Hm Hk report. apply settles_bind; [apply Hm|]. intros [report' [e|a]]; [done|apply Hk].
Qed.
Lemma rm_settles_lift {A} (p : Prog A) : settles p -> rm_settles (lift p).
Proof. intros Hp report. apply settles_bind; [by apply settles_attempt|]. done. Qed.
Lemma rm_settles_catch {A} (m : RM A) : rm_settles m -> rm_settles (catch m).
Proof. intros Hm report. apply settles_bind; [apply Hm|]. done. Qed.
Lemma rm_settles_for_each {A} (l : list A) body :
  (forall x, rm_settles (body x)) -> rm_settles (for_each l body).
Proof. intros Hb. induction l as [|x l IH]; [done|]. cbn [for_each]. by apply rm_settles_bind. Qed.

(** [settle] walks through a program; a function without a rule is unfolded. *)
Ltac head t := lazymatch t with ?f _ => head f | _ => t end.
Ltac settle_step :=
  lazymatch goal with
  | |- forall _, _ => intros ?
  | |- settles (mbind _ _) => apply settles_bind
  | |- settles (call _) => apply settles_call
  | |- settles (try_call _) => apply settles_do; intros ?; exact I
  | |- settles (attempt _) => apply settles_attempt
  | |- settles (when_ _ _) => apply settles_when
  | |- settles ctx_check => apply settles_ctx
  | |- settles now => apply settles_do; intros ?; exact I
  | |- settles (ask _) => apply settles_do; intros ?; exact I
  | |- settles (ask_ok _) => apply settles_ask_ok
  | |- settles (demand _) => apply settles_demand
  | |- settles (mret _) => exact I
  | |- settles (Ret _) => exact I
  | |- settles (Fail _) => exact I
  | |- settles (scan_audit _ _ _ _ _) => apply settles_scan_audit; lia
  | |- settles (let _ := _ in _) => cbv zeta
  | |- settles (if ?c then _ else _) => destruct c
  | |- settles (match ?c with _ => _ end) => destruct c
  | |- settles (match ?c with _ => _ end _) => destruct c
  | |- settles (for_each ?l ?b ?r) =>
      let H := fresh in enough (rm_settles (for_each l b)) as H by apply H
  | |- settles (or_winner ?m ?w ?r) =>
      let H := fresh in enough (rm_settles (or_winner m w)) as H by apply H
  | |- rm_settles (fun _ => _) => intros ?; cbv beta
  | |- rm_settles (mbind _ _) => apply rm_settles_bind
  | |- rm_settles (mret _) => intros ?; exact I
  | |- rm_settles (raise _) => intros ?; exact I
  | |- rm_settles pendingAO => intros ?; exact I
  | |- rm_settles classified => intros ?; exact I
  | |- rm_settles complete => intros ?; exact I
  | |- rm_settles (lift _) => apply rm_settles_lift
  | |- rm_settles (catch _) => apply rm_settles_catch
  | |- rm_settles (for_each _ _) => apply rm_settles_for_each
  | |- rm_settles (let _ := _ in _) => cbv zeta
  | |- rm_settles (if ?c then _ else _) => destruct c
  | |- rm_settles (match ?c with _ => _ end) => destruct c
  | |- rm_settles (match ?c with _ => _ end _) => destruct c
  | |- settles ?p => first [solve [auto] | let h := head p in unfold h]
  | |- rm_settles ?p => first [solve [auto] | let h := head p in unfold h]
  end.
Ltac settle := repeat settle_step.

Lemma settles_Dispatch c fuel taskID contractID attemptID id session generation path message actor :
  (0 <= B < MaxAuditLimit * Z.of_nat fuel)%Z ->
  settles (Dispatch c fuel taskID contractID attemptID id session generation path message actor).
Proof. intros Hf. settle. Qed.
Lemma settles_Start c stop : settles (Start c stop).
Proof. settle. Qed.
#[local] Hint Resolve settles_Start : core.
Lemma settles_StartTimeout c stop : settles (StartTimeout c stop).
Proof. settle. Qed.
Lemma settles_Run r running : settles (Run r running).
Proof. settle. Qed.
Lemma settles_PollOnce p shutdown ready : settles (PollOnce p shutdown ready).
Proof. settle. Qed.
#[local] Hint Resolve settles_StartTimeout settles_Run : core.
Lemma settles_each_execution m snapshot l : settles (each_execution m snapshot l).
Proof. induction l as [|x l IH]; cbn [each_execution]; settle. Qed.
#[local] Hint Resolve settles_each_execution : core.

Definition enough_fuel (q : request) : Prop :=
  match q with
  | RqDispatch _ fuel _ _ _ _ _ _ _ _ _ => (0 <= B < MaxAuditLimit * Z.of_nat fuel)%Z
  | _ => True
  end.

(** C12: Every entry point of the coordinators and of the recovery code returns,
    with a value or an error: whatever the daemon, the host and the driver
    answer, and whatever other clients write between its calls, as long as the
    stores it meets are reachable and their audit log has at most [B] records;
    the loop of a dispatch over the pages of the log needs fuel for those pages
    only. *)
Theorem entry_points_return (q : request) : enough_fuel q -> settles (program q).
Proof.
  intros Hf. destruct q; cbn [program]; try solve [settle]. by apply settles_Dispatch.
Qed.
End Settles.

(** A dispatch with one page of fuel, over the logs of less than a page. *)
Definition short_dispatch : request :=
  RqDispatch sample_coordinator 1 "t1" "c1" "a1" "disp" "sess" "gen-1" "path" "message" "actor".
Lemma entry_points_return_witness : settles 499 (program short_dispatch).
Proof.
  assert (enough_fuel 499 short_dispatch) as H by (cbn; unfold MaxAuditLimit; lia).
  exact (entry_points_return 499 short_dispatch H).
Defined.
