(* ===== verification/HostAuthority.v ===== *)
(** * HostAuthority: internal/host, admission, exclusivity and teardown

    [Authority] hands out permits: one per pair, or one for everything.  The
    host is the authority with the permits it has issued, a permit being known
    by its index; every method holds the mutex of the authority from beginning
    to end, so that a method is one step.  [ExecuteShutdownDrain] does not:
    it is a list of tasks whose steps interleave with the callers that still
    hold permits. *)

From stdpp Require Import relations gmap sorting.
From S2P Require Import Prelude.
From S2P Require Import GoErr.

Inductive scope : Type := PairScope (pairID : string) | GlobalScope.
#[export] Instance scope_eq_dec : EqDecision scope.
Proof. solve_decision. Defined.

Record scopePermit := mkscopePermit { sp_scope : scope; sp_released : bool }.

(** [activeOps] is the counter of the WaitGroup. *)
Record Authority := mkAuthority {
  pairLocks : gmap string string; globalLocked : bool; globalOwner : string; activeOps : Z;
  draining : bool; principal : string; automaticRestore : bool }.
#[export] Instance Authority_settable : Settable Authority := fun a =>
  mkAuthority (pairLocks a) (globalLocked a) (globalOwner a) (activeOps a) (draining a) (principal a)
    (automaticRestore a).

Record host := mkhost { h_auth : Authority; h_permits : list scopePermit }.

Definition NewAuthority (principal : string) : Authority :=
  mkAuthority ∅ false "" 0 false principal false.
Definition new_host (principal : string) : host := mkhost (NewAuthority principal) [].

Definition Available (h : host) : bool := negb (draining (h_auth h)).
Definition SetUnavailable (h : host) : host :=
  mkhost ((h_auth h) <| draining := true |>) (h_permits h).
Definition AutomaticRestoreEnabled (h : host) : bool := false.
Definition VerifiedRestorePrincipal (taskID contractID pairID caller : string) : gres (string * bool) :=
  inr (""%string, false).

(** The new authority, and a permit for [s]. *)
Definition issue (s : scope) (a : Authority) (h : host) : gres nat * host :=
  (inr (length (h_permits h)), mkhost a (h_permits h ++ [mkscopePermit s false])).

Definition AcquireExclusiveScope (pairID purpose : string) (h : host) : gres nat * host :=
  let a := h_auth h in
  if pairID == "" then (inl (NewError "host: pairID must not be empty"), h)
  else if draining a then (inl (NewError "host: authority is shutting down (draining)"), h)
  else if globalLocked a then
    (inl (NewError ("host: global exclusive scope is currently held by " +:+ globalOwner a)), h)
  else
    match pairLocks a !! pairID with
    | Some existing => (inl (NewError ("host: pair already locked by " +:+ existing)), h)
    | None =>
        issue (PairScope pairID)
          (a <| pairLocks := <[pairID := purpose]> (pairLocks a) |> <| activeOps := (activeOps a + 1)%Z |>) h
    end.

Definition AcquireGlobalExclusiveScope (purpose : string) (h : host) : gres nat * host :=
  let a := h_auth h in
  if draining a then (inl (NewError "host: authority is shutting down (draining)"), h)
  else if globalLocked a then
    (inl (NewError ("host: global exclusive scope already held by " +:+ globalOwner a)), h)
  else if negb (bool_decide (pairLocks a = ∅)) then
    (inl (NewError "host: cannot acquire global scope while pair scopes are active"), h)
  else
    issue GlobalScope
      (a <| globalLocked := true |> <| globalOwner := purpose |> <| activeOps := (activeOps a + 1)%Z |>) h.

Definition Acquire (h : host) : gres nat * host := AcquireGlobalExclusiveScope "RECOVERY_SCAN" h.
Definition AcquireMaintenanceScope (pairID purpose : string) (h : host) : gres nat * host :=
  AcquireExclusiveScope pairID ("MAINTENANCE:" +:+ purpose) h.
Definition AcquireMaintenance (pairID purpose : string) (h : host) : gres nat * host :=
  AcquireMaintenanceScope pairID purpose h.
Definition AcquireEffect (pairID caller : string) (h : host) : gres nat * host :=
  AcquireExclusiveScope pairID ("EFFECT:" +:+ caller) h.

(** [releaseFunc] of a permit for [s]. *)
Definition releaseFunc (s : scope) (a : Authority) : Authority :=
  match s with
  | PairScope pairID =>
      a <| pairLocks := delete pairID (pairLocks a) |> <| activeOps := (activeOps a - 1)%Z |>
  | GlobalScope =>
      a <| globalLocked := false |> <| globalOwner := ""%string |> <| activeOps := (activeOps a - 1)%Z |>
  end.
(** [Release] always returns nil; only the first call on a permit has an effect.
    It holds [s.mu] to its end, [released] is read under [s.mu] only, and what
    other callers can see changes under [a.mu] alone: the call is the step it
    takes there. *)
Definition Release (i : nat) (h : host) : host :=
  match h_permits h !! i with
  | Some p =>
      if sp_released p then h
      else mkhost (releaseFunc (sp_scope p) (h_auth h))
             (<[i := mkscopePermit (sp_scope p) true]> (h_permits h))
  | None => h
  end.

(** The callers of the host. *)
Inductive host_step : host -> host -> Prop :=
| hs_exclusive pairID purpose h : host_step h (snd (AcquireExclusiveScope pairID purpose h))
| hs_global purpose h : host_step h (snd (AcquireGlobalExclusiveScope purpose h))
| hs_release i h : host_step h (Release i h)
| hs_unavailable h : host_step h (SetUnavailable h).
Definition host_run : host -> host -> Prop := rtc host_step.

(** The scopes of the permits not released yet. *)
Definition live (h : host) : list scope :=
  map sp_scope (List.filter (fun p => negb (sp_released p)) (h_permits h)).

#[local] Arguments live : simpl never.

(** ** The invariant *)
Record host_inv (h : host) : Prop := {
  hi_nodup : List.NoDup (live h);
  hi_pair : forall pairID, is_Some (pairLocks (h_auth h) !! pairID) <-> In (PairScope pairID) (live h);
  hi_global : globalLocked (h_auth h) = true <-> In GlobalScope (live h);
  hi_alone : In GlobalScope (live h) -> live h = [GlobalScope];
  hi_count : activeOps (h_auth h) = Z.of_nat (length (live h)) }.

Lemma live_snoc a ps s : live (mkhost a (ps ++ [mkscopePermit s false])) = live (mkhost a ps) ++ [s].
Proof. unfold live. cbn. by rewrite List.filter_app, map_app. Qed.
Lemma live_auth a a' ps : live (mkhost a ps) = live (mkhost a' ps).
Proof. done. Qed.

(** Releasing a permit removes its scope from the live ones. *)
Lemma live_release a (ps : list scopePermit) (i : nat) s :
  ps !! i = Some (mkscopePermit s false) ->
  exists l1 l2, live (mkhost a ps) = l1 ++ s :: l2 /\
    live (mkhost a (<[i := mkscopePermit s true]> ps)) = l1 ++ l2.
Proof.
  revert i. induction ps as [|p ps IH]; intros [|i] Hi; try done.
  - injection Hi as ->. exists [], (live (mkhost a ps)). done.
  - destruct (IH i Hi) as (l1 & l2 & E1 & E2).
    change (<[S i := ?x]> (p :: ps)) with (p :: <[i := x]> ps). unfold live in *. cbn in *.
    destruct (sp_released p); cbn; [by exists l1, l2|].
    exists (sp_scope p :: l1), l2. by rewrite E1, E2.
Qed.

Lemma new_host_inv p : host_inv (new_host p).
Proof.
  split; cbn; try done; [constructor|]. intros pairID. rewrite lookup_empty. split; [by intros []|done].
Qed.

Lemma issue_inv s a h :
  host_inv h -> ~ In s (live h) ->
  (s = GlobalScope -> live h = []) -> (globalLocked (h_auth h) = false) ->
  (forall pairID, is_Some (pairLocks a !! pairID) <->
                  is_Some (pairLocks (h_auth h) !! pairID) \/ s = PairScope pairID) ->
  (globalLocked a = true <-> s = GlobalScope) -> activeOps a = (activeOps (h_auth h) + 1)%Z ->
  host_inv (snd (issue s a h)).
Proof.
  destruct h as [a0 ps]. intros [I1 I2 I3 I4 I5] Hs Hg Hf Hp Hga Hc. cbn in *.
  assert (~ In GlobalScope (live (mkhost a0 ps))) as Hn by (rewrite <- I3; by rewrite Hf).
  rewrite <- (live_auth a a0) in *. unfold issue. split; cbn; rewrite ?live_snoc.
  - apply List.NoDup_app; [done|repeat constructor; by intros []|]. intros x Hx [->|[]]. done.
  - intros pairID. rewrite Hp, I2, in_app_iff. cbn. naive_solver.
  - rewrite Hga, in_app_iff. cbn. naive_solver.
  - intros [?|[->|[]]]%in_app_iff; [done|]. by rewrite Hg.
  - rewrite Hc, I5, length_app. cbn. lia.
Qed.

Lemma exclusive_inv pairID purpose h :
  host_inv h -> host_inv (snd (AcquireExclusiveScope pairID purpose h)).
Proof.
  intros I. unfold AcquireExclusiveScope. destruct (pairID == ""); [done|].
  destruct (draining _); [done|]. destruct (globalLocked (h_auth h)) eqn:Eg; [done|].
  destruct (pairLocks _ !! pairID) eqn:Ep; [done|].
  apply issue_inv; cbn; try done.
  - intros [x Hx]%(hi_pair h I). congruence.
  - intros id. destruct (decide (id = pairID)) as [->|Hne].
    + rewrite lookup_insert_eq. naive_solver.
    + rewrite lookup_insert_ne by done. naive_solver.
  - by rewrite Eg.
Qed.
Lemma global_inv purpose h :
  host_inv h -> host_inv (snd (AcquireGlobalExclusiveScope purpose h)).
Proof.
  intros I. unfold AcquireGlobalExclusiveScope.
  destruct (draining _); [done|]. destruct (globalLocked (h_auth h)) eqn:Eg; [done|].
  case_bool_decide as Hp; cbn; [|done].
  assert (live h = []) as Hl.
  { destruct (live h) as [|[id|] l] eqn:E; [done| |].
    - destruct (proj2 (hi_pair h I id)) as [x Hx]; [rewrite E; by left|]. by rewrite Hp, lookup_empty in Hx.
    - enough (globalLocked (h_auth h) = true) by congruence. apply (hi_global h I). rewrite E. by left. }
  apply issue_inv; cbn; try done.
  - by rewrite Hl; intros [].
  - intros id. naive_solver.
Qed.
Lemma release_inv i h : host_inv h -> host_inv (Release i h).
Proof.
  intros I. unfold Release. destruct (h_permits h !! i) as [[s []]|] eqn:E; try done. cbn.
  destruct h as [a ps], I as [I1 I2 I3 I4 I5]. cbn in *.
  destruct (live_release a ps i s E) as (l1 & l2 & E1 & E2).
  rewrite E1 in *. pose proof (NoDup_remove_1 _ _ _ I1) as Hn. pose proof (NoDup_remove_2 _ _ _ I1) as Hs.
  rewrite in_app_iff in Hs.
  assert (forall x, In x (l1 ++ s :: l2) <-> x = s \/ In x (l1 ++ l2)) as Hin.
  { intros x. rewrite !in_app_iff. cbn. naive_solver. }
  rewrite length_app in I5. cbn in I5. rewrite Nat.add_succ_r, <- length_app in I5.
  split; unfold releaseFunc; cbn; rewrite (live_auth _ a), E2; [done| | | |].
  - intros id. specialize (I2 id). rewrite Hin in I2.
    destruct s as [id'|]; cbn; [|naive_solver].
    destruct (decide (id = id')) as [->|Hne].
    + rewrite lookup_delete_eq. split; [by intros []|]. intros H. rewrite in_app_iff in H. naive_solver.
    + rewrite lookup_delete_ne by done. naive_solver.
  - rewrite Hin in I3. destruct s; cbn; [naive_solver|]. split; [done|].
    intros H. rewrite in_app_iff in H. naive_solver.
  - intros H. exfalso. apply Hs. assert (In GlobalScope (l1 ++ s :: l2)) as Hg by (apply Hin; by right).
    specialize (I4 Hg). destruct l1 as [|x1 l1]; [|by destruct l1].
    injection I4 as -> ->. done.
  - destruct s; cbn; rewrite I5; lia.
Qed.
Lemma host_step_inv h h' : host_step h h' -> host_inv h -> host_inv h'.
Proof.
  intros [pairID purpose h0|purpose h0|i h0|h0] I;
    [by apply exclusive_inv|by apply global_inv|by apply release_inv|].
  destruct h0 as [a ps], I. by split.
Qed.
Lemma host_run_inv h h' : host_run h h' -> host_inv h -> host_inv h'.
Proof. induction 1 as [|h1 h2 h3 Hs _ IH]; [done|]. intros I. apply IH. by eapply host_step_inv. Qed.

(** C8: whatever is acquired and released, by whom and in which order, two
    permits that are not released are for different pairs, and the global
    permit is then the only one; and the WaitGroup counts exactly the permits
    not released, so it never goes negative and a drain waits for all of them. *)
Theorem permits_are_exclusive name h :
  host_run (new_host name) h ->
  List.NoDup (live h) /\ (In GlobalScope (live h) -> live h = [GlobalScope]) /\
  activeOps (h_auth h) = Z.of_nat (length (live h)).
Proof.
  intros Hr. destruct (host_run_inv _ _ Hr (new_host_inv name)). by split_and!.
Qed.

(** ** Closed admission *)

(** Once draining, the authority issues no permit and stays closed. *)
Lemma draining_step h h' :
  host_step h h' -> draining (h_auth h) = true ->
  draining (h_auth h') = true /\ length (h_permits h') = length (h_permits h).
Proof.
  intros [pairID purpose h0|purpose h0|i h0|h0] Hd; try done.
  - unfold AcquireExclusiveScope. destruct (pairID == ""); [done|]. by rewrite Hd.
  - unfold AcquireGlobalExclusiveScope. by rewrite Hd.
  - unfold Release. destruct (h_permits h0 !! i) as [[s []]|]; try done. cbn.
    split; [by destruct s|by rewrite length_insert].
Qed.
Lemma draining_run h h' :
  host_run h h' -> draining (h_auth h) = true ->
  draining (h_auth h') = true /\ length (h_permits h') = length (h_permits h).
Proof.
  induction 1 as [|h1 h2 h3 Hs _ IH]; [done|]. intros Hd.
  destruct (draining_step _ _ Hs Hd) as [Hd2 E2]. destruct (IH Hd2) as [Hd3 E3]. split; [done|congruence].
Qed.
Lemma live_closed (h : host) : live h = [] -> forall i p, h_permits h !! i = Some p -> sp_released p = true.
Proof.
  intros Hl i p Hi%list_elem_of_lookup_2%list_elem_of_In. destruct (sp_released p) eqn:E; [done|]. exfalso.
  assert (In (sp_scope p) (live h)) as Hin.
  { unfold live. apply in_map, filter_In. by rewrite E. }
  by rewrite Hl in Hin.
Qed.

(** ** Policies *)
Record Policies := mkPolicies {
  SupervisorHTTPTimeout : Z; SupervisorHealthProbeTimeout : Z; SupervisorSpawnTimeout : Z;
  SupervisorSendTimeout : Z; SupervisorActivityPollInterval : Z; SupervisorExecutionDeadline : Z;
  SupervisorKillStopTimeout : Z; SupervisorWorkspaceReadTimeout : Z }.

Definition policy_values (p : Policies) : list (string * Z) :=
  [("SUPERVISOR_HTTP_TIMEOUT", SupervisorHTTPTimeout p);
   ("SUPERVISOR_HEALTH_PROBE_TIMEOUT", SupervisorHealthProbeTimeout p);
   ("SUPERVISOR_SPAWN_TIMEOUT", SupervisorSpawnTimeout p);
   ("SUPERVISOR_SEND_TIMEOUT", SupervisorSendTimeout p);
   ("SUPERVISOR_ACTIVITY_POLL_INTERVAL", SupervisorActivityPollInterval p);
   ("SUPERVISOR_EXECUTION_DEADLINE", SupervisorExecutionDeadline p);
   ("SUPERVISOR_KILL_STOP_TIMEOUT", SupervisorKillStopTimeout p);
   ("SUPERVISOR_WORKSPACE_READ_TIMEOUT", SupervisorWorkspaceReadTimeout p)]%string.
(** The first policy that is not positive is the error. *)
Fixpoint first_unset (l : list (string * Z)) : option goerr :=
  match l with
  | [] => None
  | (name, v) :: l =>
      if (v <=? 0)%Z
      then Some (Wrapped "" (SentinelError hostErrMissingPolicy) (": " +:+ name +:+ " must be positive"))
      else first_unset l
  end.
Definition Validate (p : Policies) : option goerr := first_unset (policy_values p).

Lemma Validate_spec p :
  Validate p = None <-> Forall (fun nv => (0 < snd nv)%Z) (policy_values p).
Proof.
  unfold Validate. induction (policy_values p) as [|[name v] l IH]; cbn; [done|].
  rewrite Forall_cons_iff. cbn. destruct (Z.leb_spec v 0); [split; [done|lia]|].
  rewrite IH. naive_solver.
Qed.

(** ** Teardown *)

Inductive resource : Type :=
| RPipeServer | RHTTPServer | RScheduler (i : nat) | RStore | RMetadata | RPinnedDB | ROwnerLock.

(** A component that is not nil is [Some] of what its [Close] returns. *)
Record ShutdownComponents := mkShutdownComponents {
  sh_PipeServer : option (option goerr); sh_HTTPServer : option (option goerr);
  sh_Authority : bool; sh_Schedulers : list (option (option goerr));
  sh_Store : option (option goerr); sh_PinnedDB : option (option goerr);
  sh_OwnerLease : option (option goerr) }.

(** [Join] is the wait for every permit: under [Drain]'s timeout, or, when it
    has expired, without one ([WaitAllReleased]). *)
Inductive task : Type :=
| Close (r : resource) (result : option goerr)
| Drain
| Join (late : bool).

Definition close (r : resource) (c : option (option goerr)) : list task :=
  match c with Some result => [Close r result] | None => [] end.
Fixpoint close_schedulers (i : nat) (l : list (option (option goerr))) : list task :=
  match l with [] => [] | c :: l => close (RScheduler i) c ++ close_schedulers (S i) l end.

Definition joined_tasks (c : ShutdownComponents) : list task :=
  close_schedulers 0 (sh_Schedulers c) ++ close RStore (sh_Store c)
  ++ match sh_OwnerLease c with Some _ => [Close RMetadata None] | None => [] end
  ++ close RPinnedDB (sh_PinnedDB c) ++ close ROwnerLock (sh_OwnerLease c).
Definition ExecuteShutdownDrain (c : ShutdownComponents) : list task :=
  close RPipeServer (sh_PipeServer c) ++ close RHTTPServer (sh_HTTPServer c)
  ++ (if sh_Authority c then [Drain] else []) ++ joined_tasks c.

(** [firstErr], and what has been closed so far. *)
Record teardown := mkteardown {
  td_host : host; td_todo : list task; td_err : option goerr; td_closed : list resource }.
Definition recordErr (first err : option goerr) : option goerr :=
  match first with Some e => Some e | None => err end.
Definition ErrDrainTimeout : goerr := SentinelError hostErrDrainTimeout.
Definition late_join : goerr :=
  Wrapped "host: drain completed after timeout (active callers joined late): " ErrDrainTimeout "".
Definition shutdown_result (t : teardown) : option goerr :=
  option_map (fun e => Wrapped "host: error during shutdown drain: " e "") (td_err t).

Inductive teardown_step : teardown -> teardown -> Prop :=
| ts_close h r result todo err closed :
    teardown_step (mkteardown h (Close r result :: todo) err closed)
                  (mkteardown h todo (recordErr err result) (closed ++ [r]))
| ts_drain h todo err closed :
    teardown_step (mkteardown h (Drain :: todo) err closed)
                  (mkteardown (SetUnavailable h) (Join false :: todo) err closed)
| ts_joined h late todo err closed :
    activeOps (h_auth h) = 0%Z ->
    teardown_step (mkteardown h (Join late :: todo) err closed)
                  (mkteardown h todo (recordErr err (if late then Some late_join else None)) closed)
| ts_timeout h todo err closed :
    teardown_step (mkteardown h (Join false :: todo) err closed)
                  (mkteardown h (Join true :: todo) err closed)
| ts_caller h h' todo err closed :
    host_step h h' -> teardown_step (mkteardown h todo err closed) (mkteardown h' todo err closed).
Definition teardown_run : teardown -> teardown -> Prop := rtc teardown_step.

Definition closes (t : task) : list resource := match t with Close r _ => [r] | _ => [] end.
(** The resources in the order of the protocol. *)
Definition teardown_order (c : ShutdownComponents) : list resource :=
  concat (map closes (ExecuteShutdownDrain c)).
(** The listeners, closed before the drain. *)
Definition early (r : resource) : bool := match r with RPipeServer | RHTTPServer => true | _ => false end.
(** Admission is closed and every permit is back. *)
Definition drained (t : teardown) : Prop :=
  draining (h_auth (td_host t)) = true /\ live (td_host t) = [].


Lemma drained_host h h' :
  host_step h h' -> draining (h_auth h) = true -> live h = [] -> live h' = [].
Proof.
  intros [pairID purpose h0|purpose h0|i h0|h0] Hd Hl; try done.
  - unfold AcquireExclusiveScope. destruct (pairID == ""); [done|]. by rewrite Hd.
  - unfold AcquireGlobalExclusiveScope. by rewrite Hd.
  - unfold Release. destruct (h_permits h0 !! i) as [p|] eqn:E; [|done].
    by rewrite (live_closed h0 Hl i p E).
Qed.

Definition is_close (k : task) : Prop := exists r e, k = Close r e.
Definition early_close (k : task) : Prop := exists r e, k = Close r e /\ early r = true.

(** Where a teardown with an authority is: before the drain, waiting, after. *)
Inductive stage (c : ShutdownComponents) (t : teardown) : Prop :=
| before_drain pre :
    td_todo t = pre ++ Drain :: joined_tasks c -> Forall early_close pre ->
    Forall (fun r => early r = true) (td_closed t) -> stage c t
| waiting late :
    td_todo t = Join late :: joined_tasks c -> draining (h_auth (td_host t)) = true ->
    Forall (fun r => early r = true) (td_closed t) -> stage c t
| after_drain : drained t -> Forall is_close (td_todo t) -> stage c t.

Lemma close_is_close r c : Forall is_close (close r c).
Proof. destruct c; repeat constructor. by eexists _, _. Qed.
Lemma joined_is_close c : Forall is_close (joined_tasks c).
Proof.
  unfold joined_tasks. repeat apply Forall_app_2; try apply close_is_close.
  - generalize 0. induction (sh_Schedulers c) as [|x l IH]; intros i; [constructor|].
    cbn. apply Forall_app_2; [apply close_is_close|apply IH].
  - destruct (sh_OwnerLease c); repeat constructor. by eexists _, _.
Qed.

Lemma stage_step c t t' :
  teardown_step t t' -> host_inv (td_host t) -> stage c t -> stage c t'.
Proof.
  intros [h r result todo err closed|h todo err closed|h late todo err closed Hc|h todo err closed
         |h h' todo err closed Hs] Hi [pre Ht He Hcl|late' Ht Hd Hcl|[Hd Hl] Ht]; cbn in *.
  - destruct pre as [|k pre]; [done|]. injection Ht as <- ->.
    apply Forall_cons_iff in He as [(r' & e' & [= -> ->] & Hr) He']. apply (before_drain _ _ pre); cbn; try done.
    apply Forall_app_2; [done|by repeat constructor].
  - done.
  - apply after_drain; [done|]. by inversion_clear Ht.
  - destruct pre as [|k pre]; cbn in Ht.
    + injection Ht as ->. by apply (waiting _ _ false).
    + injection Ht as <- ->. apply Forall_cons_iff in He as [(r' & e' & [=] & _) _].
  - done.
  - apply Forall_cons_iff in Ht as [(r & e & [=]) _].
  - destruct pre as [|k pre]; [done|]. injection Ht as <- ->. apply Forall_cons_iff in He as [(r & e & [=] & _) _].
  - injection Ht as -> ->. apply after_drain; [|apply joined_is_close]. split; [done|]. cbn.
    rewrite (hi_count h Hi) in Hc. destruct (live h); [done|cbn in Hc; lia].
  - apply Forall_cons_iff in Ht as [(r & e & [=]) _].
  - destruct pre as [|k pre]; [done|]. injection Ht as <- ->. apply Forall_cons_iff in He as [(r & e & [=] & _) _].
  - injection Ht as _ ->. by apply (waiting _ _ true).
  - apply Forall_cons_iff in Ht as [(r & e & [=]) _].
  - by apply (before_drain _ _ pre).
  - apply (waiting _ _ late'); try done. by destruct (draining_step _ _ Hs Hd).
  - apply after_drain; [|done]. split; [by destruct (draining_step _ _ Hs Hd)|by eapply drained_host].
Qed.
Lemma order_step t t' : teardown_step t t' ->
  td_closed t' ++ concat (map closes (td_todo t')) = td_closed t ++ concat (map closes (td_todo t)).
Proof. intros []; cbn; try done. by rewrite <- app_assoc. Qed.
Lemma host_td_step t t' : teardown_step t t' -> host_inv (td_host t) -> host_inv (td_host t').
Proof.
  intros [] I; cbn in *; try done; [eapply host_step_inv; [apply hs_unavailable|done]|by eapply host_step_inv].
Qed.

(** What every state of a shutdown has closed, and when. *)
Lemma teardown_stages name h c t :
  host_run (new_host name) h -> sh_Authority c = true ->
  teardown_run (mkteardown h (ExecuteShutdownDrain c) None []) t ->
  td_closed t ++ concat (map closes (td_todo t)) = teardown_order c /\
  (forall r, In r (td_closed t) -> early r = false -> drained t).
Proof.
  intros Hr Ha Ht. pose proof (host_run_inv _ _ Hr (new_host_inv name)) as Hi.
  set (t0 := mkteardown h (ExecuteShutdownDrain c) None []) in *.
  assert (stage c t0) as Hs.
  { apply (before_drain _ _ (close RPipeServer (sh_PipeServer c) ++ close RHTTPServer (sh_HTTPServer c)));
      cbn; [|destruct (sh_PipeServer c), (sh_HTTPServer c); repeat constructor; by eexists _, _|constructor].
    unfold ExecuteShutdownDrain. rewrite Ha. by rewrite <- app_assoc. }
  assert (td_closed t0 ++ concat (map closes (td_todo t0)) = teardown_order c) as Ho by done.
  assert (host_inv (td_host t0)) as Hi0 by done. clearbody t0. clear h Hr Hi.
  induction Ht as [t1|t1 t2 t3 Hstep _ IH].
  - split; [done|]. intros r Hin He.
    destruct Hs as [pre _ _ Hcl|late _ _ Hcl|Hd _]; [| |done].
    all: rewrite List.Forall_forall in Hcl; by rewrite (Hcl r Hin) in He.
  - apply IH; [by eapply stage_step|by rewrite (order_step _ _ Hstep)|by eapply host_td_step].
Qed.

(** *** The order of the protocol *)

(** The steps of the comment above [ExecuteShutdownDrain]; the drain is 2. *)
Definition protocol_step (r : resource) : nat :=
  match r with
  | RPipeServer | RHTTPServer => 1
  | RScheduler _ => 3 | RStore => 4 | RMetadata => 5 | RPinnedDB => 6 | ROwnerLock => 7
  end.
(** An earlier step, or within a step the component named first. *)
Definition precedes (r r' : resource) : Prop :=
  protocol_step r < protocol_step r' \/ (r = RPipeServer /\ r' = RHTTPServer) \/
  exists i j, r = RScheduler i /\ r' = RScheduler j /\ i < j.
(** The resources a shutdown is given. *)
Definition has_component (c : ShutdownComponents) (r : resource) : Prop :=
  match r with
  | RPipeServer => sh_PipeServer c <> None
  | RHTTPServer => sh_HTTPServer c <> None
  | RScheduler i => exists result, sh_Schedulers c !! i = Some (Some result)
  | RStore => sh_Store c <> None
  | RMetadata | ROwnerLock => sh_OwnerLease c <> None
  | RPinnedDB => sh_PinnedDB c <> None
  end.

Definition present {A} (r : resource) (c : option A) : list resource :=
  match c with Some _ => [r] | None => [] end.
Fixpoint present_schedulers {A} (i : nat) (l : list (option A)) : list resource :=
  match l with [] => [] | c :: l => present (RScheduler i) c ++ present_schedulers (S i) l end.

Lemma closes_close r c : concat (map closes (close r c)) = present r c.
Proof. by destruct c. Qed.
Lemma closes_schedulers l : forall i,
  concat (map closes (close_schedulers i l)) = present_schedulers i l.
Proof.
  induction l as [|c l IH]; intros i; [done|]. cbn. by rewrite map_app, concat_app, closes_close, IH.
Qed.
Lemma teardown_order_eq c :
  teardown_order c = present RPipeServer (sh_PipeServer c) ++ present RHTTPServer (sh_HTTPServer c)
    ++ present_schedulers 0 (sh_Schedulers c) ++ present RStore (sh_Store c)
    ++ present RMetadata (sh_OwnerLease c) ++ present RPinnedDB (sh_PinnedDB c)
    ++ present ROwnerLock (sh_OwnerLease c).
Proof.
  unfold teardown_order, ExecuteShutdownDrain, joined_tasks.
  rewrite !map_app, !concat_app, !closes_close, closes_schedulers.
  by destruct (sh_Authority c), (sh_OwnerLease c).
Qed.

Lemma elem_present {A} r x (c : option A) : x ∈ present r c <-> x = r /\ c <> None.
Proof. destruct c; cbn; [rewrite list_elem_of_singleton|rewrite elem_of_nil]; naive_solver. Qed.
Lemma elem_schedulers {A} x (l : list (option A)) : forall k,
  x ∈ present_schedulers k l <-> exists i result, x = RScheduler (k + i) /\ l !! i = Some (Some result).
Proof.
  induction l as [|c l IH]; intros k; cbn.
  - rewrite elem_of_nil. split; [done|]. by intros (i & result & _ & H).
  - rewrite elem_of_app, elem_present, IH. split.
    + intros [[-> Hc]|(i & result & -> & Hi)].
      * destruct c as [result|]; [|done]. exists 0, result. split; [f_equal; lia|done].
      * exists (S i), result. split; [f_equal; lia|done].
    + intros ([|i] & result & -> & Hi).
      * left. injection Hi as ->. split; [f_equal; lia|done].
      * right. exists i, result. split; [f_equal; lia|done].
Qed.
Lemma elem_teardown_order c r : r ∈ teardown_order c <-> has_component c r.
Proof.
  rewrite teardown_order_eq, !elem_of_app, !elem_present, elem_schedulers. cbn.
  destruct r; cbn; naive_solver.
Qed.

Lemma present_sorted {A} r (c : option A) : StronglySorted precedes (present r c).
Proof. destruct c; repeat constructor. Qed.
Lemma schedulers_sorted {A} (l : list (option A)) : forall i,
  StronglySorted precedes (present_schedulers i l).
Proof.
  induction l as [|c l IH]; intros i; [constructor|]. cbn.
  apply StronglySorted_app_2; [|apply present_sorted|apply IH].
  intros x y [-> _]%elem_present (j & result & -> & _)%elem_schedulers. do 2 right.
  exists i, (S i + j). split_and!; [done..|lia].
Qed.
Lemma teardown_order_sorted c : StronglySorted precedes (teardown_order c).
Proof.
  rewrite teardown_order_eq.
  repeat (apply StronglySorted_app_2; [|first [apply present_sorted | apply schedulers_sorted]|]);
    try apply present_sorted.
  all: intros x y Hx; rewrite ?elem_of_app, ?elem_present, ?elem_schedulers in *; intros Hy;
    repeat match goal with
    | H : _ \/ _ |- _ => destruct H | H : _ /\ _ |- _ => destruct H | H : exists _, _ |- _ => destruct H
    end; subst; try (by left; cbn; lia); by right; left.
Qed.
Lemma precedes_irrefl r : ~ precedes r r.
Proof. intros [H|[[-> H]|(i & j & -> & [= ->] & H)]]; [lia|done|lia]. Qed.

(** A shutdown that has reached the owner lock has nothing left to close. *)
Lemma owner_lock_last c closed rest :
  closed ++ rest = teardown_order c -> ROwnerLock ∈ closed -> rest = [].
Proof.
  intros E Hin. destruct rest as [|r rest]; [done|]. exfalso.
  pose proof (teardown_order_sorted c) as Hs. rewrite <- E in Hs.
  pose proof (StronglySorted_app_1_elem_of _ _ _ _ _ Hs Hin (list_elem_of_here r rest)) as Hp.
  destruct Hp as [Hp|[[Hp _]|(i & j & Hp & _)]]; [|done..]. destruct r; cbn in Hp; lia.
Qed.

(** C19: A shutdown follows the seven steps of its protocol, whatever the callers
    do meanwhile and whether or not the drain times out.  At every moment the
    resources closed are in the order of the protocol, each once, and are among
    those the shutdown was given; when the owner lock is closed every other
    resource has been, and so has every resource when the shutdown ends; and
    nothing but the listeners is closed before admission is closed and every
    permit has been released. *)
Theorem teardown_joins_callers name h c t :
  host_run (new_host name) h -> sh_Authority c = true ->
  teardown_run (mkteardown h (ExecuteShutdownDrain c) None []) t ->
  StronglySorted precedes (td_closed t) /\ List.NoDup (td_closed t) /\
  (forall r, In r (td_closed t) -> has_component c r) /\
  (In ROwnerLock (td_closed t) \/ td_todo t = [] -> forall r, has_component c r -> In r (td_closed t)) /\
  (forall r, In r (td_closed t) -> early r = false -> drained t).
Proof.
  intros Hr Ha Ht. destruct (teardown_stages name h c t Hr Ha Ht) as [Ho Hd].
  pose proof (teardown_order_sorted c) as Hs. rewrite <- Ho in Hs. apply StronglySorted_app_1_l in Hs.
  split_and!; [done| | | |done].
  - clear -Hs. induction (td_closed t) as [|r l IH]; [constructor|].
    apply StronglySorted_cons in Hs as [Hr Hl]. constructor; [|by apply IH].
    intros Hin. rewrite List.Forall_forall in Hr. by apply (precedes_irrefl r), Hr.
  - intros r Hin. apply elem_teardown_order. rewrite <- Ho. apply elem_of_app. left. by apply list_elem_of_In.
  - intros Hend r Hc%elem_teardown_order.
    assert (concat (map closes (td_todo t)) = []) as Hn.
    { destruct Hend as [Hl| ->]; [|done]. eapply owner_lock_last; [exact Ho|by apply list_elem_of_In]. }
    rewrite <- Ho, Hn, app_nil_r in Hc. by apply list_elem_of_In.
Qed.

(** *** A shutdown is never stuck *)
Lemma live_filter_length (h : host) (i : nat) p :
  h_permits h !! i = Some p -> sp_released p = false -> length (live (Release i h)) < length (live h).
Proof.
  destruct p as [s b]. intros E Hb. cbn in Hb. subst b. unfold Release. rewrite E. cbn.
  destruct h as [a ps]. cbn in E. destruct (live_release a ps i s E) as (l1 & l2 & E1 & E2).
  rewrite (live_auth _ a (<[i := _]> ps)), E1, E2, !length_app. cbn. lia.
Qed.
Lemma live_witness (h : host) : live h <> [] ->
  exists (i : nat) p, h_permits h !! i = Some p /\ sp_released p = false.
Proof.
  unfold live. induction (h_permits h) as [|p ps IH]; [done|]. cbn. destruct (sp_released p) eqn:E.
  - intros (i & q & Hi & Hq)%IH. by exists (S i), q.
  - intros _. by exists 0, p.
Qed.
Lemma release_all h : exists h', host_run h h' /\ live h' = [].
Proof.
  remember (length (live h)) as n eqn:En. revert h En.
  induction n as [n IH] using (well_founded_induction lt_wf). intros h ->.
  destruct (live h) as [|s l] eqn:E; [by exists h; split; [apply rtc_refl|]|].
  destruct (live_witness h) as (i & p & Hi & Hp); [by rewrite E|].
  pose proof (live_filter_length h i p Hi Hp) as Hlt. rewrite E in Hlt.
  destruct (IH _ Hlt _ eq_refl) as (h' & Hr & Hl). exists h'. split; [|done].
  eapply rtc_l; [apply hs_release|exact Hr].
Qed.
Lemma callers_run h h' todo err closed :
  host_run h h' -> teardown_run (mkteardown h todo err closed) (mkteardown h' todo err closed).
Proof. induction 1; [apply rtc_refl|]. eapply rtc_l; [by apply ts_caller|done]. Qed.

Lemma todo_finishes todo : forall h err closed, host_inv h -> live h = [] ->
  exists t', teardown_run (mkteardown h todo err closed) t' /\ td_todo t' = [].
Proof.
  assert (forall h, host_inv h -> live h = [] -> activeOps (h_auth h) = 0%Z) as Hz.
  { intros h Hi Hl. by rewrite (hi_count h Hi), Hl. }
  induction todo as [|k todo IH]; intros h err closed Hi Hl; [eexists; split; [apply rtc_refl|done]|].
  destruct k as [r result| |late].
  - destruct (IH h (recordErr err result) (closed ++ [r]) Hi Hl) as (t' & Hr & Ht). exists t'. split; [|done].
    eapply rtc_l; [apply ts_close|exact Hr].
  - assert (host_inv (SetUnavailable h)) as Hi' by (eapply host_step_inv; [apply hs_unavailable|done]).
    destruct (IH (SetUnavailable h) (recordErr err None) closed Hi' Hl) as (t' & Hr & Ht).
    exists t'. split; [|done]. eapply rtc_l; [apply ts_drain|]. eapply rtc_l; [|exact Hr].
    apply (ts_joined _ false). by apply Hz.
  - destruct (IH h (recordErr err (if late then Some late_join else None)) closed Hi Hl) as (t' & Hr & Ht).
    exists t'. split; [|done]. eapply rtc_l; [|exact Hr]. apply ts_joined. by apply Hz.
Qed.

(** a shutdown is never stuck: from every state it can reach, once the
    callers release their permits it runs to its end. *)
Theorem teardown_completes name h c t :
  host_run (new_host name) h -> teardown_run (mkteardown h (ExecuteShutdownDrain c) None []) t ->
  exists t', teardown_run t t' /\ td_todo t' = [].
Proof.
  intros Hr Ht. pose proof (host_run_inv _ _ Hr (new_host_inv name)) as Hi.
  assert (host_inv (td_host t)) as Hit.
  { clear Hr. remember (mkteardown h _ _ _) as t0 eqn:E. assert (host_inv (td_host t0)) as H0 by by subst.
    clear E Hi. induction Ht as [|t1 t2 t3 Hs _ IH]; [done|]. apply IH. by eapply host_td_step. }
  destruct t as [ht todo err closed]. destruct (release_all ht) as (h' & Hrun & Hl).
  destruct (todo_finishes todo h' err closed) as (t' & Hr' & Ht'); [by eapply host_run_inv|done|].
  exists t'. split; [|done]. etransitivity; [by apply callers_run|exact Hr'].
Qed.

(** ** A host with one effect in flight, shut down *)
Definition busy_host : host := snd (AcquireEffect "pair" "TIMEOUT_MONITOR" (new_host "operator")).
Lemma busy_run : host_run (new_host "operator") busy_host.
Proof. eapply rtc_l; [apply hs_exclusive|apply rtc_refl]. Qed.
Example busy_excludes :
  fst (AcquireMaintenance "pair" "m" busy_host) = inl (NewError "host: pair already locked by EFFECT:TIMEOUT_MONITOR")
  /\ fst (Acquire busy_host) = inl (NewError "host: cannot acquire global scope while pair scopes are active")
  /\ fst (Acquire (Release 0 busy_host)) = inr 1.
Proof. vm_compute. done. Qed.

Definition sample_components : ShutdownComponents :=
  mkShutdownComponents (Some None) None true [Some None] (Some None) (Some None) (Some None).
Definition sample_closed : teardown :=
  mkteardown (Release 0 (SetUnavailable busy_host)) [Close ROwnerLock None] (Some late_join)
    [RPipeServer; RScheduler 0; RStore; RMetadata; RPinnedDB].
Lemma sample_teardown :
  teardown_run (mkteardown busy_host (ExecuteShutdownDrain sample_components) None []) sample_closed.
Proof.
  do 2 (eapply rtc_l; [constructor|]). eapply rtc_l; [apply ts_timeout|].
  eapply rtc_l; [apply ts_caller, (hs_release 0)|]. eapply rtc_l; [by apply ts_joined|].
  do 4 (eapply rtc_l; [apply ts_close|]). apply rtc_refl.
Qed.

Lemma permits_are_exclusive_witness :
  live busy_host = [PairScope "pair"] /\ activeOps (h_auth busy_host) = 1%Z.
Proof.
  split; [vm_compute; reflexivity|].
  destruct (permits_are_exclusive "operator" busy_host busy_run) as (_ & _ & ->). reflexivity.
Defined.
Lemma teardown_joins_callers_witness :
  In RStore (td_closed sample_closed) /\ drained sample_closed /\
  StronglySorted precedes (td_closed sample_closed).
Proof.
  split; [by right; right; left|].
  destruct (teardown_joins_callers "operator" busy_host sample_components sample_closed busy_run eq_refl
              sample_teardown) as (Hs & _ & _ & _ & Hd).
  split; [apply (Hd RStore); [by right; right; left|done]|exact Hs].
Defined.
Lemma teardown_completes_witness : exists t', teardown_run sample_closed t' /\ td_todo t' = [].
Proof. exact (teardown_completes "operator" busy_host sample_components sample_closed busy_run sample_teardown). Defined.
