(* ===== verification/RunnerGate.v ===== *)
(** * RunnerGate: the locks around Run, the poller's ticks and maintenance

    [Runner.Run], [Poller.PollOnce], [TimeoutMonitor.Tick] and
    [withLegacyMaintenance] share two locks: [gateMu] around the flags
    [running] and [ready], and the read-write lock [pollAccess] around their
    bodies.  A process is one call of one of them; a step is what it does under
    one acquisition of [gateMu], or the acquisition or release of
    [pollAccess].  Which lock a process holds is a function of where it is. *)

From stdpp Require Import relations.
From S2P Require Import Prelude.

Inductive process : Type :=
(* Run *)
| RunEntered            (* before the gate *)
| RunGated              (* running; the active poller is being stopped *)
| RunWaiting            (* the poller is joined; waiting for pollAccess *)
| RunSweeping           (* classifying, pollAccess held *)
| RunLeaving (ok : bool) (* pollAccess released; [ok] is err == nil and Complete *)
(* PollOnce and Tick *)
| TickEntered
| TickAdmitting         (* pollAccess held for reading; the flags not read yet *)
| TickBody
(* withLegacyMaintenance *)
| MaintenanceEntered
| MaintenanceWaiting    (* admission invalidated, waiting for pollAccess *)
| MaintenanceChecking   (* pollAccess held; [running] not read yet *)
| MaintenanceBody.
#[export] Instance process_eq_dec : EqDecision process.
Proof. solve_decision. Defined.

Record gate := mkgate { g_running : bool; g_ready : bool; g_procs : list process }.

Definition writes (p : process) : bool :=
  match p with RunSweeping | MaintenanceChecking | MaintenanceBody => true | _ => false end.
Definition reads (p : process) : bool :=
  match p with TickAdmitting | TickBody => true | _ => false end.
(** Past the gate of [Run]. *)
Definition gated (p : process) : bool :=
  match p with RunGated | RunWaiting | RunSweeping | RunLeaving _ => true | _ => false end.

(** [pollAccess.Lock] and [pollAccess.RLock] can be granted. *)
Definition can_write (g : gate) : bool := forallb (fun p => negb (writes p || reads p)) (g_procs g).
Definition can_read (g : gate) : bool := forallb (fun p => negb (writes p)) (g_procs g).

(** One step of a process: the flags it leaves, and where it then is; [None]
    when the call returns. *)
Inductive proc_step (g : gate) : process -> bool -> bool -> option process -> Prop :=
(* Run: a missing dependency or a cancelled context invalidates *)
| run_refused : proc_step g RunEntered (g_running g) false None
| run_active : g_running g = true -> proc_step g RunEntered (g_running g) (g_ready g) None
| run_gate : g_running g = false -> proc_step g RunEntered true false (Some RunGated)
| run_poller_failed : proc_step g RunGated (g_running g) (g_ready g) (Some (RunLeaving false))
| run_poller_stopped : proc_step g RunGated (g_running g) (g_ready g) (Some RunWaiting)
| run_lock : can_write g = true -> proc_step g RunWaiting (g_running g) (g_ready g) (Some RunSweeping)
| run_unlock ok : proc_step g RunSweeping (g_running g) (g_ready g) (Some (RunLeaving ok))
| run_leave ok : proc_step g (RunLeaving ok) false ok None
(* PollOnce, Tick *)
| tick_lock : can_read g = true -> proc_step g TickEntered (g_running g) (g_ready g) (Some TickAdmitting)
| tick_admit : g_ready g = true -> g_running g = false ->
    proc_step g TickAdmitting (g_running g) (g_ready g) (Some TickBody)
| tick_refused : proc_step g TickAdmitting (g_running g) (g_ready g) None
| tick_done : proc_step g TickBody (g_running g) (g_ready g) None
(* withLegacyMaintenance *)
| maintenance_invalidate :
    proc_step g MaintenanceEntered (g_running g) false (Some MaintenanceWaiting)
| maintenance_lock : can_write g = true ->
    proc_step g MaintenanceWaiting (g_running g) (g_ready g) (Some MaintenanceChecking)
| maintenance_excluded : g_running g = true ->
    proc_step g MaintenanceChecking (g_running g) (g_ready g) None
| maintenance_enter : g_running g = false ->
    proc_step g MaintenanceChecking (g_running g) (g_ready g) (Some MaintenanceBody)
| maintenance_done : proc_step g MaintenanceBody (g_running g) (g_ready g) None.

Definition entry (p : process) : bool :=
  match p with RunEntered | TickEntered | MaintenanceEntered => true | _ => false end.

Inductive gate_step : gate -> gate -> Prop :=
| gs_enter p g : entry p = true ->
    gate_step g (mkgate (g_running g) (g_ready g) (g_procs g ++ [p]))
| gs_proc l1 p l2 running ready running' ready' next :
    proc_step (mkgate running ready (l1 ++ p :: l2)) p running' ready' next ->
    gate_step (mkgate running ready (l1 ++ p :: l2))
              (mkgate running' ready' (l1 ++ option_list next ++ l2)).
Definition new_gate : gate := mkgate false false [].
Definition gate_run : gate -> gate -> Prop := rtc gate_step.

(** ** The invariant *)
Definition count (f : process -> bool) (l : list process) : nat := length (List.filter f l).
#[local] Arguments count : simpl never.
Lemma count_app f l l' : count f (l ++ l') = count f l + count f l'.
Proof. unfold count. by rewrite List.filter_app, length_app. Qed.
Lemma count_cons f p l : count f (p :: l) = (if f p then 1 else 0) + count f l.
Proof. unfold count. cbn. by destruct (f p). Qed.
Lemma count_nil f : count f [] = 0.
Proof. done. Qed.
Lemma can_write_count g : can_write g = true -> count writes (g_procs g) = 0 /\ count reads (g_procs g) = 0.
Proof.
  unfold can_write. induction (g_procs g) as [|p l IH]; [done|]. cbn [forallb].
  intros [Hp Hl]%andb_true_iff. rewrite !count_cons. destruct (IH Hl) as [-> ->].
  by destruct (writes p), (reads p).
Qed.
Lemma can_read_count g : can_read g = true -> count writes (g_procs g) = 0.
Proof.
  unfold can_read. induction (g_procs g) as [|p l IH]; [done|]. cbn [forallb].
  intros [Hp Hl]%andb_true_iff. rewrite !count_cons, (IH Hl). by destruct (writes p).
Qed.

(** [running] counts the calls of [Run] past the gate, a writer of [pollAccess]
    is alone, and the flags are never both set. *)
Record gate_inv (g : gate) : Prop := {
  gi_running : count gated (g_procs g) = (if g_running g then 1 else 0);
  gi_lock : count writes (g_procs g) <= 1 /\ (count writes (g_procs g) = 0 \/ count reads (g_procs g) = 0);
  gi_flags : g_running g && g_ready g = false }.

Lemma gate_step_inv g g' : gate_step g g' -> gate_inv g -> gate_inv g'.
Proof.
  intros [p g0 Hp|l1 p l2 running ready running' ready' next Hs] [I1 [I2 I3] I4].
  - split; cbn in *; rewrite ?count_app, ?count_cons, ?count_nil; destruct p; cbn; try done; lia.
  - inversion Hs; subst; clear Hs;
      repeat match goal with
      | H : can_write _ = true |- _ => apply can_write_count in H as [? ?]
      | H : can_read _ = true |- _ => apply can_read_count in H
      end; cbn in *;
      rewrite ?count_app, ?count_cons, ?count_nil in *; cbn in *;
      split; cbn; rewrite ?count_app, ?count_cons, ?count_nil; cbn;
      try destruct running; try destruct ready; try done; try lia.
Qed.

Lemma gate_run_inv g : gate_run new_gate g -> gate_inv g.
Proof.
  assert (gate_inv new_gate) as H0 by (split; unfold count; cbn; [done|split; [lia|by left]|done]).
  unfold gate_run. intros Hr. revert H0. induction Hr as [|g1 g2 g3 Hs _ IH]; [done|].
  intros H. apply IH. by eapply gate_step_inv.
Qed.

(** A call between the acquisition and the release of [pollAccess]. *)
Definition body (p : process) : bool := writes p || reads p.
Lemma count_pos f l p : In p l -> f p = true -> 1 <= count f l.
Proof.
  intros (l1 & l2 & ->)%in_split Hp. rewrite count_app, count_cons, Hp. lia.
Qed.

(** Nobody in [l] satisfies [f]. *)
Definition nobody (f : process -> bool) (l : list process) : bool := forallb (fun q => negb (f q)) l.
Lemma nobody_count f l : nobody f l = true <-> count f l = 0.
Proof.
  unfold nobody. induction l as [|q l IH]; [done|]. cbn [forallb]. rewrite count_cons, andb_true_iff, IH.
  destruct (f q); cbn; lia.
Qed.

Lemma writer_alone g l1 p l2 :
  gate_inv g -> g_procs g = l1 ++ p :: l2 -> writes p = true -> nobody body (l1 ++ l2) = true.
Proof.
  intros [_ [I2 I3] _] Ep Hp. rewrite Ep, !count_app, !count_cons, Hp in I2, I3.
  apply forallb_forall. intros q Hq. unfold body.
  destruct (writes q) eqn:Ew.
  { pose proof (count_pos writes _ q Hq Ew) as Hc. rewrite count_app in Hc. lia. }
  destruct (reads q) eqn:Er; [|done]. pose proof (count_pos reads _ q Hq Er) as Hc.
  rewrite count_app in Hc. destruct I3 as [I3|I3]; [lia|].
  rewrite count_app, count_cons in I3. destruct (reads p); lia.
Qed.

(** C27: The gate keeps sweeps, ticks and maintenance apart, however many calls
    interleave.  Alone: whoever holds [pollAccess] for a sweep or maintenance has
    no poll, timeout tick, second sweep or second maintenance beside it.
    Admission: a poll or timeout tick enters its body only while [ready] is on and
    no [Run] is past its gate, and maintenance only while no [Run] is past its
    gate and nobody else is in a body.  Flags: [running] says whether a [Run] is
    past its gate, [ready] is off while one is, and only a [Run] that completed
    turns [ready] on. *)
Theorem sweep_excludes_ticks g :
  gate_run new_gate g ->
  (forall l1 p l2, g_procs g = l1 ++ p :: l2 -> writes p = true -> nobody body (l1 ++ l2) = true) /\
  (forall p running ready, proc_step g p running ready (Some TickBody) ->
     g_ready g = true /\ nobody gated (g_procs g) = true) /\
  (forall l1 p l2 running ready, g_procs g = l1 ++ p :: l2 ->
     proc_step g p running ready (Some MaintenanceBody) ->
     nobody gated (g_procs g) = true /\ nobody body (l1 ++ l2) = true) /\
  (g_running g = negb (nobody gated (g_procs g)) /\ (g_running g && g_ready g)%bool = false /\
   forall p running next, proc_step g p running true next -> g_ready g = true \/ p = RunLeaving true).
Proof.
  intros Hr%gate_run_inv. pose proof Hr as [I1 _ I4].
  assert (g_running g = false -> nobody gated (g_procs g) = true) as Hn.
  { intros E. apply nobody_count. by rewrite I1, E. }
  split_and!.
  - intros l1 p l2. by apply writer_alone.
  - intros p running ready Hs. inversion Hs; subst. by split; [|apply Hn].
  - intros l1 p l2 running ready Ep Hs. inversion Hs; subst. split; [by apply Hn|].
    by eapply writer_alone.
  - destruct (g_running g); cbn in I1.
    + destruct (nobody gated _) eqn:E; [|done]. apply nobody_count in E. lia.
    + by rewrite Hn.
  - done.
  - intros p running next Hs. inversion Hs; subst; auto.
Qed.

(** ** Maintenance with admission open *)

(** [withLegacyMaintenance] turns [ready] off and then waits for [pollAccess];
    a [Run] that was under way turns it back on when it leaves. *)
Definition maintenance_open : gate := mkgate false true [MaintenanceBody].
Tactic Notation "proc_at" constr(l1) constr(p) constr(l2) uconstr(step) :=
  eapply rtc_l; [apply (gs_proc l1 p l2); now apply step|]; cbn [app option_list g_running g_ready].
Ltac enter p := eapply rtc_l; [by apply (gs_enter p)|]; cbn [app g_procs g_running g_ready].

(** the maintenance scope does not keep normal admission closed: a [Run]
    that passed its gate before the maintenance invalidated admission opens it
    again when it completes, and the maintenance then enters its body with
    [ready] set and no [Run] active. *)
Theorem maintenance_runs_with_admission_open :
  gate_run new_gate maintenance_open /\ g_ready maintenance_open = true /\
  In MaintenanceBody (g_procs maintenance_open).
Proof.
  split; [|split; [done|by left]]. unfold new_gate. enter RunEntered.
  proc_at (@nil process) RunEntered (@nil process) run_gate.
  proc_at (@nil process) RunGated (@nil process) run_poller_stopped.
  proc_at (@nil process) RunWaiting (@nil process) run_lock. enter MaintenanceEntered.
  proc_at [RunSweeping] MaintenanceEntered (@nil process) maintenance_invalidate.
  proc_at (@nil process) RunSweeping [MaintenanceWaiting] (run_unlock _ true).
  proc_at (@nil process) (RunLeaving true) [MaintenanceWaiting] run_leave.
  proc_at (@nil process) MaintenanceWaiting (@nil process) maintenance_lock.
  proc_at (@nil process) MaintenanceChecking (@nil process) maintenance_enter.
  apply rtc_refl.
Qed.

Definition sweeping : gate := mkgate true false [RunSweeping; TickEntered].
Lemma sweeping_run : gate_run new_gate sweeping.
Proof.
  unfold new_gate. enter RunEntered. proc_at (@nil process) RunEntered (@nil process) run_gate.
  enter TickEntered. proc_at (@nil process) RunGated [TickEntered] run_poller_stopped.
  proc_at (@nil process) RunWaiting [TickEntered] run_lock. apply rtc_refl.
Qed.
Lemma sweep_excludes_ticks_witness :
  nobody body [TickEntered] = true /\
  ~ (exists p running ready, proc_step sweeping p running ready (Some TickBody)).
Proof.
  destruct (sweep_excludes_ticks sweeping sweeping_run) as (Ha & Hb & _). split.
  - exact (Ha [] RunSweeping [TickEntered] eq_refl eq_refl).
  - intros (p & running & ready & Hs). destruct (Hb _ _ _ Hs) as [[=] _].
Defined.
