(* ===== verification/Poller.v ===== *)
(** * Poller: the cycles of internal/recovery/poller.go

    Every [Start] creates a cycle: a goroutine, its done channel and the error
    that ended it.  Cycles are shared by pointer between [activeCycle],
    [prevCycle] and [cycleByDone], which keeps them all; here they are a table
    and a cycle, like its done channel, is known by its index.  A step is one
    critical section of [p.mu]; [Stop] is two, with the join in between. *)

From stdpp Require Import relations.
From S2P Require Import Prelude.

From S2P Require Import GoErr.

Record pollerCycle := mkpollerCycle {
  cy_err : option goerr; cy_errRead : bool; cy_stopped : bool; cy_running : bool;
  cy_closed : bool }.                       (* the done channel is closed *)
#[export] Instance pollerCycle_settable : Settable pollerCycle := fun c =>
  mkpollerCycle (cy_err c) (cy_errRead c) (cy_stopped c) (cy_running c) (cy_closed c).

Record Poller := mkPoller {
  cycles : list pollerCycle; activeCycle : option nat; prevCycle : option nat;
  p_running : bool; lastErr : option goerr; p_done : option nat; shutdown : bool; stopping : bool;
  joining : option nat }.                   (* the cycle a [Stop] waits for, [stopMu] held *)
#[export] Instance Poller_settable : Settable Poller := fun p =>
  mkPoller (cycles p) (activeCycle p) (prevCycle p) (p_running p) (lastErr p) (p_done p) (shutdown p)
    (stopping p) (joining p).

Definition new_poller : Poller := mkPoller [] None None false None None false false None.
Definition new_cycle : pollerCycle := mkpollerCycle None false false true false.
Definition cycle (i : option nat) (p : Poller) : option pollerCycle :=
  match i with Some i => cycles p !! i | None => None end.
Definition update (i : nat) (f : pollerCycle -> pollerCycle) (p : Poller) : Poller :=
  p <| cycles := alter f i (cycles p) |>.

Definition Done (p : Poller) : option nat :=
  match activeCycle p with
  | Some i => Some i
  | None => match prevCycle p with Some i => Some i | None => p_done p end
  end.

(** The error of a cycle that may be absent. *)
Definition cycle_err (i : option nat) (p : Poller) : option goerr :=
  match cycle i p with Some c => cy_err c | None => None end.
Definition cycle_read (i : option nat) (p : Poller) : bool :=
  match cycle i p with Some c => cy_errRead c | None => false end.
Definition mark_read (i : option nat) (p : Poller) : Poller :=
  match i with Some i => update i (fun c => c <| cy_errRead := true |>) p | None => p end.

Definition Err (p : Poller) : option goerr * Poller :=
  match cycle_err (activeCycle p) p with
  | Some e => (Some e, mark_read (activeCycle p) p)
  | None =>
      match cycle_err (prevCycle p) p with
      | Some e => (Some e, if cycle_read (prevCycle p) p then p else mark_read (prevCycle p) p)
      | None => (lastErr p, p)
      end
  end.
Definition ErrFor (done : option nat) (p : Poller) : option goerr * Poller :=
  match done with
  | None => (None, p)
  | Some i =>
      match cycles p !! i with
      | Some c => (cy_err c, mark_read done p)
      | None => (lastErr p, p)
      end
  end.

(** The guards of [Start]; the owner's flags, whether another poller of the
    owner runs, and [ctx.Err()] are read there. *)
Definition active_running (p : Poller) : bool :=
  match cycle (activeCycle p) p with Some c => cy_running c | None => false end.
Definition Start (configured owner_running owner_ready same_store other_active : bool)
    (ctx : option goerr) (p : Poller) : option goerr * Poller :=
  if negb configured then
    (Some (NewError "recovery: poller dependencies and injected cadence required"), p)
  else if owner_running || negb owner_ready then
    (Some (NewError "recovery: startup classification has not completed"), p)
  else if negb same_store then
    (Some (NewError "recovery: poller Store differs from completed runner"), p)
  else if other_active then (Some (NewError "recovery: another poller owns this runner"), p)
  else if active_running p || p_running p || stopping p then
    (Some (NewError "recovery: poller already running"), p)
  else
    match ctx with
    | Some e => (Some e, p)
    | None =>
        let id := length (cycles p) in
        (None, p <| cycles := cycles p ++ [new_cycle] |> <| activeCycle := Some id |>
                 <| p_done := Some id |> <| p_running := true |> <| shutdown := false |>
                 <| lastErr := None |>)
    end.

(** The goroutine of a cycle can still tick. *)
Definition ticking (c : pollerCycle) : bool := negb (cy_closed c) && match cy_err c with None => true | Some _ => false end.
(** A tick failed: the goroutine records the error and returns. *)
Definition tick_failed (i : nat) (e : goerr) (p : Poller) : Poller :=
  (update i (fun c => c <| cy_err := Some e |> <| cy_running := false |>) p)
    <| lastErr := Some e |> <| p_running := false |>.
(** [defer close(c.done)] *)
Definition close_done (i : nat) (p : Poller) : Poller := update i (fun c => c <| cy_closed := true |>) p.

Definition stop_begin (p : Poller) : Poller :=
  p <| shutdown := true |> <| stopping := true |> <| joining := activeCycle p |>.
(** [Stop] when there is no cycle to join, and after the join of cycle [i]. *)
Definition stop_idle (p : Poller) : option goerr * Poller :=
  (match prevCycle p with Some _ => cycle_err (prevCycle p) p | None => lastErr p end,
   p <| stopping := false |>).
Definition stop_joined (i : nat) (p : Poller) : option goerr * Poller :=
  let err := cycle_err (Some i) p in
  (err, (update i (fun c => c <| cy_running := false |> <| cy_stopped := true |>) p)
          <| p_running := false |> <| lastErr := err |> <| prevCycle := Some i |>
          <| activeCycle := None |> <| stopping := false |> <| joining := None |>).

Inductive poller_step : Poller -> Poller -> Prop :=
| ps_start a b c d f ctx p : poller_step p (snd (Start a b c d f ctx p))
| ps_err p : poller_step p (snd (Err p))
| ps_err_for i p : poller_step p (snd (ErrFor i p))
| ps_failed i c e p : cycles p !! i = Some c -> ticking c = true -> poller_step p (tick_failed i e p)
| ps_close i c p : cycles p !! i = Some c -> poller_step p (close_done i p)
| ps_stop p : stopping p = false -> poller_step p (stop_begin p)
| ps_idle p : stopping p = true -> joining p = None -> poller_step p (snd (stop_idle p))
| ps_joined i c p : stopping p = true -> joining p = Some i -> cycles p !! i = Some c ->
    cy_closed c = true -> poller_step p (snd (stop_joined i p)).
Definition poller_run : Poller -> Poller -> Prop := rtc poller_step.

(** ** Cycles keep their error *)
Lemma cycles_update i f p : cycles (update i f p) = alter f i (cycles p).
Proof. done. Qed.
Lemma cycles_mark i p :
  cycles (mark_read i p) =
  match i with Some i => alter (fun c => c <| cy_errRead := true |>) i (cycles p) | None => cycles p end.
Proof. by destruct i. Qed.

Lemma length_update i f p : length (cycles (update i f p)) = length (cycles p).
Proof. rewrite cycles_update. apply length_alter. Qed.
Lemma length_mark i p : length (cycles (mark_read i p)) = length (cycles p).
Proof. destruct i; [apply length_update|done]. Qed.

(** What a step does to one cycle: nothing, or its own updates; its error is
    only written by a tick that could still fail. *)
Inductive cycle_later (c : pollerCycle) : pollerCycle -> Prop :=
| later_read : cycle_later c (c <| cy_errRead := true |>)
| later_same : cycle_later c c
| later_failed e : ticking c = true -> cycle_later c (c <| cy_err := Some e |> <| cy_running := false |>)
| later_closed : cycle_later c (c <| cy_closed := true |>)
| later_stopped : cy_closed c = true ->
    cycle_later c (c <| cy_running := false |> <| cy_stopped := true |>).

Lemma alter_later (f : pollerCycle -> pollerCycle) (i j : nat) (l : list pollerCycle) c :
  l !! j = Some c -> (j = i -> cycle_later c (f c)) ->
  exists c', alter f i l !! j = Some c' /\ cycle_later c c'.
Proof.
  intros Hj Hf. destruct (decide (j = i)) as [->|Hne].
  - exists (f c). rewrite list_lookup_alter_eq, Hj. split; [done|by apply Hf].
  - exists c. rewrite list_lookup_alter_ne by done. split; [done|constructor].
Qed.
Lemma mark_later i p j c :
  cycles p !! j = Some c -> exists c', cycles (mark_read i p) !! j = Some c' /\ cycle_later c c'.
Proof.
  intros Hj. rewrite cycles_mark. destruct i as [i|].
  - apply alter_later; [done|constructor].
  - exists c. split; [done|apply later_same].
Qed.

Definition opened (p : Poller) : Poller :=
  p <| cycles := cycles p ++ [new_cycle] |> <| activeCycle := Some (length (cycles p)) |>
    <| p_done := Some (length (cycles p)) |> <| p_running := true |> <| shutdown := false |>
    <| lastErr := None |>.
Lemma Start_cases a b c d f ctx p :
  snd (Start a b c d f ctx p) = p \/
  (active_running p = false /\ stopping p = false /\ snd (Start a b c d f ctx p) = opened p).
Proof.
  unfold Start. destruct (negb a); [by left|]. destruct (b || _); [by left|]. destruct (negb d); [by left|].
  destruct f; [by left|]. destruct (active_running p), (p_running p), (stopping p); try by left.
  destruct ctx; [by left|]. by right.
Qed.

Lemma step_later p p' j c :
  poller_step p p' -> cycles p !! j = Some c ->
  exists c', cycles p' !! j = Some c' /\ cycle_later c c'.
Proof.
  intros Hs Hj. pose proof (ex_intro (fun c' => cycles p !! j = Some c' /\ cycle_later c c') c
    (conj Hj (later_same c))) as Hsame.
  destruct Hs as [a b c0 d f ctx p|p|i p|i c0 e p Hi Ht|i c0 p Hi|p _|p _ _|i c0 p _ _ Hi Hcl]; try exact Hsame.
  - destruct (Start_cases a b c0 d f ctx p) as [->|(_ & _ & ->)]; [exact Hsame|].
    exists c. split; [by apply lookup_app_l_Some|apply later_same].
  - unfold Err. repeat case_match; try exact Hsame; by apply mark_later.
  - unfold ErrFor. repeat case_match; try exact Hsame. by apply mark_later.
  - cbn. apply alter_later; [done|]. intros ->. rewrite Hi in Hj. injection Hj as ->. by constructor.
  - cbn. apply alter_later; [done|constructor].
  - cbn. apply alter_later; [done|]. intros ->. rewrite Hi in Hj. injection Hj as ->. by constructor.
Qed.

Lemma later_err c c' e : cycle_later c c' -> cy_err c = Some e -> cy_err c' = Some e.
Proof. intros [] He; cbn; try done. unfold ticking in *. by rewrite He, andb_false_r in *. Qed.

(** the error of a cycle is bound to its done channel: once a tick has
    failed, [ErrFor] on the channel of that cycle returns that error, whatever
    is started, stopped or read afterwards. *)
Theorem cycle_error_is_kept p p' i c e :
  poller_run p p' -> cycles p !! i = Some c -> cy_err c = Some e -> fst (ErrFor (Some i) p') = Some e.
Proof.
  intros Hr. revert c. induction Hr as [p|p1 p2 p3 Hs _ IH]; intros c Hc He.
  - cbn. by rewrite Hc.
  - destruct (step_later _ _ _ _ Hs Hc) as (c' & Hc' & Hl). eapply IH; [exact Hc'|]. by eapply later_err.
Qed.

(** ** One cycle at a time *)
Record poller_inv (p : Poller) : Prop := {
  pi_active : forall i c, cycles p !! i = Some c -> ticking c = true ->
    activeCycle p = Some i /\ cy_running c = true;
  pi_joining : forall i, joining p = Some i -> activeCycle p = Some i /\ stopping p = true }.

Lemma later_ticking c c' : cycle_later c c' -> ticking c' = true -> ticking c = true /\ cy_running c' = cy_running c.
Proof.
  unfold ticking. intros [] Ht; cbn in *; try done.
  - by rewrite andb_false_r in Ht.
  - rewrite H in Ht. done.
Qed.
Lemma step_opens p p' :
  poller_step p p' ->
  length (cycles p') = length (cycles p) \/
  (active_running p = false /\ stopping p = false /\ p' = opened p).
Proof.
  intros [a b c0 d f ctx q|q|j q|j c0 e q Hj Ht|j c0 q Hj|q _|q _ _|j c0 q _ _ Hj Hcl]; try (by left).
  - destruct (Start_cases a b c0 d f ctx q) as [->|H]; [by left|by right].
  - left. unfold Err.
    destruct (cycle_err (activeCycle q) q); [|destruct (cycle_err (prevCycle q) q); [destruct (cycle_read _ _)|]];
      cbn [snd]; by rewrite ?length_mark.
  - left. unfold ErrFor. destruct j as [j|]; [destruct (cycles q !! j)|]; cbn [snd]; by rewrite ?length_mark.
  - left. apply length_alter.
  - left. apply length_alter.
  - left. apply length_alter.
Qed.
Lemma step_fresh p p' i c :
  poller_step p p' -> cycles p' !! i = Some c -> cycles p !! i = None ->
  activeCycle p' = Some i /\ cy_running c = true.
Proof.
  intros Hs Hi Hn%lookup_ge_None. pose proof (lookup_lt_Some _ _ _ Hi) as Hlt.
  destruct (step_opens _ _ Hs) as [E|(Ha & Hst & ->)]; [lia|]. cbn in *.
  rewrite lookup_app_r in Hi by done. rewrite length_app in Hlt. cbn in Hlt.
  replace (i - length (cycles p)) with 0 in Hi by lia. injection Hi as <-. split; [f_equal; lia|done].
Qed.

Definition pointers (p : Poller) : option nat * option nat * bool :=
  (activeCycle p, joining p, stopping p).
Lemma pointers_mark i p : pointers (mark_read i p) = pointers p.
Proof. by destruct i. Qed.
Lemma pointers_read p p' :
  pointers p' = pointers p -> poller_inv p ->
  (forall i, joining p' = Some i -> activeCycle p' = Some i /\ stopping p' = true) /\
  (forall i, activeCycle p = Some i -> activeCycle p' = Some i \/ active_running p = false \/
     exists c, cycles p !! i = Some c /\ cy_closed c = true).
Proof. intros [= Ea Ej Es] [_ Hj]. rewrite Ea, Ej, Es. split; [exact Hj|intros ? ?; by left]. Qed.

(** What a step does to the pointers. *)
Lemma step_pointers p p' :
  poller_step p p' -> poller_inv p ->
  (forall i, joining p' = Some i -> activeCycle p' = Some i /\ stopping p' = true) /\
  (forall i, activeCycle p = Some i ->
     activeCycle p' = Some i \/ active_running p = false \/
     exists c, cycles p !! i = Some c /\ cy_closed c = true).
Proof.
  intros Hs Hinv. pose proof (pi_joining _ Hinv) as Hj.
  destruct Hs as [a b c0 d f ctx p|p|i p|i c0 e p Hi Ht|i c0 p Hi|p Hst|p Hst Hn|i c0 p Hst Hjn Hi Hcl].
  - destruct (Start_cases a b c0 d f ctx p) as [->|(Ha & Hst & ->)]; [split; [exact Hj|intros ? ?; by left]|]. cbn.
    split; [|intros ? ?; by right; left]. intros i Hi. destruct (Hj i Hi). congruence.
  - apply pointers_read; [|done]. unfold Err.
    destruct (cycle_err (activeCycle p) p); [|destruct (cycle_err (prevCycle p) p); [destruct (cycle_read _ _)|]];
      cbn [snd]; by rewrite ?pointers_mark.
  - apply pointers_read; [|done]. unfold ErrFor.
    destruct i as [i|]; [destruct (cycles p !! i)|]; cbn [snd]; by rewrite ?pointers_mark.
  - split; [exact Hj|intros ? ?; by left].
  - split; [exact Hj|intros ? ?; by left].
  - split; [by intros|intros ? ?; by left].
  - split; [cbn; congruence|intros ? ?; by left].
  - split; [done|]. intros k Hk. right; right. destruct (Hj i Hjn) as [Ha _].
    rewrite Hk in Ha. injection Ha as ->. by exists c0.
Qed.
Lemma poller_step_inv p p' : poller_step p p' -> poller_inv p -> poller_inv p'.
Proof.
  intros Hs Hinv. destruct (step_pointers _ _ Hs Hinv) as [Hj Hact]. split; [|exact Hj].
  intros i c Hi Ht. destruct (cycles p !! i) as [c0|] eqn:E.
  - destruct (step_later _ _ _ _ Hs E) as (c' & Hc' & Hl). rewrite Hi in Hc'. injection Hc' as <-.
    destruct (later_ticking _ _ Hl Ht) as [Ht0 Hrun]. destruct (pi_active _ Hinv _ _ E Ht0) as [Ha Hr].
    rewrite Hrun. split; [|done]. destruct (Hact i Ha) as [H|[H|(c1 & H1 & H2)]]; [done| |].
    + unfold active_running, cycle in H. rewrite Ha, E in H. congruence.
    + rewrite E in H1. injection H1 as <-. unfold ticking in Ht0. by rewrite H2 in Ht0.
  - by destruct (step_fresh _ _ _ _ Hs Hi E).
Qed.

(** at most one goroutine of a poller can tick: however [Start] and [Stop]
    are called, and whenever cycles fail, end or are restarted, two cycles that
    can still tick are the same one, and it is the active one. *)
Theorem one_ticking_cycle p i j c1 c2 :
  poller_run new_poller p -> cycles p !! i = Some c1 -> cycles p !! j = Some c2 ->
  ticking c1 = true -> ticking c2 = true -> i = j /\ activeCycle p = Some i.
Proof.
  intros Hr H1 H2 T1 T2.
  assert (poller_inv p) as Hinv.
  { assert (poller_inv new_poller) as H0 by by split.
    clear - Hr H0. unfold poller_run in Hr. induction Hr as [|p1 p2 p3 Hs _ IH]; [done|].
    apply IH. by eapply poller_step_inv. }
  destruct (pi_active _ Hinv _ _ H1 T1), (pi_active _ Hinv _ _ H2 T2). split; congruence.
Qed.

(** ** A restart that masks the error *)
Definition failure : goerr := NewError "database is locked".
Definition start_now (p : Poller) : Poller := snd (Start true false true true false None p).
Definition first_failed : Poller := close_done 0 (tick_failed 0 failure (start_now new_poller)).
Definition restarted_poller : Poller := start_now first_failed.
Lemma first_failed_run : poller_run new_poller first_failed.
Proof.
  eapply rtc_l; [apply (ps_start true false true true false None)|].
  eapply rtc_l; [by apply (ps_failed 0 new_cycle failure)|].
  eapply rtc_l; [by eapply (ps_close 0)|]. apply rtc_refl.
Qed.
Lemma restarted_poller_run : poller_run first_failed restarted_poller.
Proof. eapply rtc_l; [apply (ps_start true false true true false None)|apply rtc_refl]. Qed.

(** a poller restarted after a failed cycle, without a [Stop] in between,
    loses the error: [Err] is nil although nobody has read the error of the
    first cycle, which only [ErrFor] still knows. *)
Theorem restart_masks_error :
  poller_run new_poller restarted_poller /\
  cycle_read (Some 0) restarted_poller = false /\ cycle_err (Some 0) restarted_poller = Some failure /\
  fst (Err restarted_poller) = None /\ fst (ErrFor (Some 0) restarted_poller) = Some failure.
Proof.
  split; [etransitivity; [apply first_failed_run|apply restarted_poller_run]|]. vm_compute. by split_and!.
Qed.

Lemma cycle_error_is_kept_witness : fst (ErrFor (Some 0) restarted_poller) = Some failure.
Proof.
  exact (cycle_error_is_kept first_failed restarted_poller 0 _ failure restarted_poller_run eq_refl eq_refl).
Defined.
Lemma one_ticking_cycle_witness : activeCycle restarted_poller = Some 1.
Proof.
  refine (proj2 (one_ticking_cycle restarted_poller 1 1 new_cycle new_cycle _ eq_refl eq_refl eq_refl eq_refl)).
  etransitivity; [apply first_failed_run|apply restarted_poller_run].
Defined.
