(* ===== verification/PipeServer.v ===== *)
(** * PipeServer: the named pipe of the host (internal/host/pipe_windows.go) and
    the stop callback of cmd/supervisor/main.go

    A handler is one goroutine of [handleClient]; it runs on an operating system
    thread, and the token it impersonates belongs to the thread, not to it.
    [ImpersonateNamedPipeClient], [OpenThreadToken] and [RevertToSelf] are
    separate system calls on whatever thread runs the goroutine at that moment.
    The callback is the closure of [runDaemon] that reads and sets [stopOnce]
    and closes [stopTriggered].  The JSON decoder is a parameter. *)

From stdpp Require Import relations.
From S2P Require Import Prelude.

Record PipeMessageRequest := mkPipeMessageRequest { pq_Action : string; pq_CallerInstanceID : string }.

Inductive pipe_status : Type := RUNNING | STOP_ACKNOWLEDGED | UNAUTHORIZED | ERROR.
#[export] Instance pipe_status_eq_dec : EqDecision pipe_status.
Proof. solve_decision. Defined.

(** Where a handler stands. *)
Inductive hstate : Type :=
| HConnected                  (* before ReadFile *)
| HRead                       (* request read, before ImpersonateNamedPipeClient *)
| HImpersonating              (* before OpenThreadToken *)
| HToken (sid : string)       (* callerSID read, before RevertToSelf *)
| HReverted (sid : string)    (* before the SID comparison and the decoding *)
| HCallback                   (* OnStopRequested entered: before reading stopOnce *)
| HMarking                    (* stopOnce was false: before setting it *)
| HClosing                    (* stopOnce set: before close(stopTriggered) *)
| HAnswered (r : option pipe_status). (* None: connection closed without a response *)

(** The client's token user, what it sent, and the goroutine's thread. *)
Record handler := mkhandler {
  hd_client : string; hd_bytes : string; hd_thread : nat; hd_state : hstate }.

(** [imp !! t] is the user thread [t] impersonates, if any. *)
Record server := mkserver {
  sv_handlers : list handler; sv_imp : list (option string); sv_stopOnce : bool;
  sv_stopTriggered : bool; sv_panicked : bool }.

Section Server.
Context (Unmarshal : string -> option PipeMessageRequest) (ServerSID : string).

(** The SID comparison and the switch on the action. *)
Definition dispatch_request (sid bytes : string) : hstate :=
  if sid != ServerSID then HAnswered (Some UNAUTHORIZED)
  else match Unmarshal bytes with
       | None => HAnswered (Some ERROR)
       | Some req =>
           if pq_Action req == "STATUS" then HAnswered (Some RUNNING)
           else if pq_Action req == "TAKEOVER" then HCallback
           else HAnswered (Some ERROR)
       end.

(** The deferred [RevertToSelf], when a handler that impersonated returns. *)
Definition leave (thread : nat) (st : hstate) (imp : list (option string)) : list (option string) :=
  match st with HAnswered _ => <[thread := None]> imp | _ => imp end.

(** One step of a handler on the rest of the server: its state and the new
    impersonation, [stopOnce], [stopTriggered] and panic flag. *)
Inductive handler_step (h : handler) (imp : list (option string)) (once closed : bool) :
    hstate -> list (option string) -> bool -> bool -> bool -> Prop :=
| read_failed : hd_state h = HConnected ->
    handler_step h imp once closed (HAnswered None) imp once closed false
| read_request : hd_state h = HConnected ->
    handler_step h imp once closed HRead imp once closed false
| impersonate_failed : hd_state h = HRead ->
    handler_step h imp once closed (HAnswered (Some UNAUTHORIZED)) imp once closed false
| impersonate : hd_state h = HRead ->
    handler_step h imp once closed HImpersonating (<[hd_thread h := Some (hd_client h)]> imp) once closed false
| token_failed : hd_state h = HImpersonating ->
    handler_step h imp once closed (HAnswered (Some UNAUTHORIZED)) (<[hd_thread h := None]> imp) once closed false
| token_read sid : hd_state h = HImpersonating -> imp !! hd_thread h = Some (Some sid) ->
    handler_step h imp once closed (HToken sid) imp once closed false
| revert sid : hd_state h = HToken sid ->
    handler_step h imp once closed (HReverted sid) (<[hd_thread h := None]> imp) once closed false
| dispatched sid : hd_state h = HReverted sid ->
    handler_step h imp once closed (dispatch_request sid (hd_bytes h))
      (leave (hd_thread h) (dispatch_request sid (hd_bytes h)) imp) once closed false
| callback_again : hd_state h = HCallback -> once = true ->
    handler_step h imp once closed (HAnswered (Some STOP_ACKNOWLEDGED)) (<[hd_thread h := None]> imp) once closed false
| callback_first : hd_state h = HCallback -> once = false ->
    handler_step h imp once closed HMarking imp once closed false
| callback_mark : hd_state h = HMarking ->
    handler_step h imp once closed HClosing imp true closed false
| callback_close : hd_state h = HClosing -> closed = false ->
    handler_step h imp once closed (HAnswered (Some STOP_ACKNOWLEDGED)) (<[hd_thread h := None]> imp) once true false
| callback_panic : hd_state h = HClosing -> closed = true ->
    handler_step h imp once closed (HAnswered None) (<[hd_thread h := None]> imp) once closed true.

(** The scheduler may resume a goroutine on another thread at any moment:
    nothing in the code ties a handler to the thread it impersonates on. *)
Inductive server_step : server -> server -> Prop :=
| ss_handler i h st imp imp' once once' closed closed' boom hs :
    hs !! i = Some h -> handler_step h imp once closed st imp' once' closed' boom ->
    server_step (mkserver hs imp once closed false)
      (mkserver (<[i := mkhandler (hd_client h) (hd_bytes h) (hd_thread h) st]> hs) imp' once' closed' boom)
| ss_migrate i h t hs imp once closed :
    hs !! i = Some h -> t < length imp ->
    server_step (mkserver hs imp once closed false)
      (mkserver (<[i := mkhandler (hd_client h) (hd_bytes h) t (hd_state h)]> hs) imp once closed false).
Definition server_run : server -> server -> Prop := rtc server_step.

(** Clients [(sid, request)] connected, each handler on a thread of its own. *)
Definition serving (clients : list (string * string)) : server :=
  mkserver (imap (fun t c => mkhandler (fst c) (snd c) t HConnected) clients)
    (map (fun _ => None) clients) false false false.

(** ** Whom the server obeys *)
Section Clients.
Context (clients : list (string * string)).

(** A client that runs as user [sid] has connected. *)
Definition connected_as (sid : string) : Prop := exists j bytes, clients !! j = Some (sid, bytes).
Definition asks_takeover (bytes : string) : Prop :=
  exists req, Unmarshal bytes = Some req /\ pq_Action req = "TAKEOVER"%string.

(** What is known of a handler, wherever it runs: a user it has read from a
    thread is one of the clients. *)
Definition handler_ok (h : handler) : Prop :=
  match hd_state h with
  | HToken sid | HReverted sid => connected_as sid
  | HCallback | HMarking | HClosing | HAnswered (Some STOP_ACKNOWLEDGED) =>
      connected_as ServerSID /\ asks_takeover (hd_bytes h)
  | HAnswered (Some RUNNING) => connected_as ServerSID
  | _ => True
  end.

Record server_inv (s : server) : Prop := {
  si_clients : forall i h, sv_handlers s !! i = Some h -> clients !! i = Some (hd_client h, hd_bytes h);
  si_threads : forall t sid, sv_imp s !! t = Some (Some sid) -> connected_as sid;
  si_handlers : forall i h, sv_handlers s !! i = Some h -> handler_ok h;
  si_stop : sv_stopOnce s = true \/ sv_stopTriggered s = true ->
    connected_as ServerSID /\ exists i h, sv_handlers s !! i = Some h /\ asks_takeover (hd_bytes h) }.

Lemma dispatch_request_ok h sid :
  connected_as sid ->
  handler_ok (mkhandler (hd_client h) (hd_bytes h) (hd_thread h) (dispatch_request sid (hd_bytes h))).
Proof.
  intros Hc. unfold dispatch_request. destruct (sid == ServerSID) eqn:E; cbn [negb]; [|done].
  apply eqb_eq in E as ->. destruct (Unmarshal (hd_bytes h)) as [req|] eqn:Eu; [|done].
  destruct (pq_Action req == "STATUS"); [done|].
  destruct (pq_Action req == "TAKEOVER") eqn:Ea; [|done]. apply eqb_eq in Ea.
  split; [done|]. by exists req.
Qed.

Lemma unimpersonated imp t u sid :
  (<[t := None]> imp : list (option string)) !! u = Some (Some sid) -> imp !! u = Some (Some sid).
Proof. intros [(_ & ? & _)|[_ ?]]%list_lookup_insert_Some; done. Qed.

(** A step of a handler reads users of clients only, impersonates its own, and
    sets the stop flags only for a TAKEOVER. *)
Lemma handler_step_ok i h imp once closed st imp' once' closed' boom :
  handler_step h imp once closed st imp' once' closed' boom ->
  clients !! i = Some (hd_client h, hd_bytes h) -> handler_ok h ->
  (forall t sid, imp !! t = Some (Some sid) -> connected_as sid) ->
  handler_ok (mkhandler (hd_client h) (hd_bytes h) (hd_thread h) st) /\
  (forall t sid, imp' !! t = Some (Some sid) -> connected_as sid) /\
  (once' = true \/ closed' = true ->
     once = true \/ closed = true \/ connected_as ServerSID /\ asks_takeover (hd_bytes h)).
Proof.
  intros Hs Hc Hok Hi.
  assert (forall u, forall t sid, (<[u := None]> imp : list (option string)) !! t = Some (Some sid) ->
    connected_as sid) as Hn by (intros u t sid Hu; eapply Hi, unimpersonated; exact Hu).
  destruct Hs as [E|E|E|E|E|sid E Ht|sid E|sid E|E Eo|E Eo|E|E Ec|E Ec];
    unfold handler_ok in Hok; rewrite E in Hok; split_and!; try done; try tauto; try apply Hn.
  - intros t u [(_ & [= <-] & _)|[_ Hu]]%list_lookup_insert_Some; [by exists i, (hd_bytes h)|by eapply Hi].
  - by eapply Hi.
  - by apply dispatch_request_ok.
  - unfold leave. case_match; try done. apply Hn.
Qed.

Lemma server_step_inv s s' : server_step s s' -> server_inv s -> server_inv s'.
Proof.
  intros Hs [I1 I2 I3 I4].
  destruct Hs as [i h st imp imp' once once' closed closed' boom hs Hi Hh|i h t hs imp once closed Hi Ht]; cbn in *.
  - destruct (handler_step_ok i _ _ _ _ _ _ _ _ _ Hh (I1 i h Hi) (I3 i h Hi) I2) as (Hok & Himp & Hstop).
    split; cbn; try done.
    + intros j k [(<- & <- & _)|[_ Hj]]%list_lookup_insert_Some; [exact (I1 _ _ Hi)|by eapply I1].
    + intros j k [(<- & <- & _)|[_ Hj]]%list_lookup_insert_Some; [done|by eapply I3].
    + intros Hset. assert (connected_as ServerSID /\ exists j k, hs !! j = Some k /\ asks_takeover (hd_bytes k))
        as [Ho (j & k & Hj & Hw)].
      { destruct (Hstop Hset) as [?|[?|[? ?]]]; [apply I4; by left|apply I4; by right|].
        split; [done|by exists i, h]. }
      split; [done|]. destruct (decide (i = j)) as [<-|Hne].
      * eexists i, _. rewrite list_lookup_insert_eq by (by eapply lookup_lt_Some). split; [done|].
        cbn. rewrite Hi in Hj. by injection Hj as <-.
      * exists j, k. by rewrite list_lookup_insert_ne.
  - split; cbn; try done.
    + intros j k [(<- & <- & _)|[_ Hj]]%list_lookup_insert_Some; [exact (I1 _ _ Hi)|by eapply I1].
    + intros j k [(<- & <- & _)|[_ Hj]]%list_lookup_insert_Some; [exact (I3 _ _ Hi)|by eapply I3].
    + intros Hset. destruct (I4 Hset) as [Ho (j & k & Hj & Hw)]. split; [done|].
      destruct (decide (i = j)) as [<-|Hne].
      * eexists i, _. rewrite list_lookup_insert_eq by (by eapply lookup_lt_Some). split; [done|].
        cbn. rewrite Hi in Hj. by injection Hj as <-.
      * exists j, k. by rewrite list_lookup_insert_ne.
Qed.

Lemma serving_inv : server_inv (serving clients).
Proof.
  unfold serving. split; cbn.
  - intros i h. rewrite list_lookup_imap. intros Hi.
    destruct (clients !! i) as [[c b]|]; cbn in *; by simplify_eq.
  - intros t sid. rewrite list_lookup_fmap. by destruct (clients !! t).
  - intros i h. rewrite list_lookup_imap. intros Hi. destruct (clients !! i); cbn in *; by simplify_eq.
  - by intros [].
Qed.

Lemma server_run_inv s : server_run (serving clients) s -> server_inv s.
Proof.
  intros Hr. cut (forall a, server_run a s -> server_inv a -> server_inv s).
  { intros H. apply (H _ Hr), serving_inv. }
  clear Hr. induction 1 as [|s1 s2 s3 Hs _ IH]; [done|]. intros Hi. by eapply IH, server_step_inv.
Qed.
End Clients.

(** C24: The pipe takes no orders while its owner is away.  Whatever the clients
    send, whichever system call fails, however the handlers interleave and
    wherever the scheduler resumes them: the daemon is told to stop only if a
    client has sent TAKEOVER and a client, the same or another, runs as the
    daemon's own user; a handler answers RUNNING only in the presence of such a
    client, and STOP_ACKNOWLEDGED only, besides, to a TAKEOVER of its own
    client.  ([stranger_takes_over]: it need not be the client that asked.) *)
Theorem takeover_needs_owner (clients : list (string * string)) (s : server) :
  server_run (serving clients) s ->
  (sv_stopTriggered s = true ->
     connected_as clients ServerSID /\
     exists i sid bytes, clients !! i = Some (sid, bytes) /\ asks_takeover bytes) /\
  (forall i h r, sv_handlers s !! i = Some h -> hd_state h = HAnswered (Some r) ->
     r = RUNNING \/ r = STOP_ACKNOWLEDGED ->
     connected_as clients ServerSID /\
     exists sid bytes, clients !! i = Some (sid, bytes) /\ (r = STOP_ACKNOWLEDGED -> asks_takeover bytes)).
Proof.
  intros Hr. destruct (server_run_inv _ _ Hr) as [I1 I2 I3 I4]. split.
  - intros Ht. destruct (I4 (or_intror Ht)) as [Ho (i & h & Hi & Hw)]. split; [done|].
    exists i, (hd_client h), (hd_bytes h). split; [by apply I1|done].
  - intros i h r Hi Es Hrr. specialize (I3 i h Hi). unfold handler_ok in I3. rewrite Es in I3.
    assert (connected_as clients ServerSID /\ (r = STOP_ACKNOWLEDGED -> asks_takeover (hd_bytes h))) as [Ho Hw]
      by (destruct Hrr as [->| ->]; [by split|destruct I3; by split]).
    split; [done|]. exists (hd_client h), (hd_bytes h). split; [by apply I1|done].
Qed.
End Server.

(** ** What interleaving allows *)

Definition sample_unmarshal (bytes : string) : option PipeMessageRequest :=
  if in_list bytes ["STATUS"; "TAKEOVER"]%string then Some (mkPipeMessageRequest bytes "cli") else None.

Ltac serve i step :=
  eapply rtc_l; [eapply (ss_handler _ _ i); [reflexivity|now eapply step]|]; cbn.
Ltac migrate_to i t :=
  eapply rtc_l; [eapply (ss_migrate _ _ i _ t); [reflexivity|cbn; lia]|]; cbn.

(** The state in which the stranger, whose TAKEOVER was read on the thread that
    impersonates the owner, has been obeyed. *)
Definition taken_over : server :=
  mkserver
    [mkhandler "owner" "STATUS" 0 HImpersonating;
     mkhandler "stranger" "TAKEOVER" 0 (HAnswered (Some STOP_ACKNOWLEDGED))]
    [None; Some "stranger"%string] true true false.

(** The impersonated token belongs to the operating system thread, and the
    handler is not locked to one: resumed on a thread that impersonates the
    owner, the handler of another user's TAKEOVER reads the owner's SID, is
    authorised and stops the daemon. *)
Theorem stranger_takes_over :
  server_run sample_unmarshal "owner" (serving [("owner", "STATUS"); ("stranger", "TAKEOVER")]%string)
    taken_over /\
  sv_stopTriggered taken_over = true /\
  (forall req, sample_unmarshal "STATUS" = Some req -> pq_Action req <> "TAKEOVER"%string).
Proof.
  split; [|split; [done|intros req [= <-]; done]]. unfold serving. cbn.
  serve 0 read_request. serve 1 read_request. serve 0 impersonate. serve 1 impersonate.
  migrate_to 1 0. serve 1 token_read. serve 1 revert. serve 1 dispatched.
  serve 1 callback_first. serve 1 callback_mark. serve 1 callback_close. apply rtc_refl.
Qed.

(** Two handlers of the owner: both read [stopOnce] before either sets it. *)
Definition crashed : server :=
  mkserver
    [mkhandler "owner" "TAKEOVER" 0 (HAnswered (Some STOP_ACKNOWLEDGED));
     mkhandler "owner" "TAKEOVER" 1 (HAnswered None)]
    [None; None] true true true.

(** [stopOnce] is read and set without a lock by the handlers: two TAKEOVER
    requests at once, each on its own thread, close the channel twice, and the
    daemon panics instead of draining. *)
Theorem two_takeovers_panic :
  server_run sample_unmarshal "owner" (serving [("owner", "TAKEOVER"); ("owner", "TAKEOVER")]%string)
    crashed /\
  sv_panicked crashed = true.
Proof.
  split; [|done]. unfold serving. cbn.
  serve 0 read_request. serve 1 read_request. serve 0 impersonate. serve 1 impersonate.
  serve 0 token_read. serve 1 token_read. serve 0 revert. serve 1 revert.
  serve 0 dispatched. serve 1 dispatched. serve 0 callback_first. serve 1 callback_first.
  serve 0 callback_mark. serve 1 callback_mark. serve 0 callback_close. serve 1 callback_panic.
  apply rtc_refl.
Qed.

Definition stopped_server : server :=
  mkserver [mkhandler "owner" "TAKEOVER" 0 (HAnswered (Some STOP_ACKNOWLEDGED))] [None] true true false.

Lemma stopped_run :
  server_run sample_unmarshal "owner" (serving [("owner", "TAKEOVER")]%string) stopped_server.
Proof.
  unfold serving. cbn. serve 0 read_request. serve 0 impersonate. serve 0 token_read. serve 0 revert.
  serve 0 dispatched. serve 0 callback_first. serve 0 callback_mark. serve 0 callback_close. apply rtc_refl.
Qed.

Lemma takeover_needs_owner_witness :
  sv_stopTriggered stopped_server = true /\
  connected_as [("owner", "TAKEOVER")]%string "owner" /\
  exists i sid bytes, [("owner", "TAKEOVER")]%string !! i = Some (sid, bytes) /\
    asks_takeover sample_unmarshal bytes.
Proof.
  split; [reflexivity|].
  exact (proj1 (takeover_needs_owner sample_unmarshal "owner" _ _ stopped_run) eq_refl).
Defined.

(** ** The client side *)

Record PipeMessageResponse := mkPipeMessageResponse {
  pr_Status : string; pr_InstanceID : string; pr_PID : Z; pr_Error : string }.
Definition pipe_status_string (s : pipe_status) : string :=
  match s with
  | RUNNING => "RUNNING" | STOP_ACKNOWLEDGED => "STOP_ACKNOWLEDGED"
  | UNAUTHORIZED => "UNAUTHORIZED" | ERROR => "ERROR"
  end.

Inductive pipe_error : Type :=
| PipeFailed                        (* connecting, writing, reading or decoding *)
| ErrUnauthorizedCaller (text : string)
| TakeoverRejected (text : string)
| UnexpectedStatus (status : string).

(** [sendPipeRequest], given what came back on the pipe. *)
Definition sendPipeRequest (received : option PipeMessageResponse) : pipe_error + PipeMessageResponse :=
  match received with
  | None => inl PipeFailed
  | Some resp =>
      if pr_Status resp == "UNAUTHORIZED" then inl (ErrUnauthorizedCaller (pr_Error resp)) else inr resp
  end.
Definition RequestPipeStatus := sendPipeRequest.
Definition RequestPipeTakeover (received : option PipeMessageResponse) : pipe_error + PipeMessageResponse :=
  match sendPipeRequest received with
  | inl e => inl e
  | inr resp =>
      if pr_Status resp != "STOP_ACKNOWLEDGED" then
        if pr_Status resp == "ERROR" then inl (TakeoverRejected (pr_Error resp))
        else if pr_Status resp == "UNAUTHORIZED" then inl (ErrUnauthorizedCaller (pr_Error resp))
        else inl (UnexpectedStatus (pr_Status resp))
      else inr resp
  end.

(** A takeover succeeds for the client exactly when the server acknowledged it. *)
Lemma takeover_acknowledged received resp :
  RequestPipeTakeover received = inr resp <->
  received = Some resp /\ pr_Status resp = pipe_status_string STOP_ACKNOWLEDGED.
Proof.
  unfold RequestPipeTakeover, sendPipeRequest. split.
  - destruct received as [r|]; [|done]. destruct (pr_Status r == "UNAUTHORIZED"); [done|].
    destruct (pr_Status r == "STOP_ACKNOWLEDGED") eqn:E; cbn [negb].
    + intros [= <-]. apply eqb_eq in E. by split.
    + by repeat case_match.
  - intros [-> E]. destruct resp as [st id pid er]. cbn in E. subst st. reflexivity.
Qed.
