(* ===== verification/PipeListener.v ===== *)
(** * PipeListener: the accept loop of the named pipe and its end

    [StartNamedPipeServer], [serveLoop] and [Close] of
    internal/host/pipe_windows.go, interleaved with the clients that connect.
    [serveLoop] waits on one pipe instance at a time; [Close] marks the server
    closed, closes [stopCh] and connects a dummy client to wake the loop, each
    a step of its own.  What a handler does with its client is PipeServer.v. *)

From stdpp Require Import relations.
From S2P Require Import Prelude.

(** Who is on the other end of an instance. *)
Inductive peer : Type := Client (id : nat) | Dummy.
#[export] Instance peer_eq_dec : EqDecision peer.
Proof. solve_decision. Defined.

(** The instance [currentH] names: none (an invalid or closed handle), one a
    client may connect to, or one that a client has connected to. *)
Inductive instance : Type := NoInstance | Listening | Connected (p : peer).

(** Where [serveLoop] stands. *)
Inductive loop_state : Type :=
| LAccepting            (* in ConnectNamedPipe *)
| LAccepted (p : peer)  (* before reading s.closed *)
| LHandling (p : peer)  (* isClosed was false: before [go s.handleClient] *)
| LStopCheck            (* the select with a default *)
| LCreating             (* before CreateNamedPipe *)
| LBackoff              (* in the select with the 50 ms timer *)
| LReturned.

(** Where the caller of [Close] stands. *)
Inductive close_state : Type := CIdle | CMarked | CStopped | CDone.

(** [ls_handled] lists the peers given to a handler, each with whether the
    server was closed by then. *)
Record listener := mklistener {
  ls_instance : instance; ls_loop : loop_state; ls_close : close_state;
  ls_closed : bool; ls_stopCh : bool; ls_handled : list (peer * bool) }.
#[export] Instance listener_settable : Settable listener := fun s =>
  mklistener (ls_instance s) (ls_loop s) (ls_close s) (ls_closed s) (ls_stopCh s) (ls_handled s).

(** [StartNamedPipeServer]: the SID of the process, the pipe name in UTF-16 and
    the first instance, created before it returns. *)
Definition StartNamedPipeServer (sid utf16 create : bool) : option listener :=
  if sid && utf16 && create then Some (mklistener Listening LAccepting CIdle false false []) else None.

Inductive actor : Type := ByClient | ByLoop | ByClose | BySystem.

Inductive listener_step (s : listener) : actor -> listener -> Prop :=
| client_connects id : ls_instance s = Listening ->
    listener_step s ByClient (s <| ls_instance := Connected (Client id) |>)
(* ConnectNamedPipe waits on a listening instance, and fails on a handle that is
   not valid or whose client has gone. *)
| connect_failed : ls_loop s = LAccepting -> ls_instance s <> Listening ->
    listener_step s ByLoop (s <| ls_loop := LStopCheck |> <| ls_instance := NoInstance |>)
(* The wait on a listening instance is broken off by the system. *)
| connect_broken : ls_loop s = LAccepting -> ls_instance s = Listening ->
    listener_step s BySystem (s <| ls_loop := LStopCheck |> <| ls_instance := NoInstance |>)
| connected p : ls_loop s = LAccepting -> ls_instance s = Connected p ->
    listener_step s ByLoop (s <| ls_loop := LAccepted p |> <| ls_instance := NoInstance |>)
| accepted_closed p : ls_loop s = LAccepted p -> ls_closed s = true ->
    listener_step s ByLoop (s <| ls_loop := LReturned |>)
| accepted_open p : ls_loop s = LAccepted p -> ls_closed s = false ->
    listener_step s ByLoop (s <| ls_loop := LHandling p |>)
| handled p : ls_loop s = LHandling p ->
    listener_step s ByLoop
      (s <| ls_loop := LStopCheck |> <| ls_handled := ls_handled s ++ [(p, ls_closed s)] |>)
| stop_seen : ls_loop s = LStopCheck \/ ls_loop s = LBackoff -> ls_stopCh s = true ->
    listener_step s ByLoop (s <| ls_loop := LReturned |>)
| stop_unseen : ls_loop s = LStopCheck -> ls_stopCh s = false ->
    listener_step s ByLoop (s <| ls_loop := LCreating |>)
| created : ls_loop s = LCreating ->
    listener_step s ByLoop (s <| ls_loop := LAccepting |> <| ls_instance := Listening |>)
| create_failed : ls_loop s = LCreating ->
    listener_step s ByLoop (s <| ls_loop := LBackoff |>)
| backoff_elapsed : ls_loop s = LBackoff ->
    listener_step s ByLoop (s <| ls_loop := LAccepting |>)
| close_marks : ls_close s = CIdle ->
    listener_step s ByClose (s <| ls_close := CMarked |> <| ls_closed := true |>)
| close_stops : ls_close s = CMarked ->
    listener_step s ByClose (s <| ls_close := CStopped |> <| ls_stopCh := true |>)
| dummy_connects : ls_close s = CStopped -> ls_instance s = Listening ->
    listener_step s ByClose (s <| ls_close := CDone |> <| ls_instance := Connected Dummy |>)
| dummy_refused : ls_close s = CStopped -> ls_instance s <> Listening ->
    listener_step s ByClose (s <| ls_close := CDone |>).

Definition any_step (s s' : listener) : Prop := exists who, listener_step s who s'.
Definition loop_step (s s' : listener) : Prop := listener_step s ByLoop s'.
Definition listener_run : listener -> listener -> Prop := rtc any_step.

(** ** What Close guarantees *)

(** What [StartNamedPipeServer] leaves running. *)
Definition listening : listener := mklistener Listening LAccepting CIdle false false [].

(** The peers handed over after the server was closed. *)
Definition late (s : listener) : list peer := map fst (List.filter snd (ls_handled s)).
Definition handling (s : listener) : bool := match ls_loop s with LHandling _ => true | _ => false end.

Record listener_inv (s : listener) : Prop := mklistener_inv {
  li_closed : ls_closed s = true <-> ls_close s <> CIdle;
  li_stop : ls_stopCh s = true <-> ls_close s = CStopped \/ ls_close s = CDone;
  li_instance : ls_instance s <> NoInstance -> ls_loop s = LAccepting;
  li_late : length (late s) <= 1;
  li_none_late : handling s = true \/ ls_closed s = false -> late s = [];
  li_dummy : ls_instance s = Connected Dummy \/ ls_loop s = LAccepted Dummy -> ls_closed s = true;
  li_handling : ls_loop s <> LHandling Dummy;
  li_handled : forall c, ~ In (Dummy, c) (ls_handled s) }.

Lemma late_snoc (p : peer) (c : bool) (h : list (peer * bool)) :
  map fst (List.filter snd (h ++ [(p, c)])) = map fst (List.filter snd h) ++ (if c then [p] else []).
Proof. rewrite List.filter_app, map_app. by destruct c. Qed.

Lemma listener_step_inv s who s' : listener_step s who s' -> listener_inv s -> listener_inv s'.
Proof.
  destruct s as [inst loop cl closed stop h]. intros Hs [I1 I2 I3 I4 I5 I6 I7 I8].
  destruct Hs; constructor; unfold handling, late in *; cbn in *; subst; cbn in *; try assumption;
    try solve [intuition congruence].
  all: rewrite ?late_snoc.
  - intros [?|[= ->]]; [done|]. apply I6. by left.
  - intros [= ->]. assert (false = true) by (apply I6; by right). done.
  - rewrite (I5 (or_introl eq_refl)). destruct closed; cbn; lia.
  - intros [?| ->]; [done|]. by rewrite (I5 (or_introl eq_refl)).
  - intros c [Hin|[Heq|[]]]%in_app_or; [by eapply I8|congruence].
Qed.

Lemma listening_inv : listener_inv listening.
Proof. constructor; cbn; try done; try (by intros []); try lia; split; try done; by intros []. Qed.

Lemma listener_run_inv s : listener_run listening s -> listener_inv s.
Proof.
  intros H. cut (forall a, listener_run a s -> listener_inv a -> listener_inv s); [intros X; by apply (X _ H), listening_inv|].
  clear H. induction 1 as [|a b c [who Hs] _ IH]; [done|]. intros Ha. apply IH. by eapply listener_step_inv.
Qed.

(** Once closed, and no hand-off under way, nobody is handed over again. *)
Lemma closed_step s who s' :
  listener_step s who s' -> ls_closed s = true -> handling s = false ->
  ls_closed s' = true /\ handling s' = false /\ ls_handled s' = ls_handled s.
Proof.
  intros Hs Hc Hh. unfold handling in *. destruct Hs; cbn in *; try done.
  - congruence.
  - by rewrite H in Hh.
Qed.

(** How many steps the loop has left after [Close], if it is left alone. *)
Definition steps_left (s : listener) : nat :=
  match ls_loop s, ls_instance s with
  | LReturned, _ | LAccepting, Listening => 0
  | LStopCheck, _ | LAccepted _, _ => 1
  | LAccepting, _ | LHandling _, _ => 2
  | LBackoff, _ => 3
  | LCreating, _ => 4
  end.
Definition waiting (s : listener) : bool :=
  match ls_loop s, ls_instance s with LAccepting, Listening => true | _, _ => false end.
Definition returned (s : listener) : bool := match ls_loop s with LReturned => true | _ => false end.

Lemma loop_step_decreases s s' :
  loop_step s s' -> ls_closed s = true -> ls_stopCh s = true ->
  ls_closed s' = true /\ ls_stopCh s' = true /\ steps_left s' < steps_left s.
Proof.
  unfold loop_step. intros Hs Hc Ht.
  destruct s as [inst loop cl closed stop h]. unfold steps_left.
  inversion Hs; subst; cbn in *; subst; split_and!; try done; try lia.
  - by destruct inst; try lia.
  - destruct H as [->| ->]; lia.
  - destruct inst; lia.
Qed.

Lemma loop_steps_bounded s : ls_closed s = true -> ls_stopCh s = true ->
  forall n s', nsteps loop_step n s s' -> n + steps_left s' <= steps_left s.
Proof.
  intros Hc Ht n s' Hn. revert Hc Ht. induction Hn as [|n a b c Hs _ IH]; intros Hc Ht; [lia|].
  destruct (loop_step_decreases _ _ Hs Hc Ht) as (? & ? & ?). specialize (IH ltac:(done) ltac:(done)). lia.
Qed.

(** A closed loop that cannot move has returned, or waits for a client. *)
Lemma loop_stuck s :
  ls_closed s = true -> ls_stopCh s = true -> (forall s', ~ loop_step s s') ->
  returned s = true \/ waiting s = true.
Proof.
  unfold returned, waiting, loop_step. intros Hc Ht Hn. destruct (ls_loop s) eqn:El.
  - destruct (ls_instance s) eqn:Ei; [|by right|].
    + edestruct Hn. apply connect_failed; [done|]. by rewrite Ei.
    + edestruct Hn. by eapply connected.
  - edestruct Hn. by eapply accepted_closed.
  - edestruct Hn. by eapply handled.
  - edestruct Hn. apply stop_seen; [by left|done].
  - edestruct Hn. by apply created.
  - edestruct Hn. apply stop_seen; [by right|done].
  - by left.
Qed.

(** C25: After [Close] the pipe serves nobody: from the moment the server is
    closed at most one client, for whom the loop had already read that it was
    open, is given to a handler, and the dummy client of [Close] never is; and
    once [Close] has returned the loop takes at most four more steps before it
    has returned too, or waits on an instance that no client uses. *)
Theorem closed_pipe_serves_nobody (s : listener) :
  listener_run listening s ->
  length (late s) <= 1 /\ (forall c, ~ In (Dummy, c) (ls_handled s)) /\
  (ls_closed s = true -> handling s = false ->
     forall s', listener_run s s' -> ls_handled s' = ls_handled s) /\
  (ls_close s = CDone ->
     (forall n s', nsteps loop_step n s s' -> n <= 4) /\
     ((forall s', ~ loop_step s s') -> returned s = true \/ waiting s = true)).
Proof.
  intros Hr. pose proof (listener_run_inv _ Hr) as []. split_and!; [done|done| |].
  - intros Hc Hh s' Hs. induction Hs as [|a b c [who Hab] _ IH]; [done|].
    destruct (closed_step _ _ _ Hab Hc Hh) as (Hc' & Hh' & <-).
    apply IH; try done; [by eapply rtc_r; [|exists who]|..]; by eapply listener_step_inv.
  - intros Hd. assert (ls_closed s = true) as Hc by (apply li_closed0; by rewrite Hd).
    assert (ls_stopCh s = true) as Ht by (apply li_stop0; by right). split.
    + intros n s' Hn. apply loop_steps_bounded in Hn; try done.
      assert (steps_left s <= 4) by (unfold steps_left; destruct (ls_loop s), (ls_instance s); lia). lia.
    + by apply loop_stuck.
Qed.

(** ** The loop can outlive Close *)

(** The state after [Close] ran between the loop's last look at [stopCh] and
    the creation of the next instance. *)
Definition outlived : listener := mklistener Listening LAccepting CDone true true [(Client 1, false)].

Ltac turn who step := eapply rtc_l; [exists who; eapply step; (reflexivity || done)|]; cbn.

Lemma outlived_run : listener_run listening outlived.
Proof.
  turn ByClient (client_connects listening 1). turn ByLoop connected. turn ByLoop accepted_open.
  turn ByLoop handled. turn ByLoop stop_unseen. turn ByClose close_marks. turn ByClose close_stops.
  turn ByClose dummy_refused. turn ByLoop created. apply rtc_refl.
Qed.

(** The dummy client of [Close] found no instance to connect to, and the loop
    then made one: [Close] has returned, the pipe still exists, and the loop
    waits until some client connects or the system breaks off its wait. *)
Theorem loop_outlives_close :
  listener_run listening outlived /\ ls_close outlived = CDone /\ waiting outlived = true /\
  forall who s', listener_step outlived who s' -> who = ByClient \/ who = BySystem.
Proof.
  split; [apply outlived_run|]. split_and!; [done|done|]. intros who s' Hs.
  inversion Hs; subst; cbn in *; try done; try (by left); try (by right); intuition congruence.
Qed.

Lemma closed_pipe_serves_nobody_witness :
  length (late outlived) <= 1 /\ (returned outlived = true \/ waiting outlived = true).
Proof.
  destruct (closed_pipe_serves_nobody outlived outlived_run) as (Hl & _ & _ & Hd).
  split; [exact Hl|]. apply (proj2 (Hd eq_refl)).
  intros s' Hs. now destruct (proj2 (proj2 (proj2 loop_outlives_close)) _ _ Hs).
Defined.
