(* ===== verification/Daemon.v ===== *)
(** * Daemon: the life of the process (cmd/supervisor/main.go)

    [runDaemon] from the flags to the end of the shutdown, as a program over
    the outcomes of the calls it makes (an [env]): every return is an early
    exit through the deferred cleanup, and everything that acquires, starts,
    stops or releases a resource leaves an event.  [replay] runs a trace of
    events against the resources held and refuses one that is out of order.
    The goroutines it starts are modelled where they live: Poller.v,
    RunnerGate.v, PipeServer.v, HostAuthority.v. *)

From S2P Require Import Prelude.
From S2P Require Import GoErr.
From S2P Require Import HostAuthority.

Inductive event : Type :=
| LeaseTaken | FileCreated | FilePinned | StoreOpened | ScanCompleted
| PollerStarted | MonitorStarted | PipeStarted | HTTPStarted | ReadyWritten
| PipeClosed | HTTPClosed | AdmissionClosed | CallersJoined
| PollerStopped | MonitorStopped | StoreClosed | MetadataCleaned | FileUnpinned | LeaseReleased.

Inductive lease_result : Type := LeaseOk | LeaseContended | LeaseFailed.
Inductive stat_result : Type := StatExists | StatNew | StatFailed.

(** What the calls of [runDaemon] return. *)
Record env := mkenv {
  e_Parse : bool; e_db : string; e_policies : Policies; e_Abs : bool; e_Stat : stat_result;
  e_Resolve : bool;                 (* ResolveNewDBPaths *)
  e_Lease : lease_result;           (* AcquireProcessOwnerLease *)
  e_Create : bool;                  (* CreateAndPinDB *)
  e_Prepare : bool;                 (* PrepareExistingDB *)
  e_Open : bool; e_Identity : bool;
  e_ao : option bool;               (* -ao-addr given: whether NewClient accepts it *)
  e_Scan : option bool;             (* Run: Complete, or an error *)
  e_Poller : bool; e_Pipe : bool; e_Listen : bool;
  e_ready : bool;                   (* -ready-signal-file given *)
  e_hold : option bool;             (* -test-hold-permit-duration given: whether the permit is issued *)
  e_late : bool;                    (* Drain timed out, its callers joined late *)
  e_close : resource -> option goerr }.

Inductive run_error : Type := RunFailed | SharingViolation.

(** The variables of the deferred cleanup, and the trace. *)
Record daemon := mkdaemon {
  cleanupOnEarlyErr : bool; d_store : bool; d_pinned : bool; d_lease : bool; d_trace : list event }.

Definition Body (A : Type) : Type := daemon -> (run_error + A) * daemon.
Definition ret {A} (x : A) : Body A := fun d => (inr x, d).
Definition bind {A B} (m : Body A) (k : A -> Body B) : Body B := fun d =>
  match m d with
  | (inl e, d) => (inl e, d)
  | (inr x, d) => k x d
  end.
Notation "m ;;; k" := (bind m (fun _ => k)) (at level 100, k at level 200, right associativity).
Definition fails {A} (e : run_error) : Body A := fun d => (inl e, d).
Definition emit (ev : event) : Body unit := fun d =>
  (inr tt, mkdaemon (cleanupOnEarlyErr d) (d_store d) (d_pinned d) (d_lease d) (d_trace d ++ [ev])).
Definition require (ok : bool) : Body unit := if ok then ret tt else fails RunFailed.

Definition take_lease (e : env) : Body unit :=
  match e_Lease e with
  | LeaseOk => fun d => emit LeaseTaken (mkdaemon (cleanupOnEarlyErr d) (d_store d) (d_pinned d) true (d_trace d))
  | LeaseContended => fails SharingViolation
  | LeaseFailed => fails RunFailed
  end.
Definition pin (ev : event) : Body unit := fun d =>
  emit ev (mkdaemon (cleanupOnEarlyErr d) (d_store d) true (d_lease d) (d_trace d)).
Definition opened : Body unit := fun d =>
  emit StoreOpened (mkdaemon (cleanupOnEarlyErr d) true (d_pinned d) (d_lease d) (d_trace d)).
Definition disarm : Body unit := fun d =>
  (inr tt, mkdaemon false (d_store d) (d_pinned d) (d_lease d) (d_trace d)).

(** Steps 1 and 2: a new database file is created after the lease is taken, an
    existing one is pinned before. *)
Definition own_database (e : env) : Body unit :=
  match e_Stat e with
  | StatNew => require (e_Resolve e);;; take_lease e;;; require (e_Create e);;; pin FileCreated
  | StatFailed => fails RunFailed
  | StatExists => require (e_Prepare e);;; pin FilePinned;;; take_lease e
  end.

(** [pollerCloser] and [timeoutCloser] *)
Definition close_schedulers_early : Body unit := emit PollerStopped;;; emit MonitorStopped.

Definition task_event (t : task) : list event :=
  match t with
  | Close RPipeServer _ => [PipeClosed]
  | Close RHTTPServer _ => [HTTPClosed]
  | Close (RScheduler 0) _ => [PollerStopped]
  | Close (RScheduler _) _ => [MonitorStopped]
  | Close RStore _ => [StoreClosed]
  | Close RMetadata _ => [MetadataCleaned]
  | Close RPinnedDB _ => [FileUnpinned]
  | Close ROwnerLock _ => [LeaseReleased]
  | Drain => [AdmissionClosed; CallersJoined]
  | Join _ => []
  end.

(** [drainComponents] *)
Definition drainComponents (e : env) : ShutdownComponents :=
  {| sh_PipeServer := Some (e_close e RPipeServer); sh_HTTPServer := Some (e_close e RHTTPServer);
     sh_Authority := true;
     sh_Schedulers := [Some (e_close e (RScheduler 0)); Some (e_close e (RScheduler 1))];
     sh_Store := Some (e_close e RStore); sh_PinnedDB := Some (e_close e RPinnedDB);
     sh_OwnerLease := Some (e_close e ROwnerLock) |}.
Definition drain_tasks (e : env) : list task := ExecuteShutdownDrain (drainComponents e).
Definition drain_error (e : env) : option goerr :=
  fold_left (fun first t => match t with
    | Close _ r => recordErr first r
    | Drain => recordErr first (if e_late e then Some late_join else None)
    | Join _ => first
    end) (drain_tasks e) None.

Definition emits (l : list event) : Body unit := fold_right (fun ev k => emit ev;;; k) (ret tt) l.

(** Step 8: the poller and the timeout monitor. *)
Definition start_schedulers (e : env) : Body unit :=
  require (e_Poller e);;; emit PollerStarted;;; emit MonitorStarted.

(** Steps 9 and 10: the pipe and the probe server, the schedulers closed again
    when one of them cannot start. *)
Definition start_listeners (e : env) : Body unit :=
  (if e_Pipe e then emit PipeStarted else close_schedulers_early;;; fails RunFailed);;;
  (if e_Listen e then emit HTTPStarted
   else emit PipeClosed;;; close_schedulers_early;;; fails RunFailed).

(** The body of [runDaemon]. *)
Definition run_body (e : env) : Body unit :=
  require (e_Parse e);;;
  require (negb (e_db e == ""));;;
  require (match Validate (e_policies e) with None => true | Some _ => false end);;;
  require (e_Abs e);;;
  own_database e;;;
  require (e_Open e);;; opened;;;
  require (e_Identity e);;;
  require (match e_ao e with Some ok => ok | None => true end);;;
  require (match e_Scan e with Some complete => complete | None => false end);;;
  emit ScanCompleted;;;
  start_schedulers e;;;
  start_listeners e;;;
  (if e_ready e then emit ReadyWritten else ret tt);;;
  require (match e_hold e with Some ok => ok | None => true end);;;
  (* a signal, or a TAKEOVER *)
  disarm;;;
  emits (flat_map task_event (drain_tasks e));;;
  require (match drain_error e with None => true | Some _ => false end).

(** The deferred cleanup of an early exit. *)
Definition early_cleanup (d : daemon) : list event :=
  if cleanupOnEarlyErr d then
    (if d_store d then [StoreClosed] else []) ++ (if d_pinned d then [FileUnpinned] else [])
    ++ (if d_lease d then [MetadataCleaned; LeaseReleased] else [])
  else [].

Definition runDaemon (e : env) : (run_error + unit) * list event :=
  let '(r, d) := run_body e (mkdaemon true false false false []) in
  (r, d_trace d ++ early_cleanup d).

(** [main], command "run" *)
Definition exit_code (e : env) : Z :=
  match fst (runDaemon e) with
  | inr _ => 0
  | inl SharingViolation => 32
  | inl RunFailed => 2
  end.

(** ** The order of the events *)

Record resources := mkresources {
  r_lease : bool; r_file : bool; r_store : bool; r_scanned : bool; r_poller : bool; r_monitor : bool;
  r_pipe : bool; r_http : bool; r_admits : bool }.
Definition nothing_held : resources := mkresources false false false false false false false false false.
#[export] Instance resources_settable : Settable resources := fun r =>
  mkresources (r_lease r) (r_file r) (r_store r) (r_scanned r) (r_poller r) (r_monitor r)
    (r_pipe r) (r_http r) (r_admits r).

(** What an event requires, and what is held after it. *)
Definition replay_one (ev : event) (r : resources) : option resources :=
  match ev with
  | LeaseTaken => if r_lease r then None else Some (r <| r_lease := true |>)
  | FileCreated => if r_lease r && negb (r_file r) then Some (r <| r_file := true |>) else None
  | FilePinned => if r_file r then None else Some (r <| r_file := true |>)
  | StoreOpened => if r_lease r && r_file r && negb (r_store r) then Some (r <| r_store := true |>) else None
  | ScanCompleted => if r_store r && negb (r_scanned r)
                     then Some (r <| r_scanned := true |> <| r_admits := true |>) else None
  | PollerStarted => if r_scanned r && negb (r_poller r) then Some (r <| r_poller := true |>) else None
  | MonitorStarted => if r_scanned r && negb (r_monitor r) then Some (r <| r_monitor := true |>) else None
  | PipeStarted => if r_poller r && r_monitor r && negb (r_pipe r) then Some (r <| r_pipe := true |>) else None
  | HTTPStarted => if r_poller r && r_monitor r && negb (r_http r) then Some (r <| r_http := true |>) else None
  | ReadyWritten => if r_scanned r && r_poller r && r_monitor r && r_pipe r && r_http r then Some r else None
  | PipeClosed => if r_pipe r then Some (r <| r_pipe := false |>) else None
  | HTTPClosed => if r_http r then Some (r <| r_http := false |>) else None
  | AdmissionClosed => if negb (r_pipe r || r_http r) then Some (r <| r_admits := false |>) else None
  | CallersJoined => if negb (r_admits r) then Some r else None
  | PollerStopped => if r_poller r then Some (r <| r_poller := false |>) else None
  | MonitorStopped => if r_monitor r then Some (r <| r_monitor := false |>) else None
  | StoreClosed => if r_store r && negb (r_poller r || r_monitor r || r_pipe r || r_http r)
                   then Some (r <| r_store := false |>) else None
  | MetadataCleaned => if r_lease r then Some r else None
  | FileUnpinned => if r_file r && negb (r_store r) then Some (r <| r_file := false |>) else None
  | LeaseReleased => if r_lease r && negb (r_file r || r_store r) then Some (r <| r_lease := false |>) else None
  end.
Fixpoint replay (l : list event) (r : resources) : option resources :=
  match l with
  | [] => Some r
  | ev :: l => match replay_one ev r with Some r' => replay l r' | None => None end
  end.

(** Everything released; whether startup classification ever completed, and
    whether admission was closed again, may differ. *)
Definition all_released (r : resources) : Prop :=
  r_lease r = false /\ r_file r = false /\ r_store r = false /\ r_poller r = false /\
  r_monitor r = false /\ r_pipe r = false /\ r_http r = false.

(** What is claimed of a run, decidably: the trace replays and leaves nothing
    held; a sharing violation is a contended lock and the store was not opened;
    success means the scan completed, the shutdown recorded no error and the
    lock was released last. *)
Definition released (r : resources) : bool :=
  negb (r_lease r || r_file r || r_store r || r_poller r || r_monitor r || r_pipe r || r_http r).
#[export] Instance event_eq_dec : EqDecision event.
Proof. solve_decision. Defined.
Definition lawful (contended clean : bool) (run : (run_error + unit) * list event) : bool :=
  match replay (snd run) nothing_held with Some r => released r | None => false end
  && match fst run with
     | inl SharingViolation => contended && negb (in_list StoreOpened (snd run))
     | inl RunFailed => true
     | inr _ => clean && in_list ScanCompleted (snd run)
                && match rev (snd run) with ev :: _ => ev == LeaseReleased | [] => false end
     end.

(** The body with every decision a boolean of its own. *)
Definition run_plan (parse db policies abs : bool) (stat : stat_result) (resolve : bool) (lease : lease_result)
    (create prepare open identity ao scan poller pipe listen ready hold clean : bool) : Body unit :=
  let take := match lease with
              | LeaseOk => fun d => emit LeaseTaken
                  (mkdaemon (cleanupOnEarlyErr d) (d_store d) (d_pinned d) true (d_trace d))
              | LeaseContended => fails SharingViolation
              | LeaseFailed => fails RunFailed
              end in
  require parse;;; require db;;; require policies;;; require abs;;;
  match stat with
  | StatNew => require resolve;;; take;;; require create;;; pin FileCreated
  | StatFailed => fails RunFailed
  | StatExists => require prepare;;; pin FilePinned;;; take
  end;;;
  require open;;; opened;;; require identity;;; require ao;;; require scan;;; emit ScanCompleted;;;
  (require poller;;; emit PollerStarted;;; emit MonitorStarted);;;
  ((if pipe then emit PipeStarted else close_schedulers_early;;; fails RunFailed);;;
   (if listen then emit HTTPStarted else emit PipeClosed;;; close_schedulers_early;;; fails RunFailed));;;
  (if ready then emit ReadyWritten else ret tt);;;
  require hold;;; disarm;;;
  emits [PipeClosed; HTTPClosed; AdmissionClosed; CallersJoined; PollerStopped; MonitorStopped;
         StoreClosed; MetadataCleaned; FileUnpinned; LeaseReleased];;;
  require clean.

Definition finish (r : (run_error + unit) * daemon) : (run_error + unit) * list event :=
  let '(r, d) := r in (r, d_trace d ++ early_cleanup d).

Ltac stage := first [reflexivity | vm_compute; reflexivity].

(** The rest of the body, once database and lock are ours. *)
Ltac owned open identity ao scan poller pipe listen ready clean :=
  destruct open; [|stage]; destruct identity; [|stage]; destruct ao; [|stage];
  destruct scan; [|stage]; destruct poller; [|stage]; destruct pipe; [|stage]; destruct listen; [|stage];
  destruct ready, clean; stage.

Lemma plan_lawful parse db policies abs stat resolve lease create prepare open identity ao scan poller
    pipe listen ready hold clean :
  hold = true ->
  lawful (match lease with LeaseContended => true | _ => false end) clean
    (finish (run_plan parse db policies abs stat resolve lease create prepare open identity ao scan poller
               pipe listen ready hold clean (mkdaemon true false false false []))) = true.
Proof.
  intros ->.
  destruct parse; [|stage]. destruct db; [|stage]. destruct policies; [|stage]. destruct abs; [|stage].
  destruct stat; [| |stage].
  - destruct prepare; [|stage]. destruct lease; [|stage..].
    owned open identity ao scan poller pipe listen ready clean.
  - destruct resolve; [|stage]. destruct lease; [|stage..]. destruct create; [|stage].
    owned open identity ao scan poller pipe listen ready clean.
Qed.

Definition shutdown_clean (e : env) : bool :=
  match drain_error e with None => true | Some _ => false end.

Lemma lawful_run e :
  e_hold e <> Some false ->
  lawful (match e_Lease e with LeaseContended => true | _ => false end) (shutdown_clean e) (runDaemon e) = true.
Proof.
  intros Hh.
  assert (match e_hold e with Some ok => ok | None => true end = true) as E
    by (destruct (e_hold e) as [[]|]; done).
  exact (plan_lawful (e_Parse e) (negb (e_db e == ""))
    (match Validate (e_policies e) with None => true | Some _ => false end) (e_Abs e) (e_Stat e)
    (e_Resolve e) (e_Lease e) (e_Create e) (e_Prepare e) (e_Open e) (e_Identity e)
    (match e_ao e with Some ok => ok | None => true end)
    (match e_Scan e with Some complete => complete | None => false end)
    (e_Poller e) (e_Pipe e) (e_Listen e) (e_ready e) _ (shutdown_clean e) E).
Qed.

Lemma released_spec r : released r = true -> all_released r.
Proof. unfold released, all_released. intros H. breflect. by split_and!. Qed.

(** C20: On every path through [runDaemon], whichever call fails, the events
    come in the order of the protocol and everything is released at the end:
    a new file is created and the store is opened only under the owner lock, workers are
    observed and listeners opened only after a complete startup scan, readiness
    is signalled only when everything runs, the schedulers stop before the
    store closes, and the owner lock goes last.  The exit code is 32 only when
    the lock was contended, and the store was then never opened; it is 0 only
    when the daemon served and its shutdown recorded no error. *)
Theorem daemon_follows_protocol (e : env) :
  e_hold e <> Some false ->
  (exists r, replay (snd (runDaemon e)) nothing_held = Some r /\ all_released r) /\
  (exit_code e = 32%Z -> e_Lease e = LeaseContended /\ ~ In StoreOpened (snd (runDaemon e))) /\
  (exit_code e = 0%Z -> In ScanCompleted (snd (runDaemon e)) /\ drain_error e = None /\
     exists l, snd (runDaemon e) = l ++ [LeaseReleased]).
Proof.
  intros Hh. pose proof (lawful_run e Hh) as H. unfold lawful in H. apply andb_prop in H as [H1 H2].
  destruct (replay _ nothing_held) as [r|]; [|done]. unfold exit_code, shutdown_clean in *.
  split; [exists r; split; [done|by apply released_spec]|]. split.
  - destruct (fst (runDaemon e)) as [[]|]; try done. intros _. apply andb_prop in H2 as [Hl Hn].
    split; [by destruct (e_Lease e)|]. apply negb_true_iff in Hn. rewrite <- in_list_true. congruence.
  - destruct (fst (runDaemon e)) as [[]|[]]; try done. intros _.
    apply andb_prop in H2 as [[Hd Hs]%andb_prop Hl]. apply in_list_true in Hs.
    split_and!; [done|by destruct (drain_error e)|].
    destruct (rev (snd (runDaemon e))) as [|ev l] eqn:El; [done|]. apply eqb_eq in Hl as ->.
    exists (rev l). by rewrite <- (rev_involutive (snd (runDaemon e))), El.
Qed.

(** A run where every call succeeds, with the ready file. *)
Definition sample_env : env :=
  {| e_Parse := true; e_db := "supervisor.db"; e_policies := mkPolicies 1 1 1 1 1 1 1 1; e_Abs := true;
     e_Stat := StatNew; e_Resolve := true; e_Lease := LeaseOk; e_Create := true; e_Prepare := true;
     e_Open := true; e_Identity := true; e_ao := None; e_Scan := Some true; e_Poller := true;
     e_Pipe := true; e_Listen := true; e_ready := true; e_hold := None; e_late := false;
     e_close _ := None |}.
Definition with_hold (hold : option bool) : env :=
  {| e_Parse := true; e_db := "supervisor.db"; e_policies := mkPolicies 1 1 1 1 1 1 1 1; e_Abs := true;
     e_Stat := StatExists; e_Resolve := true; e_Lease := LeaseOk; e_Create := true; e_Prepare := true;
     e_Open := true; e_Identity := true; e_ao := None; e_Scan := Some true; e_Poller := true;
     e_Pipe := true; e_Listen := true; e_ready := false; e_hold := hold; e_late := false;
     e_close _ := None |}.

(** The exception: when the permit of the test hook is refused, [runDaemon]
    returns with everything running, and the deferred cleanup closes the store
    under the poller and gives up the lock. *)
Lemma refused_hold_leaks :
  replay (snd (runDaemon (with_hold (Some false)))) nothing_held = None /\
  exit_code (with_hold (Some false)) = 2%Z.
Proof. split; vm_compute; reflexivity. Qed.

Lemma daemon_follows_protocol_witness :
  exit_code sample_env = 0%Z /\ In ScanCompleted (snd (runDaemon sample_env)).
Proof.
  split; [vm_compute; reflexivity|].
  exact (proj1 (proj2 (proj2 (daemon_follows_protocol sample_env ltac:(discriminate)))
                  ltac:(vm_compute; reflexivity))).
Defined.

(** ** Health *)

(** [setUnhealthy]: the flag of the daemon and the authority. *)
Definition setUnhealthy (s : bool * host) : bool * host := (false, SetUnavailable (snd s)).

(** The status of /readyz. *)
Definition readyz (healthy : bool) (h : host) (complete : bool) : Z :=
  if negb healthy || negb (Available h) || negb complete then 503 else 200.

(** Once a background component has failed the daemon never reports ready
    again and admits nothing, whatever its callers do. *)
Lemma unhealthy_is_final s h healthy complete :
  host_run (snd (setUnhealthy s)) h ->
  readyz healthy h complete = 503%Z /\ length (h_permits h) = length (h_permits (snd s)).
Proof.
  intros Hr. destruct (draining_run _ _ Hr eq_refl) as [Hd Hl]. split; [|done].
  unfold readyz, Available. rewrite Hd. by rewrite orb_true_r.
Qed.
