(* ===== verification/Health.v ===== *)
(** * Health: the background goroutines of the daemon

    [runDaemon] (cmd/supervisor/main.go) runs the timeout monitor in a goroutine
    of its own, watches the done channel of the poller's cycle in another, and
    stops both with [pollerCloser] and [timeoutCloser].  A failure while serving
    clears [daemonHealthy] and closes admission, each a step of its own, so that
    /readyz and the callers of the authority interleave with them.  The cycle is
    Poller.v's, known here by its done channel and the error bound to it; the
    authority is HostAuthority.v's. *)

From stdpp Require Import relations.
From S2P Require Import Prelude.
From S2P Require Import GoErr.
From S2P Require Import HostAuthority.
From S2P Require Import Daemon.

(** The goroutine of the timeout monitor. *)
Inductive monitor_state : Type :=
| MWaiting          (* in the select *)
| MTicking          (* in [timeoutMonitor.Tick] *)
| MFailed           (* Tick returned an error, before reading [timeoutCtx.Err()] *)
| MFlag             (* in [setUnhealthy], before [daemonHealthy = false] *)
| MUnavailable      (* in [setUnhealthy], before [auth.SetUnavailable()] *)
| MReturned.        (* [timeoutDone] closed *)

(** The goroutine that watches [pollerDone]. *)
Inductive watcher_state : Type :=
| WWaiting | WDone (failed : bool) | WFlag | WUnavailable | WReturned.

(** [pollerCloser.Close] and then [timeoutCloser.Close]. *)
Inductive closer_state : Type :=
| KIdle | KPollerCancelled | KPollerStopped | KWatcherJoined | KTimeoutCancelled | KClosed.

(** [he_cycle] is the poller's cycle: running, or its done channel closed with
    or without an error bound to it. *)
Record health := mkhealth {
  he_flag : bool; he_host : host; he_pollerCtx : bool; he_timeoutCtx : bool; he_cycle : option bool;
  he_monitor : monitor_state; he_watcher : watcher_state; he_closer : closer_state }.

Inductive actor : Type := TheMonitor | TheWatcher | TheCycle | TheCloser | ACaller.

Inductive health_step : health -> actor -> health -> Prop :=
(* the monitor *)
| tick_starts f h pc tc cy w k :
    health_step (mkhealth f h pc tc cy MWaiting w k) TheMonitor (mkhealth f h pc tc cy MTicking w k)
| tick_ok f h pc tc cy w k :
    health_step (mkhealth f h pc tc cy MTicking w k) TheMonitor (mkhealth f h pc tc cy MWaiting w k)
| tick_fails f h pc tc cy w k :
    health_step (mkhealth f h pc tc cy MTicking w k) TheMonitor (mkhealth f h pc tc cy MFailed w k)
| tick_cancelled f h pc cy w k :
    health_step (mkhealth f h pc true cy MFailed w k) TheMonitor (mkhealth f h pc true cy MWaiting w k)
| tick_failure f h pc cy w k :
    health_step (mkhealth f h pc false cy MFailed w k) TheMonitor (mkhealth f h pc false cy MFlag w k)
| monitor_flag f h pc tc cy w k :
    health_step (mkhealth f h pc tc cy MFlag w k) TheMonitor (mkhealth false h pc tc cy MUnavailable w k)
| monitor_unavailable f h pc tc cy w k :
    health_step (mkhealth f h pc tc cy MUnavailable w k) TheMonitor
      (mkhealth f (SetUnavailable h) pc tc cy MWaiting w k)
| monitor_returns f h pc cy w k :
    health_step (mkhealth f h pc true cy MWaiting w k) TheMonitor (mkhealth f h pc true cy MReturned w k)
(* the watcher *)
| watch_cancelled f h tc cy m k :
    health_step (mkhealth f h true tc cy m WWaiting k) TheWatcher (mkhealth f h true tc cy m WReturned k)
| watch_done f h pc tc b m k :
    health_step (mkhealth f h pc tc (Some b) m WWaiting k) TheWatcher
      (mkhealth f h pc tc (Some b) m (WDone b) k)
| watch_no_error f h pc tc cy m k :
    health_step (mkhealth f h pc tc cy m (WDone false) k) TheWatcher (mkhealth f h pc tc cy m WReturned k)
| watch_after_cancel f h tc cy m k :
    health_step (mkhealth f h true tc cy m (WDone true) k) TheWatcher (mkhealth f h true tc cy m WReturned k)
| watch_failure f h tc cy m k :
    health_step (mkhealth f h false tc cy m (WDone true) k) TheWatcher (mkhealth f h false tc cy m WFlag k)
| watcher_flag f h pc tc cy m k :
    health_step (mkhealth f h pc tc cy m WFlag k) TheWatcher (mkhealth false h pc tc cy m WUnavailable k)
| watcher_unavailable f h pc tc cy m k :
    health_step (mkhealth f h pc tc cy m WUnavailable k) TheWatcher
      (mkhealth f (SetUnavailable h) pc tc cy m WReturned k)
(* the poller's cycle *)
| cycle_fails f h pc tc m w k :
    health_step (mkhealth f h pc tc None m w k) TheCycle (mkhealth f h pc tc (Some true) m w k)
| cycle_cancelled f h tc m w k :
    health_step (mkhealth f h true tc None m w k) TheCycle (mkhealth f h true tc (Some false) m w k)
(* the closers *)
| cancel_poller f h pc tc cy m w :
    health_step (mkhealth f h pc tc cy m w KIdle) TheCloser (mkhealth f h true tc cy m w KPollerCancelled)
| poller_stopped f h pc tc b m w :
    health_step (mkhealth f h pc tc (Some b) m w KPollerCancelled) TheCloser
      (mkhealth f h pc tc (Some b) m w KPollerStopped)
| watcher_joined f h pc tc cy m :
    health_step (mkhealth f h pc tc cy m WReturned KPollerStopped) TheCloser
      (mkhealth f h pc tc cy m WReturned KWatcherJoined)
| cancel_timeout f h pc tc cy m w :
    health_step (mkhealth f h pc tc cy m w KWatcherJoined) TheCloser
      (mkhealth f h pc true cy m w KTimeoutCancelled)
| monitor_joined f h pc tc cy w :
    health_step (mkhealth f h pc tc cy MReturned w KTimeoutCancelled) TheCloser
      (mkhealth f h pc tc cy MReturned w KClosed)
(* the callers of the authority *)
| caller_step f h h' pc tc cy m w k : host_step h h' ->
    health_step (mkhealth f h pc tc cy m w k) ACaller (mkhealth f h' pc tc cy m w k).

Definition one_step (s s' : health) : Prop := exists who, health_step s who s'.
(** The steps of the daemon itself. *)
Definition own_step (s s' : health) : Prop := exists who, who <> ACaller /\ health_step s who s'.
Definition health_run : health -> health -> Prop := rtc one_step.

(** What [runDaemon] starts. *)
Definition serving_with (h : host) : health := mkhealth true h false false None MWaiting WWaiting KIdle.

(** ** The invariant *)
Definition closer_rank (k : closer_state) : nat :=
  match k with
  | KIdle => 0 | KPollerCancelled => 1 | KPollerStopped => 2
  | KWatcherJoined => 3 | KTimeoutCancelled => 4 | KClosed => 5
  end.
(** /readyz is off and admission closed. *)
Definition recorded (s : health) : Prop := he_flag s = false /\ Available (he_host s) = false.
Record health_inv (s : health) : Prop := mkhealth_inv {
  hv_poller : he_pollerCtx s = true <-> 1 <= closer_rank (he_closer s);
  hv_timeout : he_timeoutCtx s = true <-> 4 <= closer_rank (he_closer s);
  hv_cycle : 2 <= closer_rank (he_closer s) -> he_cycle s <> None;
  hv_watcher : 3 <= closer_rank (he_closer s) -> he_watcher s = WReturned;
  hv_monitor : 5 <= closer_rank (he_closer s) -> he_monitor s = MReturned;
  hv_flag : he_flag s = false ->
    Available (he_host s) = false \/ he_monitor s = MUnavailable \/ he_watcher s = WUnavailable;
  hv_unavailable : he_monitor s = MUnavailable \/ he_watcher s = WUnavailable -> he_flag s = false;
  hv_done : forall b, he_watcher s = WDone b -> he_cycle s = Some b;
  hv_returned : he_watcher s = WReturned ->
    he_pollerCtx s = true \/ he_cycle s = Some false \/ recorded s }.

Lemma unavailable_step h h' : host_step h h' -> Available h = false -> Available h' = false.
Proof.
  unfold Available. intros Hs Hd. apply negb_false_iff in Hd. apply negb_false_iff.
  apply (draining_run h h'); [by apply rtc_once|done].
Qed.

Lemma recorded_step s who s' : health_step s who s' -> recorded s -> recorded s'.
Proof.
  intros Hs [Hf Ha]. destruct Hs; unfold recorded in *; cbn in *; try done.
  split; [done|by eapply unavailable_step].
Qed.

Lemma health_step_inv s who s' : health_step s who s' -> health_inv s -> health_inv s'.
Proof.
  intros Hs I. pose proof (fun r => recorded_step _ _ _ Hs r) as Hrec.
  destruct I as [I1 I2 I3 I4 I5 I6 I7 I8 I9]. destruct Hs; constructor; cbn in *; try done; try lia.
  all: try solve [intros Hk; first [by specialize (I5 Hk) | apply I3; lia | apply I4; lia]].
  all: try solve [rewrite ?I1, ?I2; lia].
  all: try solve [intros Hf; try specialize (I6 Hf); intuition congruence].
  all: try solve [intros Hf; specialize (I9 Hf); intuition auto].
  all: try solve [intros b [= <-]; by apply I8].
  - intros _. right; left. by apply I8.
  - intros _. do 2 right. split; [apply I7; by right|done].
  - by intros b Hb%I8.
  - by intros b Hb%I8.
  - intros Hf. destruct (I6 Hf) as [Ha|Hm]; [left; by eapply unavailable_step|by right].
Qed.

Lemma serving_with_inv h : health_inv (serving_with h).
Proof. constructor; cbn; try done; try lia; try (split; (done || lia)). by intros [|]. Qed.

Lemma health_run_inv s s' : health_run s s' -> health_inv s -> health_inv s'.
Proof. induction 1 as [|a b c [who Hs] _ IH]; [done|]. intros Ha. by eapply IH, health_step_inv. Qed.

(** *** What does not come back *)
Lemma flag_final s s' : health_run s s' -> he_flag s = false -> he_flag s' = false.
Proof. induction 1 as [|a b c [who Hs] _ IH]; [done|]. intros Hf. apply IH. by destruct Hs. Qed.

(** What the goroutines and the closers have of their own. *)
Definition frozen (s s' : health) : Prop :=
  he_flag s' = he_flag s /\ he_cycle s' = he_cycle s /\ he_monitor s' = he_monitor s /\
  he_watcher s' = he_watcher s /\ he_closer s' = he_closer s.

Lemma closed_only_callers s who s' :
  health_step s who s' -> health_inv s -> he_closer s = KClosed -> who = ACaller /\ frozen s s'.
Proof.
  intros Hs [_ _ I3 I4 I5 _ _ _ _] Hk. rewrite Hk in *. specialize (I3 ltac:(cbn; lia)).
  specialize (I4 ltac:(cbn; lia)). specialize (I5 ltac:(cbn; lia)). by destruct Hs.
Qed.

Lemma closed_frozen s s' : health_run s s' -> health_inv s -> he_closer s = KClosed -> frozen s s'.
Proof.
  induction 1 as [|a b c [who Hs] _ IH]; [by intros; split_and!|]. intros Ha Hk.
  destruct (closed_only_callers _ _ _ Hs Ha Hk) as [_ (E1 & E2 & E3 & E4 & E5)].
  destruct IH as (F1 & F2 & F3 & F4 & F5); [by eapply health_step_inv|congruence|].
  unfold frozen. split_and!; congruence.
Qed.

(** *** The closers are never stuck *)
Ltac own step := eapply rtc_l; [eexists; split; [|apply step]; done|].
Ltac own_done := apply rtc_refl.

Lemma monitor_can_return f h pc cy m w k :
  exists f' h', rtc own_step (mkhealth f h pc true cy m w k) (mkhealth f' h' pc true cy MReturned w k).
Proof.
  destruct m.
  - eexists _, _. own monitor_returns. own_done.
  - eexists _, _. own tick_ok. own monitor_returns. own_done.
  - eexists _, _. own tick_cancelled. own monitor_returns. own_done.
  - eexists _, _. own monitor_flag. own monitor_unavailable. own monitor_returns. own_done.
  - eexists _, _. own monitor_unavailable. own monitor_returns. own_done.
  - eexists _, _. own_done.
Qed.

Lemma watcher_can_return f h tc cy m w k :
  exists f' h', rtc own_step (mkhealth f h true tc cy m w k) (mkhealth f' h' true tc cy m WReturned k).
Proof.
  destruct w as [|[]| | |].
  - eexists _, _. own watch_cancelled. own_done.
  - eexists _, _. own watch_after_cancel. own_done.
  - eexists _, _. own watch_no_error. own_done.
  - eexists _, _. own watcher_flag. own watcher_unavailable. own_done.
  - eexists _, _. own watcher_unavailable. own_done.
  - eexists _, _. own_done.
Qed.

(** Each closing stage reaches the next one. *)
Lemma closers_finish s :
  health_inv s -> he_closer s <> KIdle -> exists s', rtc own_step s s' /\ he_closer s' = KClosed.
Proof.
  destruct s as [f h pc tc cy m w k]. intros [I1 I2 I3 I4 I5 _ _ _ _] Hk. cbn in *.
  assert (forall f h m cy, exists s', rtc own_step (mkhealth f h true true cy m WReturned KTimeoutCancelled) s' /\
    he_closer s' = KClosed) as H4.
  { intros f4 h4 m4 cy4. destruct (monitor_can_return f4 h4 true cy4 m4 WReturned KTimeoutCancelled)
      as (f' & h' & Hm). eexists. split; [etransitivity; [exact Hm|]; own monitor_joined; own_done|done]. }
  assert (forall f h tc m cy, exists s', rtc own_step (mkhealth f h true tc cy m WReturned KWatcherJoined) s' /\
    he_closer s' = KClosed) as H3.
  { intros f3 h3 tc3 m3 cy3. destruct (H4 f3 h3 m3 cy3) as (s' & Hs & ?).
    exists s'. split; [own cancel_timeout; exact Hs|done]. }
  assert (forall f h tc m w b, exists s', rtc own_step (mkhealth f h true tc (Some b) m w KPollerStopped) s' /\
    he_closer s' = KClosed) as H2.
  { intros f2 h2 tc2 m2 w2 b. destruct (watcher_can_return f2 h2 tc2 (Some b) m2 w2 KPollerStopped)
      as (f' & h' & Hw). destruct (H3 f' h' tc2 m2 (Some b)) as (s' & Hs & ?).
    exists s'. split; [etransitivity; [exact Hw|]; own watcher_joined; exact Hs|done]. }
  assert (1 <= closer_rank k) as Hr by (destruct k; cbn; (done || lia)).
  apply I1 in Hr as ->. destruct k; try done; cbn in *.
  - destruct cy as [b|].
    + destruct (H2 f h tc m w b) as (s' & Hs & ?). exists s'. split; [own poller_stopped; exact Hs|done].
    + destruct (H2 f h tc m w false) as (s' & Hs & ?). exists s'.
      split; [own cycle_cancelled; own poller_stopped; exact Hs|done].
  - destruct cy as [b|]; [apply H2|by specialize (I3 ltac:(lia))].
  - rewrite (I4 ltac:(lia)). apply H3.
  - rewrite (I4 ltac:(lia)). assert (tc = true) as -> by (apply I2; lia). apply H4.
  - eexists. split; [own_done|done].
Qed.

(** *** A failure is recorded *)

(** The monitor's Tick, or the poller's cycle, failed while the daemon served. *)
Definition tick_has_failed (s : health) : Prop := he_monitor s = MFailed /\ he_timeoutCtx s = false.
Definition cycle_has_failed (s : health) : Prop := he_cycle s = Some true /\ he_pollerCtx s = false.

(** From its failure to the record of it the monitor does nothing else. *)
Definition recording (s : health) : Prop :=
  he_timeoutCtx s = true \/ he_monitor s = MFailed \/ he_monitor s = MFlag
  \/ he_monitor s = MUnavailable /\ he_flag s = false \/ recorded s.
Lemma recording_step s who s' : health_step s who s' -> recording s -> recording s'.
Proof.
  intros Hs Hr. pose proof (recorded_step _ _ _ Hs) as Hrec. unfold recording in *.
  destruct Hr as [E|[E|[E|[[E Ef]|H]]]]; [| | | |tauto]; destruct Hs; cbn in *; subst; try done;
    try tauto.
  do 4 right. by split.
Qed.
Lemma recording_run s s' : health_run s s' -> recording s -> recording s'.
Proof. induction 1 as [|a b c [who Hs] _ IH]; [done|]. intros Ha. by eapply IH, recording_step. Qed.

Lemma tick_failure_recorded s :
  tick_has_failed s -> exists s', rtc own_step s s' /\ recorded s'.
Proof.
  destruct s as [f h pc tc cy m w k]. intros [Em Et]. cbn in *. subst. eexists. split.
  - own tick_failure. own monitor_flag. own monitor_unavailable. own_done.
  - by split.
Qed.
Lemma cycle_failure_recorded s :
  health_inv s -> cycle_has_failed s -> exists s', rtc own_step s s' /\ recorded s'.
Proof.
  destruct s as [f h pc tc cy m w k]. intros [_ _ _ _ _ _ I7 I8 I9] [Ec Ep]. cbn in *. subst.
  destruct w as [|b| | |].
  - eexists. split; [own watch_done; own watch_failure; own watcher_flag; own watcher_unavailable; own_done|by split].
  - destruct b; [|by specialize (I8 false eq_refl)]. eexists.
    split; [own watch_failure; own watcher_flag; own watcher_unavailable; own_done|by split].
  - eexists. split; [own watcher_flag; own watcher_unavailable; own_done|by split].
  - rewrite (I7 (or_intror eq_refl)). eexists. split; [own watcher_unavailable; own_done|by split].
  - eexists. split; [own_done|]. by destruct (I9 eq_refl) as [?|[?|?]].
Qed.

(** C21: A background failure closes the daemon, and its goroutines are joined.
    When a Tick of the timeout monitor fails while the daemon serves, the
    monitor does not wait for its next tick, nor, when the poller's cycle ends
    with an error, does the watcher return, before the failure is recorded:
    /readyz unready and admission closed; and their own next steps record it.
    Once recorded, /readyz answers 503 for ever.  The closers are never stuck,
    whatever the goroutines are doing; and when they have returned neither
    goroutine nor the poller's cycle can take another step, so the store closed
    next is not used. *)
Theorem background_fails_closed (h : host) (s : health) :
  health_run (serving_with h) s ->
  (tick_has_failed s ->
     (forall s', health_run s s' -> he_timeoutCtx s' = false -> he_monitor s' = MWaiting -> recorded s') /\
     exists s', rtc own_step s s' /\ recorded s') /\
  (cycle_has_failed s ->
     (he_watcher s = WReturned -> recorded s) /\ exists s', rtc own_step s s' /\ recorded s') /\
  (he_flag s = false -> forall s' complete, health_run s s' ->
     readyz (he_flag s') (he_host s') complete = 503%Z) /\
  (he_closer s <> KIdle -> exists s', rtc own_step s s' /\ he_closer s' = KClosed) /\
  (he_closer s = KClosed ->
     he_monitor s = MReturned /\ he_watcher s = WReturned /\ he_cycle s <> None /\
     forall s', health_run s s' -> frozen s s' /\ forall who s'', health_step s' who s'' -> who = ACaller).
Proof.
  intros Hr. pose proof (health_run_inv _ _ Hr (serving_with_inv h)) as I. split_and!.
  - intros Hf. split; [|by apply tick_failure_recorded]. intros s' Hs Ht Hm.
    assert (recording s) as H by (right; left; apply Hf). apply (recording_run _ _ Hs) in H.
    destruct H as [?|[?|[?|[[? _]|?]]]]; congruence.
  - intros Hf. split; [|by apply cycle_failure_recorded]. intros Hw. destruct Hf as [Hc Hp].
    destruct (hv_returned s I Hw) as [?|[?|?]]; congruence.
  - intros Hf s' complete Hs. unfold readyz. by rewrite (flag_final _ _ Hs Hf).
  - by apply closers_finish.
  - intros Hk. assert (5 <= closer_rank (he_closer s)) as H5 by (rewrite Hk; cbn; lia).
    split_and!; [apply I; lia|apply I; lia|apply I; lia|].
    intros s' Hs. split; [by apply closed_frozen|]. intros who s'' Hw.
    eapply closed_only_callers; [exact Hw|by eapply health_run_inv|].
    destruct (closed_frozen _ _ Hs I Hk) as (_ & _ & _ & _ & ->). done.
Qed.

(** The monitor fails while the daemon serves; then the daemon shuts down. *)
Definition failing_daemon : health :=
  mkhealth true (new_host "op") false false None MFailed WWaiting KIdle.
Definition failed_daemon : health :=
  mkhealth false (SetUnavailable (new_host "op")) false false None MWaiting WWaiting KIdle.
Definition closed_daemon : health :=
  mkhealth false (SetUnavailable (new_host "op")) true true (Some false) MReturned WReturned KClosed.
Ltac turn who step := eapply rtc_l; [exists who; apply step|].

Lemma failing_run : health_run (serving_with (new_host "op")) failing_daemon.
Proof. turn TheMonitor tick_starts. turn TheMonitor tick_fails. apply rtc_refl. Qed.
Lemma failed_run : health_run failing_daemon failed_daemon.
Proof.
  turn TheMonitor tick_failure. turn TheMonitor monitor_flag. turn TheMonitor monitor_unavailable.
  apply rtc_refl.
Qed.
Lemma closed_run : health_run failed_daemon closed_daemon.
Proof.
  turn TheCloser cancel_poller. turn TheCycle cycle_cancelled. turn TheCloser poller_stopped.
  turn TheWatcher watch_cancelled. turn TheCloser watcher_joined. turn TheCloser cancel_timeout.
  turn TheMonitor monitor_returns. turn TheCloser monitor_joined. apply rtc_refl.
Qed.

Lemma background_fails_closed_witness :
  recorded failed_daemon /\ readyz (he_flag closed_daemon) (he_host closed_daemon) true = 503%Z /\
  forall s', health_run closed_daemon s' -> frozen closed_daemon s'.
Proof.
  assert (health_run (serving_with (new_host "op")) failed_daemon) as Hf
    by (etransitivity; [exact failing_run|exact failed_run]).
  assert (health_run (serving_with (new_host "op")) closed_daemon) as Hc
    by (etransitivity; [exact Hf|exact closed_run]).
  split_and!.
  - refine (proj1 (proj1 (background_fails_closed _ _ failing_run) _) failed_daemon failed_run eq_refl eq_refl).
    by split.
  - exact (proj1 (proj2 (proj2 (background_fails_closed _ _ Hf))) eq_refl closed_daemon true closed_run).
  - intros s' Hs.
    destruct (background_fails_closed _ _ Hc) as (_ & _ & _ & _ & Hk).
    destruct (Hk eq_refl) as (_ & _ & _ & Hz). exact (proj1 (Hz s' Hs)).
Defined.
