(* ===== verification/Opening.v ===== *)
(** * Opening: store.go, config.go and the migration runner of migrations.go

    [Open]: the configuration, the connection string, the checks on the
    pragmas of the live connection, and the migrations.  The driver is a record
    of what its calls return; a database file is known here by its
    [user_version] and the DDL scripts that ran on it, each migration being one
    transaction whose every statement can fail (the tables and triggers the
    scripts create are the subject of Db.v).  The operating system and the
    paths are those of PathPolicy.v and Filepath.v. *)

From stdpp Require Import pretty.
From S2P Require Import Prelude.
From S2P Require Import Filepath.
From S2P Require Import PathPolicy.
From S2P Require Import AoClient.

Definition DefaultBusyTimeoutMs : Z := 5000.
Definition MinBusyTimeoutMs : Z := 1.
Definition MaxBusyTimeoutMs : Z := 60000.
Definition CurrentSchemaVersion : Z := 5.

Inductive open_error : Type :=
| ConfigError | ConnectorError | PingError | PragmaQueryError | PragmaMismatch (pragma : string)
| VersionReadError | ErrUnsupportedSchemaVersion | MigrationError (version : Z).

(** ** Configuration *)

Record Config := mkConfig { DBPath : string; BusyTimeoutMs : Z }.

(** [filepath.Dir]: the path up to and including its last separator, cleaned. *)
Fixpoint through_last_slash (p : string) : string :=
  match p with
  | EmptyString => EmptyString
  | String a t =>
      match through_last_slash t with
      | EmptyString => if (a =? "/")%char then String a EmptyString else EmptyString
      | d => String a d
      end
  end.
Definition Dir (p : string) : string := Clean (through_last_slash p).

(** [Config.Validate]; it writes the absolute path and the default back. *)
Definition Validate (os : OS) (c : Config) : option Config :=
  if DBPath c == "" then None
  else match Abs os (Clean (DBPath c)) with
       | None => None
       | Some absPath =>
           match Stat os (Dir absPath) with
           | Some true =>
               if (BusyTimeoutMs c =? 0)%Z then Some (mkConfig absPath DefaultBusyTimeoutMs)
               else if (BusyTimeoutMs c <? MinBusyTimeoutMs)%Z || (MaxBusyTimeoutMs <? BusyTimeoutMs c)%Z
                 then None
               else Some (mkConfig absPath (BusyTimeoutMs c))
           | _ => None
           end
       end.

(** [url.Values.Encode]: keys in order, keys and values escaped. *)
Fixpoint encode_values (l : list (string * string)) : string :=
  match l with
  | [] => ""
  | [(k, v)] => QueryEscape k ++ "=" ++ QueryEscape v
  | (k, v) :: rest => QueryEscape k ++ "=" ++ QueryEscape v ++ "&" ++ encode_values rest
  end%string.
(** [Config.DSN] *)
Definition DSN (c : Config) : string :=
  ("file:" ++ DBPath c ++ "?" ++
   encode_values [("_busy_timeout", pretty (BusyTimeoutMs c)); ("_foreign_keys", "ON");
                  ("_journal_mode", "WAL"); ("_synchronous", "FULL"); ("_txlock", "immediate")])%string.

Example sample_dsn :
  DSN (mkConfig "/var/supervisor.db" 5000) =
  "file:/var/supervisor.db?_busy_timeout=5000&_foreign_keys=ON&_journal_mode=WAL&_synchronous=FULL&_txlock=immediate"%string.
Proof. vm_compute. reflexivity. Qed.
Example sample_dirs : map Dir ["/a/b.db"; "/b.db"; "b.db"; "/a//b/"]%string = ["/a"; "/"; "."; "/a/b"]%string.
Proof. reflexivity. Qed.

(** ** Migrations *)

Inductive commit_outcome : Type := Committed | CommitFailed | CommitLost.
(** What the calls of one migration transaction return: [BeginTx], the DDL, the
    pragma, [Commit] ([CommitLost]: reported failed though it took effect). *)
Record tx_outcome := mktx_outcome { tx_begin : bool; tx_ddl : bool; tx_pragma : bool; tx_commit : commit_outcome }.
Definition all_well : tx_outcome := mktx_outcome true true true Committed.

Record database := mkdatabase { user_version : Z; applied : list Z }.

(** One [if userVersion < version] block: the DDL and the new [user_version]
    commit together or not at all. *)
Definition apply_migration (version : Z) (o : tx_outcome) (d : database) : option open_error * database :=
  if negb (tx_begin o) then (Some (MigrationError version), d)
  else if negb (tx_ddl o) then (Some (MigrationError version), d)
  else if negb (tx_pragma o) then (Some (MigrationError version), d)
  else
    let d' := mkdatabase version (applied d ++ [version]) in
    match tx_commit o with
    | Committed => (None, d')
    | CommitFailed => (Some (MigrationError version), d)
    | CommitLost => (Some (MigrationError version), d')
    end.

(** The blocks in order, from the local variable [userVersion]. *)
Fixpoint migrate_from (versions : list Z) (outcomes : Z -> tx_outcome) (userVersion : Z) (d : database)
    : option open_error * database :=
  match versions with
  | [] => (None, d)
  | v :: rest =>
      if (userVersion <? v)%Z then
        match apply_migration v (outcomes v) d with
        | (Some e, d) => (Some e, d)
        | (None, d) => migrate_from rest outcomes v d
        end
      else migrate_from rest outcomes userVersion d
  end.

(** [migrateWithSchemas], with [n] scripts beyond the third. *)
Definition migrateWithSchemas (n : nat) (read : bool) (outcomes : Z -> tx_outcome) (d : database)
    : option open_error * database :=
  if negb read then (Some VersionReadError, d)
  else if (CurrentSchemaVersion <? user_version d)%Z then (Some ErrUnsupportedSchemaVersion, d)
  else if (user_version d =? CurrentSchemaVersion)%Z then (None, d)
  else migrate_from (take (3 + n) [1; 2; 3; 4; 5]%Z) outcomes (user_version d) d.
Definition migrate : bool -> (Z -> tx_outcome) -> database -> option open_error * database :=
  migrateWithSchemas 2.

(** ** Open *)

Record driver := mkdriver {
  dr_connector : bool; dr_ping : bool;
  dr_journal_mode : option string; dr_synchronous : option Z; dr_foreign_keys : option Z;
  dr_busy_timeout : option Z;
  dr_read : bool; dr_tx : Z -> tx_outcome }.

Record EffectivePragmas := mkEffectivePragmas {
  JournalMode : string; Synchronous : Z; ForeignKeys : bool; BusyTimeout : Z; UserVersion : Z }.
Definition queryEffectivePragmas (dr : driver) (d : database) : option EffectivePragmas :=
  match dr_journal_mode dr, dr_synchronous dr, dr_foreign_keys dr, dr_busy_timeout dr, dr_read dr with
  | Some jm, Some sync, Some fk, Some bt, true =>
      Some (mkEffectivePragmas jm sync (fk =? 1)%Z bt (user_version d))
  | _, _, _, _, _ => None
  end.

(** [Open]: the configuration of the store, or an error with the connection
    closed; and the database. *)
Definition Open (os : OS) (dr : driver) (cfg : Config) (d : database) : (open_error + Config) * database :=
  match Validate os cfg with
  | None => (inl ConfigError, d)
  | Some cfg =>
      if negb (dr_connector dr) then (inl ConnectorError, d)
      else if negb (dr_ping dr) then (inl PingError, d)
      else
        match queryEffectivePragmas dr d with
        | None => (inl PragmaQueryError, d)
        | Some p =>
            if ToLower (JournalMode p) != "wal" then (inl (PragmaMismatch "journal_mode"), d)
            else if negb (Synchronous p =? 2)%Z then (inl (PragmaMismatch "synchronous"), d)
            else if negb (ForeignKeys p) then (inl (PragmaMismatch "foreign_keys"), d)
            else if negb (BusyTimeout p =? BusyTimeoutMs cfg)%Z then (inl (PragmaMismatch "busy_timeout"), d)
            else
              match migrate (dr_read dr) (dr_tx dr) d with
              | (Some e, d) => (inl e, d)
              | (None, d) => (inr cfg, d)
              end
        end
  end.

(** ** Migrations run once and in order *)

(** The scripts that ran are those of the versions up to [user_version]. *)
Definition migrated (d : database) : Prop :=
  exists n : nat, (n <= 5)%nat /\ user_version d = Z.of_nat n /\ applied d = take n [1; 2; 3; 4; 5]%Z.

Lemma apply_migration_migrated n o d :
  (n < 5)%nat -> user_version d = Z.of_nat n -> applied d = take n [1; 2; 3; 4; 5]%Z ->
  let '(r, d') := apply_migration (Z.of_nat (S n)) o d in
  (r = None -> user_version d' = Z.of_nat (S n) /\ applied d' = take (S n) [1; 2; 3; 4; 5]%Z) /\
  (d' = d \/ (user_version d' = Z.of_nat (S n) /\ applied d' = take (S n) [1; 2; 3; 4; 5]%Z)).
Proof.
  intros Hn Hv Ha. unfold apply_migration.
  assert (applied d ++ [Z.of_nat (S n)] = take (S n) [1; 2; 3; 4; 5]%Z) as E.
  { rewrite Ha. do 5 (destruct n as [|n]; [reflexivity|]). lia. }
  destruct (tx_begin o), (tx_ddl o), (tx_pragma o); cbn [negb]; try (by split; [|left]).
  destruct (tx_commit o); cbn; rewrite ?E; (split; [done|]); solve [by left|by right].
Qed.

Lemma migrate_from_migrated outcomes : forall k n d,
  (n + k = 5)%nat -> user_version d = Z.of_nat n -> applied d = take n [1; 2; 3; 4; 5]%Z ->
  let '(r, d') := migrate_from (drop n [1; 2; 3; 4; 5]%Z) outcomes (Z.of_nat n) d in
  migrated d' /\ (user_version d <= user_version d')%Z /\ (r = None -> user_version d' = 5%Z).
Proof.
  induction k as [|k IH]; intros n d Hk Hv Ha.
  - replace n with 5%nat in * by lia. cbn. split_and!; [by exists 5%nat|lia|done].
  - assert (drop n [1; 2; 3; 4; 5]%Z = Z.of_nat (S n) :: drop (S n) [1; 2; 3; 4; 5]%Z) as ->.
    { do 5 (destruct n as [|n]; [reflexivity|]). lia. }
    cbn [migrate_from]. rewrite (proj2 (Z.ltb_lt _ _)) by lia.
    pose proof (apply_migration_migrated n (outcomes (Z.of_nat (S n))) d ltac:(lia) Hv Ha) as H.
    destruct (apply_migration _ _ d) as [[e|] d1]; destruct H as [H1 H2].
    + assert (migrated d) as Hd by (exists n; split_and!; [lia|done..]).
      destruct H2 as [->|[Hv1 Ha1]]; [by split_and!; [|lia|]|].
      split_and!; [exists (S n); split_and!; [lia|done..]|lia|done].
    + destruct (H1 eq_refl) as [Hv1 Ha1]. specialize (IH (S n) d1 ltac:(lia) Hv1 Ha1).
      destruct (migrate_from _ _ _ d1) as [r d2]. destruct IH as (I1 & I2 & I3).
      split_and!; [done|lia|done].
Qed.

Lemma migrate_from_skip outcomes n d :
  (n <= 5)%nat ->
  migrate_from [1; 2; 3; 4; 5]%Z outcomes (Z.of_nat n) d =
  migrate_from (drop n [1; 2; 3; 4; 5]%Z) outcomes (Z.of_nat n) d.
Proof. intros Hn. do 6 (destruct n as [|n]; [reflexivity|]). lia. Qed.

Lemma migrate_migrated read outcomes d :
  migrated d ->
  let '(r, d') := migrate read outcomes d in
  migrated d' /\ (user_version d <= user_version d')%Z /\ (r = None -> user_version d' = 5%Z).
Proof.
  intros Hd. pose proof Hd as (n & Hn & Hv & Ha). unfold migrate, migrateWithSchemas, CurrentSchemaVersion.
  destruct read; cbn [negb]; [|by split_and!].
  destruct (5 <? user_version d)%Z eqn:E1; [by split_and!|].
  destruct (user_version d =? 5)%Z eqn:E2; [apply Z.eqb_eq in E2; by split_and!|].
  assert (migrate_from (take (3 + 2) [1; 2; 3; 4; 5]%Z) outcomes (user_version d) d =
          migrate_from (drop n [1; 2; 3; 4; 5]%Z) outcomes (Z.of_nat n) d) as ->
    by (rewrite Hv; by apply migrate_from_skip).
  pose proof (migrate_from_migrated outcomes (5 - n) n d ltac:(lia) Hv Ha) as H.
  exact H.
Qed.

Lemma migrate_from_well : forall versions v d, fst (migrate_from versions (fun _ => all_well) v d) = None.
Proof.
  induction versions as [|w rest IH]; intros v d; cbn; [done|]. case_match; [|apply IH]. cbn. apply IH.
Qed.

(** A database opened by any number of processes one after the other, each with
    its own driver, failures and crashes included. *)
Inductive opened_by (os : OS) : database -> database -> Prop :=
| opened_never d : opened_by os d d
| opened_then dr cfg d d' : opened_by os d d' -> opened_by os d (snd (Open os dr cfg d')).

Lemma Open_migrates os dr cfg d :
  (exists cfg' p, Validate os cfg = Some cfg' /\ queryEffectivePragmas dr d = Some p /\
     ToLower (JournalMode p) = "wal"%string /\ Synchronous p = 2%Z /\ ForeignKeys p = true /\
     BusyTimeout p = BusyTimeoutMs cfg' /\
     Open os dr cfg d = match migrate (dr_read dr) (dr_tx dr) d with
                        | (Some e, d) => (inl e, d) | (None, d) => (inr cfg', d) end) \/
  (exists e, Open os dr cfg d = (inl e, d)).
Proof.
  unfold Open. destruct (Validate os cfg) as [cfg'|]; [|right; by eexists].
  destruct (dr_connector dr); cbn [negb]; [|right; by eexists].
  destruct (dr_ping dr); cbn [negb]; [|right; by eexists].
  destruct (queryEffectivePragmas dr d) as [p|]; [|right; by eexists].
  destruct (ToLower (JournalMode p) == "wal") eqn:E1; cbn [negb]; [|right; by eexists].
  destruct (Synchronous p =? 2)%Z eqn:E2; cbn [negb]; [|right; by eexists].
  destruct (ForeignKeys p) eqn:E3; cbn [negb]; [|right; by eexists].
  destruct (BusyTimeout p =? BusyTimeoutMs cfg')%Z eqn:E4; cbn [negb]; [|right; by eexists].
  left. exists cfg', p. apply eqb_eq in E1. apply Z.eqb_eq in E2, E4. by split_and!.
Qed.

Lemma Open_migrated os dr cfg d :
  migrated d ->
  migrated (snd (Open os dr cfg d)) /\ (user_version d <= user_version (snd (Open os dr cfg d)))%Z /\
  (forall s, fst (Open os dr cfg d) = inr s -> user_version (snd (Open os dr cfg d)) = 5%Z).
Proof.
  intros Hd. destruct (Open_migrates os dr cfg d) as [(cfg' & p & _ & _ & _ & _ & _ & _ & ->)|[e ->]];
    [|by split_and!].
  pose proof (migrate_migrated (dr_read dr) (dr_tx dr) d Hd) as H.
  destruct (migrate _ _ d) as [[e|] d']; destruct H as (H1 & H2 & H3); cbn; split_and!; try done.
  intros _ _. by apply H3.
Qed.

Lemma Validate_ok os cfg cfg' :
  Validate os cfg = Some cfg' ->
  Abs os (Clean (DBPath cfg)) = Some (DBPath cfg') /\ Stat os (Dir (DBPath cfg')) = Some true /\
  (1 <= BusyTimeoutMs cfg' <= 60000)%Z.
Proof.
  unfold Validate, DefaultBusyTimeoutMs, MinBusyTimeoutMs, MaxBusyTimeoutMs.
  destruct (DBPath cfg == ""); [done|]. destruct (Abs os _) as [a|] eqn:Ea; [|done].
  destruct (Stat os (Dir a)) as [[]|] eqn:Es; [|done..].
  destruct (BusyTimeoutMs cfg =? 0)%Z; [intros [= <-]; by split_and!|].
  destruct (_ || _) eqn:E; [done|]. intros [= <-]. breflect. cbn. by split_and!.
Qed.

(** C26: However often a database is opened, whichever statement of whichever
    migration fails, and whether or not a failed commit took effect, the
    scripts that ran on it are those of the versions up to its user_version,
    each once and in order.  A store is returned only on the current version,
    with write-ahead logging, FULL synchronisation, foreign keys and the
    configured busy timeout (between 1 and 60000 ms) in effect on the live
    connection, for an absolute path in an existing directory; an open after
    that changes nothing. *)
Theorem migrations_run_once (os : OS) (d : database) :
  opened_by os (mkdatabase 0 []) d ->
  (exists n : nat, user_version d = Z.of_nat n /\ applied d = take n [1; 2; 3; 4; 5]%Z) /\
  (forall dr cfg s d', Open os dr cfg d = (inr s, d') ->
     applied d' = [1; 2; 3; 4; 5]%Z /\ user_version d' = CurrentSchemaVersion /\
     Abs os (Clean (DBPath cfg)) = Some (DBPath s) /\ Stat os (Dir (DBPath s)) = Some true /\
     (1 <= BusyTimeoutMs s <= 60000)%Z /\
     (exists p, queryEffectivePragmas dr d = Some p /\ ToLower (JournalMode p) = "wal"%string /\
        Synchronous p = 2%Z /\ ForeignKeys p = true /\ BusyTimeout p = BusyTimeoutMs s) /\
     (forall dr' cfg', snd (Open os dr' cfg' d') = d')).
Proof.
  intros Ho. assert (migrated d) as Hd.
  { remember (mkdatabase 0 []) as d0 eqn:E0. induction Ho as [d0|dr cfg d0 d1 _ IH].
    - exists 0%nat. subst. by split_and!; [lia|..].
    - by apply Open_migrated, IH. }
  split; [destruct Hd as (n & _ & Hn); by exists n|]. intros dr cfg s d' HO.
  destruct (Open_migrated os dr cfg d Hd) as (Hm & _ & Hv). rewrite HO in Hm, Hv. cbn in Hm, Hv.
  specialize (Hv s eq_refl). pose proof Hm as (n & Hn & Hn' & Ha).
  replace n with 5%nat in Ha by lia.
  destruct (Open_migrates os dr cfg d) as [(cfg' & p & HV & Hp & H1 & H2 & H3 & H4 & HE)|[e HE]];
    [|rewrite HE in HO; discriminate].
  assert (s = cfg') as ->.
  { rewrite HE in HO. destruct (migrate _ _ d) as [[e|] d1]; [discriminate|]. by injection HO. }
  destruct (Validate_ok _ _ _ HV) as (V1 & V2 & V3).
  split_and!; try done; try lia; [by exists p|].
  intros dr' cfg2. destruct (Open_migrates os dr' cfg2 d') as [(c & q & _ & _ & _ & _ & _ & _ & ->)|[e ->]];
    [|done].
  unfold migrate, migrateWithSchemas. rewrite Hv. by destruct (dr_read dr').
Qed.

(** A driver where everything works, and one whose third migration fails after
    it took effect. *)
Definition sample_driver (tx : Z -> tx_outcome) : driver :=
  {| dr_connector := true; dr_ping := true; dr_journal_mode := Some "WAL"%string; dr_synchronous := Some 2%Z;
     dr_foreign_keys := Some 1%Z; dr_busy_timeout := Some 5000%Z; dr_read := true; dr_tx := tx |}.
Definition good_driver : driver := sample_driver (fun _ => all_well).
Definition lossy_driver : driver :=
  sample_driver (fun v => if (v =? 3)%Z then mktx_outcome true true true CommitLost else all_well).
Definition sample_config : Config := mkConfig "/w/supervisor.db" 0.
Definition half_open : database := snd (Open sample_os lossy_driver sample_config (mkdatabase 0 [])).

Lemma migrations_run_once_witness :
  half_open = mkdatabase 3 [1; 2; 3]%Z /\
  Open sample_os good_driver sample_config half_open =
    (inr (mkConfig "/w/supervisor.db" 5000), mkdatabase 5 [1; 2; 3; 4; 5]%Z) /\
  applied (mkdatabase 5 [1; 2; 3; 4; 5]%Z) = [1; 2; 3; 4; 5]%Z.
Proof.
  assert (Open sample_os good_driver sample_config half_open =
    (inr (mkConfig "/w/supervisor.db" 5000), mkdatabase 5 [1; 2; 3; 4; 5]%Z)) as H
    by (vm_compute; reflexivity).
  split; [vm_compute; reflexivity|]. split; [exact H|].
  exact (proj1 (proj2 (migrations_run_once sample_os half_open
    (opened_then _ lossy_driver sample_config _ _ (opened_never _ _))) _ _ _ _ H)).
Defined.
