(* ===== verification/PinnedDatabase.v ===== *)
(** * PinnedDatabase: internal/host/db_handle_windows.go

    The handle the host holds on its database file.  The Windows kernel is a
    class of operations over a state of its own, with the laws the code relies
    on: which handles are open changes only by a successful CreateFile, whose
    handle is a valid one, and by CloseHandle.  Every function is the whole Go function, each of its error
    returns included. *)

From S2P Require Import Prelude.

Record FILE_ID_INFO := mkFILE_ID_INFO { VolumeSerialNumber : Z; FileId : list Z }.
#[export] Instance FILE_ID_INFO_eq_dec : EqDecision FILE_ID_INFO.
Proof. solve_decision. Defined.

Inductive access : Type := GENERIC_READ | GENERIC_READ_WRITE.
(** Read and write are always shared here; [SHARE_DELETE] says whether deletion is. *)
Inductive share_mode : Type := SHARE_READ_WRITE | SHARE_READ_WRITE_DELETE.
Inductive disposition : Type := OPEN_EXISTING | CREATE_NEW | OPEN_DIRECTORY.

Class Kernel := {
  kernel : Type;
  (** [UTF16PtrFromString] accepts the path (it holds no NUL) *)
  utf16_ok : string -> bool;
  CreateFile : string -> access -> share_mode -> disposition -> kernel -> option nat * kernel;
  CloseHandle : nat -> kernel -> kernel;
  os_Remove : string -> kernel -> kernel;
  (** [GetFinalPathNameByHandleW]: the length it reports and the buffer *)
  GetFinalPathName : nat -> Z -> kernel -> Z * string;
  GetFileInformationByHandleEx : nat -> kernel -> option FILE_ID_INFO;
  NumberOfLinks : nat -> kernel -> option Z;
  (** [filepath.Join] of two elements, with the separators of Windows *)
  filepath_Join : string -> string -> string;
  (** the handles of this process *)
  open_handles : kernel -> list nat }.

(** [windows.InvalidHandle]; no call that succeeds returns it, or 0. *)
Definition InvalidHandle : Z := 2 ^ 64 - 1.
Definition valid_handle (h : nat) : bool := negb (Z.of_nat h =? InvalidHandle)%Z && negb (h =? 0)%nat.

Class KernelLaws (W : Kernel) : Prop := {
  create_opens p a s c k h k' : CreateFile p a s c k = (Some h, k') ->
    open_handles k' = h :: open_handles k /\ ~ In h (open_handles k) /\ valid_handle h = true;
  create_fails p a s c k k' : CreateFile p a s c k = (None, k') -> open_handles k' = open_handles k;
  close_closes h k : open_handles (CloseHandle h k) = List.filter (fun x => negb (x =? h)%nat) (open_handles k);
  remove_keeps p k : open_handles (os_Remove p k) = open_handles k }.

Inductive pin_error : Type :=
| InvalidUTF16 | OpenFailed | ErrHardlinkUnsupported | InformationFailed | CanonicalPathFailed
| ErrInvalidPath | FileIdFailed | ErrIdentityMismatch.

Record PinnedDB := mkPinnedDB {
  Handle : nat; CanonicalDBPath : string; StoreDBPath : string; PreIDInfo : FILE_ID_INFO;
  ParentVolume : Z; IsNew : bool; closed : bool }.

Record NewDBPrep := mkNewDBPrep {
  np_CanonicalDBPath : string; np_StoreDBPath : string; np_ParentVolume : Z }.

Section Database.
Context {W : Kernel}.

(** [GetFinalCanonicalPath], with its second call on a larger buffer. *)
Definition GetFinalCanonicalPath (h : nat) (k : kernel) : option string :=
  let '(r0, buf) := GetFinalPathName h 1024 k in
  if (r0 =? 0)%Z then None
  else if (1024 <? r0)%Z then
    let '(r1, buf) := GetFinalPathName h r0 k in
    if (r1 =? 0)%Z || (r0 <? r1)%Z then None else Some (String.substring 0 (Z.to_nat r1) buf)
  else Some (String.substring 0 (Z.to_nat r0) buf).

Definition drive_letter (a : ascii) : bool :=
  let n := byte_of a in ((65 <=? n) && (n <=? 90))%N || ((97 <=? n) && (n <=? 122))%N.

(** [ConvertWin32PathToStorePath] *)
Definition ConvertWin32PathToStorePath (win32Path : string) : option string :=
  if negb (HasPrefix win32Path "\\?\") then None
  else
    let stripped := String.substring 4 (String.length win32Path - 4) win32Path in
    match stripped with
    | String a (String b (String c _)) =>
        if negb (b =? ":")%char || negb ((c =? "\")%char || (c =? "/")%char) then None
        else if negb (drive_letter a) then None
        else Some stripped
    | _ => None
    end.

(** [CheckHardlinks] *)
Definition CheckHardlinks (h : nat) (k : kernel) : option pin_error :=
  match NumberOfLinks h k with
  | None => Some InformationFailed
  | Some n => if (1 <? n)%Z then Some ErrHardlinkUnsupported else None
  end.

(** [PrepareExistingDB] *)
Definition PrepareExistingDB (rawPath : string) (k : kernel) : (pin_error + PinnedDB) * kernel :=
  if negb (utf16_ok rawPath) then (inl InvalidUTF16, k)
  else match CreateFile rawPath GENERIC_READ SHARE_READ_WRITE OPEN_EXISTING k with
       | (None, k) => (inl OpenFailed, k)
       | (Some h, k) =>
           match CheckHardlinks h k with
           | Some e => (inl e, CloseHandle h k)
           | None =>
               match GetFinalCanonicalPath h k with
               | None => (inl CanonicalPathFailed, CloseHandle h k)
               | Some canonPath =>
                   match ConvertWin32PathToStorePath canonPath with
                   | None => (inl ErrInvalidPath, CloseHandle h k)
                   | Some storePath =>
                       match GetFileInformationByHandleEx h k with
                       | None => (inl FileIdFailed, CloseHandle h k)
                       | Some idInfo =>
                           (inr (mkPinnedDB h canonPath storePath idInfo 0 false false), k)
                       end
                   end
               end
           end
       end.

(** [ResolveNewDBPaths], after [filepath.Abs]; its deferred CloseHandle runs on
    every return. *)
Definition ResolveNewDBPaths (absParent fileName : string) (k : kernel) : (pin_error + NewDBPrep) * kernel :=
  if negb (utf16_ok absParent) then (inl InvalidUTF16, k)
  else match CreateFile absParent GENERIC_READ SHARE_READ_WRITE_DELETE OPEN_DIRECTORY k with
       | (None, k) => (inl OpenFailed, k)
       | (Some hParent, k) =>
           (match GetFinalCanonicalPath hParent k with
            | None => inl CanonicalPathFailed
            | Some parentCanon =>
                match GetFileInformationByHandleEx hParent k with
                | None => inl FileIdFailed
                | Some parentID =>
                    match ConvertWin32PathToStorePath parentCanon with
                    | None => inl ErrInvalidPath
                    | Some parentStore =>
                        inr (mkNewDBPrep (filepath_Join parentCanon fileName) (filepath_Join parentStore fileName)
                               (VolumeSerialNumber parentID))
                    end
                end
            end, CloseHandle hParent k)
       end.

(** [CreateAndPinDB] *)
Definition CreateAndPinDB (p : NewDBPrep) (k : kernel) : (pin_error + PinnedDB) * kernel :=
  let abandon e h k := (inl e, os_Remove (np_StoreDBPath p) (CloseHandle h k)) in
  if negb (utf16_ok (np_CanonicalDBPath p)) then (inl InvalidUTF16, k)
  else match CreateFile (np_CanonicalDBPath p) GENERIC_READ_WRITE SHARE_READ_WRITE CREATE_NEW k with
       | (None, k) => (inl OpenFailed, k)
       | (Some h, k) =>
           match CheckHardlinks h k with
           | Some e => abandon e h k
           | None =>
               match GetFileInformationByHandleEx h k with
               | None => abandon FileIdFailed h k
               | Some idInfo =>
                   if negb (np_ParentVolume p =? 0)%Z
                      && negb (VolumeSerialNumber idInfo =? np_ParentVolume p)%Z
                   then abandon ErrIdentityMismatch h k
                   else (inr (mkPinnedDB h (np_CanonicalDBPath p) (np_StoreDBPath p) idInfo
                                (np_ParentVolume p) true false), k)
               end
           end
       end.

(** [PrepareNewDB] *)
Definition PrepareNewDB (absParent fileName : string) (k : kernel) : (pin_error + PinnedDB) * kernel :=
  match ResolveNewDBPaths absParent fileName k with
  | (inl e, k) => (inl e, k)
  | (inr prep, k) => CreateAndPinDB prep k
  end.

(** [VerifyPostOpenIdentity] *)
Definition VerifyPostOpenIdentity (p : PinnedDB) (k : kernel) : option pin_error * kernel :=
  if negb (utf16_ok (StoreDBPath p)) then (Some InvalidUTF16, k)
  else match CreateFile (StoreDBPath p) GENERIC_READ SHARE_READ_WRITE_DELETE OPEN_EXISTING k with
       | (None, k) => (Some OpenFailed, k)
       | (Some hCheck, k) =>
           (match GetFileInformationByHandleEx hCheck k with
            | None => Some FileIdFailed
            | Some postInfo =>
                if negb (VolumeSerialNumber postInfo =? VolumeSerialNumber (PreIDInfo p))%Z
                   || (FileId postInfo != FileId (PreIDInfo p))
                then Some ErrIdentityMismatch
                else if IsNew p && negb (ParentVolume p =? 0)%Z
                        && negb (VolumeSerialNumber postInfo =? ParentVolume p)%Z
                then Some ErrIdentityMismatch
                else None
            end, CloseHandle hCheck k)
       end.

(** [PinnedDB.Close] *)
Definition PinnedDB_Close (p : PinnedDB) (k : kernel) : PinnedDB * kernel :=
  if closed p then (p, k)
  else (mkPinnedDB (Handle p) (CanonicalDBPath p) (StoreDBPath p) (PreIDInfo p) (ParentVolume p) (IsNew p) true,
        if valid_handle (Handle p) then CloseHandle (Handle p) k else k).

(** ** No handle is lost *)
Context {KL : KernelLaws W}.

Lemma filter_fresh (h : nat) l : ~ In h l -> List.filter (fun x => negb (x =? h)%nat) l = l.
Proof.
  induction l as [|x l IH]; cbn; [done|]. intros Hn.
  destruct (x =? h)%nat eqn:E; cbn; [apply Nat.eqb_eq in E; tauto|]. rewrite IH by tauto. done.
Qed.

(** Opening and closing a handle leaves the others. *)
Lemma open_close p a s c k h k' :
  CreateFile p a s c k = (Some h, k') -> open_handles (CloseHandle h k') = open_handles k.
Proof.
  intros (E & Hn & _)%create_opens. rewrite close_closes, E. cbn. rewrite Nat.eqb_refl. by apply filter_fresh.
Qed.

(** The open handles after a call: as before, or one more, that of the result. *)
Definition accounted (k : kernel) (r : (pin_error + PinnedDB) * kernel) : Prop :=
  match r with
  | (inl _, k') => open_handles k' = open_handles k
  | (inr p, k') => open_handles k' = Handle p :: open_handles k /\ ~ In (Handle p) (open_handles k) /\
                   valid_handle (Handle p) = true /\
                   (exists n, NumberOfLinks (Handle p) k' = Some n /\ (n <= 1)%Z) /\
                   GetFileInformationByHandleEx (Handle p) k' = Some (PreIDInfo p) /\ closed p = false
  end.

Lemma no_hardlinks h k : CheckHardlinks h k = None -> exists n, NumberOfLinks h k = Some n /\ (n <= 1)%Z.
Proof.
  unfold CheckHardlinks. destruct (NumberOfLinks h k) as [n|]; [|done].
  destruct (1 <? n)%Z eqn:E; [done|]. breflect. by exists n.
Qed.

Lemma PrepareExistingDB_accounted rawPath k :
  accounted k (PrepareExistingDB rawPath k) /\
  (forall p, fst (PrepareExistingDB rawPath k) = inr p ->
     ConvertWin32PathToStorePath (CanonicalDBPath p) = Some (StoreDBPath p)).
Proof.
  unfold PrepareExistingDB. destruct (utf16_ok rawPath); [|by split]. cbn [negb].
  destruct (CreateFile _ _ _ _ k) as [[h|] k1] eqn:Ec; [|by split; [eapply create_fails|]].
  pose proof (open_close _ _ _ _ _ _ _ Ec) as Ho.
  destruct (CheckHardlinks h k1) eqn:El; [by split|].
  destruct (GetFinalCanonicalPath h k1) as [canon|]; [|by split].
  destruct (ConvertWin32PathToStorePath canon) as [sp|] eqn:Es; [|by split].
  destruct (GetFileInformationByHandleEx h k1) as [id|] eqn:Ei; [|by split].
  split; [|by intros p [= <-]]. apply create_opens in Ec as (E & Hn & Hv). cbn.
  split_and!; [done..|by apply no_hardlinks|done|done].
Qed.

Lemma ResolveNewDBPaths_accounted absParent fileName k :
  open_handles (snd (ResolveNewDBPaths absParent fileName k)) = open_handles k.
Proof.
  unfold ResolveNewDBPaths. destruct (utf16_ok absParent); [|done]. cbn [negb].
  destruct (CreateFile _ _ _ _ k) as [[h|] k1] eqn:Ec; [|by eapply create_fails].
  by apply (open_close _ _ _ _ _ _ _ Ec).
Qed.

Lemma CreateAndPinDB_accounted prep k :
  accounted k (CreateAndPinDB prep k) /\
  (forall p, fst (CreateAndPinDB prep k) = inr p ->
     np_ParentVolume prep <> 0%Z -> VolumeSerialNumber (PreIDInfo p) = np_ParentVolume prep).
Proof.
  unfold CreateAndPinDB. destruct (utf16_ok _); [|by split]. cbn [negb].
  destruct (CreateFile _ _ _ _ k) as [[h|] k1] eqn:Ec; [|by split; [eapply create_fails|]].
  assert (open_handles (os_Remove (np_StoreDBPath prep) (CloseHandle h k1)) = open_handles k) as Ho
    by (rewrite remove_keeps; by eapply open_close).
  destruct (CheckHardlinks h k1) eqn:El; [by split|].
  destruct (GetFileInformationByHandleEx h k1) as [id|] eqn:Ei; [|by split].
  destruct (_ && _) eqn:Ev; [by split|]. apply create_opens in Ec as (E & Hn & Hv). split.
  - cbn. split_and!; [done..|by apply no_hardlinks|done|done].
  - intros p [= <-] Hp. cbn. apply Z.eqb_neq in Hp. rewrite Hp in Ev. cbn in Ev. by breflect.
Qed.

Lemma VerifyPostOpenIdentity_accounted p k :
  open_handles (snd (VerifyPostOpenIdentity p k)) = open_handles k /\
  (fst (VerifyPostOpenIdentity p k) = None ->
   exists h k1, CreateFile (StoreDBPath p) GENERIC_READ SHARE_READ_WRITE_DELETE OPEN_EXISTING k = (Some h, k1) /\
     GetFileInformationByHandleEx h k1 = Some (PreIDInfo p)).
Proof.
  unfold VerifyPostOpenIdentity. destruct (utf16_ok _); [|by split]. cbn [negb].
  destruct (CreateFile _ _ _ _ k) as [[h|] k1] eqn:Ec; [|by split; [eapply create_fails|]].
  split; [by apply (open_close _ _ _ _ _ _ _ Ec)|]. cbn.
  destruct (GetFileInformationByHandleEx h k1) as [[v i]|] eqn:Ei; [|done].
  destruct (_ || _) eqn:Eq; [done|]. intros _. exists h, k1. split; [done|].
  rewrite Ei. cbn in Eq. breflect. destruct (PreIDInfo p) as [v' i']. cbn in *. by subst.
Qed.

(** C23: The host never loses a handle of its database and never pins the wrong
    file.  Preparing an existing or a new database either fails and leaves the
    open handles as they were, or adds exactly the pinned one, on a file with a
    single link whose identity is recorded; a new file is on the volume of its
    parent directory, an existing one has a local drive path.  Verification
    opens nothing that it leaves open and succeeds only if the store path, at
    that moment, leads to the file that is pinned; closing the pin gives the
    handle back, once. *)
Theorem database_handles_accounted (k : kernel) :
  (forall rawPath, accounted k (PrepareExistingDB rawPath k) /\
     (forall p, fst (PrepareExistingDB rawPath k) = inr p ->
        ConvertWin32PathToStorePath (CanonicalDBPath p) = Some (StoreDBPath p))) /\
  (forall absParent fileName, accounted k (PrepareNewDB absParent fileName k)) /\
  (forall prep p, fst (CreateAndPinDB prep k) = inr p -> np_ParentVolume prep <> 0%Z ->
     VolumeSerialNumber (PreIDInfo p) = np_ParentVolume prep) /\
  (forall p, open_handles (snd (VerifyPostOpenIdentity p k)) = open_handles k /\
     (fst (VerifyPostOpenIdentity p k) = None ->
      exists h k1,
        CreateFile (StoreDBPath p) GENERIC_READ SHARE_READ_WRITE_DELETE OPEN_EXISTING k = (Some h, k1) /\
        GetFileInformationByHandleEx h k1 = Some (PreIDInfo p))) /\
  (forall r p k', accounted k r -> r = (inr p, k') ->
     open_handles (snd (PinnedDB_Close p k')) = open_handles k /\
     PinnedDB_Close (fst (PinnedDB_Close p k')) (snd (PinnedDB_Close p k')) = PinnedDB_Close p k').
Proof.
  split_and!.
  - intros raw. apply (PrepareExistingDB_accounted raw k).
  - intros a f. unfold PrepareNewDB. pose proof (ResolveNewDBPaths_accounted a f k) as Hr.
    destruct (ResolveNewDBPaths a f k) as [[e|prep] k1]; cbn in Hr; [done|].
    destruct (CreateAndPinDB_accounted prep k1) as [H _]. unfold accounted in *. by rewrite <- Hr.
  - intros prep. apply (proj2 (CreateAndPinDB_accounted prep k)).
  - intros p. apply (VerifyPostOpenIdentity_accounted p k).
  - intros r p k' Ha ->. destruct Ha as (Ho & Hn & Hv & _ & _ & Hc). unfold PinnedDB_Close. rewrite Hc. cbn. rewrite Hv.
    split; [|done]. rewrite close_closes, Ho. cbn. rewrite Nat.eqb_refl. by apply filter_fresh.
Qed.
End Database.

(** ** A kernel with one file *)

Definition fresh_handle (l : list nat) : nat := S (list_max l).
#[export] Instance plain_kernel : Kernel := {
  kernel := list nat;
  utf16_ok _ := true;
  CreateFile p _ _ d k :=
    if (p == "C:\data\supervisor.db") && match d with OPEN_EXISTING => true | _ => false end
       && valid_handle (fresh_handle k)
    then (Some (fresh_handle k), fresh_handle k :: k) else (None, k);
  CloseHandle h k := List.filter (fun x => negb (x =? h)%nat) k;
  os_Remove _ k := k;
  GetFinalPathName _ n _ := (25%Z, "\\?\C:\data\supervisor.db"%string);
  GetFileInformationByHandleEx _ _ := Some (mkFILE_ID_INFO 7 [1; 2]%Z);
  NumberOfLinks _ _ := Some 1%Z;
  filepath_Join a b := (a ++ "\" ++ b)%string;
  open_handles k := k }.

Lemma fresh_handle_new l : ~ In (fresh_handle l) l.
Proof.
  intros Hin. pose proof (proj1 (list_max_le l (list_max l)) (Nat.le_refl _)) as H.
  rewrite List.Forall_forall in H. apply H in Hin. unfold fresh_handle in Hin. lia.
Qed.

#[export] Instance plain_kernel_laws : KernelLaws plain_kernel.
Proof.
  split; cbn; try done.
  - intros p a s c k h k'. destruct (_ && _) eqn:E; [|done]. intros [= <- <-].
    apply andb_true_iff in E as [_ E]. split_and!; [done|apply fresh_handle_new|done].
  - intros p a s c k k'. destruct (_ && _); [done|]. by intros [= <-].
Qed.

Lemma database_handles_accounted_witness :
  exists p k', @PrepareExistingDB plain_kernel "C:\data\supervisor.db" [3; 5] = (inr p, k') /\
    StoreDBPath p = "C:\data\supervisor.db"%string /\ open_handles k' = [6; 3; 5] /\
    ConvertWin32PathToStorePath (CanonicalDBPath p) = Some (StoreDBPath p).
Proof.
  eexists _, _. split; [vm_compute; reflexivity|]. split; [reflexivity|]. split; [reflexivity|].
  exact (proj2 (proj1 (@database_handles_accounted plain_kernel plain_kernel_laws [3; 5])
                  "C:\data\supervisor.db"%string) _ ltac:(vm_compute; reflexivity)).
Defined.
