(* ===== verification/OwnerLease.v ===== *)
(** * OwnerLease: internal/host/lease_windows.go

    The exclusive lock file of a database and the metadata file beside it, as
    several processes use them.  The lock file is opened with share mode 0, so
    the kernel grants it to one handle at a time and takes it back when the
    process ends, in whatever way; the metadata file is not locked, and every
    read, write and removal of it is a step of its own. *)

From stdpp Require Import relations.
From S2P Require Import Prelude.
From S2P Require Import GoLib.
From S2P Require Import PipeServer.

(** [DeriveSidecarPaths] *)
Definition DeriveSidecarPaths {L : GoLib} (canonicalDBPath : string) : string * string * string :=
  ((canonicalDBPath ++ ".owner.lock")%string, (canonicalDBPath ++ ".owner.json")%string,
   ("\\.\pipe\ai-supervisor-" ++ String.substring 0 16 (sha256_hex canonicalDBPath))%string).

(** What the metadata file holds: nothing, the metadata of an instance, or text
    that does not decode. *)
Inductive metadata : Type := NoFile | MetadataOf (instanceID : string) | Undecodable.
#[export] Instance metadata_eq_dec : EqDecision metadata.
Proof. solve_decision. Defined.

(** Where a process stands between [AcquireProcessOwnerLease] and its end. *)
Inductive phase : Type :=
| Starting
| Locked               (* CreateFile granted, metadata not written *)
| WriteFailed          (* writeMetadata failed, CloseHandle not called yet *)
| Owner                (* AcquireProcessOwnerLease returned the lease *)
| MetadataRead (own : bool) (* CleanMetadata has read the file: it is ours, or not *)
| Cleaned              (* CleanMetadata returned *)
| Ended.
#[export] Instance phase_eq_dec : EqDecision phase.
Proof. solve_decision. Defined.

Record lease_world := mklease_world {
  lw_lock : option nat; lw_metadata : metadata; lw_processes : list (string * phase) }.

(** The phases in which the process has the lock handle open. *)
Definition holds_lock (p : phase) : bool :=
  match p with Starting | Ended => false | _ => true end.
Definition unlock (i : nat) (lock : option nat) : option nat :=
  if decide (lock = Some i) then None else lock.

(** One step of process [i] with instance [id]: the lock, the metadata and its
    phase afterwards. *)
Inductive lease_step (i : nat) (id : string) (lock : option nat) (m : metadata) :
    phase -> option nat -> metadata -> phase -> Prop :=
| acquire_refused : lease_step i id lock m Starting lock m Ended
| acquire_lock : lock = None -> id <> ""%string -> lease_step i id lock m Starting (Some i) m Locked
| write_metadata : lease_step i id lock m Locked lock (MetadataOf id) Owner
| write_failed m' : m' = m \/ m' = Undecodable -> lease_step i id lock m Locked lock m' WriteFailed
| write_failed_close : lease_step i id lock m WriteFailed (unlock i lock) m Ended
| clean_read : lease_step i id lock m Owner lock m (MetadataRead (m == MetadataOf id))
| clean_unreadable : lease_step i id lock m Owner lock m Cleaned
| clean_remove : lease_step i id lock m (MetadataRead true) lock NoFile Cleaned
| clean_remove_failed : lease_step i id lock m (MetadataRead true) lock m Cleaned
| clean_keep : lease_step i id lock m (MetadataRead false) lock m Cleaned
| close_lock : lease_step i id lock m Cleaned (unlock i lock) m Ended
| crash p : lease_step i id lock m p (unlock i lock) m Ended.

Inductive lease_world_step : lease_world -> lease_world -> Prop :=
| lw_step i id p p' lock lock' m m' ps :
    ps !! i = Some (id, p) -> lease_step i id lock m p lock' m' p' ->
    lease_world_step (mklease_world lock m ps) (mklease_world lock' m' (<[i := (id, p')]> ps))
| lw_start id lock m ps :
    lease_world_step (mklease_world lock m ps) (mklease_world lock m (ps ++ [(id, Starting)])).
Definition lease_run : lease_world -> lease_world -> Prop := rtc lease_world_step.
(** A machine where no process has run yet, whatever an earlier one left. *)
Definition machine (left : metadata) : lease_world := mklease_world None left [].

Record lease_inv (w : lease_world) : Prop := {
  li_holder : forall i, lw_lock w = Some i -> i < length (lw_processes w);
  li_lock : forall i id p, lw_processes w !! i = Some (id, p) ->
    (holds_lock p = true <-> lw_lock w = Some i);
  li_owner : forall i id, lw_processes w !! i = Some (id, Owner) -> lw_metadata w = MetadataOf id;
  li_read : forall i id own, lw_processes w !! i = Some (id, MetadataRead own) ->
    own = true /\ lw_metadata w = MetadataOf id }.

Lemma unlock_self i : unlock i (Some i) = None.
Proof. unfold unlock. by rewrite decide_True. Qed.
Lemma unlock_other i lock : lock <> Some i -> unlock i lock = lock.
Proof. intros H. unfold unlock. by rewrite decide_False. Qed.

(** A process that does not hold the lock changes neither lock nor metadata,
    except to take the lock when it is free. *)
Lemma lease_step_frame i id lock m p lock' m' p' :
  lease_step i id lock m p lock' m' p' -> (holds_lock p = true <-> lock = Some i) ->
  (holds_lock p' = true <-> lock' = Some i) /\
  (lock <> Some i -> m' = m /\ (lock' = lock \/ (lock = None /\ lock' = Some i))) /\
  (lock = Some i -> lock' = Some i \/ lock' = None).
Proof.
  intros Hs Hp. destruct (decide (lock = Some i)) as [->|Hn].
  - assert (holds_lock p = true) as E by (by apply Hp).
    destruct Hs; cbn in E; try discriminate; rewrite ?unlock_self; cbn; split_and!; try done;
      solve [by left|by right].
  - assert (holds_lock p = false) as E by (destruct (holds_lock p); [by destruct (Hn (proj1 Hp eq_refl))|done]).
    destruct Hs; cbn in E; try discriminate; rewrite ?unlock_other by done; cbn; split_and!; try done;
      try (split; [done|by intros ?%Hn]); try (intros _; split; [done|]); solve [by left|by right].
Qed.

Lemma lease_step_inv w w' : lease_world_step w w' -> lease_inv w -> lease_inv w'.
Proof.
  intros Hs [I0 I1 I2 I3].
  destruct Hs as [i id p p' lock lock' m m' ps Hi Hs|id lock m ps]; cbn in *.
  - destruct (lease_step_frame _ _ _ _ _ _ _ _ Hs (I1 _ _ _ Hi)) as (F1 & F2 & F3).
    assert (forall j idj pj, j <> i -> ps !! j = Some (idj, pj) -> holds_lock pj = true ->
              lock = Some j /\ m' = m /\ lock' = lock) as Hother.
    { intros j idj pj Hne Hj Hh. apply (I1 _ _ _ Hj) in Hh. split; [done|].
      destruct F2 as [-> [->|[? _]]]; [congruence|done|congruence]. }
    split; cbn.
    + intros j El. rewrite length_insert. destruct (decide (lock = Some i)) as [->|Hn].
      * apply I0. destruct F3; congruence.
      * destruct F2 as [_ [->|[_ E]]]; [done|by apply I0|]. rewrite El in E. injection E as ->.
        by eapply lookup_lt_Some.
    + intros j idj pj [(<- & [= <- <-] & _)|[Hne Hj]]%list_lookup_insert_Some; [done|].
      destruct (holds_lock pj) eqn:Eh.
      * destruct (Hother j idj pj) as (-> & _ & ->); [done..|]. by rewrite <- (I1 _ _ _ Hj), Eh.
      * split; [done|]. intros El. exfalso. pose proof (I1 _ _ _ Hj) as Hj1. rewrite Eh in Hj1.
        destruct (decide (lock = Some i)) as [->|Hn]; [destruct F3; congruence|].
        destruct F2 as [_ [->|[_ ->]]]; [done|by apply Hj1 in El|congruence].
    + intros j idj [(<- & [= <- ->] & _)|[Hne Hj]]%list_lookup_insert_Some.
      * by inversion Hs.
      * destruct (Hother j idj Owner) as (_ & -> & _); [done..|]. by eapply I2.
    + intros j idj own [(<- & [= <- ->] & _)|[Hne Hj]]%list_lookup_insert_Some.
      * inversion Hs; subst. specialize (I2 _ _ Hi). rewrite I2, eqb_refl. done.
      * destruct (Hother j idj (MetadataRead own)) as (_ & -> & _); [done..|]. by eapply I3.
  - assert (forall j idj pj, (ps ++ [(id, Starting)]) !! j = Some (idj, pj) -> pj <> Starting ->
              ps !! j = Some (idj, pj)) as Hold.
    { intros j idj pj [Hj|[_ Hj]]%lookup_app_Some Hne; [done|].
      apply list_lookup_singleton_Some in Hj as [_ [= <- <-]]. done. }
    split; cbn.
    + intros j El. rewrite length_app. specialize (I0 _ El). cbn. lia.
    + intros j idj pj [Hj|[Hge Hj]]%lookup_app_Some; [by eapply I1|].
      apply list_lookup_singleton_Some in Hj as [E [= <- <-]]. split; [done|].
      intros El. specialize (I0 _ El). cbn in I0. lia.
    + intros j idj Hj. eapply I2, Hold; done.
    + intros j idj own Hj. eapply I3, Hold; done.
Qed.

Lemma machine_inv left : lease_inv (machine left).
Proof. by split. Qed.

Lemma lease_run_inv left w : lease_run (machine left) w -> lease_inv w.
Proof.
  intros Hr. cut (forall a, lease_run a w -> lease_inv a -> lease_inv w).
  { intros H. apply (H _ Hr), machine_inv. }
  clear Hr. induction 1 as [|w1 w2 w3 Hs _ IH]; [done|]. intros Hi. apply IH. by eapply lease_step_inv.
Qed.

(** C22: Whatever processes start, fail or crash, and whatever an earlier daemon
    left behind, at most one process is past CreateFile with the lock of a
    database; from the moment it has its lease until it cleans up, the metadata
    file names its own instance, so status and stop reach it and nobody else;
    and the file a clean-up removes is its own. *)
Theorem one_owner (left : metadata) (w : lease_world) :
  lease_run (machine left) w ->
  (forall i j a b p q, lw_processes w !! i = Some (a, p) -> lw_processes w !! j = Some (b, q) ->
     holds_lock p = true -> holds_lock q = true -> i = j) /\
  (forall i id, lw_processes w !! i = Some (id, Owner) -> lw_metadata w = MetadataOf id) /\
  (forall i id own, lw_processes w !! i = Some (id, MetadataRead own) ->
     own = true /\ lw_metadata w = MetadataOf id).
Proof.
  intros Hr. destruct (lease_run_inv _ _ Hr) as [_ I1 I2 I3]. split_and!; [|done|done].
  intros i j a b p q Hi Hj Hp Hq. apply (I1 _ _ _ Hi) in Hp. apply (I1 _ _ _ Hj) in Hq. congruence.
Qed.

Ltac lease_at i step := eapply rtc_l; [eapply (lw_step i); [reflexivity|now eapply step]|]; cbn.

(** A daemon that owns its database beside stale metadata, and a contender. *)
Definition owned_world : lease_world :=
  mklease_world (Some 0) (MetadataOf "a") [("a"%string, Owner); ("b"%string, Ended)].
Lemma owned_run : lease_run (machine (MetadataOf "old")) owned_world.
Proof.
  eapply rtc_l; [apply (lw_start "a")|]; cbn. eapply rtc_l; [apply (lw_start "b")|]; cbn.
  lease_at 0 acquire_lock. lease_at 1 acquire_refused. lease_at 0 write_metadata. apply rtc_refl.
Qed.

Lemma one_owner_witness : lw_metadata owned_world = MetadataOf "a".
Proof. exact (proj1 (proj2 (one_owner _ _ owned_run)) 0 "a"%string eq_refl). Defined.

(** ** Which pipe a command talks to *)

Record OwnerMetadata := mkOwnerMetadata {
  om_OwnerPID : Z; om_OwnerInstanceID : string; om_PipeName : string; om_CanonicalDBPath : string }.

Inductive cli_error : Type :=
| FlagsRejected | MissingDB | PathRejected | NoMetadata | Pipe (e : pipe_error) | Rejected.

(** The pipe named in the metadata when it decodes to one, the derived one
    otherwise. *)
Definition pipe_name (derived : string) (meta : option OwnerMetadata) : string :=
  match meta with
  | Some m => if om_PipeName m != "" then om_PipeName m else derived
  | None => derived
  end.

Section Commands.
Context {L : GoLib} (parse : bool) (db : string) (Abs : string -> option string)
  (ReadFile : string -> option string) (decode : string -> option OwnerMetadata)
  (call : string -> option PipeMessageResponse).

(** The part [stopDaemon] and [statusDaemon] share: the pipe of the database. *)
Definition find_pipe : cli_error + string :=
  if negb parse then inl FlagsRejected
  else if db == "" then inl MissingDB
  else match Abs db with
       | None => inl PathRejected
       | Some absDB =>
           let '(_, metaPath, pipeName) := DeriveSidecarPaths absDB in
           match ReadFile metaPath with
           | None => inl NoMetadata
           | Some data => inr (pipe_name pipeName (decode data))
           end
       end.
(** [stopDaemon] *)
Definition stopDaemon : cli_error + PipeMessageResponse :=
  match find_pipe with
  | inl e => inl e
  | inr pipe =>
      match RequestPipeTakeover (call pipe) with
      | inl e => inl (Pipe e)
      | inr resp => if pr_Status resp != "STOP_ACKNOWLEDGED" then inl Rejected else inr resp
      end
  end.
(** [statusDaemon] *)
Definition statusDaemon : cli_error + PipeMessageResponse :=
  match find_pipe with
  | inl e => inl e
  | inr pipe =>
      match RequestPipeStatus (call pipe) with
      | inl e => inl (Pipe e)
      | inr resp => inr resp
      end
  end.

(** A stop command reports success exactly when the daemon behind the pipe of
    the database's metadata acknowledged the takeover. *)
Lemma stopDaemon_spec resp :
  stopDaemon = inr resp <->
  exists pipe, find_pipe = inr pipe /\ call pipe = Some resp /\
               pr_Status resp = pipe_status_string STOP_ACKNOWLEDGED.
Proof.
  unfold stopDaemon. split.
  - destruct find_pipe as [e|pipe]; [done|].
    destruct (RequestPipeTakeover (call pipe)) as [e|r] eqn:Er; [done|].
    apply takeover_acknowledged in Er as [Ec Es]. destruct (_ != _); [done|]. intros [= <-].
    by exists pipe.
  - intros (pipe & -> & Hc & Hs). rewrite (proj2 (takeover_acknowledged _ resp) (conj Hc Hs)).
    by rewrite Hs, eqb_refl.
Qed.
End Commands.
